(* ===== verification/_CoqProject ===== *)
-Q . S2P
Prelude.v
Ipc.v
Deferred.v
Common.v
EnvVars.v
Paths.v
Settings.v
Fsutil.v
DevInfo.v
LvIdent.v
Flock.v
Claim.v
Hostname.v
Privilege.v
Reader.v
Exit.v
Instance.v
Setup.v
Session.v
Foreground.v
VmDisk.v
Agent.v
AgentSpec.v
AgentReport.v
CmdLine.v
AgentStart.v
Ctrl.v
Ipnet.v
NetPick.v
VmNetwork.v
ListFmt.v
Lsblk.v
Volumes.v
Darwin.v
Events.v
Rpcbind.v
PubSub.v
Effects.v
GuestInit.v
HostFiles.v
Fds.v
ConsoleLog.v
Logs.v
Stdin.v
Config.v
Stop.v
Api.v
MountCmd.v
KrunVm.v
VmCommand.v
VmImage.v
Commands.v
Dispatch.v
