(* ===== verification/Prelude.v ===== *)
(** * A verification library for anylinuxfs

    anylinuxfs mounts file systems of other systems by running a small VM
    (libkrun) with the disks attached and mounting what an NFS server in it
    exports.  The program is written in Rust: the host program
    ([anylinuxfs/src]), code it shares with the agent in the VM
    ([common-utils/src]) and the agent ([vmproxy/src]).

    ** The parts of the program and how they meet

    A mount command loads the configuration files and merges them with the
    command line, forks a session process and waits for word from it on a
    pipe.  The session takes a lock, claims and probes the disks, starts a
    network helper, forks again (the child becomes the VM), follows the VM's
    console for messages of the agent, mounts the NFS share and its exported
    subdirectories, waits until the share is unmounted, and tells the VM to
    quit.  Other commands find running sessions through sockets, on which they
    serve their runtime information, and recognise their mounts in the mount
    table.

    ** The files

    - [Prelude] (this file): outcomes ([anyhow::Result] with panics), loops in
      the outcome monad, byte strings with the operations of Rust's [str],
      numerals, [BTreeSet] and [BTreeMap] in their order, a pigeonhole lemma for
      searches of a free name, and shared tactics ([inv_ok], [destruct_match]).
    - [Ipc]: the framing of messages on sockets ([common-utils/src/ipc.rs]).
    - [Deferred]: the clean-up actions of a scope ([common-utils/src/lib.rs],
      [Deferred]).
    - [Common]: labels, custom actions and their transfer to the VM
      ([common-utils/src/lib.rs]).
    - [EnvVars]: the scanner for variables in scripts ([utils.rs]
      [find_env_vars]) and the environment of a custom action.
    - [Paths]: [std::path] and [str::replace].
    - [Settings]: all configuration records, the accessors, merging, loading and
      the migration of files ([settings.rs], [main.rs] [merge_toml_configs]).
    - [Fsutil]: mount table, NFS options, and the parallel mounting and
      unmounting of subdirectories over a trie ([fsutil.rs]).
    - [DevInfo]: devices and partitions of images ([devinfo.rs]); probing is the
      class [Blkid].
    - [LvIdent]: names of logical volumes ([diskutil/mod.rs]).
    - [Flock]: advisory locks and their guards over a model of flock(2)
      ([utils.rs]).
    - [Claim]: resolving, checking, opening and locking the disks of a mount
      ([cmd_mount.rs] [claim_devices]); the host is the class [Host].
    - [Hostname]: host names of VMs ([main.rs], [cmd_mount.rs]).
    - [Privilege]: effective ids, guards and the invoking user over a POSIX
      model of credentials ([privilege.rs]).
    - [Reader]: the console of the VM: line reading with immediate display
      ([utils.rs] [PassthroughBufReader]) and the thread that turns control
      messages into channel messages ([cmd_mount.rs] [PtyReader]).
    - [Exit]: exit codes across the three processes of a mount ([main.rs],
      [cmd_mount.rs]).
    - [Instance]: runtime information, NFS share, mount point, mount options and
      the recognition of mounts ([api.rs], [cmd_mount.rs]).
    - [Setup]: what a session computes before it starts the VM ([cmd_mount.rs],
      [vm.rs]).
    - [Session]: the order of the calls of a session and its clean-up
      ([cmd_mount.rs] [run_mount_child]); [Foreground]: the pipe between the
      session and the process in the foreground, which puts [Session] and [Exit]
      together.
    - [VmDisk]: the disk as the agent in the VM knows it: decryption, mount
      command, NFS exports, ZFS data sets ([vmproxy/src/main.rs],
      [vmproxy/src/zfs.rs]).
    - [Agent]: the effects of the agent, in their order
      ([vmproxy/src/main.rs] [run], [main]); [AgentSpec]: what it guarantees on
      every path; [AgentReport]: its agreement with the session.
    - [CmdLine]: the options of the agent and the line that the session writes
      ([vmproxy/src/main.rs], [vm.rs]); [AgentStart]: the settings that the agent
      has from it; [GuestInit]: what the agent sets up before it listens, its
      network together with the one of [VmNetwork] ([vmproxy/src/main.rs]
      [init_network]).
    - [Ctrl]: the control server of the agent, its threads and their
      interleavings ([vmproxy/src/main.rs] [CtrlSocketServer]).
    - [Ipnet]: IPv4 networks, the class of the operations of the crate of that
      name, its laws and an instance; [NetPick]: the choice of a free network for
      the VM ([netutil.rs]).
    - [VmNetwork]: loopback addresses and DNS servers ([netutil.rs]), the network
      helpers and the way to the control socket of the VM ([vm_network/]).
    - [ListFmt]: rows and text of the disk listing, with sizes in binary
      floating point; [Lsblk]: volume groups, RAID volumes and contents of
      encrypted devices from the tree that lsblk prints; [Volumes]: what is
      collected for the inspection VM, its script, and the listing as a whole
      ([diskutil/mod.rs], [diskutil/linux.rs]); [Darwin]: the disks of macOS as
      [diskutil] lists them ([diskutil/darwin.rs]).
    - [Events]: waiting for a share to be mounted and unmounted
      ([diskutil/linux.rs], [diskutil/darwin.rs]).
    - [Rpcbind]: the port mapper of the host ([rpcbind/]); [PubSub]: the hub that
      passes signals to its subscribers ([pubsub.rs]), as a transition system.
    - [Effects]: the monad of computations that change a state and may fail,
      with the rule for relations that all their steps keep.
    - [HostFiles]: waiting for a file, the lock file, giving a tree of files to
      the user behind sudo ([fsutil.rs], [utils.rs], [privilege.rs]).
    - [Fds]: the descriptors of the forked processes ([utils.rs]
      [fork_with_piped_output] and its variants) over a model of fork, pipe and dup2;
      [ConsoleLog]: messages on the console and in the log file
      ([common-utils/src/log.rs]); [Stdin]: the terminal in raw mode and the
      forwarding of keys and piped input ([utils.rs] [StdinForwarder]).
    - [Logs]: which log files are removed and what the commands that show logs
      print ([cmd_mount.rs], [main.rs]).
    - [Config]: the configuration of a run from the command line, the host and
      the preferences, and the commands that change it ([main.rs], [cli.rs]).
    - [Stop]: finding, listing, unmounting and stopping instances
      ([cmd_mount.rs], [main.rs]); [Api]: the runtime information over the socket
      of an instance ([api.rs]).
    - [MountCmd]: what a mount does before its session starts, the name it
      registers, the wait for the server and the control connection
      ([cmd_mount.rs] [run_mount], [mdns.rs]).
    - [KrunVm]: the calls that set up a VM, in their order; [VmCommand]: short
      commands in a VM, a transition system over two pipes ([vm.rs]).
    - [VmImage]: installing, updating and removing the images of the VMs
      ([vm_image.rs]); [Commands]: the commands that use them ([main.rs]
      [run_init], [run_image], [run_apk], [run_list], [run_shell]); [Dispatch]: which
      command runs, and what the process says when it ends ([main.rs] [run]).

    Definitions keep the names of the source.  A file that models an operation
    of another one requires it: [Claim] the devices, paths, locks and mount
    table, [Session] the deferred actions, the status that [Reader] reports and
    the result that [Exit] computes; [AgentReport] puts the agent, the console
    reader and the share of the session together; [VmNetwork] takes the networks
    that [NetPick] finds, [MountCmd] the logs of [Logs], the instances of [Stop] and
    the names of [Hostname], and [Volumes] lists with [ListFmt] and [Lsblk] what
    [DevInfo] probes, on macOS by the rows of [Darwin]; [Commands] runs what
    [VmImage] installs, with the settings that [Config] loads.

    ** How the program is modelled

    Rust strings, byte strings and paths are byte strings.  Integers are [N],
    [Z] or [nat], with the width written out where it matters.  A function that
    can fail returns an [outcome]; overflow checks, [unwrap] and slicing out of
    range are [Panic].  Mutable state is passed explicitly; in [Session] and
    [Agent] by a state monad whose events record the calls to the outside.
    The two targets of the build, macOS and Linux, are an argument
    ([TargetOS]); the [freebsd] feature is on, and fields that exist on macOS
    only are always there.  Sets that Rust iterates in an unspecified order are
    iterated by an arbitrary function.  Parallel traversals ([Fsutil]) are
    relations between a trie and every interleaving of the commands that can
    run.  The hub ([PubSub]) and short commands ([VmCommand]) are transition
    systems as well.  Files, VMs and commands that an image or a command of the
    user works with are a world that the monad of [Effects] passes along; what is
    run changes it in an arbitrary way.  Interference of other processes ([Flock]) is an arbitrary sequence of
    their steps.  The threads of the control server ([Ctrl]) are a transition
    system, one step between any two operations on what they share.

    Third-party crates and the operating system are parameters: libblkid
    ([Blkid]), serialisation and percent-encoding ([Codec],
    [PercentEncoding], whose law is the round trip), TOML ([Toml]), the files
    and the mount table of the host ([Host]), the process table, the results of
    the calls of a session and of the agent ([Env]), operations on networks
    ([Ipnet]), the port mapper ([PortMapper], with the behaviour of RFC 1833),
    regular expressions ([Regex]), the parser of the agent's command line ([Clap],
    whose law is the reading of a well-formed line), the parsed command line of the
    host.  Every theorem with such a hypothesis comes
    with a witness at a concrete instance.

    ** Fuel and bounds

    Loops that are not structural take fuel, and a theorem shows that the fuel
    given is enough: one more than the length of the name in [LvIdent]
    ([from_str_dm_name]), two more than the number of active hosts in
    [Hostname] ([pick_unique_hostname_ok]), 52 rounds of 100 ms for the five
    seconds of a wait for a file ([wait_for_file_ends]), one more than the number of existing
    files in [Instance] ([default_mount_path_free]), one more than the number of
    bytes in [Reader] ([console_chunk_independent]), 33 for the inner loop of the
    search for a network and some number for the outer one when no network in use
    is larger than the one asked for ([pick_complete]; in general none is enough,
    [pick_endless]), 52 rounds of 200 ms for the ten seconds of a wait for a mount
    ([wait_for_mount_ends]), one round for each pause that fits the time given for
    the end of a process ([wait_for_exit_ends]).  The counters keep their
    widths ([u32], [i32]): the number of taken names is bounded accordingly in
    the hypotheses.

    ** The theorems

    - Sessions and their VMs: whatever call fails, what was acquired is released exactly once
      ([session_releases]); the VM is told to quit and waited for in order
      ([session_shuts_down]); the VM process runs no clean-up
      ([vm_process_runs_no_cleanup]); the process in the foreground waits for the
      session or leaves as the session decides ([foreground_follows]), over
      descriptors that are wired as meant ([piped_output_wired]); a new mount
      leaves the running instances alone ([mount_leaves_instances]); the port mapper gets its registrations back
      ([services_restored]); the disks and the socket of a VM are those of the
      session ([vm_matches_session]); a short command gives all its output
      ([short_command_output]); the wait for the mount ends
      ([wait_for_mount_ends]); signals reach their subscribers, each once and in
      order ([messages_delivered]).
    - Devices: a claim holds every device with its own lock of the right kind
      and takes no mounted device ([claim_devices_safe]); guards restore locks
      under interference ([guards_restore]); identifiers read back as what they
      name ([lvm_identifier_mounts], [from_str_dm_name]).
    - The agent: it runs with the settings of the session
      ([agent_gets_settings]) at the address under which the session looks for it
      ([network_agrees]), with the ports of the server forwarded
      ([ports_forwarded]); it cleans up on every path and reports last
      ([agent_cleans_up]); the export the session mounts is one it serves
      ([export_path_agrees]); decryption, exports and data sets
      ([decrypt_opens_all], [exports_listed], [datasets_mounted_in_order]); its
      threads deliver the report before the end and end after a command to quit
      ([report_before_exit], [quit_ends_agent]).
    - Mounts: every interleaving mounts parents before children and unmounts
      children before parents ([mount_nfs_subdirs_order],
      [unmount_nfs_subdirs_order]); a running instance is recognised
      ([instance_recognised]); mount points and options
      ([default_mount_path_free], [fs_options_respect_user]).
    - Console: the division of the stream into reads does not matter
      ([console_chunk_independent]); what the mount learns from it
      ([nfs_status_reported]); exit codes ([guest_exit_code_reported]); messages
      that were hidden are in the log and printed after a failure
      ([hidden_messages_printed], [silent_failure_explained]); the terminal gets its mode back
      ([raw_mode_restored]) and the input reaches the VM ([input_forwarded]).
    - Images and commands: an image counts as installed only when it is
      ([failed_install_version]), a second installation changes nothing
      ([second_init_idle]), temporary files go ([temporary_removed]); commands
      change images under the exclusive lock ([changes_under_lock],
      [commands_change_under_lock]) and the recorded packages are the installed
      ones ([apk_recorded]); a stop concerns one instance ([stop_one_instance]) and
      ends ([wait_for_exit_ends]); removed logs are the oldest
      ([cleanup_keeps_newest]).
    - Configuration: what a mount runs with is well-formed
      ([load_mount_config_ok]), what is set is in force for later runs
      ([settings_in_force]); merging agrees with the accessors ([merged_agrees]),
      loading returns valid preferences and rewrites only old files
      ([load_preferences_ok]), an upgrade keeps the user's values
      ([merge_toml_configs_get]), scripts and their variables
      ([references_found], [scanner_invariant], [prepare_environment_spec]).
    - Messages and scopes: framing round trips and bounds ([conversation_roundtrip],
      [read_msg_bounded]), what an instance serves is what is read
      ([runtime_info_served]), deferred actions run once and in reverse
      ([drop_is_lifo]).
    - Networks: what the search finds is free ([pick_result]), it ends
      ([pick_complete]) but for larger networks in use ([pick_endless]), the
      random choice stays in the pool ([random_pick_spec]); addresses of the
      helper, the VM and the connection to it ([vmnet_service_addresses],
      [ctrl_connection], [linux_loopback_first]).
    - The listing: its text ([list_display_join]), rows ([partition_rows]),
      the volumes it shows ([volume_map_contents], [build_entries_total]), what
      is collected for the inspection VM and opened there
      ([devices_collected], [all_opens_encrypted]); a row of [diskutil] keeps its
      columns ([augment_keeps_columns]).
    - Privileges: root can be regained on Linux ([linux_root_recoverable]) and
      never on macOS ([macos_drop_permanent]).
    - Where the code does not do what it means to, a theorem shows what it does:
      [pick_endless], [unformatted_volumes_merge], [partition_rows] (long
      labels), [failed_accept_strands]; lemmas show
      more ([key_file_with_passphrase_panics], [image_partitions_one_device],
      [vm_exit_code_lost], [vm_not_told_to_quit],
      [split_character_stops_reader], [to_decrypt_whole_disk],
      [overlapping_guards], [oversized_written_then_refused],
      [unreadable_table_ends], [encoded_path_ignored], [other_transport_lost],
      [child_goes_on_listing], [deleted_global_stays], [interface_failure_ignored],
      [last_word_misplaced], [oversized_instance_stale], [link_target_given_away],
      [child_streams_swapped], [input_cut], [hidden_line_lost]) and smaller ones
      ([helper_left_running], [key_file_left], [key_copy_left],
      [low_hard_limit_keeps], [pool_argument_ignored], [raw_name_not_checked],
      [by_link_rpath]).

    ** What is not modelled

    The texts of most log lines (how they are written, and the guest's console,
    are); what the commands, the VMs and the agent's programs do that are run; C
    libraries and system frameworks, of which only the calls are, so of multicast
    DNS only the name that is registered; the handlers of signals below the hub;
    the sound and the Finder window after a mount; the downloads of an image, which are one call with an arbitrary result; functions that nothing
    calls (the list of importable ZFS pools, the configuration of the guest's
    kernel); the programs in Go that build root file systems. *)

From stdpp Require Export base tactics strings list gmap fin_maps sets.
From stdpp Require Export pretty sorting.
From Stdlib Require Export ZArith Lia.
From Stdlib Require Import Ascii DecimalString DecimalN.

#[global] Set Default Goal Selector "!".
#[global] Arguments String.append !_ _ / : simpl nomatch.

(** ** Outcomes

    [anyhow::Result<A>] together with the possibility of a panic (an
    arithmetic overflow check, an out-of-bounds slice, an [unwrap] of
    [None]).  The error carries the rendered message. *)
Inductive outcome (A : Type) : Type :=
| Ok (a : A)
| Err (e : string)
| Panic.
Arguments Ok {_} _.
Arguments Err {_} _.
Arguments Panic {_}.

#[global] Instance outcome_ret : MRet outcome := fun A a => Ok a.
#[global] Instance outcome_bind : MBind outcome := fun A B f m =>
  match m with
  | Ok a => f a
  | Err e => Err e
  | Panic => Panic
  end.
#[global] Instance outcome_fmap : FMap outcome := fun A B f m =>
  match m with
  | Ok a => Ok (f a)
  | Err e => Err e
  | Panic => Panic
  end.

(** [.context(msg)]: prefix the message of an error. *)
Definition with_context {A} (msg : string) (m : outcome A) : outcome A :=
  match m with
  | Ok a => Ok a
  | Err e => Err (msg +:+ ": " +:+ e)
  | Panic => Panic
  end.

(** [.ok_or(msg)] / [Option::context]. *)
Definition ok_or {A} (msg : string) (o : option A) : outcome A :=
  match o with
  | Some a => Ok a
  | None => Err msg
  end.

Definition is_ok {A} (m : outcome A) : bool :=
  match m with Ok _ => true | _ => false end.

Definition ok {A} (m : outcome A) : option A :=
  match m with Ok a => Some a | _ => None end.

Lemma outcome_bind_Ok {A B} (m : outcome A) (f : A → outcome B) (b : B) :
  (m ≫= f) = Ok b → ∃ a, m = Ok a ∧ f a = Ok b.
Proof. destruct m; simpl; naive_solver. Qed.

Lemma bind_Ok {A B} (a : A) (f : A → outcome B) : (Ok a ≫= f) = f a.
Proof. done. Qed.

Lemma bind_Err {A B} e (f : A → outcome B) : (Err e ≫= f) = Err e.
Proof. done. Qed.

Lemma with_context_ok {A} msg (a : A) : with_context msg (Ok a) = Ok a.
Proof. done. Qed.

(** Normalisation of known outcomes. *)
Create Rewrite HintDb outcome.
#[export] Hint Rewrite @bind_Ok @bind_Err @with_context_ok : outcome.

Lemma outcome_bind_assoc {A B C} (m : outcome A) (f : A → outcome B) (g : B → outcome C) :
  ((m ≫= f) ≫= g) = (m ≫= λ x, f x ≫= g).
Proof. by destruct m. Qed.

Lemma outcome_fmap_Ok {A B} (m : outcome A) (f : A → B) (b : B) :
  f <$> m = Ok b → ∃ a, m = Ok a ∧ b = f a.
Proof. destruct m; naive_solver. Qed.

Lemma with_context_Ok {A} msg (m : outcome A) a : with_context msg m = Ok a ↔ m = Ok a.
Proof. destruct m; naive_solver. Qed.

(** [for x in xs { .. ? .. }] with a state threaded through the body. *)
Fixpoint foldM {A S} (f : S → A → outcome S) (s : S) (xs : list A) : outcome S :=
  match xs with
  | [] => Ok s
  | x :: xs => f s x ≫= λ s', foldM f s' xs
  end.

Lemma foldM_app {A S} (f : S → A → outcome S) s xs ys :
  foldM f s (xs ++ ys) = foldM f s xs ≫= λ s', foldM f s' ys.
Proof.
  revert s; induction xs as [|x xs IH]; intros s; [done|].
  simpl. rewrite outcome_bind_assoc. destruct (f s x); simpl; auto.
Qed.

(** An invariant of the body is an invariant of the loop. *)
Lemma foldM_invariant {A S} (f : S → A → outcome S) (P : S → Prop) s xs s' :
  (∀ s x s', x ∈ xs → P s → f s x = Ok s' → P s') →
  P s → foldM f s xs = Ok s' → P s'.
Proof.
  revert s; induction xs as [|x xs IH]; intros s Hf Hs; simpl; [naive_solver|].
  intros (s1 & H1 & H2)%outcome_bind_Ok.
  eapply IH; [| |exact H2].
  - intros; eapply Hf; [|done|done]. set_solver.
  - eapply Hf; [|exact Hs|exact H1]. set_solver.
Qed.

(** ** Sorted lists *)
Lemma StronglySorted_snoc {A} (R : A → A → Prop) t x :
  StronglySorted R t → Forall (λ y, R y x) t → StronglySorted R (t ++ [x]).
Proof.
  induction 1 as [|y t Ht IH Hy]; simpl; [by repeat constructor|].
  intros [Hyx Hf]%Forall_cons. constructor; [auto|]. apply Forall_app. split; [done|]. by constructor.
Qed.

(** ** Lists of keys and values, filters *)
Lemma NoDup_fst_unique {A B} (l : list (A * B)) x y :
  NoDup l.*1 → x ∈ l → y ∈ l → x.1 = y.1 → x = y.
Proof.
  destruct x as [a b], y as [a' b']; cbn. intros Hnd Hx Hy <-. f_equal.
  apply list_elem_of_lookup_1 in Hx as [i Hi], Hy as [j Hj].
  assert (i = j) as <-; [|congruence].
  by eapply (NoDup_lookup l.*1); [|rewrite list_lookup_fmap, Hi|rewrite list_lookup_fmap, Hj].
Qed.

Lemma filter_none {A} (P : A → Prop) `{!∀ x, Decision (P x)} l : (∀ x, x ∈ l → ¬ P x) → filter P l = [].
Proof.
  intros Hn. destruct (filter P l) as [|x l'] eqn:E; [done|]. exfalso.
  assert (x ∈ filter P l) as [HP Hx]%list_elem_of_filter by (rewrite E; left). by eapply Hn.
Qed.

(** ** Target operating system of the build ([cfg(target_os)]) *)
Inductive TargetOS := MacOS | LinuxHost.

#[global] Instance TargetOS_eq_dec : EqDecision TargetOS.
Proof. solve_decision. Defined.

(** ** Case analysis on the scrutinee of a [match] *)
Ltac destruct_match :=
  match goal with
  | |- context [match ?x with _ => _ end] => destruct x eqn:?
  | H : context [match ?x with _ => _ end] |- _ => destruct x eqn:?
  end.

(** Split every monadic bind that is known to return. *)
Ltac inv_ok :=
  repeat match goal with
  | H : (_ ≫= _) = Ok _ |- _ =>
      let x := fresh "x" in let Hx := fresh "Hx" in
      apply outcome_bind_Ok in H as (x & Hx & H)
  | H : with_context _ _ = Ok _ |- _ => rewrite with_context_Ok in H
  | H : Ok _ = Ok _ |- _ => injection H as H; try subst
  | H : Err _ = Ok _ |- _ => discriminate H
  | H : Panic = Ok _ |- _ => discriminate H
  | H : mret _ = Ok _ |- _ => unfold mret, outcome_ret in H
  end; simplify_eq.

(** ** Byte strings

    Rust's [String], [BString], [OsString] and [PathBuf] are sequences of
    bytes: a Coq [string], one [ascii] per byte.  The functions below are the
    standard-library operations the sources use; splitting, stripping and
    replacing by ASCII patterns is the same on bytes as on UTF-8 characters. *)
Module Str.
Fixpoint forallb (p : ascii → bool) (s : string) : bool :=
  match s with
  | "" => true
  | String c s => p c && forallb p s
  end.

Fixpoint existsb (p : ascii → bool) (s : string) : bool :=
  match s with
  | "" => false
  | String c s => p c || existsb p s
  end.

(** [s.chars().filter(p).collect()] *)
Fixpoint filter (p : ascii → bool) (s : string) : string :=
  match s with
  | "" => ""
  | String c s => if p c then String c (filter p s) else filter p s
  end.

(** [s.replace(c, ..)] by a one-character replacement. *)
Fixpoint map (f : ascii → ascii) (s : string) : string :=
  match s with
  | "" => ""
  | String c s => String (f c) (map f s)
  end.

(** [&s[..n]] and [&s[n..]] on bytes. *)
Fixpoint take (n : nat) (s : string) : string :=
  match n, s with
  | S n, String c s => String c (take n s)
  | _, _ => ""
  end.
Fixpoint drop (n : nat) (s : string) : string :=
  match n, s with
  | S n, String c s => drop n s
  | _, _ => s
  end.

(** [s.strip_prefix(p)] *)
Fixpoint strip_prefix (p s : string) : option string :=
  match p, s with
  | "", _ => Some s
  | String a p, String b s => if decide (a = b) then strip_prefix p s else None
  | String _ _, "" => None
  end.

(** [s.starts_with(p)] *)
Definition starts_with (p s : string) : bool :=
  match strip_prefix p s with Some _ => true | None => false end.

(** [s.strip_suffix(p)] *)
Fixpoint strip_suffix (p s : string) : option string :=
  if decide (s = p) then Some ""
  else match s with
       | "" => None
       | String c s => String c <$> strip_suffix p s
       end.

(** [s.ends_with(p)] *)
Definition ends_with (p s : string) : bool :=
  match strip_suffix p s with Some _ => true | None => false end.

(** [s.contains(p)] for a string pattern. *)
Fixpoint contains (p s : string) : bool :=
  starts_with p s || match s with "" => false | String _ s => contains p s end.

(** [s.split(c)]: never empty. *)
Fixpoint split (c : ascii) (s : string) : list string :=
  match s with
  | "" => [""]
  | String a s =>
      if decide (a = c) then "" :: split c s
      else match split c s with
           | [] => [String a ""]
           | w :: ws => String a w :: ws
           end
  end.

(** [s.lines()]: each line ends with [\n] or [\r\n], the last one need not. *)
Definition strip_cr (l : string) : string := default l (strip_suffix (String "013" "") l).
Fixpoint lines_of (pieces : list string) : list string :=
  match pieces with
  | [] => []
  | [l] => if decide (l = "") then [] else [l]
  | l :: pieces => strip_cr l :: lines_of pieces
  end.
Definition lines (s : string) : list string := lines_of (split "010" s).

(** [s.split_once(c)] *)
Fixpoint split_once (c : ascii) (s : string) : option (string * string) :=
  match s with
  | "" => None
  | String a s =>
      if decide (a = c) then Some ("", s)
      else '(l, r) ← split_once c s; Some (String a l, r)
  end.

(** [v.join(sep)] *)
Fixpoint join (sep : string) (l : list string) : string :=
  match l with
  | [] => ""
  | [x] => x
  | x :: l => x +:+ sep +:+ join sep l
  end.

(** Byte position of the first, and of the last, occurrence of a pattern. *)
Fixpoint find (p s : string) : option nat :=
  if starts_with p s then Some 0
  else match s with
       | "" => None
       | String _ s => S <$> find p s
       end.
Fixpoint rfind (p s : string) : option nat :=
  match s with
  | "" => if starts_with p s then Some 0 else None
  | String _ s' =>
      match rfind p s' with
      | Some i => Some (S i)
      | None => if starts_with p s then Some 0 else None
      end
  end.

(** ASCII whitespace, as far as [trim] is concerned. *)
Definition is_space (c : ascii) : bool :=
  match Ascii.nat_of_ascii c with
  | 32 | 9 | 10 | 11 | 12 | 13 => true
  | _ => false
  end.
Fixpoint trim_start (s : string) : string :=
  match s with
  | "" => ""
  | String c s' => if is_space c then trim_start s' else s
  end.
Fixpoint trim_end (s : string) : string :=
  match s with
  | "" => ""
  | String c s =>
      match trim_end s with
      | "" => if is_space c then "" else String c ""
      | t => String c t
      end
  end.
Definition trim (s : string) : string := trim_end (trim_start s).

(** Character classes. *)
Definition is_digit (c : ascii) : bool :=
  let n := Ascii.nat_of_ascii c in (48 <=? n) && (n <=? 57).
Definition is_upper (c : ascii) : bool :=
  let n := Ascii.nat_of_ascii c in (65 <=? n) && (n <=? 90).
Definition is_lower (c : ascii) : bool :=
  let n := Ascii.nat_of_ascii c in (97 <=? n) && (n <=? 122).
Definition is_alnum (c : ascii) : bool := is_digit c || is_upper c || is_lower c.

(** [CString::new] refuses a string with a null byte. *)
Definition has_nul (s : string) : bool := existsb (λ c, bool_decide (c = "000"%char)) s.

Definition is_empty (s : string) : bool := match s with "" => true | _ => false end.

Fixpoint repeat (c : ascii) (n : nat) : string :=
  match n with O => "" | S n => String c (repeat c n) end.

(** Decimal rendering ([to_string], [{}]) and parsing ([str::parse]) of
    unsigned integers.  [parse] accepts a leading [+], as Rust does, and
    refuses a value above [max]. *)
Definition of_N (n : N) : string := NilZero.string_of_uint (N.to_uint n).
Definition of_nat (n : nat) : string := of_N (N.of_nat n).
Definition parse_digits (s : string) : option N :=
  N.of_uint <$> NilZero.uint_of_string s.
Definition parse_uint (max : N) (s : string) : option N :=
  let body := match s with String "+" r => r | _ => s end in
  n ← parse_digits body;
  if decide (n <= max)%N then Some n else None.
End Str.

Definition u8_max : N := 255.
Definition u16_max : N := 65535.
Definition u32_max : N := 4294967295.
Definition u64_max : N := 18446744073709551615.

(** ** Facts about byte strings *)
Module StrFacts.
Lemma app_nil_r s : s +:+ "" = s.
Proof. induction s; simpl; congruence. Qed.

Lemma app_assoc s1 s2 s3 : (s1 +:+ s2) +:+ s3 = s1 +:+ s2 +:+ s3.
Proof. induction s1; simpl; congruence. Qed.

Lemma length_app s1 s2 :
  String.length (s1 +:+ s2) = String.length s1 + String.length s2.
Proof. induction s1; simpl; congruence. Qed.

Lemma app_inj_l s t1 t2 : s +:+ t1 = s +:+ t2 → t1 = t2.
Proof. induction s; simpl; naive_solver. Qed.

Lemma app_inj_len s1 s2 t1 t2 :
  String.length s1 = String.length s2 → s1 +:+ t1 = s2 +:+ t2 → s1 = s2 ∧ t1 = t2.
Proof.
  revert s2; induction s1 as [|c s1 IH]; intros [|d s2]; simpl; try done.
  intros [= Hl] [= -> H]. destruct (IH s2 Hl H) as [-> ->]. done.
Qed.

Lemma app_inj_r s1 s2 t : s1 +:+ t = s2 +:+ t → s1 = s2.
Proof.
  intros H. apply (app_inj_len s1 s2 t t); [|done].
  apply (f_equal String.length) in H. rewrite !length_app in H. lia.
Qed.

Lemma app_eq_nil s t : s +:+ t = "" → s = "" ∧ t = "".
Proof. by destruct s, t. Qed.

Lemma take_drop n s : Str.take n s +:+ Str.drop n s = s.
Proof. revert s; induction n; intros [|c s]; simpl; try done. by f_equal. Qed.

Lemma length_take n s : String.length (Str.take n s) = n `min` String.length s.
Proof. revert s; induction n; intros [|c s]; simpl; auto. Qed.

Lemma length_drop n s : String.length (Str.drop n s) = String.length s - n.
Proof. revert s; induction n; intros [|c s]; simpl; auto. Qed.

Lemma take_app s t : Str.take (String.length s) (s +:+ t) = s.
Proof. induction s; simpl; [by destruct t|by f_equal]. Qed.

Lemma drop_app s t : Str.drop (String.length s) (s +:+ t) = t.
Proof. induction s; simpl; [by destruct t|done]. Qed.

Lemma take_ge n s : String.length s ≤ n → Str.take n s = s.
Proof.
  revert n; induction s as [|c s IH]; intros [|n] H; simpl in *; try done; try lia.
  f_equal. apply IH. lia.
Qed.

Lemma strip_prefix_Some p s r : Str.strip_prefix p s = Some r ↔ s = p +:+ r.
Proof.
  revert s; induction p as [|a p IH]; intros [|b s]; simpl; try naive_solver.
  case_decide; simplify_eq; [rewrite IH|]; naive_solver.
Qed.

Lemma strip_prefix_app p r : Str.strip_prefix p (p +:+ r) = Some r.
Proof. by apply strip_prefix_Some. Qed.

Lemma starts_with_spec p s : Str.starts_with p s = true ↔ ∃ r, s = p +:+ r.
Proof.
  unfold Str.starts_with. destruct (Str.strip_prefix p s) as [r|] eqn:H.
  - apply strip_prefix_Some in H. naive_solver.
  - split; [done|]. intros [r ->]. by rewrite strip_prefix_app in H.
Qed.

Lemma starts_with_app p r : Str.starts_with p (p +:+ r) = true.
Proof. apply starts_with_spec; eauto. Qed.

Lemma strip_suffix_Some p s r : Str.strip_suffix p s = Some r ↔ s = r +:+ p.
Proof.
  revert r; induction s as [|c s IH]; intros r; simpl.
  - case_decide as Hp; [subst p|].
    + split; [by intros [= <-]|]. intros [-> _]%eq_sym%app_eq_nil. done.
    + split; [done|]. intros [_ ->]%eq_sym%app_eq_nil. done.
  - case_decide as Hp; [subst p|].
    + split; [by intros [= <-]|]. intros H.
      destruct r as [|d r]; [done|]. apply (f_equal String.length) in H.
      rewrite length_app in H. simpl in H. lia.
    + rewrite fmap_Some. split.
      * intros (r' & Hr%IH & ->). by subst.
      * destruct r as [|d r]; simpl; [naive_solver|].
        intros [= -> ->]. exists r. split; [by apply IH|done].
Qed.

Lemma strip_suffix_app p r : Str.strip_suffix p (r +:+ p) = Some r.
Proof. by apply strip_suffix_Some. Qed.

Lemma ends_with_spec p s : Str.ends_with p s = true ↔ ∃ r, s = r +:+ p.
Proof.
  unfold Str.ends_with. destruct (Str.strip_suffix p s) as [r|] eqn:H.
  - apply strip_suffix_Some in H. naive_solver.
  - split; [done|]. intros [r ->]. by rewrite strip_suffix_app in H.
Qed.

Lemma forallb_app p s t :
  Str.forallb p (s +:+ t) = Str.forallb p s && Str.forallb p t.
Proof. induction s; simpl; [done|]. rewrite IHs. by rewrite andb_assoc. Qed.

Lemma forallb_take p n s : Str.forallb p s = true → Str.forallb p (Str.take n s) = true.
Proof.
  intros H. rewrite <-(take_drop n s), forallb_app in H.
  by apply andb_true_iff in H as [? _].
Qed.

Lemma forallb_filter p s : Str.forallb p (Str.filter p s) = true.
Proof. induction s as [|c s IH]; simpl; [done|]. destruct (p c) eqn:E; simpl; [|done]. by rewrite E. Qed.

Lemma forallb_impl (p q : ascii → bool) s :
  (∀ c, p c = true → q c = true) → Str.forallb p s = true → Str.forallb q s = true.
Proof.
  intros Hpq. induction s; simpl; [done|].
  rewrite !andb_true_iff. naive_solver.
Qed.

Definition lacks (c : ascii) : string → bool := Str.forallb (λ a, bool_decide (a ≠ c)).

Lemma lacks_cons c a s : lacks c (String a s) = true ↔ a ≠ c ∧ lacks c s = true.
Proof. unfold lacks; simpl. rewrite andb_true_iff, bool_decide_eq_true. done. Qed.

Lemma lacks_app c s t : lacks c (s +:+ t) = true ↔ lacks c s = true ∧ lacks c t = true.
Proof. unfold lacks. by rewrite forallb_app, andb_true_iff. Qed.

Lemma split_ne c s : Str.split c s ≠ [].
Proof. destruct s; simpl; [done|]. case_decide; [done|]. by destruct (Str.split c s). Qed.

(** [split] and [join] are inverse. *)
Lemma join_split c s : Str.join (String c "") (Str.split c s) = s.
Proof.
  induction s as [|a s IH]; [done|]. simpl.
  pose proof (split_ne c s). case_decide; subst.
  - destruct (Str.split c s); [done|]. simpl in *. by rewrite IH.
  - destruct (Str.split c s) as [|w [|w' ws]]; [done|..]; simpl in *; by rewrite IH.
Qed.

Lemma split_lacks c s : lacks c s = true → Str.split c s = [s].
Proof.
  induction s as [|a s IH]; [done|]. rewrite lacks_cons. intros [Ha Hs].
  simpl. rewrite decide_False by done. by rewrite IH.
Qed.

Lemma split_app c w s :
  lacks c w = true → Str.split c (w +:+ String c s) = w :: Str.split c s.
Proof.
  induction w as [|a w IH]; simpl; intros H.
  - by rewrite decide_True.
  - apply lacks_cons in H as [Ha Hw]. rewrite decide_False by done.
    by rewrite IH.
Qed.

Lemma split_app_sep c s r : Str.split c (s +:+ String c r) = Str.split c s ++ Str.split c r.
Proof.
  induction s as [|a s IH]; simpl; [by rewrite decide_True|].
  case_decide; [by rewrite IH|]. rewrite IH.
  pose proof (split_ne c s). by destruct (Str.split c s).
Qed.

Lemma split_join c ws :
  ws ≠ [] → Forall (λ w, lacks c w = true) ws →
  Str.split c (Str.join (String c "") ws) = ws.
Proof.
  intros Hne Hws. induction Hws as [|w ws Hw Hws IH]; [done|].
  destruct ws as [|w' ws]; [by apply split_lacks|].
  change (Str.join (String c "") (w :: w' :: ws))
    with (w +:+ String c (Str.join (String c "") (w' :: ws))).
  rewrite split_app by done. by rewrite IH.
Qed.

Lemma split_pieces_lack c s : Forall (λ w, lacks c w = true) (Str.split c s).
Proof.
  induction s as [|a s IH]; simpl; [by repeat constructor|].
  case_decide; subst; [by constructor|].
  destruct (Str.split c s) as [|w ws]; [by repeat constructor; apply lacks_cons|].
  apply Forall_cons in IH as [Hw Hws]. constructor; [|done].
  by apply lacks_cons.
Qed.

(** Lines that are written with an end each are read back. *)
Lemma lines_terminated ls :
  Forall (λ l, lacks "010" l = true ∧ Str.strip_suffix (String "013" "") l = None) ls →
  Str.lines (foldr (λ l s, l +:+ String "010" s) "" ls) = ls.
Proof.
  unfold Str.lines. induction 1 as [|l ls [Hl Hc] _ IH]; [done|]. cbn [foldr].
  rewrite split_app by done. set (ps := Str.split _ _) in *. pose proof (split_ne "010"%char (foldr (λ l s, l +:+ String "010" s) "" ls)) as Hne.
  fold ps in Hne. destruct ps as [|p ps]; [done|]. change (Str.lines_of (l :: p :: ps)) with (Str.strip_cr l :: Str.lines_of (p :: ps)).
  rewrite IH. unfold Str.strip_cr. by rewrite Hc.
Qed.

Lemma split_once_Some c s l r :
  Str.split_once c s = Some (l, r) ↔ lacks c l = true ∧ s = l +:+ String c r.
Proof.
  revert l r; induction s as [|a s IH]; intros l r; simpl.
  - split; [done|]. intros [_ H]. by destruct l.
  - case_decide; subst.
    + split; [by intros [= <- <-]|]. intros [Hl H]. destruct l as [|b l]; simplify_eq/=; [done|].
      apply lacks_cons in Hl as [? _]; done.
    + destruct (Str.split_once c s) as [[l' r']|]; simpl.
      * destruct (proj1 (IH l' r') eq_refl) as [Hl' Hs]. split.
        -- intros [= <- <-]. rewrite lacks_cons, Hs. done.
        -- intros [Hl H']. destruct l as [|b l]; simplify_eq/=.
           apply lacks_cons in Hl as [_ Hl].
           assert (Some (l', r') = Some (l, r)) as [= -> ->]; [|done]. by apply IH.
      * split; [done|]. intros [Hl H']. destruct l as [|b l]; simplify_eq/=.
        apply lacks_cons in Hl as [_ Hl]. by specialize (proj2 (IH l r) (conj Hl eq_refl)).
Qed.

Lemma split_once_None c s : Str.split_once c s = None ↔ lacks c s = true.
Proof.
  induction s as [|a s IH]; simpl; [done|]. rewrite lacks_cons.
  case_decide; subst; [naive_solver|].
  destruct (Str.split_once c s) as [[??]|]; simpl; naive_solver.
Qed.

Lemma is_empty_spec s : Str.is_empty s = true ↔ s = "".
Proof. by destruct s. Qed.

Lemma length_repeat c n : String.length (Str.repeat c n) = n.
Proof. induction n; simpl; congruence. Qed.

Lemma repeat_app c k l : Str.repeat c (k + l) = Str.repeat c k +:+ Str.repeat c l.
Proof. induction k; simpl; by f_equal. Qed.

Lemma forallb_digits_of_uint u :
  Str.forallb Str.is_digit (DecimalString.NilEmpty.string_of_uint u) = true.
Proof. induction u; simpl; auto. Qed.

Lemma of_N_digits n : Str.forallb Str.is_digit (Str.of_N n) = true ∧ Str.of_N n ≠ "".
Proof.
  unfold Str.of_N, DecimalString.NilZero.string_of_uint. destruct (N.to_uint n) eqn:E;
    (split; [try done; by apply (forallb_digits_of_uint (_ _)) || (rewrite <-E; apply forallb_digits_of_uint)|done]).
Qed.

Lemma digits_of_N n : Str.forallb Str.is_digit (Str.of_N n) = true.
Proof. by apply of_N_digits. Qed.

Lemma parse_digits_of_N n : Str.parse_digits (Str.of_N n) = Some n.
Proof.
  unfold Str.parse_digits, Str.of_N. rewrite NilZero.usu.
  - simpl. f_equal. apply DecimalN.Unsigned.of_to.
  - destruct n; [done|]. simpl. apply DecimalPos.Unsigned.to_uint_nonnil.
Qed.

Lemma of_N_inj m n : Str.of_N m = Str.of_N n → m = n.
Proof.
  intros E. apply (f_equal Str.parse_digits) in E. rewrite !parse_digits_of_N in E. by injection E.
Qed.
Lemma rfind_lacks p c s t :
  p = String c t → lacks c s = true → Str.rfind p s = None.
Proof.
  intros ->. induction s as [|a s IH]; [done|]. rewrite lacks_cons. intros [Ha Hs].
  cbn [Str.rfind]. rewrite IH by done. unfold Str.starts_with. cbn [Str.strip_prefix].
  by rewrite decide_False by congruence.
Qed.

Lemma rfind_app p a c t :
  Str.starts_with p (String c t) = true → Str.rfind p t = None →
  Str.rfind p (a +:+ String c t) = Some (String.length a).
Proof.
  intros Hs Ht. induction a as [|b a IH].
  - change ("" +:+ String c t) with (String c t). cbn [Str.rfind]. by rewrite Ht, Hs.
  - change (String b a +:+ String c t) with (String b (a +:+ String c t)).
    cbn [Str.rfind]. by rewrite IH.
Qed.

Lemma rfind_Some p s i : Str.rfind p s = Some i → ∃ r, Str.drop i s = p +:+ r.
Proof.
  revert i; induction s as [|c s IH]; intros i; cbn [Str.rfind].
  - destruct (Str.starts_with p "") eqn:E; [|done]. intros [= <-]. by apply starts_with_spec.
  - destruct (Str.rfind p s) as [j|] eqn:Ej.
    + intros [= <-]. by apply IH.
    + destruct (Str.starts_with p (String c s)) eqn:E; [|done]. intros [= <-].
      by apply starts_with_spec.
Qed.

Lemma parse_uint_of_N max n : (n <= max)%N → Str.parse_uint max (Str.of_N n) = Some n.
Proof.
  intros Hn. unfold Str.parse_uint.
  assert (match Str.of_N n with String "+" r => r | _ => Str.of_N n end = Str.of_N n) as ->.
  { destruct (of_N_digits n) as [Hd _]. destruct (Str.of_N n) as [|c s]; [done|].
    simpl in Hd. apply andb_true_iff in Hd as [Hc _].
    destruct c as [[] [] [] [] [] [] [] []]; try done. }
  rewrite parse_digits_of_N. simpl. by rewrite decide_True.
Qed.

End StrFacts.

(** ** [BTreeSet] and [BTreeMap]

    A finite set or map of the library, iterated in the byte order of its
    keys. *)
Definition str_le (a b : string) : Prop := String.leb a b = true.
#[global] Instance str_le_dec : RelDecision str_le.
Proof. intros a b. unfold str_le. apply _. Defined.

Lemma str_le_cons a s b t :
  str_le (String a s) (String b t) ↔
  (Ascii.N_of_ascii a < Ascii.N_of_ascii b)%N ∨ (a = b ∧ str_le s t).
Proof.
  unfold str_le, String.leb. simpl. unfold Ascii.compare.
  destruct (N.compare_spec (Ascii.N_of_ascii a) (Ascii.N_of_ascii b)) as [E|E|E].
  - assert (a = b) as -> by (rewrite <-(Ascii.ascii_N_embedding a), E; apply Ascii.ascii_N_embedding).
    split; [by right|]. intros [?|[_ ?]]; [lia|done].
  - split; [by left|done].
  - split; [done|]. intros [?|[-> _]]; lia.
Qed.
#[global] Instance str_le_trans : Transitive str_le.
Proof.
  intros s; induction s as [|a s IH]; intros [|b t] [|c u]; rewrite ?str_le_cons; try done.
  intros [?|[-> ?]] [?|[-> ?]]; [left; lia|by left..|right; eauto].
Qed.
#[global] Instance str_le_total : Total str_le.
Proof. intros s t. apply String.leb_total. Qed.
#[global] Instance str_le_antisymm : AntiSymm (=) str_le.
Proof. intros s t. apply String.leb_antisym. Qed.
Lemma str_le_app s t : str_le s (s +:+ t).
Proof. induction s as [|c s IH]; [by destruct t|]. change (str_le (String c s) (String c (s +:+ t))). rewrite str_le_cons. by right. Qed.

Definition key_le {V} (a b : string * V) : Prop := str_le a.1 b.1.
#[global] Instance key_le_dec {V} : RelDecision (@key_le V).
Proof. intros a b. unfold key_le. apply _. Defined.

Lemma sorted_lookup {A} (R : relation A) l i j x y :
  Sorted.StronglySorted R l → l !! i = Some x → l !! j = Some y → i < j → R x y.
Proof.
  intros Hs. revert i j; induction Hs as [|z l Hs IH Hz]; intros i j; [done|].
  destruct j as [|j]; [lia|]. destruct i as [|i]; simpl.
  - intros [= ->] Hj _. rewrite Forall_forall in Hz. by eapply Hz, list_elem_of_lookup_2.
  - intros. eapply IH; eauto. lia.
Qed.

Definition btree_elements (s : gset string) : list string := merge_sort str_le (elements s).
Definition btree_to_list {V} (m : gmap string V) : list (string * V) :=
  merge_sort key_le (map_to_list m).

Lemma btree_elements_perm s : btree_elements s ≡ₚ elements s.
Proof. apply merge_sort_Permutation. Qed.

Lemma elem_of_btree_elements s x : x ∈ btree_elements s ↔ x ∈ s.
Proof. by rewrite btree_elements_perm, elem_of_elements. Qed.

Lemma list_to_set_btree_elements s : list_to_set (btree_elements s) = s.
Proof. apply set_eq. intros x. by rewrite elem_of_list_to_set, elem_of_btree_elements. Qed.

Lemma NoDup_btree_elements s : NoDup (btree_elements s).
Proof. rewrite btree_elements_perm. apply NoDup_elements. Qed.

Lemma btree_to_list_perm {V} (m : gmap string V) : btree_to_list m ≡ₚ map_to_list m.
Proof. apply merge_sort_Permutation. Qed.

Lemma elem_of_btree_to_list {V} (m : gmap string V) k v :
  (k, v) ∈ btree_to_list m ↔ m !! k = Some v.
Proof. by rewrite btree_to_list_perm, elem_of_map_to_list. Qed.

(** Among one more candidate than there are names taken, one is free. *)
Lemma fresh_candidate (f : nat → string) (X : gset string) :
  (∀ i j, i ≤ size X → j ≤ size X → f i = f j → i = j) → ∃ i, i ≤ size X ∧ f i ∉ X.
Proof.
  intros Hinj. destruct (decide (Exists (λ i, f i ∉ X) (seq 0 (S (size X))))) as [H|H].
  - apply Exists_exists in H as (i & Hi & ?). apply elem_of_seq in Hi. exists i. split; [lia|done].
  - exfalso. apply not_Exists_Forall in H; [|apply _].
    assert (size (list_to_set (f <$> seq 0 (S (size X))) : gset string) = S (size X)) as Hs.
    { rewrite size_list_to_set, length_fmap, length_seq; [done|].
      apply NoDup_fmap_2_strong; [|apply NoDup_seq].
      intros i j Hi Hj. rewrite elem_of_seq in *. apply Hinj; lia. }
    assert ((list_to_set (f <$> seq 0 (S (size X))) : gset string) ⊆ X) as Hsub%subseteq_size; [|lia].
    intros x (i & -> & Hi)%elem_of_list_to_set%list_elem_of_fmap.
    rewrite Forall_forall in H. by apply dec_stable, H.
Qed.
