(* ===== verification/Ipc.v ===== *)
(** * Length-prefixed messages ([common-utils/src/ipc.rs], [vmctrl.rs])

    The control socket of the VM and the API socket of each instance carry
    messages framed by a 32-bit big-endian length.  [read_msg] and [write_msg]
    are modelled on the byte sequence of the stream; the RON serializer is a
    third-party crate and enters as the class [Codec], its round-trip law as
    [CodecLaws]. *)
From S2P Require Import Prelude.
From Stdlib Require Import Ascii.

(** ** The control messages ([vmctrl.rs]) *)
Module vmctrl.
Inductive Request := Quit | SubscribeEvents.

Record Report := { kernel_log : string }.

Inductive Response := Ack | ReportEvent (r : Report).

#[global] Instance Request_eq_dec : EqDecision Request.
Proof. solve_decision. Defined.
#[global] Instance Report_eq_dec : EqDecision Report.
Proof. solve_decision. Defined.
#[global] Instance Response_eq_dec : EqDecision Response.
Proof. solve_decision. Defined.
End vmctrl.

(** What the framing needs of a serializer, and the law it relies on. *)
Class Codec (A : Type) := {
  ser : A → outcome string;
  de : string → outcome A;
}.

Class CodecLaws (A : Type) `{Codec A} := {
  de_ser a s : ser a = Ok s → de s = Ok a;
}.

Definition MAX_MSG_SIZE : N := 1048576.

(** [u32::to_be_bytes] / [u32::from_be_bytes] *)
Definition byte_of_N (n : N) : ascii := ascii_of_N (n mod 256).

Definition to_be_bytes (n : N) : string :=
  String (byte_of_N (N.shiftr n 24)) (String (byte_of_N (N.shiftr n 16))
    (String (byte_of_N (N.shiftr n 8)) (String (byte_of_N n) ""))).

Fixpoint from_be_bytes_acc (acc : N) (s : string) : N :=
  match s with
  | "" => acc
  | String c s => from_be_bytes_acc (acc * 256 + N_of_ascii c) s
  end.
Definition from_be_bytes (s : string) : N := from_be_bytes_acc 0 s.

(** [len() as u32]: the conversion wraps. *)
Definition len_u32 (s : string) : N := N.of_nat (String.length s) mod 2 ^ 32.

(** [stream.read_exact(&mut buf)] on the bytes still to be read. *)
Definition read_exact (n : N) (s : string) : outcome (string * string) :=
  if decide (n <= N.of_nat (String.length s))%N
  then Ok (Str.take (N.to_nat n) s, Str.drop (N.to_nat n) s)
  else Err "failed to fill whole buffer".

Definition validate_msg_size (size : N) (direction : string) : outcome unit :=
  if decide (size = 0)%N then Err (direction +:+ " size is zero")
  else if decide (MAX_MSG_SIZE < size)%N then Err (direction +:+ " size is too large")
  else Ok tt.

#[global] Arguments to_be_bytes : simpl never.
#[global] Arguments from_be_bytes : simpl never.
#[global] Arguments len_u32 : simpl never.
#[global] Arguments read_exact : simpl never.

Section Messages.
Context {A : Type} `{Codec A}.

(** Returns the message and the bytes left on the stream. *)
Definition read_msg (stream : string) (direction : string) : outcome (A * string) :=
  '(size_buf, stream) ← with_context ("Failed to read " +:+ direction +:+ " size")
                          (read_exact 4 stream);
  let size := from_be_bytes size_buf in
  _ ← validate_msg_size size direction;
  '(payload_buf, stream) ← with_context ("Failed to read " +:+ direction +:+ " payload")
                             (read_exact size stream);
  msg ← with_context ("Failed to parse " +:+ direction) (de payload_buf);
  Ok (msg, stream).

(** Returns the stream with the frame appended. *)
Definition write_msg (stream : string) (msg : A) (direction : string) : outcome string :=
  msg_str ← with_context ("Failed to serialize " +:+ direction) (ser msg);
  let size_buf := to_be_bytes (len_u32 msg_str) in
  let stream := stream +:+ size_buf in
  Ok (stream +:+ msg_str).

(** [Handler] and [Client] *)
Definition read_request (stream : string) := read_msg stream "request".
Definition write_response (stream : string) (response : A) := write_msg stream response "response".
Definition write_request (stream : string) (request : A) := write_msg stream request "request".
Definition read_response (stream : string) := read_msg stream "response".

(** A conversation: several messages one after the other. *)
Definition write_all_msgs (stream direction : string) (msgs : list A) : outcome string :=
  foldM (λ st m, write_msg st m direction) stream msgs.

Fixpoint read_n_msgs (n : nat) (stream direction : string) : outcome (list A * string) :=
  match n with
  | O => Ok ([], stream)
  | S n =>
      '(m, stream) ← read_msg stream direction;
      '(ms, stream) ← read_n_msgs n stream direction;
      Ok (m :: ms, stream)
  end.

(** The messages the reader accepts. *)
Definition fits (m : A) : Prop :=
  ∃ s, ser m = Ok s ∧ s ≠ "" ∧ (N.of_nat (String.length s) <= MAX_MSG_SIZE)%N.
End Messages.

(** ** Bytes and integers *)
Lemma N_of_byte_of_N n : N_of_ascii (byte_of_N n) = (n mod 256)%N.
Proof. unfold byte_of_N. apply N_ascii_embedding. apply N.mod_lt. lia. Qed.

Lemma from_to_be_bytes n : from_be_bytes (to_be_bytes n) = (n mod 2 ^ 32)%N.
Proof.
  unfold from_be_bytes, to_be_bytes. cbn [from_be_bytes_acc].
  rewrite !N_of_byte_of_N, !N.shiftr_div_pow2.
  change (2 ^ 32)%N with (256 * (256 * (256 * 256)))%N.
  rewrite !N.Div0.mod_mul_r, !N.Div0.div_div.
  change (256 * (256 * 256))%N with (2 ^ 24)%N. change (256 * 256 * 256)%N with (2 ^ 24)%N.
  change (256 * 256)%N with (2 ^ 16)%N. change (2 ^ 8)%N with 256%N.
  generalize (N.modulo (n / 2 ^ 24) 256) (N.modulo (n / 2 ^ 16) 256) (N.modulo (n / 256) 256).
  intros. lia.
Qed.

Lemma length_to_be_bytes n : String.length (to_be_bytes n) = 4.
Proof. done. Qed.

Lemma len_u32_small s :
  (N.of_nat (String.length s) < 2 ^ 32)%N → len_u32 s = N.of_nat (String.length s).
Proof. intros. unfold len_u32. by apply N.mod_small. Qed.

Lemma read_exact_app s t :
  read_exact (N.of_nat (String.length s)) (s +:+ t) = Ok (s, t).
Proof.
  unfold read_exact. rewrite decide_True; [|rewrite StrFacts.length_app; lia].
  by rewrite Nat2N.id, StrFacts.take_app, StrFacts.drop_app.
Qed.

Lemma read_exact_Ok n s a b :
  read_exact n s = Ok (a, b) → s = a +:+ b ∧ N.of_nat (String.length a) = n.
Proof.
  unfold read_exact. case_decide as Hn; [|done]. intros [= <- <-].
  rewrite StrFacts.take_drop, StrFacts.length_take. split; [done|lia].
Qed.

Lemma validate_msg_size_Ok n d :
  validate_msg_size n d = Ok tt ↔ (0 < n <= MAX_MSG_SIZE)%N.
Proof. unfold validate_msg_size. repeat case_decide; naive_solver lia. Qed.

Section MessageFacts.
Context {A : Type} `{CodecLaws A}.

(** Reading the frame of [s] at the head of a stream. *)
Lemma read_msg_frame s rest d (Hlen : (N.of_nat (String.length s) < 2 ^ 32)%N) :
  read_msg (to_be_bytes (len_u32 s) +:+ s +:+ rest) d =
    (_ ← validate_msg_size (N.of_nat (String.length s)) d;
     m ← with_context ("Failed to parse " +:+ d) (de s); Ok (m, rest)).
Proof.
  unfold read_msg. rewrite (read_exact_app (to_be_bytes _) (s +:+ rest) : read_exact 4 _ = _).
  autorewrite with outcome. rewrite from_to_be_bytes, len_u32_small, N.mod_small by done.
  destruct (validate_msg_size _ d); [|done..].
  autorewrite with outcome. by rewrite read_exact_app.
Qed.

Lemma write_msg_Ok st m d st' :
  write_msg st m d = Ok st' ↔ ∃ s, ser m = Ok s ∧ st' = st +:+ to_be_bytes (len_u32 s) +:+ s.
Proof.
  unfold write_msg. destruct (ser m) as [s| |]; cbn; [|naive_solver..].
  rewrite StrFacts.app_assoc. naive_solver.
Qed.

Lemma read_msg_fits m s rest d :
  ser m = Ok s → s ≠ "" → (N.of_nat (String.length s) <= MAX_MSG_SIZE)%N →
  read_msg (to_be_bytes (len_u32 s) +:+ s +:+ rest) d = Ok (m, rest).
Proof.
  intros Hser Hne Hmax. rewrite read_msg_frame by (unfold MAX_MSG_SIZE in *; lia).
  assert (0 < N.of_nat (String.length s))%N by (destruct s; simpl; [done|lia]).
  rewrite (proj2 (validate_msg_size_Ok _ _)) by done.
  autorewrite with outcome. by rewrite (de_ser m s) by done.
Qed.
End MessageFacts.

(** C22: whatever sequence of acceptable messages one side writes, the other
    side reads back exactly, message by message, leaving the bytes that follow
    untouched: the framing is self-delimiting. *)
Theorem conversation_roundtrip {A} `{CodecLaws A} (msgs : list A) d d' rest st
    (Hfits : Forall fits msgs) (Hw : write_all_msgs "" d msgs = Ok st) :
  read_n_msgs (length msgs) (st +:+ rest) d' = Ok (msgs, rest).
Proof.
  enough (∀ st0, write_all_msgs st0 d msgs = Ok st →
     ∃ body, st = st0 +:+ body ∧
       read_n_msgs (length msgs) (body +:+ rest) d' = Ok (msgs, rest)) as Hgen.
  { by destruct (Hgen "" Hw) as (body & -> & ?). }
  clear Hw. induction Hfits as [|m msgs (s & Hs & Hne & Hmax) Hrest IH]; intros st0 Hw.
  - exists "". cbn in *. rewrite StrFacts.app_nil_r. naive_solver.
  - cbn in Hw. apply outcome_bind_Ok in Hw as (st1 & Hw1 & Hw2).
    apply write_msg_Ok in Hw1 as (s' & Hs' & ->). rewrite Hs in Hs'. injection Hs' as <-.
    destruct (IH _ Hw2) as (body & -> & Hbody).
    exists (to_be_bytes (len_u32 s) +:+ s +:+ body).
    rewrite !StrFacts.app_assoc. split; [done|].
    cbn [length read_n_msgs]. rewrite (read_msg_fits m s) by done.
    cbn. by rewrite Hbody.
Qed.

(** C23: A reader that returns a message consumed a frame of at most
    4 bytes + 1 MiB, whose announced length is the payload's, non-zero and
    within the limit, and whose payload decodes to the message. *)
Theorem read_msg_bounded {A} `{Codec A} st d (m : A) rest
    (Hr : read_msg st d = Ok (m, rest)) :
  ∃ hdr payload, st = hdr +:+ payload +:+ rest ∧ String.length hdr = 4 ∧
    from_be_bytes hdr = N.of_nat (String.length payload) ∧
    (0 < N.of_nat (String.length payload) <= MAX_MSG_SIZE)%N ∧ de payload = Ok m.
Proof.
  unfold read_msg in Hr.
  apply outcome_bind_Ok in Hr as ([hdr st1] & H1 & Hr).
  apply outcome_bind_Ok in Hr as ([] & H2 & Hr).
  apply outcome_bind_Ok in Hr as ([payload st2] & H3 & Hr).
  apply outcome_bind_Ok in Hr as (m' & H4 & Hr).
  apply with_context_Ok in H1, H3, H4.
  apply read_exact_Ok in H1 as [-> Hl1], H3 as [-> Hl3].
  apply validate_msg_size_Ok in H2. simplify_eq.
  exists hdr, payload. split; [done|]. split; [lia|]. split; [done|]. split; [|done].
  rewrite Hl3. done.
Qed.

(** The writer does not apply the reader's limit: a message whose
    encoding is longer than 1 MiB is written without an error, and the peer
    then refuses it with the "too large" error. *)
Lemma oversized_written_then_refused {A} `{Codec A} (m : A) s st d d' rest
    (Hs : ser m = Ok s) (Hbig : (MAX_MSG_SIZE < N.of_nat (String.length s) < 2 ^ 32)%N) :
  write_msg st m d = Ok (st +:+ to_be_bytes (len_u32 s) +:+ s) ∧
  read_msg (A := A) (to_be_bytes (len_u32 s) +:+ s +:+ rest) d' = Err (d' +:+ " size is too large").
Proof.
  split.
  - unfold write_msg. rewrite Hs. cbn. by rewrite StrFacts.app_assoc.
  - unfold read_msg.
    rewrite (read_exact_app (to_be_bytes _) (s +:+ rest) : read_exact 4 _ = _).
    autorewrite with outcome. rewrite from_to_be_bytes, len_u32_small, N.mod_small by lia.
    unfold validate_msg_size. unfold MAX_MSG_SIZE in *.
    rewrite decide_False, decide_True by lia. done.
Qed.

(** ** Witnesses *)
#[local] Instance request_codec : Codec vmctrl.Request := {
  ser r := Ok (match r with vmctrl.Quit => "Quit" | vmctrl.SubscribeEvents => "SubscribeEvents" end);
  de s := if decide (s = "Quit") then Ok vmctrl.Quit
          else if decide (s = "SubscribeEvents") then Ok vmctrl.SubscribeEvents
          else Err "unexpected variant";
}.
#[local] Instance request_codec_laws : CodecLaws vmctrl.Request.
Proof. split. by intros [] ? [= <-]. Qed.

Example conversation_roundtrip_witness :
  read_n_msgs 2 (("" +:+ to_be_bytes 15 +:+ "SubscribeEvents" +:+ to_be_bytes 4 +:+ "Quit") +:+ "tail")
    "request" = Ok ([vmctrl.SubscribeEvents; vmctrl.Quit], "tail").
Proof.
  apply (conversation_roundtrip [vmctrl.SubscribeEvents; vmctrl.Quit] "request").
  - constructor; [exists "SubscribeEvents"; vm_compute; split; [done|split; [done|intros [=]]]|].
    constructor; [exists "Quit"; vm_compute; split; [done|split; [done|intros [=]]]|constructor].
  - vm_compute. reflexivity.
Defined.

Example read_msg_bounded_witness :
  ∃ hdr payload, to_be_bytes 4 +:+ "Quit" +:+ "x" = hdr +:+ payload +:+ "x" ∧ String.length hdr = 4 ∧
    from_be_bytes hdr = N.of_nat (String.length payload) ∧
    (0 < N.of_nat (String.length payload) <= MAX_MSG_SIZE)%N ∧ de payload = Ok vmctrl.Quit.
Proof. apply (read_msg_bounded _ "request"). vm_compute. reflexivity. Defined.

(** Responses with a kernel log: any codec will do. *)
#[local] Instance report_codec : Codec vmctrl.Report := {
  ser r := Ok (vmctrl.kernel_log r);
  de s := Ok {| vmctrl.kernel_log := s |};
}.

Example oversized_written_then_refused_witness :
  let s := Str.repeat "x" (N.to_nat 1048577) in
  write_msg "" {| vmctrl.kernel_log := s |} "response" = Ok ("" +:+ to_be_bytes (len_u32 s) +:+ s) ∧
  read_msg (A := vmctrl.Report) (to_be_bytes (len_u32 s) +:+ s +:+ "") "response"
    = Err ("response" +:+ " size is too large").
Proof.
  intros s. apply (oversized_written_then_refused _ s); [done|].
  unfold s. rewrite StrFacts.length_repeat, N2Nat.id. done.
Defined.
