(* ===== verification/Deferred.v ===== *)
(** * Deferred cleanup actions ([common-utils/src/lib.rs], [Deferred])

    A [Deferred] collects closures that run, last added first, when it goes
    out of scope; an action can be run early ([call_now]) or taken out
    unrun ([remove], [remove_all]).  An action is an element of an arbitrary
    type; running it is recorded in the order it happens. *)
From S2P Require Import Prelude.
From Stdlib Require Import Sorting.Sorted.

Module deferred.
Abbreviation ActionID := nat.

Record Deferred (A : Type) := mkDeferred {
  actions : list (ActionID * A);
  last_id : ActionID;
}.
Arguments mkDeferred {_} _ _.
Arguments actions {_} _.
Arguments last_id {_} _.

Section Operations.
Context {A : Type}.
Implicit Types (d : Deferred A) (id : ActionID) (a : A).

(** [Deferred::new] *)
Definition new : Deferred A := mkDeferred [] 0.

(** [Deferred::add] *)
Definition add d a : Deferred A * ActionID :=
  let id := last_id d in
  (mkDeferred (actions d ++ [(id, a)]) (last_id d + 1), id).

(** [Deferred::pop_action]: the first action with this id is taken out. *)
Definition pop_action d id : option (ActionID * A) * Deferred A :=
  match list_find (λ p : ActionID * A, p.1 = id) (actions d) with
  | Some (idx, p) => (Some p, mkDeferred (delete idx (actions d)) (last_id d))
  | None => (None, d)
  end.

(** [Deferred::call_now]: the actions that ran, and the state after. *)
Definition call_now d id : list (ActionID * A) * Deferred A :=
  match pop_action d id with
  | (Some p, d') => ([p], d')
  | (None, d') => ([], d')
  end.

(** [Deferred::remove] *)
Definition remove d id : bool * Deferred A :=
  match pop_action d id with
  | (Some _, d') => (true, d')
  | (None, d') => (false, d')
  end.

(** [Deferred::remove_all] *)
Definition remove_all d : Deferred A := mkDeferred [] (last_id d).

(** [Drop for Deferred]: drain in reverse. *)
Definition drop_deferred d : list (ActionID * A) := reverse (actions d).

(** A scope that uses a [Deferred]: what it does to it, in order. *)
Inductive op :=
| Add (a : A)
| CallNow (id : ActionID)
| Remove (id : ActionID)
| RemoveAll.

(** One operation: state after, actions that ran, actions taken out unrun,
    actions added. *)
Definition exec_op d (o : op) :
    Deferred A * list (ActionID * A) * list (ActionID * A) * list (ActionID * A) :=
  match o with
  | Add a => let '(d', id) := add d a in (d', [], [], [(id, a)])
  | CallNow id => let '(ran, d') := call_now d id in (d', ran, [], [])
  | Remove id => let '(_, d') := remove d id in (d', [], option_list (pop_action d id).1, [])
  | RemoveAll => (remove_all d, [], actions d, [])
  end.

Record log := mkLog {
  ran : list (ActionID * A);       (* in the order they ran *)
  discarded : list (ActionID * A);
  added : list (ActionID * A);
}.

Fixpoint exec d (ops : list op) : Deferred A * log :=
  match ops with
  | [] => (d, mkLog [] [] [])
  | o :: ops =>
      let '(d1, r, x, n) := exec_op d o in
      let '(d2, l) := exec d1 ops in
      (d2, mkLog (r ++ ran l) (x ++ discarded l) (n ++ added l))
  end.

(** The whole life of the value: created, used, dropped. *)
Definition scope (ops : list op) : log :=
  let '(d, l) := exec new ops in
  mkLog (ran l ++ drop_deferred d) (discarded l) (added l).

(** Ids are handed out in increasing order and never reused. *)
Definition wf d : Prop :=
  StronglySorted lt (actions d).*1 ∧ Forall (λ p, p.1 < last_id d) (actions d).

(** ** Lemmas *)
Lemma pop_action_spec d id p d' :
  pop_action d id = (Some p, d') →
  p.1 = id ∧ ∃ l1 l2, actions d = l1 ++ p :: l2 ∧ actions d' = l1 ++ l2 ∧ last_id d' = last_id d.
Proof.
  unfold pop_action. destruct (list_find _ _) as [[i q]|] eqn:E; [|done].
  intros [= <- <-]. apply list_find_Some in E as (Hi & Hq & _).
  split; [done|]. exists (take i (actions d)), (drop (S i) (actions d)).
  rewrite take_drop_middle by done. simpl. rewrite delete_take_drop. done.
Qed.

Lemma pop_action_None d id d' :
  pop_action d id = (None, d') → d' = d ∧ id ∉ (actions d).*1.
Proof.
  unfold pop_action. destruct (list_find _ _) as [[i q]|] eqn:E; [done|].
  intros [= <-]. split; [done|]. apply list_find_None in E.
  rewrite list_elem_of_fmap. intros (p & -> & Hp).
  rewrite Forall_forall in E. by apply (E p).
Qed.

Lemma StronglySorted_middle (l1 l2 : list nat) x :
  StronglySorted lt (l1 ++ x :: l2) → StronglySorted lt (l1 ++ l2).
Proof.
  induction l1 as [|y l1 IH]; simpl; intros H; inversion_clear H; [done|].
  constructor; [auto|]. rewrite Forall_app in *. rewrite Forall_cons in *. naive_solver.
Qed.

Lemma exec_op_wf d o d' r x n : exec_op d o = (d', r, x, n) → wf d → wf d'.
Proof.
  intros H [Hs Hl]. unfold wf.
  assert (∀ id p d1, pop_action d id = (p, d1) →
    StronglySorted lt (actions d1).*1 ∧ Forall (λ p, p.1 < last_id d1) (actions d1)) as Hpop.
  { intros id [p|] d1 E.
    - apply pop_action_spec in E as (_ & l1 & l2 & E & -> & ->). rewrite E in Hs, Hl.
      rewrite fmap_app, fmap_cons in Hs. rewrite fmap_app.
      split; [by eapply StronglySorted_middle|].
      rewrite Forall_app in *. rewrite Forall_cons in *. naive_solver.
    - by apply pop_action_None in E as [-> _]. }
  destruct o; simpl in H; unfold call_now, remove in H; simplify_eq/=.
  - rewrite fmap_app. split.
    + apply StronglySorted_snoc; [done|]. by apply Forall_fmap.
    + apply Forall_app. split; [|repeat constructor; simpl; lia].
      eapply Forall_impl; [exact Hl|]. simpl; intros; lia.
  - destruct (pop_action d id) as [[p|] d1] eqn:E; simplify_eq; eauto.
  - destruct (pop_action d id) as [[p|] d1] eqn:E; simplify_eq; eauto.
  - repeat constructor.
Qed.

Lemma exec_op_conserves d o d' r x n :
  exec_op d o = (d', r, x, n) →
  actions d ++ n ≡ₚ r ++ x ++ actions d' ∧
  last_id d' = last_id d + length n ∧ n.*1 = seq (last_id d) (length n).
Proof.
  intros H. destruct o; simpl in H; unfold call_now, remove in H; simplify_eq/=.
  - rewrite Nat.add_1_r. done.
  - destruct (pop_action d id) as [[p|] d1] eqn:E; simplify_eq/=.
    + apply pop_action_spec in E as (_ & l1 & l2 & -> & -> & ->).
      rewrite app_nil_r, Nat.add_0_r. split; [|done]. symmetry. apply Permutation_middle.
    + apply pop_action_None in E as [-> _]. by rewrite app_nil_r, Nat.add_0_r.
  - destruct (pop_action d id) as [[p|] d1] eqn:E; simplify_eq/=.
    + apply pop_action_spec in E as (_ & l1 & l2 & -> & -> & ->).
      rewrite app_nil_r, Nat.add_0_r. split; [|done]. symmetry. apply Permutation_middle.
    + apply pop_action_None in E as [-> _]. by rewrite app_nil_r, Nat.add_0_r.
  - rewrite Nat.add_0_r. done.
Qed.

Lemma exec_wf d ops d' l : exec d ops = (d', l) → wf d → wf d'.
Proof.
  revert d d' l; induction ops as [|o ops IH]; intros d d' l; simpl; [naive_solver|].
  destruct (exec_op d o) as [[[d1 r] x] n] eqn:E, (exec d1 ops) as [d2 l'] eqn:E'.
  intros [= <- <-] ?. eauto using exec_op_wf.
Qed.

Lemma exec_conserves d ops d' l :
  exec d ops = (d', l) →
  actions d ++ added l ≡ₚ ran l ++ discarded l ++ actions d' ∧
  (added l).*1 = seq (last_id d) (length (added l)).
Proof.
  revert d d' l; induction ops as [|o ops IH]; intros d d' l; simpl.
  { intros [= <- <-]; simpl. by rewrite app_nil_r. }
  destruct (exec_op d o) as [[[d1 r] x] n] eqn:E, (exec d1 ops) as [d2 l'] eqn:E'.
  intros [= <- <-]; simpl.
  apply exec_op_conserves in E as (Hp & Hl & Hn). apply IH in E' as (Hp' & Hn').
  split.
  - rewrite (assoc_L (++)), Hp, <-!(assoc_L (++)), Hp'. solve_Permutation.
  - rewrite fmap_app, Hn, Hn', Hl, length_app. by rewrite seq_app.
Qed.

Lemma wf_new : wf new.
Proof. repeat constructor. Qed.
End Operations.

Arguments op : clear implicits.
Arguments log : clear implicits.

(** However a scope adds, runs early and removes deferred actions,
    once the value is dropped every action that was added has either run
    exactly once or been taken out unrun, never both and never twice. *)
Lemma scope_runs_once {A} (ops : list (op A)) :
  let l := scope ops in
  added l ≡ₚ ran l ++ discarded l ∧ NoDup (ran l ++ discarded l).*1.
Proof.
  unfold scope. destruct (exec new ops) as [d l] eqn:E. simpl.
  apply exec_conserves in E as [Hp Hn]. simpl in Hp, Hn.
  assert (added l ≡ₚ (ran l ++ drop_deferred d) ++ discarded l) as Hperm.
  { unfold drop_deferred. rewrite Hp, reverse_Permutation. solve_Permutation. }
  split; [done|]. rewrite <-Hperm, Hn. apply NoDup_seq.
Qed.

(** Dropping runs the remaining actions last-added first: their ids
    come out strictly decreasing, whatever was run early or removed before,
    and no action runs after a removal of its id. *)
Lemma drop_is_lifo {A} (ops : list (op A)) d l (He : exec new ops = (d, l)) :
  StronglySorted (flip lt) (drop_deferred d).*1 ∧
  ran (scope ops) = ran l ++ drop_deferred d ∧
  (∀ p, p ∈ discarded l → p.1 ∉ (ran (scope ops)).*1).
Proof.
  split_and!.
  - apply exec_wf in He as [Hs _]; [|apply wf_new].
    unfold drop_deferred. rewrite fmap_reverse.
    induction Hs as [|x xs Hxs IH Hx]; [constructor|].
    rewrite reverse_cons.
    assert (Forall (λ y, x < y) (reverse xs)) as Hrx.
    { rewrite Forall_forall in *. intros y. rewrite elem_of_reverse. apply Hx. }
    clear Hxs Hx. revert Hrx.
    induction IH as [|y ys Hys IH' Hy]; intros Hrx; [by repeat constructor|].
    apply Forall_cons in Hrx as [? ?]. constructor; [auto|].
    apply Forall_app. split; [done|by repeat constructor].
  - unfold scope. by rewrite He.
  - intros p Hp Hin. destruct (scope_runs_once ops) as [_ Hnd].
    rewrite fmap_app, NoDup_app in Hnd. destruct Hnd as (_ & Hdis & _).
    apply (Hdis _ Hin). unfold scope. rewrite He. simpl.
    by apply list_elem_of_fmap_2.
Qed.

Example drop_is_lifo_witness :
  let ops := [Add "a"; Add "b"; Add "c"; CallNow 1; Remove 7] in
  StronglySorted (flip lt) [2; 0] ∧
  ran (scope ops) = [(1, "b")] ++ [(2, "c"); (0, "a")] ∧
  (∀ p, p ∈ ([] : list (nat * string)) → p.1 ∉ (ran (scope ops)).*1).
Proof.
  exact (drop_is_lifo [Add "a"; Add "b"; Add "c"; CallNow 1; Remove 7]
    (mkDeferred [(0, "a"); (2, "c")] 3) _ eq_refl).
Defined.
End deferred.
