(* ===== verification/Common.v ===== *)
(** * Shared data and helpers ([common-utils/src/lib.rs])

    Label names, operating-system and network-helper choices, the custom
    action configuration with its validation and its transfer encoding, and
    the tests on filesystem types. *)
From S2P Require Import Prelude Ipc.
From Stdlib Require Import Ascii.

Definition VM_GATEWAY_IP : string := "192.168.127.1".
Definition VM_IP : string := "192.168.127.2".
Definition VM_CTRL_PORT : N := 7350.
Definition VMNET_PREFIX_LEN : N := 30.

(** [path_safe_label_name] *)
Definition label_subst (c : ascii) : ascii :=
  if decide (c = "/"%char) then "-"
  else if decide (c = " "%char ∨ c = ":"%char) then "_" else c.

Fixpoint skip_dashes (s : string) : option string :=
  match s with
  | "" => None
  | String c s' => if decide (c = "-"%char) then skip_dashes s' else Some s
  end.

Definition path_safe_label_name (name : string) : option string :=
  skip_dashes (Str.map label_subst name).

Inductive OSType := Linux | FreeBSD.
#[global] Instance OSType_eq_dec : EqDecision OSType.
Proof. solve_decision. Defined.

Inductive NetHelper := GvProxy | VmNet.
#[global] Instance NetHelper_eq_dec : EqDecision NetHelper.
Proof. solve_decision. Defined.

Definition bind_addr_override (self : NetHelper) (is_non_loopback : bool) : NetHelper :=
  if is_non_loopback then GvProxy else self.

Definition NetHelper_display (h : NetHelper) : string :=
  match h with GvProxy => "gvproxy" | VmNet => "vmnet" end.

(** ** Custom actions *)
Record CustomActionConfig := {
  description : string;
  before_mount : string;
  after_mount : string;
  before_unmount : string;
  environment : list string;          (* KEY=value *)
  capture_environment : list string;
  override_nfs_export : string;
  nfs_export_subdirs : list string;
  required_os : option OSType;
}.
#[global] Instance CustomActionConfig_eq_dec : EqDecision CustomActionConfig.
Proof. solve_decision. Defined.

Definition VM_EXPORTED_VARS : list string := ["ALFS_VM_MOUNT_POINT"].

Definition all_scripts (c : CustomActionConfig) : list string :=
  [before_mount c; after_mount c; before_unmount c].

(** [Path::is_absolute] on Unix *)
Definition is_absolute (p : string) : bool := Str.starts_with "/" p.

Definition validate_subdir (subdir : string) : outcome unit :=
  if decide (subdir = "") then Err "nfs_export_subdirs entries must not be empty"
  else if is_absolute subdir
       then Err ("nfs_export_subdirs entry " +:+ subdir +:+ " must be a relative path, not absolute")
       else Ok tt.

(** [CustomActionConfig::validate] *)
Definition validate (c : CustomActionConfig) : outcome CustomActionConfig :=
  _ ← foldM (λ _ subdir, validate_subdir subdir) tt (nfs_export_subdirs c);
  Ok c.

(** RON serialization ([Codec]) and percent encoding are third-party. *)
Class PercentEncoding := {
  pct_encode : string → string;           (* utf8_percent_encode(.., NON_ALPHANUMERIC) *)
  pct_decode : string → outcome string;   (* percent_decode_str(..).decode_utf8() *)
}.
Class PercentLaws `{PercentEncoding} := {
  pct_decode_encode s : pct_decode (pct_encode s) = Ok s;
}.

Definition percent_encode `{Codec CustomActionConfig, PercentEncoding}
    (c : CustomActionConfig) : outcome string :=
  ron_encoded ← ser c;
  Ok (pct_encode ron_encoded).

Definition percent_decode `{Codec CustomActionConfig, PercentEncoding}
    (encoded : string) : outcome CustomActionConfig :=
  decoded ← pct_decode encoded;
  config ← de decoded;
  validate config.

(** The configuration of earlier releases, with byte strings for text. *)
Record CustomActionConfigOld := {
  old_description : string;
  old_before_mount : string;
  old_after_mount : string;
  old_before_unmount : string;
  old_environment : list string;
  old_capture_environment : list string;
  old_override_nfs_export : string;
}.

(** [From<CustomActionConfigOld>]; [to_str_lossy] (bstr) replaces bytes that
    are not UTF-8. *)
Definition from_old (to_str_lossy : string → string) (old : CustomActionConfigOld) :
    CustomActionConfig := {|
  description := to_str_lossy (old_description old);
  before_mount := to_str_lossy (old_before_mount old);
  after_mount := to_str_lossy (old_after_mount old);
  before_unmount := to_str_lossy (old_before_unmount old);
  environment := to_str_lossy <$> old_environment old;
  capture_environment := to_str_lossy <$> old_capture_environment old;
  override_nfs_export := old_override_nfs_export old;
  nfs_export_subdirs := [];
  required_os := None;
|}.

(** [is_encrypted_fs] *)
Definition is_encrypted_fs (fs_type : string) : bool :=
  bool_decide (fs_type = "crypto_LUKS" ∨ fs_type = "BitLocker").

(** [fail_for_known_nonmountable_types] *)
Definition fail_for_known_nonmountable_types (fs_type : option string) : outcome unit :=
  let err_prefix := "partition cannot be mounted directly." in
  match fs_type with
  | Some "LVM2_member" => Err ("`LVM2_member` " +:+ err_prefix)
  | Some "linux_raid_member" => Err ("`linux_raid_member` " +:+ err_prefix)
  | _ => Ok tt
  end.

(** ** Lemmas *)
Definition label_safe (c : ascii) : bool :=
  bool_decide (c ≠ "/"%char ∧ c ≠ " "%char ∧ c ≠ ":"%char).

Lemma label_subst_safe c : label_safe (label_subst c) = true.
Proof.
  unfold label_safe, label_subst. apply bool_decide_eq_true.
  repeat case_decide; naive_solver.
Qed.

Lemma label_subst_id c : label_safe c = true → label_subst c = c.
Proof.
  unfold label_safe, label_subst. rewrite bool_decide_eq_true.
  intros (? & ? & ?). rewrite !decide_False by naive_solver. done.
Qed.

Lemma map_label_safe s : Str.forallb label_safe (Str.map label_subst s) = true.
Proof. induction s; simpl; [done|]. by rewrite label_subst_safe. Qed.

Lemma map_label_id s : Str.forallb label_safe s = true → Str.map label_subst s = s.
Proof.
  induction s; simpl; [done|]. rewrite andb_true_iff. intros [? ?].
  by rewrite label_subst_id, IHs.
Qed.

Lemma skip_dashes_Some s r :
  skip_dashes s = Some r →
  ∃ ds c r', s = ds +:+ r ∧ r = String c r' ∧ c ≠ "-"%char ∧
             Str.forallb (λ a, bool_decide (a = "-"%char)) ds = true.
Proof.
  induction s as [|a s IH]; simpl; [done|]. case_decide as Ha.
  - intros (ds & c & r' & -> & -> & Hc & Hds)%IH. exists (String a ds), c, r'.
    split; [done|]. split; [done|]. split; [done|]. simpl. by rewrite bool_decide_eq_true_2.
  - intros [= <-]. by exists "", a, s.
Qed.

Lemma skip_dashes_None s :
  skip_dashes s = None ↔ Str.forallb (λ a, bool_decide (a = "-"%char)) s = true.
Proof.
  induction s as [|a s IH]; simpl; [done|]. case_decide as Ha.
  - rewrite bool_decide_eq_true_2 by done. done.
  - rewrite bool_decide_eq_false_2 by done. done.
Qed.

(** A name that came out of [path_safe_label_name] is left alone by it. *)
Lemma path_safe_stable name r :
  path_safe_label_name name = Some r →
  r ≠ "" ∧ Str.starts_with "-" r = false ∧ Str.forallb label_safe r = true ∧
  path_safe_label_name r = Some r.
Proof.
  unfold path_safe_label_name. intros (ds & c & r' & E & -> & Hc & _)%skip_dashes_Some.
  pose proof (map_label_safe name) as Hsafe. rewrite E, StrFacts.forallb_app in Hsafe.
  apply andb_true_iff in Hsafe as [_ Hsafe]. split_and!; [done| |done|].
  - destruct (Str.starts_with "-" (String c r')) eqn:Hsw; [|done].
    apply StrFacts.starts_with_spec in Hsw as [? [= ? ?]]. done.
  - rewrite map_label_id by done. simpl. by rewrite decide_False.
Qed.

Lemma validate_subdirs_Ok l :
  foldM (λ _ subdir, validate_subdir subdir) tt l = Ok tt ↔
  Forall (λ d, d ≠ "" ∧ is_absolute d = false) l.
Proof.
  induction l as [|d l IH]; simpl; [by split; [constructor|]|].
  rewrite Forall_cons, <-IH. unfold validate_subdir.
  case_decide; simpl; [naive_solver|]. destruct (is_absolute d); naive_solver.
Qed.

Lemma validate_Ok c c' :
  validate c = Ok c' ↔ c' = c ∧ Forall (λ d, d ≠ "" ∧ is_absolute d = false) (nfs_export_subdirs c).
Proof.
  unfold validate. rewrite <-validate_subdirs_Ok.
  destruct (foldM _ tt _) as [[]| |]; simpl; naive_solver.
Qed.

(** A label becomes a path component: the name produced is not empty,
    does not start with a dash, contains no slash, space or colon, and is
    left alone by a second application; no name is produced exactly when the
    label consists of slashes and dashes only. *)
Lemma path_safe_label_name_spec name :
  match path_safe_label_name name with
  | Some r =>
      r ≠ "" ∧ Str.starts_with "-" r = false ∧ Str.forallb label_safe r = true ∧
      path_safe_label_name r = Some r
  | None => Str.forallb (λ c, bool_decide (c = "-"%char ∨ c = "/"%char)) name = true
  end.
Proof.
  destruct (path_safe_label_name name) as [r|] eqn:E; [by eapply path_safe_stable|].
  apply skip_dashes_None in E. induction name as [|a name IH]; simpl in *; [done|].
  apply andb_true_iff in E as [Ha E]. rewrite IH by done.
  apply bool_decide_eq_true in Ha. rewrite bool_decide_eq_true_2; [done|].
  revert Ha. unfold label_subst. repeat case_decide; naive_solver.
Qed.

Lemma percent_decode_encode `{CodecLaws CustomActionConfig, PercentLaws} c s :
  percent_encode c = Ok s → percent_decode s = validate c.
Proof.
  unfold percent_encode. intros (r & Hr & [= <-])%outcome_bind_Ok.
  unfold percent_decode. rewrite pct_decode_encode. autorewrite with outcome.
  rewrite (de_ser c r Hr). by autorewrite with outcome.
Qed.

(** What the host encodes for the guest, the guest decodes: a custom
    action with valid export subdirectories survives
    [percent_encode] / [percent_decode], and one with an empty or absolute
    subdirectory is refused by the decoder. *)
Lemma custom_action_transfer `{CodecLaws CustomActionConfig, PercentLaws} c s
    (Henc : percent_encode c = Ok s) :
  (Forall (λ d, d ≠ "" ∧ is_absolute d = false) (nfs_export_subdirs c) ↔ percent_decode s = Ok c) ∧
  (∀ c', percent_decode s = Ok c' → c' = c).
Proof.
  rewrite (percent_decode_encode c s Henc). split.
  - rewrite validate_Ok. naive_solver.
  - intros c' [-> _]%validate_Ok. done.
Qed.

(** A codec and an encoding for one configuration are enough to see that the
    hypotheses can hold. *)
Module Witness.
Definition sample : CustomActionConfig := {|
  description := "borg"; before_mount := ""; after_mount := "borg mount $REPO";
  before_unmount := ""; environment := ["A=1"]; capture_environment := ["REPO"];
  override_nfs_export := "/mnt/borg"; nfs_export_subdirs := ["a/b"; "c"]; required_os := None |}.

#[local] Instance codec : Codec CustomActionConfig := {
  ser c := if decide (c = sample) then Ok "sample" else Err "unsupported";
  de s := if decide (s = "sample") then Ok sample else Err "unsupported";
}.
#[local] Instance codec_laws : CodecLaws CustomActionConfig.
Proof.
  split. intros a s. cbn. case_decide as Ha; [|done]. intros [= <-].
  by rewrite decide_True, Ha.
Qed.
#[local] Instance pct : PercentEncoding := { pct_encode s := s; pct_decode s := Ok s }.
#[local] Instance pct_laws : PercentLaws.
Proof. by split. Qed.

Example custom_action_transfer_witness :
  (Forall (λ d, d ≠ "" ∧ is_absolute d = false) ["a/b"; "c"] ↔ percent_decode "sample" = Ok sample) ∧
  (∀ c', percent_decode "sample" = Ok c' → c' = sample).
Proof. apply (custom_action_transfer sample). vm_compute. reflexivity. Defined.
End Witness.
