(* ===== verification/EnvVars.v ===== *)
(** * Environment of custom actions ([utils.rs] [find_env_vars],
      [settings.rs] [prepare_environment])

    A custom action's shell scripts are scanned for [$VAR] and [${VAR}]; the
    host's values of those variables are passed into the VM, and a variable
    with no value stops the mount. *)
From S2P Require Import Prelude Common.
From Stdlib Require Import Ascii.

Module env_vars.
(** A [char] is a Unicode scalar value. *)
Abbreviation char := N.
Definition chr (c : ascii) : char := N_of_ascii c.
#[global] Arguments chr : simpl never.

(** [push_char]: the UTF-8 encoding of a character. *)
Definition utf8_encode (c : char) : string :=
  let byte (n : N) := ascii_of_N n in
  let hi (k : N) := N.shiftr c k in
  let lo (k : N) := (128 + N.land (N.shiftr c k) 63)%N in
  if decide (c < 128)%N then String (byte c) ""
  else if decide (c < 2048)%N then
    String (byte (192 + hi 6)%N) (String (byte (lo 0%N)) "")
  else if decide (c < 65536)%N then
    String (byte (224 + hi 12)%N) (String (byte (lo 6%N)) (String (byte (lo 0%N)) ""))
  else
    String (byte (240 + hi 18)%N) (String (byte (lo 12%N))
      (String (byte (lo 6%N)) (String (byte (lo 0%N)) ""))).

#[global] Arguments utf8_encode : simpl never.
Definition encode (cs : list char) : string := foldr (λ c s, utf8_encode c +:+ s) "" cs.

(** The state of the scanner. *)
Record scan := mkScan {
  in_var : bool;
  in_braces : bool;
  var_name : string;
  vars : gset string;
  last_char : char;
}.

(** [if !var_name.is_empty() { vars.insert(..); var_name.clear(); }] *)
Definition flush (name : string) (vs : gset string) : gset string :=
  if decide (name = "") then vs else {[ name ]} ∪ vs.

#[global] Arguments flush : simpl never.

Section Scanner.
(** [char::is_alphanumeric]: Unicode's Alphabetic and Numeric properties. *)
Context (is_alphanumeric : char → bool).

Definition ident (c : char) : bool := is_alphanumeric c || bool_decide (c = chr "_").

(** One iteration of the loop of [find_env_vars], arms in order. *)
Definition step (s : scan) (c : char) : scan :=
  let '(mkScan iv ib name vs lst) := s in
  let '(iv, ib, name, vs) :=
    match iv, ib with
    | true, true =>
        if decide (c = chr "}") then (false, false, "", flush name vs)
        else if ident c then (true, true, name +:+ utf8_encode c, vs)
        else (false, false, "", vs)
    | true, false =>
        if decide (c = chr "$") then (true, false, "", flush name vs)
        else if decide (c = chr "{" ∧ name = "") then (true, true, name, vs)
        else if ident c then (true, false, name +:+ utf8_encode c, vs)
        else (false, false, "", flush name vs)
    | false, false =>
        if decide (c = chr "$") then
          (if decide (lst = chr "\") then (false, false, name, vs) else (true, false, name, vs))
        else (false, false, name, vs)
    | false, true => (false, false, name, vs)   (* should never happen *)
    end in
  mkScan iv ib name vs c.

Definition init : scan := mkScan false false "" ∅ (chr "^").

Definition finish (s : scan) : gset string :=
  if in_var s && negb (in_braces s) && negb (bool_decide (var_name s = ""))
  then {[ var_name s ]} ∪ vars s else vars s.

Definition find_env_vars (expression : list char) : gset string :=
  finish (foldl step init expression).

(** ** [CustomActionConfig::prepare_environment] *)
Section Prepare.
(** Decoding of a script into characters (bstr), the host's environment, and
    the order in which a [HashSet] is iterated. *)
Context (chars : string → list char) (var_os : string → option string)
        (iter_set : gset string → list string).

Definition var_key (var_str : string) : string :=
  match Str.split "=" var_str with k :: _ => k | [] => "" end.

Definition referenced_variables (c : CustomActionConfig) : gset string :=
  foldr (λ script acc, find_env_vars (chars script) ∪ acc) ∅ (all_scripts c).

Definition resolve_step (predefined : gset string) (acc : list string * list string)
    (name : string) : list string * list string :=
  let '(env, undef) := acc in
  match var_os name with
  | Some v => (env ++ [name +:+ "=" +:+ v], undef)
  | None =>
      if negb (bool_decide (name ∈ VM_EXPORTED_VARS)) && negb (bool_decide (name ∈ predefined))
      then (env, undef ++ [name]) else (env, undef)
  end.

(** The second loop: values found are pushed, missing ones collected. *)
Definition resolve_vars (predefined : gset string) (names : list string)
    (env_vars : list string) : list string * list string :=
  foldl (resolve_step predefined) (env_vars, []) names.

Definition prepare_environment (c : CustomActionConfig) (env_vars : list string) :
    outcome (list string) :=
  let predefined_vars : gset string := list_to_set (var_key <$> environment c) in
  let env_vars := env_vars ++ environment c in
  let '(env_vars, undefined_vars) :=
    resolve_vars predefined_vars
      (iter_set (referenced_variables c) ++ capture_environment c) env_vars in
  match undefined_vars with
  | [] => Ok env_vars
  | _ => Err ("required environment variables not defined: " +:+ Str.join ", " undefined_vars)
  end.
End Prepare.

(** ** Lemmas *)
(** What holds between iterations: braces only inside a variable, no partial
    name outside one, collected names are not empty. *)
Definition scan_inv (s : scan) : Prop :=
  (in_braces s = true → in_var s = true) ∧
  (in_var s = false → var_name s = "") ∧
  "" ∉ vars s.

Lemma flush_nonempty name vs : "" ∉ vs → "" ∉ flush name vs.
Proof. unfold flush. case_decide; set_solver. Qed.

Lemma flush_mono name vs v : v ∈ vs → v ∈ flush name vs.
Proof. unfold flush. case_decide; set_solver. Qed.

Lemma flush_name name vs : name ≠ "" → name ∈ flush name vs.
Proof. intros. unfold flush. rewrite decide_False by done. set_solver. Qed.

(** Case analysis on the conditions of one step. *)
Ltac step_cases :=
  simpl; repeat match goal with |- context [if ?b then _ else _] => destruct b; simpl end.

Lemma step_inv s c : scan_inv s → scan_inv (step s c).
Proof.
  destruct s as [iv ib name vs lst]; unfold scan_inv; simpl; intros (Hb & Hn & He).
  pose proof (flush_nonempty name vs He).
  destruct iv, ib; [| |by discriminate (Hb eq_refl)|specialize (Hn eq_refl); subst name];
    step_cases; split_and!; intros; first [done | discriminate | assumption].
Qed.

Lemma init_inv : scan_inv init.
Proof. unfold scan_inv, init; simpl. set_solver. Qed.

Lemma foldl_step_inv cs s : scan_inv s → scan_inv (foldl step s cs).
Proof. revert s; induction cs; simpl; auto using step_inv. Qed.

Lemma step_mono s c v : v ∈ vars s → v ∈ vars (step s c).
Proof.
  destruct s as [iv ib name vs lst]; simpl; intros Hv. pose proof (flush_mono name vs v Hv).
  destruct iv, ib; step_cases; assumption.
Qed.

Lemma foldl_step_mono cs s v : v ∈ vars s → v ∈ vars (foldl step s cs).
Proof. revert s; induction cs; simpl; auto using step_mono. Qed.

Lemma finish_mono s v : v ∈ vars s → v ∈ finish s.
Proof. unfold finish. case_match; set_solver. Qed.

Lemma step_last s c : last_char (step s c) = c.
Proof. destruct s. simpl. by repeat case_match. Qed.

(** Identifier characters extend the name. *)
Lemma foldl_ident cs b name vs lst :
  Forall (λ c, ident c = true) cs →
  (∀ c, ident c = true → c ≠ chr "$" ∧ c ≠ chr "{" ∧ c ≠ chr "}") →
  ∃ lst', foldl step (mkScan true b name vs lst) cs = mkScan true b (name +:+ encode cs) vs lst'.
Proof.
  intros Hcs Hsep. revert name lst. induction Hcs as [|c cs Hc Hcs IH]; intros name lst; simpl.
  { rewrite StrFacts.app_nil_r. eauto. }
  destruct (Hsep c Hc) as (H1 & H2 & H3).
  destruct b; rewrite ?decide_False by naive_solver; rewrite Hc;
    rewrite <-StrFacts.app_assoc; apply IH.
Qed.

Lemma utf8_encode_nonempty c : utf8_encode c ≠ "".
Proof. unfold utf8_encode. by repeat case_decide. Qed.

Section PrepareFacts.
Context (var_os : string → option string).

(** What becomes of one name: a value from the host, nothing, or an error. *)
Definition host_value (name : string) : option string :=
  (λ v, name +:+ "=" +:+ v) <$> var_os name.
Definition known (predefined : gset string) (name : string) : Prop :=
  is_Some (var_os name) ∨ name ∈ VM_EXPORTED_VARS ∨ name ∈ predefined.
#[global] Instance known_dec predefined name : Decision (known predefined name).
Proof. unfold known. apply _. Defined.

Lemma resolve_vars_spec (predefined : gset string) names env undef :
  ∃ undef', foldl (resolve_step var_os predefined) (env, undef) names =
              (env ++ omap host_value names, undef ++ undef') ∧
    ∀ x, x ∈ undef' ↔ x ∈ names ∧ ¬ known predefined x.
Proof.
  revert env undef; induction names as [|n names IH]; intros env undef; simpl.
  { exists []. rewrite !app_nil_r. set_solver. }
  destruct (var_os n) as [v|] eqn:Hv.
  { destruct (IH (env ++ [n +:+ "=" +:+ v]) undef) as (u & Hf & Hu). exists u.
    simpl in Hf. rewrite Hf. unfold host_value at 2. rewrite Hv. simpl. rewrite <-app_assoc. split; [done|].
    intros x. rewrite Hu, elem_of_cons. split; [naive_solver|].
    intros [[->|?] Hx]; [|naive_solver]. unfold known in Hx. rewrite Hv in Hx. naive_solver. }
  unfold host_value at 1. rewrite Hv. simpl.
  destruct (decide (known predefined n)) as [Hk|Hk].
  - replace (negb _ && negb _) with false; [|unfold known in Hk; rewrite Hv in Hk;
      repeat case_bool_decide; naive_solver].
    destruct (IH env undef) as (u & -> & Hu). exists u. split; [done|].
    intros x. rewrite Hu, elem_of_cons. naive_solver.
  - replace (negb _ && negb _) with true; [|unfold known in Hk; repeat case_bool_decide; naive_solver].
    destruct (IH env (undef ++ [n])) as (u & -> & Hu). exists (n :: u).
    rewrite <-app_assoc. split; [done|]. intros x. rewrite !elem_of_cons, Hu. naive_solver.
Qed.
End PrepareFacts.

Lemma encode_nonempty cs : cs ≠ [] → encode cs ≠ "".
Proof.
  destruct cs as [|c cs]; [done|]. simpl. intros _ [H _]%StrFacts.app_eq_nil.
  by apply (utf8_encode_nonempty c).
Qed.
End Scanner.

(** The scanner never reaches its "should never happen" arm: after any
    input, being inside braces implies being inside a variable, no partial
    name survives outside a variable, and the empty name is never reported. *)
Lemma scanner_invariant is_alnum cs :
  let s := foldl (step is_alnum) init cs in
  (in_braces s = true → in_var s = true) ∧ (in_var s = false → var_name s = "") ∧
  "" ∉ find_env_vars is_alnum cs.
Proof.
  intros s. pose proof (foldl_step_inv is_alnum cs init init_inv) as (Hb & Hn & He).
  fold s in Hb, Hn, He. split_and!; [done..|].
  unfold find_env_vars. fold s. unfold finish.
  case_match eqn:E; [|done]. apply andb_true_iff in E as [_ E].
  apply negb_true_iff, bool_decide_eq_false in E. set_solver.
Qed.

(** Both spellings of a reference are found, in any context in which the
    scanner is outside a variable and the dollar is not escaped: [${NAME}]
    whatever follows it, and [$NAME] when the end of the text or a
    non-identifier character follows. *)
Lemma references_found is_alnum pre cs post
    (Hsep : ∀ c, ident is_alnum c = true → c ≠ chr "$" ∧ c ≠ chr "{" ∧ c ≠ chr "}")
    (Hcs : Forall (λ c, ident is_alnum c = true) cs) (Hne : cs ≠ [])
    (Hout : in_var (foldl (step is_alnum) init pre) = false)
    (Hesc : last pre ≠ Some (chr "\")) :
  encode cs ∈ find_env_vars is_alnum (pre ++ [chr "$"; chr "{"] ++ cs ++ [chr "}"] ++ post) ∧
  (head post = None ∨ (∃ c, head post = Some c ∧ ident is_alnum c = false) →
   encode cs ∈ find_env_vars is_alnum (pre ++ [chr "$"] ++ cs ++ post)).
Proof.
  unfold find_env_vars. rewrite !foldl_app.
  assert (last_char (foldl (step is_alnum) init pre) ≠ chr "\") as Hlast.
  { destruct pre as [|p pre _] using rev_ind; [done|].
    rewrite last_snoc in Hesc. rewrite foldl_app. simpl. rewrite step_last. congruence. }
  pose proof (foldl_step_inv is_alnum pre init init_inv) as (Hb & Hn & _).
  destruct (foldl (step is_alnum) init pre) as [iv ib name vs lst]. simpl in *. subst iv.
  rewrite (Hn eq_refl). destruct ib; [by discriminate (Hb eq_refl)|].
  pose proof (encode_nonempty cs Hne) as Henc.
  rewrite (decide_False (P := lst = _)) by done. split.
  - simpl. destruct (foldl_ident is_alnum cs true "" vs (chr "{") Hcs Hsep) as [l' ->].
    simpl. apply finish_mono, foldl_step_mono. simpl. by apply flush_name.
  - intros Hpost. destruct (foldl_ident is_alnum cs false "" vs (chr "$") Hcs Hsep) as [l' E].
    simpl in E |- *. rewrite E. destruct post as [|c post]; simpl.
    + unfold finish. simpl. rewrite bool_decide_eq_false_2 by done. set_solver.
    + destruct Hpost as [|(? & [= <-] & Hc)]; [done|].
      apply finish_mono, foldl_step_mono.
      case_decide; [by apply flush_name|]. rewrite decide_False by naive_solver.
      rewrite Hc. by apply flush_name.
Qed.

(** The environment of a custom action: preparation succeeds exactly when
    every variable its scripts reference or that it captures has a value on
    the host, is exported by the VM or is set by the action itself; the result
    keeps the given entries, then the action's own, then one [NAME=value] per
    referenced or captured variable that the host defines. *)
Lemma prepare_environment_spec is_alnum chars var_os iter_set c env_vars
    (Hiter : ∀ s : gset string, iter_set s ≡ₚ elements s) :
  let names := iter_set (referenced_variables is_alnum chars c) ++ capture_environment c in
  ((∃ r, prepare_environment is_alnum chars var_os iter_set c env_vars = Ok r) ↔
   ∀ n, n ∈ referenced_variables is_alnum chars c ∨ n ∈ capture_environment c →
     known var_os (list_to_set (var_key <$> environment c)) n) ∧
  ∀ r, prepare_environment is_alnum chars var_os iter_set c env_vars = Ok r →
     r = env_vars ++ environment c ++ omap (host_value var_os) names.
Proof.
  intros names. unfold prepare_environment, resolve_vars. fold names.
  destruct (resolve_vars_spec var_os (list_to_set (var_key <$> environment c)) names
              (env_vars ++ environment c) []) as (u & -> & Hu). simpl.
  assert (∀ n, n ∈ names ↔ n ∈ referenced_variables is_alnum chars c ∨ n ∈ capture_environment c)
    as Hn. { intros n. unfold names. by rewrite elem_of_app, Hiter, elem_of_elements. }
  setoid_rewrite <-Hn. destruct u as [|x u].
  - split; [|intros r [= <-]; by rewrite app_assoc]. split; [|eauto].
    intros _ n Hin.
    destruct (decide (known var_os (list_to_set (var_key <$> environment c)) n)) as [|Hnk]; [done|].
    exfalso. eapply not_elem_of_nil, Hu. eauto.
  - split; [|done]. split; [by intros [? ?]|]. intros Hk.
    destruct (proj1 (Hu x)) as [? []]; [by left|]. auto.
Qed.

(** ** Concrete inputs *)
Definition ascii_alnum (c : char) : bool := Str.is_alnum (ascii_of_N c) && bool_decide (c < 128)%N.
Definition ascii_chars (s : string) : list char := chr <$> String.list_ascii_of_string s.

Lemma ascii_ident_sep c :
  ident ascii_alnum c = true → c ≠ chr "$" ∧ c ≠ chr "{" ∧ c ≠ chr "}".
Proof. intros H. split_and!; intros ->; vm_compute in H; discriminate. Qed.

Example references_found_witness :
  let cs := ascii_chars "REPO" in
  encode cs ∈ find_env_vars ascii_alnum
    (ascii_chars "borg mount " ++ [chr "$"; chr "{"] ++ cs ++ [chr "}"] ++ ascii_chars " /mnt") ∧
  (head (ascii_chars " /mnt") = None ∨
     (∃ c, head (ascii_chars " /mnt") = Some c ∧ ident ascii_alnum c = false) →
   encode cs ∈ find_env_vars ascii_alnum
     (ascii_chars "borg mount " ++ [chr "$"] ++ cs ++ ascii_chars " /mnt")).
Proof.
  intros cs. apply (references_found ascii_alnum (ascii_chars "borg mount ") cs (ascii_chars " /mnt")).
  - apply ascii_ident_sep.
  - repeat constructor.
  - done.
  - reflexivity.
  - done.
Defined.

Definition sample_action : CustomActionConfig := {|
  description := ""; before_mount := ""; after_mount := "borg mount $REPO $ALFS_VM_MOUNT_POINT";
  before_unmount := ""; environment := ["A=1"]; capture_environment := ["A"];
  override_nfs_export := ""; nfs_export_subdirs := []; required_os := None |}.
Definition sample_env (name : string) : option string :=
  if decide (name = "REPO") then Some "/r" else None.

Example prepare_environment_spec_witness :
  ∃ r, prepare_environment ascii_alnum ascii_chars sample_env elements sample_action ["X=2"] = Ok r.
Proof.
  apply (prepare_environment_spec ascii_alnum ascii_chars sample_env elements sample_action ["X=2"]).
  - done.
  - unfold known. intros n [Hn|Hn].
    + apply elem_of_elements in Hn.
      assert (elements (referenced_variables ascii_alnum ascii_chars sample_action) =
                ["ALFS_VM_MOUNT_POINT"; "REPO"]) as E by (vm_compute; reflexivity).
      rewrite E in Hn. apply list_elem_of_In in Hn as [<-|[<-|[]]].
      * right; left. apply list_elem_of_In. by left.
      * left. exists "/r". vm_compute. reflexivity.
    + right; right. vm_compute in Hn. apply list_elem_of_In in Hn as [<-|[]].
      apply elem_of_list_to_set, list_elem_of_In. by left.
Defined.
End env_vars.
