(* ===== verification/Paths.v ===== *)
(** * Paths and string replacement ([std::path], [str::replace])

    The operations of [std::path::Path] on Unix that the sources use, and the
    replacement of a pattern in a string. *)
From S2P Require Import Prelude.
From Stdlib Require Import Ascii.

(** [s.replace(pat, rep)], left to right without overlap, for a nonempty
    pattern: [skip] counts the characters of a match still to be dropped. *)
Fixpoint replace_go (pat rep : string) (skip : nat) (s : string) : string :=
  match s with
  | "" => ""
  | String c s' =>
      match skip with
      | S k => replace_go pat rep k s'
      | O =>
          if Str.starts_with pat s
          then rep +:+ replace_go pat rep (String.length pat - 1) s'
          else String c (replace_go pat rep 0 s')
      end
  end.
Definition replace (pat rep s : string) : string := replace_go pat rep 0 s.

Module path.
(** [std::path::Component] *)
Inductive component :=
| RootDir
| CurDir
| ParentDir
| Normal (s : string).
#[global] Instance component_eq_dec : EqDecision component.
Proof. solve_decision. Defined.
#[global] Instance component_countable : Countable component.
Proof.
  apply (inj_countable' (λ c, match c with RootDir => inl 0 | CurDir => inl 1 | ParentDir => inl 2 | Normal s => inr s end)
    (λ x : nat + string, match x with inl 0 => RootDir | inl 1 => CurDir | inl _ => ParentDir | inr s => Normal s end)).
  by intros [].
Defined.

Definition is_absolute (p : string) : bool := Str.starts_with "/" p.

(** [Component::as_os_str] *)
Definition as_os_str (c : component) : string :=
  match c with RootDir => "/" | CurDir => "." | ParentDir => ".." | Normal s => s end.

(** Repeated separators, a trailing separator and [.] are dropped, except a
    leading [.] of a relative path. *)
Definition piece (first : bool) (s : string) : option component :=
  if decide (s = "") then None
  else if decide (s = ".") then (if first then Some CurDir else None)
  else if decide (s = "..") then Some ParentDir
  else Some (Normal s).

Definition components (p : string) : list component :=
  match Str.split "/" p with
  | [] => []
  | w :: ws =>
      (if is_absolute p then [RootDir] else option_list (piece true w)) ++
      omap (piece false) ws
  end.

(** [Path == Path] compares components. *)
Definition eqb (p q : string) : bool := bool_decide (components p = components q).

(** [p.join(q)] *)
Definition join (p q : string) : string :=
  if is_absolute q then q
  else if decide (p = "") then q
  else if Str.ends_with "/" p then p +:+ q
  else p +:+ "/" +:+ q.

(** [p.file_name()] *)
Definition file_name (p : string) : option string :=
  match last (components p) with Some (Normal s) => Some s | _ => None end.

(** [p.parent()], with the separators as the text had them dropped. *)
Definition unparse (cs : list component) : string :=
  match cs with
  | RootDir :: cs => "/" +:+ Str.join "/" (as_os_str <$> cs)
  | cs => Str.join "/" (as_os_str <$> cs)
  end.
Definition parent (p : string) : option string :=
  match last (components p) with
  | None | Some RootDir => None
  | Some _ => Some (unparse (removelast (components p)))
  end.

(** ** Facts *)
Lemma is_absolute_String c s : is_absolute (String c s) = bool_decide (c = "/"%char).
Proof.
  unfold is_absolute, Str.starts_with. simpl. case_decide as Hc.
  - subst. by rewrite bool_decide_eq_true_2.
  - by rewrite bool_decide_eq_false_2 by congruence.
Qed.

Lemma join_relative p q :
  p ≠ "" → is_absolute q = false → Str.ends_with "/" p = false → join p q = p +:+ "/" +:+ q.
Proof. intros Hp Hq He. unfold join. by rewrite Hq, decide_False, He. Qed.

(** A relative path of ordinary names, as it is written. *)
Definition plain (s : string) : bool :=
  StrFacts.lacks "/" s && negb (bool_decide (s ∈ [""; "."; ".."])).

Lemma plain_spec s :
  plain s = true ↔ StrFacts.lacks "/" s = true ∧ s ≠ "" ∧ s ≠ "." ∧ s ≠ "..".
Proof.
  unfold plain. rewrite andb_true_iff, negb_true_iff, bool_decide_eq_false.
  rewrite !not_elem_of_cons. set_solver.
Qed.

Lemma piece_plain b s : plain s = true → piece b s = Some (Normal s).
Proof. intros (_ & ? & ? & ?)%plain_spec. unfold piece. by rewrite !decide_False. Qed.

Lemma omap_plain ws : Forall (λ s, plain s = true) ws → omap (piece false) ws = Normal <$> ws.
Proof. induction 1; simpl; [done|]. by rewrite piece_plain; simpl; f_equal. Qed.

Lemma join_relative_head ws :
  Forall (λ s, plain s = true) ws → is_absolute (Str.join "/" ws) = false.
Proof.
  destruct 1 as [|w ws Hw Hws]; [done|].
  apply plain_spec in Hw as (Hl & Hne & _). destruct w as [|c w]; [done|].
  apply StrFacts.lacks_cons in Hl as [Hc _].
  destruct ws; simpl; by rewrite is_absolute_String, bool_decide_eq_false_2.
Qed.

Lemma components_relative ws :
  Forall (λ s, plain s = true) ws → components (Str.join "/" ws) = Normal <$> ws.
Proof.
  intros Hws. destruct ws as [|w ws]; [done|].
  unfold components. rewrite join_relative_head by done.
  rewrite StrFacts.split_join; [|done|].
  - apply Forall_cons in Hws as [Hw Hws]. by rewrite piece_plain, omap_plain.
  - eapply Forall_impl; [exact Hws|]. simpl. intros s Hs. by apply plain_spec in Hs as [? _].
Qed.

(** What [join] puts between the two parts. *)
Definition joiner (p : string) : string :=
  if decide (p = "") then "" else if Str.ends_with "/" p then "" else "/".

Lemma join_text p q : is_absolute q = false → join p q = p +:+ joiner p +:+ q.
Proof.
  intros Hq. unfold join, joiner. rewrite Hq. case_decide as Hp; [by subst|]. by destruct (Str.ends_with "/" p).
Qed.

Lemma plain_relative q : plain q = true → is_absolute q = false.
Proof. intros Hq. apply (join_relative_head [q]). by constructor. Qed.

Lemma last_normal cs ws q :
  piece false q = Some (Normal q) → last (cs ++ omap (piece false) (ws ++ [q])) = Some (Normal q).
Proof. intros Hq. rewrite omap_app. simpl. rewrite Hq, app_assoc. apply last_snoc. Qed.

Lemma file_name_join p q : plain q = true → file_name (join p q) = Some q.
Proof.
  intros Hq. pose proof (plain_relative q Hq) as Ha. unfold file_name.
  assert (Hl : StrFacts.lacks "/" q = true) by by apply plain_spec in Hq as [? _].
  assert (Hsep : ∀ p', last (components (p' +:+ String "/" q)) = Some (Normal q)).
  { intros p'. unfold components. rewrite StrFacts.split_app_sep, (StrFacts.split_lacks _ q) by done.
    destruct (Str.split "/" p') as [|w ws] eqn:Hs; [by apply StrFacts.split_ne in Hs|]. cbn [app].
    by apply last_normal, piece_plain. }
  unfold join. rewrite Ha. case_decide as Hp.
  - unfold components. rewrite StrFacts.split_lacks, Ha, piece_plain by done. done.
  - destruct (Str.ends_with "/" p) eqn:He.
    + apply StrFacts.ends_with_spec in He as (r & ->). rewrite StrFacts.app_assoc.
      change ("/" +:+ q) with (String "/" q). by rewrite Hsep.
    + change ("/" +:+ q) with (String "/" q). by rewrite Hsep.
Qed.

Lemma components_names p s : Normal s ∈ components p → StrFacts.lacks "/" s = true ∧ s ≠ "".
Proof.
  assert (Hpiece : ∀ b w, piece b w = Some (Normal s) → w = s ∧ s ≠ "").
  { intros b w. unfold piece. repeat case_decide; try done; [by destruct b|]. by intros [= ->]. }
  pose proof (StrFacts.split_pieces_lack "/" p) as Hf. unfold components.
  destruct (Str.split "/" p) as [|w ws]; [by intros ?%not_elem_of_nil|].
  apply Forall_cons in Hf as [Hw Hws]. intros [Hs|Hs]%elem_of_app.
  - destruct (is_absolute p); [by apply list_elem_of_singleton in Hs|].
    destruct (piece true w) eqn:E; [|by apply not_elem_of_nil in Hs].
    apply list_elem_of_singleton in Hs as <-. by apply Hpiece in E as [-> ?].
  - apply list_elem_of_omap in Hs as (x & Hx & E). apply Hpiece in E as [-> ?].
    rewrite Forall_forall in Hws. by split; [apply Hws|].
Qed.

Lemma file_name_relative p s : file_name p = Some s → is_absolute s = false.
Proof.
  unfold file_name. destruct (last (components p)) as [c|] eqn:Hl; [|done]. destruct c; try done.
  intros [= ->]. apply last_Some in Hl as (cs & Hcs).
  destruct (components_names p s) as [Hs Hne]; [rewrite Hcs; set_solver|].
  destruct s as [|c s]; [done|]. rewrite is_absolute_String, bool_decide_eq_false_2; [done|].
  by apply StrFacts.lacks_cons in Hs as [? _].
Qed.
End path.
