(* ===== verification/Settings.v ===== *)
(** * Preferences and run configuration ([settings.rs])

    The preference files (global, then user), their layering, the migration
    of old keys and files, and the configuration records of one run. *)
From S2P Require Import Prelude Common Paths.

(** ** Addresses ([std::net], [ipnet]) *)
Inductive IpAddr := V4 (a : N) | V6 (a : N).
#[global] Instance IpAddr_eq_dec : EqDecision IpAddr.
Proof. solve_decision. Defined.
Definition ipv4 (a b c d : N) : N := (((a * 256 + b) * 256 + c) * 256 + d)%N.
Definition is_loopback (a : IpAddr) : bool :=
  match a with
  | V4 a => bool_decide (N.shiftr a 24 = 127)%N
  | V6 a => bool_decide (a = 1)%N
  end.

Record Ipv4Net := mkIpv4Net { net_addr : N; prefix_len : N }.
#[global] Instance Ipv4Net_eq_dec : EqDecision Ipv4Net.
Proof. solve_decision. Defined.

Definition DEFAULT_VMNET_POOL : Ipv4Net := mkIpv4Net (ipv4 172 27 1 0) 12.

(** ** Data of the configuration *)
Record KernelConfig := { os : OSType; kernel_path : string }.

Record ConfigPaths := {
  home_dir : string; profile_path : string; exec_path : string; config_file_path : string;
  libexec_path : string; init_rootfs_path : string; vmproxy_host_path : string;
  gvproxy_path : string; vmnet_helper_path : string;
  root_path : string; root_ver_file_path : string;
}.

Record LogPaths := {
  log_file_path : string; kernel_log_file_path : string; nethelper_log_path : string }.

Record NetworkConfig := {
  gvproxy_net_sock_path : string;
  vsock_path : string;
  unixgram_sock_path : string;
  preferred_net_helper : NetHelper;
  specified_net_helper : option NetHelper;
  config_vmnet_offloading : bool;          (* macOS only *)
}.

(** [Option::unwrap_or] *)
Definition unwrap_or {A} (d : A) (o : option A) : A := match o with Some a => a | None => d end.
(** [Option::or] *)
Definition or {A} (o1 o2 : option A) : option A := match o1 with Some a => Some a | None => o2 end.

Definition effective_net_helper (c : NetworkConfig) (pref_override : NetHelper → NetHelper) :
    NetHelper :=
  let net_helper := pref_override (preferred_net_helper c) in
  unwrap_or net_helper (specified_net_helper c).

Record PrivilegeConfig := {
  invoker_uid : N; invoker_gid : N; sudo_uid : option N; sudo_gid : option N }.

Inductive PassphrasePromptConfig := AskForEach | OneForAll.
#[global] Instance PassphrasePromptConfig_eq_dec : EqDecision PassphrasePromptConfig.
Proof. solve_decision. Defined.
Definition PassphrasePromptConfig_default := AskForEach.
Definition PassphrasePromptConfig_display (p : PassphrasePromptConfig) : string :=
  match p with AskForEach => "ask_for_each" | OneForAll => "one_for_all" end.

Record KernelSource := {
  bundle_url : option string; image_url : option string; modules_url : option string }.
#[global] Instance KernelSource_eq_dec : EqDecision KernelSource.
Proof. solve_decision. Defined.

Record ImageSource := {
  base_dir : string;
  docker_ref : option string;
  iso_url : option string;
  oci_url : option string;
  kernel_source : KernelSource;
  os_type : OSType;
  setup_script : option string;
}.
#[global] Instance ImageSource_eq_dec : EqDecision ImageSource.
Proof. solve_decision. Defined.

Definition ImageSource_default : ImageSource := {|
  base_dir := "alpine"; docker_ref := Some "alpine:latest"; iso_url := None; oci_url := None;
  kernel_source := {| bundle_url := None; image_url := None; modules_url := None |};
  os_type := Linux; setup_script := None |}.

Definition effective_base_dir (src : ImageSource) : string :=
  if negb (Str.is_empty (base_dir src)) then base_dir src
  else match docker_ref src with
       | Some r => replace ":" "-" (replace "/" "-" r)
       | None => ""
       end.

(** ** Preferences *)
Record AlpineConfig := { custom_packages : list string }.
Record GvproxyConfig := { debug : option bool }.
Record KrunConfig := {
  krun_log_level : option N; krun_vcpus : option N; krun_ram : option N }.
Record MiscConfig := {
  passphrase_config : option PassphrasePromptConfig; misc_zfs_os : option OSType }.
Inductive VmnetOffloading := Auto | Enabled | Disabled.
Record NetworkPrefs := {
  helper : option NetHelper;
  vmnet_pool : option Ipv4Net;
  vmnet_offloading : option VmnetOffloading }.
Record OSConfig := { os_default_image : option string }.

Record PrefsObject := {
  alpine : AlpineConfig;
  custom_actions : gmap string CustomActionConfig;
  images : gmap string ImageSource;
  gvproxy : GvproxyConfig;
  krun : KrunConfig;
  misc : MiscConfig;
  network : NetworkPrefs;
  linux : OSConfig;
  freebsd : OSConfig;
  (* legacy keys *)
  log_level_numeric : option N;
  num_vcpus : option N;
  ram_size_mib : option N;
}.

Definition PrefsObject_default : PrefsObject := {|
  alpine := {| custom_packages := [] |}; custom_actions := ∅; images := ∅;
  gvproxy := {| debug := None |};
  krun := {| krun_log_level := None; krun_vcpus := None; krun_ram := None |};
  misc := {| passphrase_config := None; misc_zfs_os := None |};
  network := {| helper := None; vmnet_pool := None; vmnet_offloading := None |};
  linux := {| os_default_image := None |}; freebsd := {| os_default_image := None |};
  log_level_numeric := None; num_vcpus := None; ram_size_mib := None |}.

(** A pair of preference objects: global, user. *)
Definition Prefs : Type := PrefsObject * PrefsObject.

(** *** Accessors of the [Preferences] trait: the user's value wins *)
Section Accessors.
Context (self : Prefs).
Abbreviation g := (self.1).
Abbreviation u := (self.2).

Definition alpine_custom_packages : gset string :=
  list_to_set (custom_packages (alpine g)) ∪ list_to_set (custom_packages (alpine u)).
Definition all_custom_actions : gmap string CustomActionConfig := custom_actions u ∪ custom_actions g.
Definition all_images : gmap string ImageSource := images u ∪ images g.
Definition gvproxy_debug : bool := unwrap_or false (or (debug (gvproxy u)) (debug (gvproxy g))).
Definition krun_log_level_numeric : N :=
  unwrap_or 0%N (or (krun_log_level (krun u)) (krun_log_level (krun g))).
Definition krun_num_vcpus : N := unwrap_or 1%N (or (krun_vcpus (krun u)) (krun_vcpus (krun g))).
Definition krun_ram_size_mib : N := unwrap_or 512%N (or (krun_ram (krun u)) (krun_ram (krun g))).
Definition passphrase_prompt_config : PassphrasePromptConfig :=
  unwrap_or PassphrasePromptConfig_default
    (or (passphrase_config (misc u)) (passphrase_config (misc g))).
Definition default_image (os_type : OSType) : string :=
  match os_type with
  | Linux => unwrap_or "alpine-latest" (or (os_default_image (linux u)) (os_default_image (linux g)))
  | FreeBSD => unwrap_or "freebsd-15.0" (or (os_default_image (freebsd u)) (os_default_image (freebsd g)))
  end.
Definition zfs_os : OSType := unwrap_or Linux (or (misc_zfs_os (misc u)) (misc_zfs_os (misc g))).
Definition network_helper : NetHelper := unwrap_or GvProxy (or (helper (network u)) (helper (network g))).
Definition prefs_vmnet_pool : Ipv4Net :=
  unwrap_or DEFAULT_VMNET_POOL (or (vmnet_pool (network u)) (vmnet_pool (network g))).
Definition prefs_vmnet_offloading : VmnetOffloading :=
  unwrap_or Auto (or (vmnet_offloading (network u)) (vmnet_offloading (network g))).
End Accessors.

(** *** Merging *)
Definition AlpineConfig_merge_with (self other : AlpineConfig) : AlpineConfig := {|
  custom_packages := btree_elements
    (list_to_set (custom_packages self) ∪ list_to_set (custom_packages other)) |}.
Definition GvproxyConfig_merge_with (self other : GvproxyConfig) : GvproxyConfig := {|
  debug := or (debug other) (debug self) |}.
Definition KrunConfig_merge_with (self other : KrunConfig) : KrunConfig := {|
  krun_log_level := or (krun_log_level other) (krun_log_level self);
  krun_vcpus := or (krun_vcpus other) (krun_vcpus self);
  krun_ram := or (krun_ram other) (krun_ram self) |}.
Definition MiscConfig_merge_with (self other : MiscConfig) : MiscConfig := {|
  passphrase_config := or (passphrase_config other) (passphrase_config self);
  misc_zfs_os := or (misc_zfs_os other) (misc_zfs_os self) |}.
Definition NetworkPrefs_merge_with (self other : NetworkPrefs) : NetworkPrefs := {|
  helper := or (helper other) (helper self);
  vmnet_pool := or (vmnet_pool other) (vmnet_pool self);
  vmnet_offloading := or (vmnet_offloading other) (vmnet_offloading self) |}.
Definition OSConfig_merge_with (self other : OSConfig) : OSConfig := {|
  os_default_image := or (os_default_image other) (os_default_image self) |}.

(** [map.extend(other)]: later entries replace earlier ones. *)
Definition merge_with (self other : PrefsObject) : PrefsObject := {|
  alpine := AlpineConfig_merge_with (alpine self) (alpine other);
  custom_actions := custom_actions other ∪ custom_actions self;
  images := images other ∪ images self;
  gvproxy := GvproxyConfig_merge_with (gvproxy self) (gvproxy other);
  krun := KrunConfig_merge_with (krun self) (krun other);
  misc := MiscConfig_merge_with (misc self) (misc other);
  network := NetworkPrefs_merge_with (network self) (network other);
  linux := OSConfig_merge_with (linux self) (linux other);
  freebsd := OSConfig_merge_with (freebsd self) (freebsd other);
  log_level_numeric := or (log_level_numeric other) (log_level_numeric self);
  num_vcpus := or (num_vcpus other) (num_vcpus self);
  ram_size_mib := or (ram_size_mib other) (ram_size_mib self) |}.

Definition merged (self : Prefs) : PrefsObject := merge_with self.1 self.2.

(** *** Validation, migration and loading *)
Definition PrefsObject_validate (self : PrefsObject) : outcome PrefsObject :=
  _ ← foldM (λ _ '(name, action),
        _ ← with_context ("Invalid custom action " +:+ name) (validate action); Ok tt)
      tt (btree_to_list (custom_actions self));
  Ok self.

Definition set_krun (c : PrefsObject) (k : KrunConfig) (l n r : option N) : PrefsObject := {|
  alpine := alpine c; custom_actions := custom_actions c; images := images c;
  gvproxy := gvproxy c; krun := k; misc := misc c; network := network c; linux := linux c;
  freebsd := freebsd c; log_level_numeric := l; num_vcpus := n; ram_size_mib := r |}.

Definition convert_legacy_config (config : PrefsObject) : PrefsObject :=
  set_krun config {|
    krun_log_level := or (log_level_numeric config) (krun_log_level (krun config));
    krun_vcpus := or (num_vcpus config) (krun_vcpus (krun config));
    krun_ram := or (ram_size_mib config) (krun_ram (krun config)) |} None None None.

(** The format of earlier releases. *)
Record PrefsObjectOld := {
  o_alpine : AlpineConfig;
  o_custom_actions : gmap string CustomActionConfigOld;
  o_images : gmap string ImageSource;
  o_gvproxy : GvproxyConfig;
  o_krun : KrunConfig;
  o_misc : MiscConfig;
  o_log_level_numeric : option N;
  o_num_vcpus : option N;
  o_ram_size_mib : option N;
}.

Definition PrefsObject_from_old (to_str_lossy : string → string) (v : PrefsObjectOld) :
    PrefsObject := {|
  alpine := o_alpine v;
  custom_actions := from_old to_str_lossy <$> o_custom_actions v;
  images := o_images v; gvproxy := o_gvproxy v; krun := o_krun v; misc := o_misc v;
  network := {| helper := None; vmnet_pool := None; vmnet_offloading := None |};
  linux := {| os_default_image := None |}; freebsd := {| os_default_image := None |};
  log_level_numeric := o_log_level_numeric v; num_vcpus := o_num_vcpus v;
  ram_size_mib := o_ram_size_mib v |}.

(** TOML is third-party: parsing in the two formats and printing. *)
Class Toml := {
  toml_parse : string → outcome PrefsObject;
  toml_parse_old : string → outcome PrefsObjectOld;
  toml_print : PrefsObject → outcome string;
}.

(** The files of the host: contents by path. *)
Abbreviation files := (gmap string string).

Section Loading.
Context `{Toml} (to_str_lossy : string → string).

Definition save_preferences (fs : files) (writable : string → bool)
    (preferences : PrefsObject) (config_file_path : string) : outcome files :=
  config_str ← with_context "Failed to serialize Preferences to TOML" (toml_print preferences);
  if writable config_file_path then Ok (<[config_file_path := config_str]> fs)
  else Err ("Failed to write config file " +:+ config_file_path).

Definition parse_toml_config (fs : files) (writable : string → bool)
    (config_str path : string) : outcome (files * PrefsObject) :=
  '(fs, config) ←
    match toml_parse config_str with
    | Ok config => Ok (fs, config)
    | Panic => Panic
    | Err _ =>
        old ← with_context "Failed to parse Preferences from TOML string" (toml_parse_old config_str);
        let fixed_config := PrefsObject_from_old to_str_lossy old in
        fs ← with_context "Error while converting config to the latest format"
               (save_preferences fs writable fixed_config path);
        Ok (fs, fixed_config)
    end;
  config ← PrefsObject_validate config;
  Ok (fs, config).

(** The loop over the (at most two) paths; a file that cannot be read leaves
    the defaults, and a third readable path is out of bounds. *)
Definition store (res : Prefs) (idx : nat) (c : PrefsObject) : outcome Prefs :=
  match idx with
  | 0 => Ok (c, res.2)
  | 1 => Ok (res.1, c)
  | _ => Panic
  end.

Fixpoint load_loop (fs : files) (writable : string → bool) (idx : nat) (res : Prefs)
    (paths : list string) : outcome (files * Prefs) :=
  match paths with
  | [] => Ok (fs, res)
  | path :: paths =>
      match fs !! path with
      | Some config_str =>
          '(fs, config) ← with_context ("Failed to parse config file " +:+ path)
                            (parse_toml_config fs writable config_str path);
          res ← store res idx (convert_legacy_config config);
          load_loop fs writable (S idx) res paths
      | None => load_loop fs writable (S idx) res paths
      end
  end.

Definition load_preferences (fs : files) (writable : string → bool) (paths : list string) :
    outcome (files * Prefs) :=
  load_loop fs writable 0 (PrefsObject_default, PrefsObject_default) paths.
End Loading.

(** ** The configuration of one run *)
Record Config := {
  paths : ConfigPaths;
  logs : LogPaths;
  net : NetworkConfig;
  privilege : PrivilegeConfig;
  kernel : KernelConfig;
  cfg_passphrase_config : PassphrasePromptConfig;
  rw_rootfs : bool;
  cfg_zfs_os : OSType;
  preferences : Prefs;
}.

Definition fs_preferred_os (c : Config) (fs_type : string) : OSType :=
  if decide (fs_type = "ufs") then FreeBSD
  else if decide (fs_type = "zfs_member") then cfg_zfs_os c
  else Linux.

(** [vm_image::KERNEL_IMAGE] *)
Definition KERNEL_IMAGE : string := "kernel/kernel.bin".

Definition set_roots (p : ConfigPaths) (root ver : string) : ConfigPaths := {|
  home_dir := home_dir p; profile_path := profile_path p; exec_path := exec_path p;
  config_file_path := config_file_path p; libexec_path := libexec_path p;
  init_rootfs_path := init_rootfs_path p; vmproxy_host_path := vmproxy_host_path p;
  gvproxy_path := gvproxy_path p; vmnet_helper_path := vmnet_helper_path p;
  root_path := root; root_ver_file_path := ver |}.

Definition Config_with_image_source (c : Config) (src : ImageSource) : Config :=
  let effective_dir := effective_base_dir src in
  let base_path := path.join (profile_path (paths c)) effective_dir in
  {| paths :=
       if decide (os_type src = Linux ∧ effective_dir ≠ "")
       then set_roots (paths c) (path.join base_path "rootfs") (path.join base_path "rootfs.ver")
       else paths c;
     logs := logs c; net := net c; privilege := privilege c;
     kernel := {|
       os := os_type src;
       kernel_path :=
         if decide (os_type src = Linux) then kernel_path (kernel c)
         else path.join (path.join (profile_path (paths c)) (base_dir src)) KERNEL_IMAGE |};
     cfg_passphrase_config := cfg_passphrase_config c; rw_rootfs := rw_rootfs c;
     cfg_zfs_os := cfg_zfs_os c; preferences := preferences c |}.

(** [ImageSource::installed_in] *)
Definition installed_in (exists_ : string → bool) (src : ImageSource) (profile_path : string) : bool :=
  exists_ (path.join (path.join profile_path (effective_base_dir src)) "rootfs.ver").

Inductive KernelPage := Size4K | Size16K.
#[global] Instance KernelPage_eq_dec : EqDecision KernelPage.
Proof. solve_decision. Defined.

Record MountConfig := {
  disk_path : string;
  read_only : bool;
  mount_options : option string;
  nfs_options : list string;
  nfs_export_opts : option string;
  ignore_permissions : bool;
  allow_remount : bool;
  vm_hostname : string;
  custom_mount_point : option string;
  fs_driver : option string;
  assemble_raid : bool;
  bind_addr : option IpAddr;
  verbose : bool;
  open_finder : bool;              (* macOS only *)
  kernel_page_size : option KernelPage;
  common : Config;
  custom_action : option string;
  key_file : option string;
}.

Definition get_action (c : MountConfig) : option CustomActionConfig :=
  name ← custom_action c; all_custom_actions (preferences (common c)) !! name.

Definition custom_mount_name (c : MountConfig) : option string :=
  (λ name, unwrap_or "root" (path.file_name name)) <$> custom_mount_point c.

(** [MountConfig::with_image_source] *)
Definition with_image_source (c : MountConfig) (src : ImageSource) : MountConfig := {|
  disk_path := disk_path c; read_only := read_only c; mount_options := mount_options c;
  nfs_options := nfs_options c; nfs_export_opts := nfs_export_opts c;
  ignore_permissions := ignore_permissions c; allow_remount := allow_remount c;
  vm_hostname := vm_hostname c; custom_mount_point := custom_mount_point c;
  fs_driver := fs_driver c; assemble_raid := assemble_raid c; bind_addr := bind_addr c;
  verbose := verbose c; open_finder := open_finder c; kernel_page_size := kernel_page_size c;
  common := Config_with_image_source (common c) src;
  custom_action := custom_action c; key_file := key_file c |}.

(** ** Log levels of libkrun *)
Inductive KrunLogLevel := LOff | LError | LWarn | LInfo | LDebug | LTrace.
Definition KrunLogLevel_to_u32 (l : KrunLogLevel) : N :=
  match l with LOff => 0 | LError => 1 | LWarn => 2 | LInfo => 3 | LDebug => 4 | LTrace => 5 end.
Definition KrunLogLevel_from (v : N) : KrunLogLevel :=
  match v with
  | 0 => LOff | 1 => LError | 2 => LWarn | 3 => LInfo | 4 => LDebug | 5 => LTrace
  | _ => LOff
  end%N.
Definition KrunLogLevel_display (l : KrunLogLevel) : string :=
  match l with
  | LOff => "off" | LError => "error" | LWarn => "warn"
  | LInfo => "info" | LDebug => "debug" | LTrace => "trace"
  end.
Definition log_level (k : KrunConfig) : KrunLogLevel :=
  KrunLogLevel_from (unwrap_or 0%N (krun_log_level k)).
Definition set_log_level (k : KrunConfig) (l : KrunLogLevel) : KrunConfig := {|
  krun_log_level := Some (KrunLogLevel_to_u32 l); krun_vcpus := krun_vcpus k;
  krun_ram := krun_ram k |}.

Definition LF : string := String (Ascii.ascii_of_nat 10) "".
Definition KrunConfig_display (k : KrunConfig) : string :=
  "log_level = " +:+ KrunLogLevel_display (log_level k) +:+ LF +:+
  "num_vcpus = " +:+ Str.of_N (unwrap_or 1%N (krun_vcpus k)) +:+ LF +:+
  "ram_size_mib = " +:+ Str.of_N (unwrap_or 512%N (krun_ram k)).
Definition OSType_debug (o : OSType) : string :=
  match o with Linux => "Linux" | FreeBSD => "FreeBSD" end.
Definition MiscConfig_display (m : MiscConfig) : string :=
  "passphrase_config = " +:+
    PassphrasePromptConfig_display (unwrap_or PassphrasePromptConfig_default (passphrase_config m)) +:+
  LF +:+ "zfs_os = " +:+ OSType_debug (unwrap_or Linux (misc_zfs_os m)).

Definition octet (a : N) (i : N) : N := N.land (N.shiftr a (8 * i)) 255.
Definition ipv4_display (a : N) : string :=
  Str.join "." (Str.of_N <$> [octet a 3; octet a 2; octet a 1; octet a 0]).
Definition Ipv4Net_display (n : Ipv4Net) : string :=
  ipv4_display (net_addr n) +:+ "/" +:+ Str.of_N (prefix_len n).
Definition VmnetOffloading_display (v : VmnetOffloading) : string :=
  match v with Auto => "auto" | Enabled => "enabled" | Disabled => "disabled" end.
Definition NetworkPrefs_display (p : NetworkPrefs) : string :=
  "helper = " +:+ NetHelper_display (unwrap_or GvProxy (helper p)) +:+ LF +:+
  "vmnet_pool = " +:+ Ipv4Net_display (unwrap_or DEFAULT_VMNET_POOL (vmnet_pool p)) +:+ LF +:+
  "vmnet_offloading = " +:+ VmnetOffloading_display (unwrap_or Auto (vmnet_offloading p)).
Definition PrefsObject_display (p : PrefsObject) : string :=
  "[krun]" +:+ LF +:+ KrunConfig_display (krun p) +:+
  LF +:+ LF +:+ "[misc]" +:+ LF +:+ MiscConfig_display (misc p) +:+
  LF +:+ LF +:+ "[network]" +:+ LF +:+ NetworkPrefs_display (network p).

(** ** Upgrading a TOML configuration *)
(** The items of [toml_edit], tables in the order of the document; the text
    of a value and the decoration are opaque. *)
Inductive Item :=
| INone
| IValue (v : string)
| ITable (t : list (string * Item))
| IArrayOfTables (ts : list (list (string * Item))).
Abbreviation Table := (list (string * Item)).

(** [table.get(key)], [table.insert(key, item)] *)
Fixpoint tget (t : Table) (key : string) : option Item :=
  match t with
  | [] => None
  | (k, i) :: t =>
      match i with
      | INone => tget t key
      | _ => if decide (k = key) then Some i else tget t key
      end
  end.
Definition contains_key (t : Table) (key : string) : bool :=
  match tget t key with Some _ => true | None => false end.
Fixpoint tinsert (t : Table) (key : string) (item : Item) : Table :=
  match t with
  | [] => [(key, item)]
  | (k, i) :: t => if decide (k = key) then (k, item) :: t else (k, i) :: tinsert t key item
  end.

Definition OBSOLETE_KEYS : list string := ["images.freebsd-14.3"].

Definition abs_key (path key : string) : string :=
  if Str.is_empty path then key else path +:+ "." +:+ key.

Definition merge_entry (path : string) (dst : Table) (e : string * Item) : Table :=
  let '(key, src_item) := e in
  match src_item with
  | INone => dst                      (* not iterated *)
  | _ =>
      if contains_key dst key then dst
      else if bool_decide (abs_key path key ∈ OBSOLETE_KEYS) then dst
      else tinsert dst key src_item
  end.

#[global] Arguments merge_entry : simpl never.

Definition merge_toml_tables (dst src : Table) (path : string) : Table :=
  foldl (merge_entry path) dst src.

Definition merge_item (key : string) (dst_item src_item : Item) : outcome Item :=
  match dst_item with
  | INone => Ok INone
  | IValue _ =>
      match src_item with
      | IValue v => Ok (IValue v)
      | _ => Err "source item is not a value"
      end
  | ITable t =>
      match src_item with
      | ITable s => Ok (ITable (merge_toml_tables t s key))
      | _ => Err "source item is not a table"
      end
  | IArrayOfTables _ => Panic         (* unimplemented!() *)
  end.

(** The loop over [dst.iter_mut()]. *)
Fixpoint merge_existing (dst src : Table) : outcome Table :=
  match dst with
  | [] => Ok []
  | (key, dst_item) :: rest =>
      item ← match tget src key with
             | Some src_item => merge_item key dst_item src_item
             | None => Ok dst_item
             end;
      rest ← merge_existing rest src;
      Ok ((key, item) :: rest)
  end.

Definition merge_toml_configs (dst src : Table) : outcome Table :=
  dst ← merge_existing dst src;
  Ok (merge_toml_tables dst src "").

(** ** Lemmas *)
Lemma or_assoc {A} (o1 o2 o3 : option A) : or o1 (or o2 o3) = or (or o1 o2) o3.
Proof. by destruct o1. Qed.
Lemma or_None {A} (o : option A) : or o None = o.
Proof. by destruct o. Qed.

Lemma AlpineConfig_merge_assoc a b c :
  AlpineConfig_merge_with a (AlpineConfig_merge_with b c) =
  AlpineConfig_merge_with (AlpineConfig_merge_with a b) c.
Proof.
  unfold AlpineConfig_merge_with. simpl. rewrite !list_to_set_btree_elements.
  by rewrite (assoc_L (∪)).
Qed.

(** C21: layering: the merged object gives every accessor the value the pair
    (global, user) gives it, the user's value winning wherever both files set
    one, and merging is associative, so any grouping of layers agrees. *)
Theorem merged_agrees (global user third : PrefsObject) :
  let m := (PrefsObject_default, merged (global, user)) in
  alpine_custom_packages m = alpine_custom_packages (global, user) ∧
  all_custom_actions m = all_custom_actions (global, user) ∧
  all_images m = all_images (global, user) ∧
  gvproxy_debug m = gvproxy_debug (global, user) ∧
  krun_log_level_numeric m = krun_log_level_numeric (global, user) ∧
  krun_num_vcpus m = krun_num_vcpus (global, user) ∧
  krun_ram_size_mib m = krun_ram_size_mib (global, user) ∧
  passphrase_prompt_config m = passphrase_prompt_config (global, user) ∧
  (∀ o, default_image m o = default_image (global, user) o) ∧
  zfs_os m = zfs_os (global, user) ∧
  network_helper m = network_helper (global, user) ∧
  prefs_vmnet_pool m = prefs_vmnet_pool (global, user) ∧
  prefs_vmnet_offloading m = prefs_vmnet_offloading (global, user) ∧
  merge_with global (merge_with user third) = merge_with (merge_with global user) third.
Proof.
  intros m. subst m.
  unfold alpine_custom_packages, all_custom_actions, all_images, gvproxy_debug,
    krun_log_level_numeric, krun_num_vcpus, krun_ram_size_mib, passphrase_prompt_config,
    default_image, zfs_os, network_helper, prefs_vmnet_pool, prefs_vmnet_offloading.
  simpl. rewrite !or_None, !(right_id_L ∅ (∪)), list_to_set_btree_elements.
  split_and!; try done; [by rewrite (left_id_L ∅ (∪))|].
  unfold merge_with, GvproxyConfig_merge_with, KrunConfig_merge_with, MiscConfig_merge_with,
    NetworkPrefs_merge_with, OSConfig_merge_with. simpl.
  rewrite AlpineConfig_merge_assoc, <-!or_assoc, !(assoc_L (∪)). done.
Qed.

(** *** Loading *)
Definition no_legacy (c : PrefsObject) : Prop :=
  log_level_numeric c = None ∧ num_vcpus c = None ∧ ram_size_mib c = None.
Definition actions_valid (c : PrefsObject) : Prop :=
  ∀ name a, custom_actions c !! name = Some a →
    Forall (λ d, d ≠ "" ∧ Common.is_absolute d = false) (nfs_export_subdirs a).

Lemma foldM_unit_Ok {A} (f : A → outcome unit) (xs : list A) :
  foldM (λ _ x, f x) tt xs = Ok tt ↔ ∀ x, x ∈ xs → f x = Ok tt.
Proof.
  induction xs as [|x xs IH]; simpl; [split; [set_solver|done]|].
  split.
  - intros ([] & Hx & H)%outcome_bind_Ok y [->|Hy]%elem_of_cons; [done|]. by apply IH.
  - intros H. rewrite H by set_solver. simpl. apply IH. set_solver.
Qed.

Lemma PrefsObject_validate_Ok c c' :
  PrefsObject_validate c = Ok c' → c' = c ∧ actions_valid c.
Proof.
  unfold PrefsObject_validate. intros ([] & Hv & [= <-])%outcome_bind_Ok. split; [done|].
  intros name a Ha.
  pose proof (proj1 (foldM_unit_Ok _ _) Hv) as H.
  specialize (H (name, a) (proj2 (elem_of_btree_to_list _ _ _) Ha)). simpl in H.
  apply outcome_bind_Ok in H as (b & Hb & _). apply with_context_Ok in Hb.
  by apply validate_Ok in Hb as [_ ?].
Qed.

Section LoadingFacts.
Context `{Toml} (to_str_lossy : string → string) (writable : string → bool).

(** A file is rewritten only when its text is not in the current format. *)
Definition keeps (fs fs' : files) (paths : list string) : Prop :=
  ∀ p, (p ∉ paths ∨ ∃ s c, fs !! p = Some s ∧ toml_parse s = Ok c) → fs' !! p = fs !! p.

Lemma parse_toml_config_Ok fs s path fs' c :
  fs !! path = Some s →
  parse_toml_config to_str_lossy fs writable s path = Ok (fs', c) →
  keeps fs fs' [path] ∧ actions_valid c.
Proof.
  intros Hs Hp. unfold parse_toml_config in Hp.
  apply outcome_bind_Ok in Hp as ([fs1 c1] & H1 & Hp).
  apply outcome_bind_Ok in Hp as (c2 & [-> Hv]%PrefsObject_validate_Ok & [= <- <-]).
  split; [|done]. destruct (toml_parse s) as [c0|e|] eqn:Hparse; [by simplify_eq| |done].
  apply outcome_bind_Ok in H1 as (old & _ & H1).
  apply outcome_bind_Ok in H1 as (fs2 & Hsave%with_context_Ok & [= <- _]).
  unfold save_preferences in Hsave. apply outcome_bind_Ok in Hsave as (str & _ & Hsave).
  destruct (writable path); [|done]. injection Hsave as <-.
  intros p [Hp|(s' & c' & Hs' & Hc')].
  - rewrite lookup_insert_ne; [done|]. set_solver.
  - rewrite lookup_insert_ne; [done|]. intros ->. congruence.
Qed.

Lemma keeps_trans fs1 fs2 fs3 ps qs :
  keeps fs1 fs2 ps → keeps fs2 fs3 qs → keeps fs1 fs3 (ps ++ qs).
Proof.
  intros H1 H2 p Hp. rewrite elem_of_app in Hp.
  assert (fs2 !! p = fs1 !! p) as E by (apply H1; tauto). rewrite <-E. apply H2.
  rewrite E. tauto.
Qed.

Definition loaded_ok (c : PrefsObject) : Prop := no_legacy c ∧ actions_valid c.

Lemma convert_legacy_ok c : actions_valid c → loaded_ok (convert_legacy_config c).
Proof. by intros. Qed.

Lemma default_loaded_ok : loaded_ok PrefsObject_default.
Proof. split; [done|]. intros name a. simpl. by rewrite lookup_empty. Qed.

Lemma load_loop_Ok fs idx res ps fs' res' :
  loaded_ok res.1 → loaded_ok res.2 →
  load_loop to_str_lossy fs writable idx res ps = Ok (fs', res') →
  keeps fs fs' ps ∧ loaded_ok res'.1 ∧ loaded_ok res'.2.
Proof.
  revert fs idx res; induction ps as [|p ps IH]; intros fs idx res Hg Hu; simpl.
  { intros [= <- <-]. done. }
  destruct (fs !! p) as [s|] eqn:Hs.
  - intros ([fs1 c] & H1%with_context_Ok & H2)%outcome_bind_Ok.
    apply outcome_bind_Ok in H2 as (res1 & Hst & H2).
    destruct (parse_toml_config_Ok _ _ _ _ _ Hs H1) as [Hk Hv%convert_legacy_ok].
    apply IH in H2 as [Hk2 Hres].
    + split; [|done]. by apply (keeps_trans _ _ _ [p] ps Hk).
    + destruct idx as [|[]]; simplify_eq/=; done.
    + destruct idx as [|[]]; simplify_eq/=; done.
  - intros H2. apply IH in H2 as [Hk2 Hres]; [|done..]. split; [|done].
    apply (keeps_trans _ fs _ [p] ps); [|done]. by intros q _.
Qed.
End LoadingFacts.

(** Loading the two preference files: what is returned has no legacy
    keys left and only valid custom actions, a file that cannot be read
    counts as the defaults, and the only files rewritten are listed ones
    whose text is not in the current format. *)
Lemma load_preferences_ok `{Toml} to_str_lossy fs writable global user fs' prefs
    (Hload : load_preferences to_str_lossy fs writable [global; user] = Ok (fs', prefs)) :
  loaded_ok prefs.1 ∧ loaded_ok prefs.2 ∧
  (fs !! global = None → prefs.1 = PrefsObject_default) ∧
  (∀ p, (p ∉ [global; user] ∨ ∃ s c, fs !! p = Some s ∧ toml_parse s = Ok c) → fs' !! p = fs !! p).
Proof.
  pose proof Hload as Hl.
  apply load_loop_Ok in Hl as (Hk & Hg & Hu); [|apply default_loaded_ok..].
  split_and!; [done..| |done].
  intros Hnone. unfold load_preferences in Hload. simpl in Hload. rewrite Hnone in Hload.
  destruct (fs !! user); [|by simplify_eq].
  apply outcome_bind_Ok in Hload as ([fs1 c] & _ & Hload). by simplify_eq/=.
Qed.

(** *** Upgrading *)
Definition present (i : Item) : option Item := match i with INone => None | _ => Some i end.

Lemma present_some i : i ≠ INone → present i = Some i.
Proof. by destruct i. Qed.

Lemma tget_cons k i t j :
  tget ((k, i) :: t) j = or (if decide (k = j) then present i else None) (tget t j).
Proof. destruct i; simpl; by case_decide. Qed.

Lemma tget_tinsert t k i j :
  i ≠ INone → tget t k = None →
  tget (tinsert t k i) j = if decide (k = j) then Some i else tget t j.
Proof.
  intros Hi. induction t as [|[k' i'] t IH]; simpl; intros Hk.
  - case_decide; destruct i; done.
  - case_decide as Hkk; [subst k'|]; simpl.
    + destruct i'; [|done..].
      destruct i; [done|..]; simpl; case_decide; done.
    + destruct i'; [by apply IH|..]; repeat case_decide; subst; try done; by apply IH.
Qed.

Lemma contains_key_spec t k : contains_key t k = true ↔ is_Some (tget t k).
Proof. unfold contains_key. destruct (tget t k); split; naive_solver eauto using is_Some_None. Qed.

Definition obsolete (path key : string) : Prop := abs_key path key ∈ OBSOLETE_KEYS.
#[global] Instance obsolete_dec path key : Decision (obsolete path key).
Proof. unfold obsolete. apply _. Defined.

(** What the merged table holds: the destination's entry, otherwise the
    source's unless it is obsolete. *)
Definition merged_get (path : string) (dst src : option Item) (key : string) : option Item :=
  match dst with
  | Some i => Some i
  | None => if decide (obsolete path key) then None else src
  end.

Lemma merged_get_None path d k : merged_get path d None k = d.
Proof. destruct d; simpl; [done|]. by case_decide. Qed.

Lemma merge_entry_some path dst k i :
  i ≠ INone →
  merge_entry path dst (k, i) =
    match tget dst k with
    | Some _ => dst
    | None => if decide (obsolete path k) then dst else tinsert dst k i
    end.
Proof.
  intros Hi. unfold merge_entry, contains_key, bool_decide, obsolete.
  destruct i; [done|..]; destruct (tget dst k); try done; by repeat case_decide.
Qed.

Lemma merge_entry_get path dst k i j :
  tget (merge_entry path dst (k, i)) j =
  merged_get path (tget dst j) (if decide (k = j) then present i else None) j.
Proof.
  assert (i = INone ∨ i ≠ INone ∧ present i = Some i) as [->|[Hi ->]] by (destruct i; naive_solver).
  { simpl. case_decide; by rewrite merged_get_None. }
  rewrite merge_entry_some by done. destruct (decide (k = j)) as [->|Hkj].
  - destruct (tget dst j) eqn:Hd; [by rewrite Hd|]. simpl.
    destruct (decide (obsolete path j)); [done|].
    rewrite tget_tinsert by done. by rewrite decide_True.
  - rewrite merged_get_None. destruct (tget dst k) eqn:Hd; [done|].
    destruct (decide (obsolete path k)); [done|].
    rewrite tget_tinsert by done. by rewrite decide_False.
Qed.

Lemma merge_toml_tables_get path dst src j :
  tget (merge_toml_tables dst src path) j = merged_get path (tget dst j) (tget src j) j.
Proof.
  unfold merge_toml_tables. revert dst. induction src as [|[k i] src IH]; intros dst; simpl.
  { by rewrite merged_get_None. }
  rewrite IH, merge_entry_get. unfold merged_get.
  destruct (tget dst j); [done|]. destruct (decide (obsolete path j)); [done|].
  destruct i; simpl; by case_decide.
Qed.

Lemma merge_item_not_none k d s i : d ≠ INone → merge_item k d s = Ok i → i ≠ INone.
Proof. destruct d; [done|..]; destruct s; naive_solver. Qed.

Lemma merge_existing_get dst src dst' j :
  merge_existing dst src = Ok dst' →
  match tget dst j with
  | None => tget dst' j = None
  | Some d => match tget src j with
              | None => tget dst' j = Some d
              | Some s => ∃ i, merge_item j d s = Ok i ∧ tget dst' j = Some i
              end
  end.
Proof.
  revert dst'; induction dst as [|[k d] dst IH]; intros dst'; cbn [merge_existing]; [by intros [= <-]|].
  intros (i & Hi & H)%outcome_bind_Ok. apply outcome_bind_Ok in H as (r & Hr & [= <-]).
  specialize (IH r Hr). rewrite !tget_cons.
  assert (d = INone ∨ d ≠ INone) as [->|Hd] by (destruct d; naive_solver).
  { assert (i = INone) as -> by (destruct (tget src k); simpl in Hi; congruence).
    simpl. by case_decide. }
  assert (i ≠ INone) as Hin.
  { destruct (tget src k); [by eapply merge_item_not_none|]. congruence. }
  rewrite !present_some by done. case_decide as Hkj; [subst k|exact IH]. simpl.
  destruct (tget src j); [eauto|congruence].
Qed.

(** Upgrading a configuration file: when the merge succeeds, every entry
    of the current file survives or is replaced by the default's only inside
    a table: a top-level value keeps the current file's setting, a table keeps
    the default's entries and gains the current file's other ones, an entry of
    the current file alone is added, an entry of the default alone is kept,
    and obsolete keys are not carried over. *)
Lemma merge_toml_configs_get dst src dst' key
    (Hmerge : merge_toml_configs dst src = Ok dst') :
  match tget dst key, tget src key with
  | Some (IValue _), Some s => tget dst' key = Some s ∧ ∃ v, s = IValue v
  | Some (ITable t), Some s =>
      ∃ t' u, s = ITable u ∧ tget dst' key = Some (ITable t') ∧
        ∀ j, tget t' j = merged_get key (tget t j) (tget u j) j
  | Some d, None => tget dst' key = Some d
  | None, s => tget dst' key = merged_get "" None s key
  | _, _ => False
  end.
Proof.
  unfold merge_toml_configs in Hmerge. apply outcome_bind_Ok in Hmerge as (d1 & H1 & [= <-]).
  pose proof (merge_existing_get _ _ _ key H1) as H.
  rewrite merge_toml_tables_get.
  destruct (tget dst key) as [d|] eqn:Hd.
  - destruct (tget src key) as [s|].
    + destruct H as (i & Hi & ->). simpl. destruct d as [|v|t|ts]; simpl in Hi.
      * exfalso. clear -Hd. induction dst as [|[k i] dst IH]; [done|]. simpl in Hd.
        destruct i; [auto|..]; case_decide; auto; done.
      * destruct s; simplify_eq. eauto.
      * destruct s; simplify_eq. do 2 eexists. split_and!; [done..|].
        intros j. apply merge_toml_tables_get.
      * done.
    + rewrite H. by destruct d.
  - rewrite H. done.
Qed.

(** ** Concrete inputs *)
Module Witness.
#[local] Instance toml : Toml := {
  toml_parse s := if decide (s = "[krun]") then Ok PrefsObject_default else Err "syntax";
  toml_parse_old s := Err "syntax";
  toml_print p := Ok "";
}.

Example load_preferences_ok_witness :
  loaded_ok PrefsObject_default ∧ loaded_ok (convert_legacy_config PrefsObject_default) ∧
  ((<["u" := "[krun]"]> ∅ : files) !! "g" = None → PrefsObject_default = PrefsObject_default) ∧
  (∀ p, (p ∉ ["g"; "u"] ∨ ∃ s c, (<["u" := "[krun]"]> ∅ : files) !! p = Some s ∧ toml_parse s = Ok c) →
     (<["u" := "[krun]"]> ∅ : files) !! p = (<["u" := "[krun]"]> ∅ : files) !! p).
Proof.
  apply (load_preferences_ok id (<["u" := "[krun]"]> ∅) (λ _, true) "g" "u" _
           (PrefsObject_default, convert_legacy_config PrefsObject_default)).
  vm_compute. reflexivity.
Defined.

Definition sample_config : Config := {|
  paths := {| home_dir := "/home/u"; profile_path := "/home/u/.anylinuxfs";
              exec_path := "/usr/bin/anylinuxfs"; config_file_path := "/home/u/.anylinuxfs/config.toml";
              libexec_path := "/usr/libexec"; init_rootfs_path := "/usr/libexec/init-rootfs";
              vmproxy_host_path := "/usr/libexec/vmproxy"; gvproxy_path := "/usr/libexec/gvproxy";
              vmnet_helper_path := "/usr/libexec/vmnet-helper"; root_path := "/home/u/.anylinuxfs/alpine/rootfs";
              root_ver_file_path := "/home/u/.anylinuxfs/alpine/rootfs.ver" |};
  logs := {| log_file_path := "/home/u/l.log"; kernel_log_file_path := "/home/u/k.log";
             nethelper_log_path := "/home/u/n.log" |};
  net := {| gvproxy_net_sock_path := "/tmp/net.sock"; vsock_path := "/tmp/vsock";
            unixgram_sock_path := "/tmp/vfkit.sock"; preferred_net_helper := GvProxy;
            specified_net_helper := None; config_vmnet_offloading := false |};
  privilege := {| invoker_uid := 1000; invoker_gid := 1000; sudo_uid := None; sudo_gid := None |};
  kernel := {| os := Linux; kernel_path := "/usr/libexec/Image" |};
  cfg_passphrase_config := AskForEach; rw_rootfs := false; cfg_zfs_os := Linux;
  preferences := (PrefsObject_default, PrefsObject_default) |}.

Definition sample_mount_config (disk : string) : MountConfig := {|
  disk_path := disk; read_only := false; mount_options := None; nfs_options := [];
  nfs_export_opts := None; ignore_permissions := false; allow_remount := false;
  vm_hostname := "alfs"; custom_mount_point := None; fs_driver := None; assemble_raid := false;
  bind_addr := None; verbose := false; open_finder := false; kernel_page_size := None;
  common := sample_config; custom_action := None; key_file := None |}.

Definition default_doc : Table :=
  [("version", IValue "1"); ("network", ITable [("helper", IValue "gvproxy")]);
   ("images", ITable [("alpine-latest", ITable [])])].
Definition current_doc : Table :=
  [("version", IValue "0"); ("network", ITable [("helper", IValue "vmnet"); ("pool", IValue "p")]);
   ("images", ITable [("freebsd-14.3", ITable [])])].

Example merge_toml_configs_get_witness :
  ∃ t' u, ITable [("helper", IValue "vmnet"); ("pool", IValue "p")] = ITable u ∧
    tget [("version", IValue "0");
          ("network", ITable [("helper", IValue "gvproxy"); ("pool", IValue "p")]);
          ("images", ITable [("alpine-latest", ITable [])])] "network" = Some (ITable t') ∧
    ∀ j, tget t' j = merged_get "network" (tget [("helper", IValue "gvproxy")] j) (tget u j) j.
Proof.
  apply (merge_toml_configs_get default_doc current_doc _ "network"). reflexivity.
Defined.
End Witness.
