(* ===== verification/Fsutil.v ===== *)
(** * Mounts ([fsutil.rs])

    The mount table, the NFS client options, the trie of subdirectory exports
    and the two parallel traversals that mount and unmount them. A command
    that is run is an event; a parallel traversal is any interleaving of its
    branches. *)
From S2P Require Import Prelude Paths.
From Stdlib Require Import Ascii.

(** ** Mount table *)
(** An entry of /proc/mounts, or of getfsstat(2): source and mount point. *)
Record MountEntry := { fs_spec : string; fs_file : string }.

Record MountTable := { disks : gset string; mount_points : gset string }.

(** [MountTable::new]; macOS skips entries with an empty field. *)
Definition MountTable_new (os : TargetOS) (mounts : list MountEntry) : MountTable :=
  let mounts :=
    match os with
    | MacOS => filter (λ m, fs_spec m ≠ "" ∧ fs_file m ≠ "") mounts
    | LinuxHost => mounts
    end in
  {| disks := list_to_set (fs_spec <$> mounts); mount_points := list_to_set (fs_file <$> mounts) |}.

Definition is_mounted (t : MountTable) (path : string) : bool := bool_decide (path ∈ disks t).

(** [statfs] on Linux: the first entry for the mount point. *)
Definition statfs (mounts : list MountEntry) (path : string) : outcome MountEntry :=
  match List.find (λ e, bool_decide (fs_file e = path)) mounts with
  | Some e => Ok e
  | None => Err ("'" +:+ path +:+ "' not found in /proc/mounts")
  end.

(** [mounted_from]: the device, when the path is itself a mount point. *)
Definition mounted_from (statfs : string → outcome MountEntry) (path : string) : outcome string :=
  buf ← statfs path;
  if path.eqb path (fs_file buf) then Ok (fs_spec buf)
  else Err ("Path '" +:+ path +:+ "' is not a mount point.").

(** [cleanup_stale_nfs_client_mount]: the mount points [umount -f] is run on. *)
Definition cleanup_stale_nfs_client_mount (os : TargetOS) (mounts : list MountEntry)
    (device : string) : list string :=
  match os with
  | LinuxHost => fs_file <$> filter (λ e, fs_spec e = device) mounts
  | MacOS => []
  end.

(** ** NFS options *)
Definition NOLOCK_KEY (os : TargetOS) : string :=
  match os with MacOS => "nolocks" | LinuxHost => "nolock" end.

Abbreviation NfsOptions := (gmap string string).

Definition NfsOptions_default (os : TargetOS) : NfsOptions :=
  let opts : NfsOptions :=
    match os with
    | MacOS =>
        <["retrans" := "3"]> (<["timeo" := "100"]> (<["intr" := ""]> (<["soft" := ""]>
          (<["nfc" := ""]> (<["deadtimeout" := "45"]> ∅)))))
    | LinuxHost => ∅
    end in
  <["mountport" := "32767"]> (<["port" := "2049"]> (<["vers" := "3"]> (<[NOLOCK_KEY os := ""]> opts))).

Definition option_text (kv : string * string) : string :=
  if decide (kv.2 = "") then kv.1 else Str.join "=" [kv.1; kv.2].

Definition to_list (opts : NfsOptions) : string := Str.join "," (option_text <$> btree_to_list opts).

(** ** Synchronised copies *)
Record Metadata := { md_len : N; md_modified : outcome N }.

Definition files_likely_differ (metadata : string → outcome Metadata) (orig copied : string) :
    outcome bool :=
  orig_md ← with_context ("Error accessing " +:+ orig) (metadata orig);
  copied_md ← with_context ("Error accessing " +:+ copied) (metadata copied);
  if negb (bool_decide (md_len orig_md = md_len copied_md)) then Ok true
  else
    orig_time ← md_modified orig_md;
    copied_time ← md_modified copied_md;
    if bool_decide (copied_time < orig_time)%N then Ok true else Ok false.

(** ** The trie of directories *)
(** The children are a [BTreeMap]; they are visited in parallel, so their
    order is not kept. *)
Inductive node := Node (paths : option (string * string)) (children : list (string * node)).

Definition paths (n : node) := let 'Node p _ := n in p.
Definition children (n : node) := let 'Node _ cs := n in cs.
Definition node_default : node := Node None [].

(** [children.entry(segment).or_default()], updated by [f]. *)
Fixpoint entry (s : string) (f : node → node) (cs : list (string * node)) : list (string * node) :=
  match cs with
  | [] => [(s, f node_default)]
  | (k, c) :: cs => if decide (k = s) then (k, f c) :: cs else (k, c) :: entry s f cs
  end.

Fixpoint insert_at (segments : list string) (v : string * string) (n : node) : node :=
  match segments with
  | [] => Node (Some v) (children n)
  | s :: segments => Node (paths n) (entry s (insert_at segments v) (children n))
  end.

(** The key of a path. *)
Definition segs (p : string) : list string := path.as_os_str <$> path.components p.

Definition insert (n : node) (path full_path : string) : node :=
  insert_at (segs path) (path, full_path) n.

(** ** Commands and their interleavings *)
(** A command that was run for the node of a path: its command line and
    whether it exited with success. *)
Record event := {
  ev_rel : string;
  ev_path : string;
  ev_cmd : list string;
  ev_ok : bool;
}.

(** [t] is an interleaving of the traces [ts]. *)
Inductive interleave {A} : list (list A) → list A → Prop :=
| interleave_nil ts : Forall (λ l, l = []) ts → interleave ts []
| interleave_cons ts1 x l ts2 t :
    interleave (ts1 ++ l :: ts2) t → interleave (ts1 ++ (x :: l) :: ts2) (x :: t).

(** The branches of [par_iter().try_for_each]: a branch that is started runs
    to its end; branches are left out only when one fails. *)
Definition branch : Type := option (list event * bool).
Definition branch_trace (b : branch) : list event := match b with Some (t, _) => t | None => [] end.
Definition branch_failed (b : branch) : bool := match b with Some (_, ok) => negb ok | None => false end.
Definition branch_skipped (b : branch) : bool := match b with Some _ => false | None => true end.

(** The whole loop gave [t] and returned [Ok] iff [ok]. *)
Definition joined (bs : list branch) (t : list event) (ok : bool) : Prop :=
  interleave (branch_trace <$> bs) t ∧
  ok = negb (existsb branch_failed bs) ∧
  (existsb branch_skipped bs = true → existsb branch_failed bs = true).

Section Mount.
Context (vm_host : string) (mnt_point_base : string) (nfs_opts : string) (elevate : bool).

Definition quote : string := String (ascii_of_nat 34) "".

Definition mount_script (rel_path nfs_path : string) : string :=
  "mount -t nfs -o " +:+ nfs_opts +:+ " " +:+ quote +:+ vm_host +:+ ":" +:+ nfs_path +:+ quote +:+
  " " +:+ quote +:+ path.join mnt_point_base rel_path +:+ quote.
Definition mount_cmdline (rel_path nfs_path : string) : list string :=
  let cmdline := ["sudo"; "-S"; "sh"; "-c"; mount_script rel_path nfs_path] in
  if elevate then cmdline else drop 2 cmdline.

Definition mount_event (v : string * string) (ok : bool) : event :=
  {| ev_rel := v.1; ev_path := v.2; ev_cmd := mount_cmdline v.1 v.2; ev_ok := ok |}.

(** [parallel_mount_recursive]: the runs it can have. The node's own mount
    comes first and its failure ends the visit. *)
Fixpoint parallel_mount_recursive (trie : node) (t : list event) (ok : bool) : Prop :=
  let 'Node p cs := trie in
  let fix branches (cs : list (string * node)) (bs : list branch) : Prop :=
    match cs, bs with
    | [], [] => True
    | (_, c) :: cs, b :: bs =>
        match b with Some (t, ok) => parallel_mount_recursive c t ok | None => True end ∧
        branches cs bs
    | _, _ => False
    end in
  match p with
  | Some v =>
      (t = [mount_event v false] ∧ ok = false) ∨
      (∃ t' bs, t = mount_event v true :: t' ∧ branches cs bs ∧ joined bs t' ok)
  | None => ∃ bs, branches cs bs ∧ joined bs t ok
  end.
End Mount.

(** The path of an export relative to the share, empty when it is elsewhere. *)
Definition export_relative (share_path_base subdir : string) : string :=
  match Str.strip_prefix share_path_base subdir with
  | Some s => match Str.strip_prefix "/" s with Some r => r | None => "" end
  | None => ""
  end.

Definition mount_trie (share_path_base : string) (subdirs : list string) : node :=
  foldl (λ trie subdir, insert trie (export_relative share_path_base subdir) subdir)
    node_default subdirs.

Definition mount_nfs_subdirs (vm_host share_path_base : string) (subdirs : list string)
    (mnt_point_base : string) (nfs_opts : NfsOptions) (elevate : bool)
    (t : list event) (ok : bool) : Prop :=
  parallel_mount_recursive vm_host mnt_point_base (to_list nfs_opts) elevate
    (mount_trie share_path_base subdirs) t ok.

Definition umount_script (os : TargetOS) (mount_path : string) : string :=
  match os with MacOS => "diskutil unmount " | LinuxHost => "umount " end +:+
  quote +:+ mount_path +:+ quote.
Definition umount_event (os : TargetOS) (v : string * string) (ok : bool) : event :=
  {| ev_rel := v.1; ev_path := v.2; ev_cmd := ["sh"; "-c"; umount_script os v.2]; ev_ok := ok |}.

(** [parallel_unmount_recursive]: the children first; the exit status of the
    command is ignored, only a shell that cannot be started is an error. *)
Fixpoint parallel_unmount_recursive (os : TargetOS) (trie : node) (t : list event) (ok : bool) : Prop :=
  let 'Node p cs := trie in
  let fix branches (cs : list (string * node)) (bs : list branch) : Prop :=
    match cs, bs with
    | [], [] => True
    | (_, c) :: cs, b :: bs =>
        match b with Some (t, ok) => parallel_unmount_recursive os c t ok | None => True end ∧
        branches cs bs
    | _, _ => False
    end in
  ∃ bs t' children_ok, branches cs bs ∧ joined bs t' children_ok ∧
    match p with
    | Some v =>
        if children_ok : bool
        then (∃ status, t = t' ++ [umount_event os v status] ∧ ok = true) ∨ (t = t' ∧ ok = false)
        else t = t' ∧ ok = false
    | None => t = t' ∧ ok = children_ok
    end.

(** The key of a mount point, or the decision to skip it. *)
Definition unmount_relative (base subdir : string) : option string :=
  if decide (subdir = base) then Some ""
  else s ← Str.strip_prefix base subdir; Str.strip_prefix "/" s.

Definition unmount_trie (base : string) (subdirs : list string) : node :=
  foldl (λ trie subdir,
    match unmount_relative base subdir with
    | Some rel => insert trie rel subdir
    | None => trie
    end) node_default subdirs.

Definition unmount_nfs_subdirs (os : TargetOS) (subdirs : list string) (mnt_point_base : string)
    (t : list event) (ok : bool) : Prop :=
  parallel_unmount_recursive os (unmount_trie mnt_point_base subdirs) t ok.

(** The filter of [run_unmount] on the mount table's mount points. *)
Definition under_mount_point (prefix mpt : string) : bool :=
  bool_decide (mpt = prefix) ||
  (Str.starts_with prefix mpt &&
   bool_decide (String.get (String.length prefix) mpt = Some "/"%char)).

(** ** Lemmas *)
(** *** Tries *)
Fixpoint child (s : string) (cs : list (string * node)) : option node :=
  match cs with
  | [] => None
  | (k, c) :: cs => if decide (k = s) then Some c else child s cs
  end.

Fixpoint find (n : node) (k : list string) : option (string * string) :=
  match k with
  | [] => paths n
  | s :: k => c ← child s (children n); find c k
  end.

Lemma find_default k : find node_default k = None.
Proof. by destruct k. Qed.

Lemma child_entry s f cs s' :
  child s' (entry s f cs) =
    if decide (s = s') then Some (f (default node_default (child s cs))) else child s' cs.
Proof.
  induction cs as [|[k c] cs IH]; simpl; [by case_decide|].
  destruct (decide (k = s)) as [->|Hks]; simpl.
  - by case_decide.
  - rewrite IH. repeat case_decide; naive_solver.
Qed.

Lemma find_insert_at segments v n k :
  find (insert_at segments v n) k = if decide (segments = k) then Some v else find n k.
Proof.
  revert n k; induction segments as [|s segments IH]; intros n [|s' k]; simpl; try done.
  rewrite child_entry. destruct (decide (s = s')) as [->|Hs]; simpl.
  - rewrite IH. destruct (child s' (children n)) eqn:Hc; simpl;
      [|rewrite find_default]; repeat case_decide; naive_solver.
  - rewrite decide_False by naive_solver. done.
Qed.

(** Children have distinct names, at every level. *)
Inductive wf : node → Prop :=
| wf_node p cs : NoDup cs.*1 → (∀ s c, (s, c) ∈ cs → wf c) → wf (Node p cs).

Lemma entry_names s f cs s' : s' ∈ (entry s f cs).*1 ↔ s' = s ∨ s' ∈ cs.*1.
Proof.
  induction cs as [|[k c] cs IH]; simpl; [set_solver|].
  case_decide; subst; simpl; set_solver.
Qed.

Lemma entry_NoDup s f cs : NoDup cs.*1 → NoDup (entry s f cs).*1.
Proof.
  induction cs as [|[k c] cs IH]; simpl; [intros _; apply NoDup_singleton|].
  intros [Hk Hcs]%NoDup_cons. case_decide; simpl; [by subst; constructor|].
  constructor; [|auto]. rewrite entry_names. naive_solver.
Qed.

Lemma entry_wf s f cs :
  (∀ c, wf c → wf (f c)) → wf node_default → (∀ s c, (s, c) ∈ cs → wf c) →
  ∀ s' c, (s', c) ∈ entry s f cs → wf c.
Proof.
  intros Hf Hd. induction cs as [|[k c0] cs IH]; simpl; intros Hcs s' c.
  - rewrite list_elem_of_singleton. naive_solver.
  - case_decide; rewrite elem_of_cons; intros [Hc|Hc]; simplify_eq.
    + apply Hf. eapply Hcs. by left.
    + eapply Hcs. by right.
    + eapply Hcs. by left.
    + eapply IH; [|done]. intros s1 c1 Hc1. eapply Hcs. by right.
Qed.

Lemma wf_default : wf node_default.
Proof. constructor; [constructor|]. set_solver. Qed.

Lemma wf_insert_at segments v n : wf n → wf (insert_at segments v n).
Proof.
  revert n; induction segments as [|s segments IH]; intros n [p cs Hnd Hcs]; simpl.
  - by constructor.
  - constructor; [by apply entry_NoDup|]. apply entry_wf; auto using wf_default.
Qed.

Lemma child_elem s c cs : NoDup cs.*1 → (s, c) ∈ cs → child s cs = Some c.
Proof.
  induction cs as [|[k c0] cs IH]; simpl; [set_solver|].
  intros [Hk Hnd]%NoDup_cons [|Hc]%elem_of_cons; simplify_eq; [by rewrite decide_True|].
  rewrite decide_False; [auto|]. intros ->. apply Hk, list_elem_of_fmap. by exists (s, c).
Qed.

Lemma child_Some_elem s c cs : child s cs = Some c → (s, c) ∈ cs.
Proof.
  induction cs as [|[k c0] cs IH]; simpl; [done|].
  case_decide; [intros [= ->]; subst; by left|]. right; auto.
Qed.

Lemma node_ind' (P : node → Prop) :
  (∀ p cs, (∀ s c, (s, c) ∈ cs → P c) → P (Node p cs)) → ∀ n, P n.
Proof.
  intros H. fix IH 1. intros [p cs]. apply H.
  induction cs as [|[s c] cs IHcs]; intros s' c' Hin; [destruct (not_elem_of_nil _ Hin)|].
  apply elem_of_cons in Hin as [E|Hin]; [|exact (IHcs s' c' Hin)].
  injection E as _ ->. apply IH.
Qed.

(** *** Interleavings *)
Lemma elem_of_interleave {A} (ts : list (list A)) t x :
  interleave ts t → x ∈ t ↔ ∃ l, l ∈ ts ∧ x ∈ l.
Proof.
  induction 1 as [ts Hts|ts1 y l ts2 t _ IH].
  - rewrite Forall_forall in Hts. split; [set_solver|].
    intros (l & Hl & Hx). rewrite (Hts l Hl) in Hx. set_solver.
  - rewrite elem_of_cons, IH. setoid_rewrite elem_of_app. setoid_rewrite elem_of_cons.
    split.
    + intros [->|(l' & [?|[->|?]] & ?)].
      * exists (y :: l). split; [by right; left|by left].
      * exists l'. eauto.
      * exists (y :: l). split; [by right; left|by right].
      * exists l'. eauto.
    + intros (l' & [?|[->|?]] & Hx); [eauto 6| |eauto 6].
      apply elem_of_cons in Hx as [->|?]; [by left|eauto 6].
Qed.

(** Traces that are sorted, and whose elements are unrelated to those of the
    other traces, interleave into a sorted trace. *)
Lemma interleave_sorted {A} (R : A → A → Prop) ts t :
  interleave ts t → Forall (StronglySorted R) ts →
  (∀ i j l l' x y, i ≠ j → ts !! i = Some l → ts !! j = Some l' → x ∈ l → y ∈ l' → R x y) →
  StronglySorted R t.
Proof.
  induction 1 as [ts Hts|ts1 z l ts2 t Ht IH]; intros Hs Hcross; [constructor|].
  apply Forall_app in Hs as [Hs1 [Hl Hs2]%Forall_cons].
  apply StronglySorted_inv in Hl as [Hl Hz]. constructor.
  - apply IH; [by apply Forall_app; split; [|constructor]|].
    intros i j l1 l2 x y Hij Hi Hj Hx Hy.
    assert (∀ i' l3 w, (ts1 ++ l :: ts2) !! i' = Some l3 → w ∈ l3 →
      ∃ l4, (ts1 ++ (z :: l) :: ts2) !! i' = Some l4 ∧ w ∈ l4) as Hsub.
    { intros i' l3 w Hi' Hw. destruct (decide (i' = length ts1)) as [->|Hne].
      - rewrite list_lookup_middle in Hi' by done. injection Hi' as <-.
        rewrite list_lookup_middle by done. eexists; split; [done|by right].
      - exists l3. split; [|done]. rewrite <-Hi'.
        rewrite !lookup_app. destruct (ts1 !! i') eqn:E; [done|].
        apply lookup_ge_None in E. destruct (i' - length ts1) eqn:E2; [lia|done]. }
    destruct (Hsub i l1 x Hi Hx) as (l3 & Hi' & Hx'), (Hsub j l2 y Hj Hy) as (l4 & Hj' & Hy').
    by eapply (Hcross i j).
  - apply Forall_forall. intros y Hy.
    apply (elem_of_interleave _ _ _ Ht) in Hy as (l' & Hl' & Hy).
    apply list_elem_of_lookup in Hl' as [j Hj].
    destruct (decide (j = length ts1)) as [->|Hne].
    + rewrite list_lookup_middle in Hj by done. injection Hj as <-.
      by rewrite Forall_forall in Hz; apply Hz.
    + eapply (Hcross (length ts1) j); [done|by apply list_lookup_middle| |by left|exact Hy].
      rewrite <-Hj, !lookup_app. destruct (ts1 !! j) eqn:E; [done|].
      apply lookup_ge_None in E. destruct (j - length ts1) eqn:E2; [lia|done].
Qed.

(** *** Traversals *)
Definition ev_key (e : event) : list string := segs (ev_rel e).
Definition ev_paths (e : event) : string * string := (ev_rel e, ev_path e).

(** The path stored at a position is the path of that position. *)
Definition labelled (pre : list string) (n : node) : Prop :=
  ∀ k v, find n k = Some v → segs v.1 = pre ++ k.

(** What a run over [n] did: only commands of [n], which satisfy [C], in an
    order that respects [R], and, when it succeeded, all of them with [G]. *)
Definition visited (R : event → event → Prop) (C G : event → Prop) (n : node) (t : list event)
    (ok : bool) : Prop :=
  (∀ e, e ∈ t → ∃ k, find n k = Some (ev_paths e) ∧ C e) ∧
  StronglySorted R t ∧
  (ok = true → ∀ k v, find n k = Some v → ∃ e, e ∈ t ∧ ev_paths e = v ∧ G e).

Definition branch_ok (P : node → list event → bool → Prop) (sc : string * node) (b : branch) : Prop :=
  match b with Some (t, ok) => P sc.2 t ok | None => True end.

Lemma labelled_child pre p cs s c :
  labelled pre (Node p cs) → child s cs = Some c → labelled (pre ++ [s]) c.
Proof.
  intros Hl Hc k v Hv. rewrite <-app_assoc. simpl. apply Hl. simpl. by rewrite Hc.
Qed.

Section Joined.
Context (R : event → event → Prop) (C G : event → Prop) (pre : list string).
Context (HR : ∀ x y, ¬ ev_key x `prefix_of` ev_key y → ¬ ev_key y `prefix_of` ev_key x → R x y).
Context (cs : list (string * node)) (bs : list branch).
Context (Hnd : NoDup cs.*1).
Context (Hlab : ∀ s c, child s cs = Some c → labelled (pre ++ [s]) c).
Context (Hbs : Forall2 (branch_ok (visited R C G)) cs bs).

Lemma branch_event i l e :
  branch_trace <$> bs !! i = Some l → e ∈ l →
  ∃ s c k, cs !! i = Some (s, c) ∧ child s cs = Some c ∧ find c k = Some (ev_paths e) ∧
           ev_key e = pre ++ s :: k ∧ C e.
Proof.
  intros Hi He. apply fmap_Some in Hi as (b & Hb & ->).
  destruct (Forall2_lookup_r _ _ _ _ _ Hbs Hb) as ([s c] & Hsc & Hok).
  destruct b as [[t ok]|]; simpl in He; [|set_solver]. simpl in Hok.
  destruct Hok as (Hfind & _). destruct (Hfind e He) as (k & Hk & HC).
  assert (child s cs = Some c) as Hc.
  { apply child_elem; [done|]. by apply list_elem_of_lookup_2 in Hsc. }
  exists s, c, k. split_and!; try done.
  pose proof (Hlab s c Hc k _ Hk) as E. simpl in E. unfold ev_key. rewrite E.
  by rewrite <-app_assoc.
Qed.

Lemma incomparable s s' k k' :
  s ≠ s' → ¬ (pre ++ s :: k) `prefix_of` (pre ++ s' :: k').
Proof. intros Hs H%prefix_app_inv. by apply prefix_cons_inv_1 in H. Qed.

Lemma joined_visited t ok :
  joined bs t ok →
  (∀ e, e ∈ t → ∃ s c k, child s cs = Some c ∧ find c k = Some (ev_paths e) ∧
                         ev_key e = pre ++ s :: k ∧ C e) ∧
  StronglySorted R t ∧
  (ok = true → ∀ s c k v, child s cs = Some c → find c k = Some v →
     ∃ e, e ∈ t ∧ ev_paths e = v ∧ G e).
Proof.
  intros (Hil & Hok & Hskip). split_and!.
  - intros e He. apply (elem_of_interleave _ _ _ Hil) in He as (l & Hl & He).
    apply list_elem_of_lookup in Hl as [i Hi]. rewrite list_lookup_fmap in Hi.
    destruct (branch_event i l e Hi He) as (s & c & k & _ & ?). by exists s, c, k.
  - eapply interleave_sorted; [exact Hil| |].
    + apply Forall_forall. intros l Hl. apply list_elem_of_fmap in Hl as (b & -> & Hb).
      apply list_elem_of_lookup in Hb as [i Hb].
      destruct (Forall2_lookup_r _ _ _ _ _ Hbs Hb) as ([s c] & _ & Hv).
      destruct b as [[t' ok']|]; simpl; [by destruct Hv as (_ & ? & _)|constructor].
    + intros i j l l' x y Hij Hi Hj Hx Hy. rewrite list_lookup_fmap in Hi, Hj.
      destruct (branch_event i l x Hi Hx) as (s & c & k & Hs & _ & _ & Ex & _).
      destruct (branch_event j l' y Hj Hy) as (s' & c' & k' & Hs' & _ & _ & Ey & _).
      assert (s ≠ s') as Hss.
      { intros ->. apply Hij. apply (NoDup_lookup _ _ _ s' Hnd);
          rewrite list_lookup_fmap; [by rewrite Hs|by rewrite Hs']. }
      apply HR; rewrite Ex, Ey; apply incomparable; congruence.
  - intros -> s c k v Hc Hv. symmetry in Hok. apply negb_true_iff in Hok.
    apply child_Some_elem, list_elem_of_lookup in Hc as [i Hi].
    destruct (Forall2_lookup_l _ _ _ _ _ Hbs Hi) as (b & Hb & Hbok).
    assert (b ∈ bs) as Hin by by apply list_elem_of_lookup_2 in Hb.
    assert (branch_skipped b = false ∧ branch_failed b = false) as [Hns Hnf].
    { rewrite Hok in Hskip.
      assert (existsb branch_skipped bs = false) as Hsk by (by destruct (existsb branch_skipped bs); [discriminate Hskip|]).
      split; apply not_true_is_false; intros Hb'.
      - eapply diff_true_false. rewrite <-Hsk. symmetry. apply existsb_exists.
        exists b. split; [by apply list_elem_of_In|done].
      - eapply diff_true_false. rewrite <-Hok. symmetry. apply existsb_exists.
        exists b. split; [by apply list_elem_of_In|done]. }
    destruct b as [[t' ok']|]; [|done]. simpl in Hnf. apply negb_false_iff in Hnf as ->.
    destruct Hbok as (_ & _ & Hall). destruct (Hall eq_refl k v Hv) as (e & He & ? & ?).
    exists e. split; [|done]. apply (elem_of_interleave _ _ _ Hil). exists t'. split; [|done].
    apply list_elem_of_fmap. by exists (Some (t', true)).
Qed.
End Joined.

(** The loops over the children, as [Forall2]. *)
Lemma mount_node vm base opts el p cs t ok :
  parallel_mount_recursive vm base opts el (Node p cs) t ok ↔
  let P bs := Forall2 (branch_ok (parallel_mount_recursive vm base opts el)) cs bs in
  match p with
  | Some v =>
      (t = [mount_event vm base opts el v false] ∧ ok = false) ∨
      (∃ t' bs, t = mount_event vm base opts el v true :: t' ∧ P bs ∧ joined bs t' ok)
  | None => ∃ bs, P bs ∧ joined bs t ok
  end.
Proof.
  simpl. match goal with |- context [(_ = [_] ∧ _) ∨ ∃ _ _, _ ∧ ?f cs _ ∧ _] => set (go := f) end.
  assert (∀ bs, go cs bs ↔ Forall2 (branch_ok (parallel_mount_recursive vm base opts el)) cs bs) as E.
  { induction cs as [|[s c] cs' IH]; intros [|b bs]; simpl;
      rewrite ?Forall2_cons, ?IH; try done; split; try done; intros H; inversion H. }
  destruct p; by setoid_rewrite E.
Qed.

(** Parents first, and nothing below a mount that failed. *)
Definition parents_first (x y : event) : Prop :=
  ¬ ev_key y `prefix_of` ev_key x ∧ (ev_ok x = false → ¬ ev_key x `prefix_of` ev_key y).
(** Descendants first. *)
Definition descendants_first (x y : event) : Prop := ¬ ev_key x `prefix_of` ev_key y.

Lemma prefix_own (pre : list string) s k : ¬ (pre ++ s :: k) `prefix_of` pre.
Proof. intros H%prefix_length. rewrite length_app in H. simpl in H. lia. Qed.

Lemma branches_visited R C G pre p cs bs (run : node → list event → bool → Prop) :
  wf (Node p cs) → labelled pre (Node p cs) →
  (∀ s c, (s, c) ∈ cs → ∀ pre t ok, wf c → labelled pre c → run c t ok → visited R C G c t ok) →
  Forall2 (branch_ok run) cs bs →
  NoDup cs.*1 ∧ (∀ s c, child s cs = Some c → labelled (pre ++ [s]) c) ∧
  Forall2 (branch_ok (visited R C G)) cs bs.
Proof.
  intros Hwf Hl IH Hbs. inversion_clear Hwf as [? ? Hnd Hcs].
  assert (∀ s c, child s cs = Some c → labelled (pre ++ [s]) c) as Hlc
    by (intros s c Hc; by eapply labelled_child).
  split_and!; [done..|].
  apply Forall2_same_length_lookup. split; [by eapply Forall2_length|].
  intros i [s c] b Hsc Hb. pose proof (Forall2_lookup_lr _ _ _ _ _ _ Hbs Hsc Hb) as Hrun.
  apply list_elem_of_lookup_2 in Hsc. clear Hb. rename Hrun into Hb.
  destruct b as [[t ok]|]; [|done]. simpl in *.
  apply (IH s c Hsc (pre ++ [s])); [by eapply Hcs| |done]. by apply Hlc, child_elem.
Qed.

Lemma children_run (R : event → event → Prop) (C G : event → Prop) pre p cs bs
    (run : node → list event → bool → Prop) t ok :
  (∀ x y, ¬ ev_key x `prefix_of` ev_key y → ¬ ev_key y `prefix_of` ev_key x → R x y) →
  wf (Node p cs) → labelled pre (Node p cs) →
  (∀ s c, (s, c) ∈ cs → ∀ pre t ok, wf c → labelled pre c → run c t ok → visited R C G c t ok) →
  Forall2 (branch_ok run) cs bs → joined bs t ok →
  (∀ e, e ∈ t → ∃ s c k, child s cs = Some c ∧ find c k = Some (ev_paths e) ∧
                         ev_key e = pre ++ s :: k ∧ C e) ∧
  StronglySorted R t ∧
  (ok = true → ∀ s c k v, child s cs = Some c → find c k = Some v →
     ∃ e, e ∈ t ∧ ev_paths e = v ∧ G e).
Proof.
  intros HR Hwf Hl IH Hbs Hj.
  destruct (branches_visited R C G pre p cs bs run Hwf Hl IH Hbs) as (Hnd & Hlab & Hbs').
  by eapply joined_visited.
Qed.

(** A node without a path of its own adds nothing to its children. *)
Lemma visited_children R C G cs t ok pre :
  (∀ e, e ∈ t → ∃ s c k, child s cs = Some c ∧ find c k = Some (ev_paths e) ∧
                         ev_key e = pre ++ s :: k ∧ C e) ∧
  StronglySorted R t ∧
  (ok = true → ∀ s c k v, child s cs = Some c → find c k = Some v →
     ∃ e, e ∈ t ∧ ev_paths e = v ∧ G e) →
  visited R C G (Node None cs) t ok.
Proof.
  intros (Hev & Hs & Hall). split_and!; [|done|].
  - intros e He. destruct (Hev e He) as (s & c & k & Hc & Hk & _ & HC).
    exists (s :: k). simpl. by rewrite Hc.
  - intros Hok [|s k] w; [done|]. intros (c & Hc & Hk)%bind_Some. by eapply Hall.
Qed.

Section MountFacts.
Context (vm base opts : string) (el : bool).

Definition is_mount_cmd (e : event) : Prop := ev_cmd e = mount_cmdline vm base opts el (ev_rel e) (ev_path e).
Definition succeeded (e : event) : Prop := ev_ok e = true.

Lemma mount_visited n : ∀ pre t ok,
  wf n → labelled pre n → parallel_mount_recursive vm base opts el n t ok →
  visited parents_first is_mount_cmd succeeded n t ok.
Proof.
  induction n as [p cs IH] using node_ind'. intros pre t ok Hwf Hl Hrun.
  apply mount_node in Hrun. cbv zeta in Hrun. destruct p as [v|].
  - assert (ev_key (mount_event vm base opts el v true) = pre) as Hkey.
    { unfold ev_key. simpl. rewrite (Hl [] v eq_refl). by rewrite app_nil_r. }
    destruct Hrun as [[-> ->]|(t' & bs & -> & Hbs & Hj)].
    { split_and!; [|repeat constructor|done].
      intros e ->%list_elem_of_singleton. exists []. split; [|done]. by destruct v. }
    eapply (children_run parents_first is_mount_cmd succeeded pre) in Hj
      as (Hev & Hs & Hall); [|done..]. split_and!.
    + intros e [->|He]%elem_of_cons; [exists []; split; [by destruct v|done]|].
      destruct (Hev e He) as (s & c & k & Hc & Hk & _ & HC). exists (s :: k). simpl. by rewrite Hc.
    + constructor; [done|]. apply Forall_forall. intros y Hy.
      destruct (Hev y Hy) as (s & c & k & _ & _ & Hy' & _). split; [|done].
      rewrite Hkey, Hy'. apply prefix_own.
    + intros Hok [|s k] w; simpl.
      * intros [= ->]. exists (mount_event vm base opts el w true).
        split; [by left|]. by destruct w.
      * intros (c & Hc & Hk)%bind_Some. destruct (Hall Hok s c k w Hc Hk) as (e & He & Hpe).
        exists e. split; [by right|done].
  - destruct Hrun as (bs & Hbs & Hj). eapply visited_children, children_run; done.
Qed.
End MountFacts.

Lemma umount_node os p cs t ok :
  parallel_unmount_recursive os (Node p cs) t ok ↔
  ∃ bs t' children_ok,
    Forall2 (branch_ok (parallel_unmount_recursive os)) cs bs ∧ joined bs t' children_ok ∧
    match p with
    | Some v =>
        if children_ok : bool
        then (∃ status, t = t' ++ [umount_event os v status] ∧ ok = true) ∨ (t = t' ∧ ok = false)
        else t = t' ∧ ok = false
    | None => t = t' ∧ ok = children_ok
    end.
Proof.
  simpl. match goal with |- (∃ _ _ _, ?f cs _ ∧ _) ↔ _ => set (go := f) end.
  assert (∀ bs, go cs bs ↔ Forall2 (branch_ok (parallel_unmount_recursive os)) cs bs) as E.
  { induction cs as [|[s c] cs' IH]; intros [|b bs]; simpl;
      rewrite ?Forall2_cons, ?IH; try done; split; try done; intros H; inversion H. }
  by setoid_rewrite E.
Qed.

Definition is_umount_cmd (os : TargetOS) (e : event) : Prop :=
  ev_cmd e = ["sh"; "-c"; umount_script os (ev_path e)].

Lemma unmount_visited os n : ∀ pre t ok,
  wf n → labelled pre n → parallel_unmount_recursive os n t ok →
  visited descendants_first (is_umount_cmd os) (λ _, True) n t ok.
Proof.
  induction n as [p cs IH] using node_ind'. intros pre t ok Hwf Hl Hrun.
  apply umount_node in Hrun as (bs & t' & ok' & Hbs & Hj & Hp).
  eapply (children_run descendants_first (is_umount_cmd os) (λ _, True) pre) in Hj; [|done..].
  destruct p as [v|]; [|destruct Hp as [-> ->]; by eapply visited_children].
  destruct Hj as (Hev & Hs & Hall).
  assert (∀ e, e ∈ t' → ∃ k, find (Node (Some v) cs) k = Some (ev_paths e) ∧ is_umount_cmd os e) as Hin.
  { intros e He. destruct (Hev e He) as (s & c & k & Hc & Hk & _ & HC).
    exists (s :: k). simpl. by rewrite Hc. }
  destruct (ok' && ok) eqn:E; [apply andb_true_iff in E as [-> ->]|].
  - destruct Hp as [(status & -> & _)|[_ ?]]; [|done]. split_and!.
    + intros e [He| ->%list_elem_of_singleton]%elem_of_app; [auto|].
      exists []. split; [by destruct v|done].
    + apply StronglySorted_snoc; [done|]. apply Forall_forall. intros e He.
      destruct (Hev e He) as (s & c & k & _ & _ & Hk & _). unfold descendants_first.
      rewrite Hk. unfold ev_key. simpl. rewrite (Hl [] v eq_refl), app_nil_r. apply prefix_own.
    + intros _ [|s k] w; simpl.
      * intros [= ->]. exists (umount_event os w status). split; [set_solver|]. by destruct w.
      * intros (c & Hc & Hk)%bind_Some. destruct (Hall eq_refl s c k w Hc Hk) as (e & He & Hpe).
        exists e. split; [set_solver|done].
  - assert (t = t' ∧ ok = false) as [-> ->]; [|by split_and!].
    destruct ok', ok; simpl in E; try done; destruct Hp as [(? & _ & ?)|[? ?]]; done.
Qed.

(** *** The two tries *)
Lemma find_fold (rel : string → string) xs k v :
  (∀ x y, x ∈ xs → y ∈ xs → segs (rel x) = segs (rel y) → x = y) →
  find (foldl (λ n x, insert n (rel x) x) node_default xs) k = Some v ↔
  ∃ x, x ∈ xs ∧ segs (rel x) = k ∧ v = (rel x, x).
Proof.
  induction xs as [|x xs IH] using rev_ind; intros Hinj; simpl.
  { rewrite find_default. set_solver. }
  rewrite foldl_snoc. unfold insert at 1. rewrite find_insert_at.
  assert (∀ x y, x ∈ xs → y ∈ xs → segs (rel x) = segs (rel y) → x = y) as Hinj'
    by (intros; apply Hinj; set_solver).
  case_decide as Hk.
  - split; [intros [= <-]; exists x; set_solver|].
    intros (y & Hy & Hyk & ->). rewrite (Hinj y x); [done|done|set_solver|congruence].
  - rewrite IH by done. set_solver.
Qed.

Lemma fold_wf_labelled (rel : string → string) xs :
  let n := foldl (λ n x, insert n (rel x) x) node_default xs in wf n ∧ labelled [] n.
Proof.
  induction xs as [|x xs IH] using rev_ind; simpl.
  { split; [apply wf_default|]. intros k v. by rewrite find_default. }
  rewrite foldl_snoc. destruct IH as [Hwf Hl]. split; [by apply wf_insert_at|].
  intros k v. unfold insert. rewrite find_insert_at. case_decide; [|apply Hl].
  by intros [= <-].
Qed.

Lemma segs_join ws : Forall (λ s, path.plain s = true) ws → segs (Str.join "/" ws) = ws.
Proof.
  intros Hws. unfold segs. rewrite path.components_relative by done.
  rewrite <-list_fmap_compose. clear. induction ws; simpl; by f_equal.
Qed.

(** [base], or a path of ordinary names below it. *)
Definition below (base d : string) (ws : list string) : Prop :=
  Forall (λ s, path.plain s = true) ws ∧
  d = match ws with [] => base | _ => base +:+ "/" +:+ Str.join "/" ws end.

Lemma join_split_plain ws :
  ws ≠ [] → Forall (λ s, path.plain s = true) ws → Str.split "/" (Str.join "/" ws) = ws.
Proof.
  intros Hne Hws. apply StrFacts.split_join; [done|].
  eapply Forall_impl; [exact Hws|]. intros s Hs. by apply path.plain_spec in Hs as [? _].
Qed.

(** A path under another one has the longer key. *)
Lemma below_prefix base d1 d2 ws1 ws2 r :
  below base d1 ws1 → below base d2 ws2 → d2 = d1 +:+ "/" +:+ r → ws1 `prefix_of` ws2.
Proof.
  intros [H1 ->] [H2 ->] E. destruct ws1 as [|w1 ws1]; [apply prefix_nil|].
  destruct ws2 as [|w2 ws2].
  { apply (f_equal String.length) in E. rewrite !StrFacts.length_app in E. simpl in E. lia. }
  rewrite !StrFacts.app_assoc in E. apply StrFacts.app_inj_l, StrFacts.app_inj_l in E.
  apply (f_equal (Str.split "/")) in E. rewrite join_split_plain in E by done.
  change ("/" +:+ r) with (String "/" r) in E.
  rewrite StrFacts.split_app_sep, join_split_plain in E by done. rewrite E. by apply prefix_app_r.
Qed.

Lemma sorted_NoDup {A B} (R : A → A → Prop) (f : A → B) t :
  StronglySorted R t → (∀ x y, x ∈ t → y ∈ t → f x = f y → ¬ R x y) → NoDup (f <$> t).
Proof.
  intros Hs Hf. apply NoDup_alt. intros i j b Hi Hj.
  rewrite list_lookup_fmap in Hi, Hj.
  apply fmap_Some in Hi as (x & Hi & ->), Hj as (y & Hj & E).
  pose proof (list_elem_of_lookup_2 _ _ _ Hi). pose proof (list_elem_of_lookup_2 _ _ _ Hj).
  destruct (lt_eq_lt_dec i j) as [[Hlt| ->]|Hlt]; [|done|]; exfalso.
  - by eapply (Hf x y), sorted_lookup.
  - by eapply (Hf y x), sorted_lookup.
Qed.

Lemma export_relative_below share d ws :
  below share d ws → export_relative share d = Str.join "/" ws.
Proof.
  intros [_ ->]. unfold export_relative. destruct ws as [|w ws].
  - rewrite <-(StrFacts.app_nil_r share) at 2. by rewrite StrFacts.strip_prefix_app.
  - by rewrite !StrFacts.strip_prefix_app.
Qed.

Lemma unmount_relative_below base d ws :
  below base d ws → unmount_relative base d = Some (Str.join "/" ws).
Proof.
  intros [_ ->]. unfold unmount_relative. destruct ws as [|w ws]; [by rewrite decide_True|].
  rewrite decide_False; [by rewrite StrFacts.strip_prefix_app|].
  intros E%(f_equal String.length). rewrite !StrFacts.length_app in E. simpl in E. lia.
Qed.

Section Below.
Context (base : string) (rel : string → string) (ds : list string).
Context (Hrel : ∀ d ws, below base d ws → rel d = Str.join "/" ws).
Context (Hds : ∀ d, d ∈ ds → ∃ ws, below base d ws).

Lemma below_key d ws : below base d ws → segs (rel d) = ws.
Proof. intros Hb. rewrite (Hrel d ws Hb). destruct Hb as [Hws _]. by apply segs_join. Qed.

Lemma below_inj x y : x ∈ ds → y ∈ ds → segs (rel x) = segs (rel y) → x = y.
Proof.
  intros [wx Hx]%Hds [wy Hy]%Hds. rewrite (below_key x wx), (below_key y wy) by done.
  intros <-. destruct Hx as [_ ->], Hy as [_ ->]. done.
Qed.

Definition below_trie : node := foldl (λ n x, insert n (rel x) x) node_default ds.

(** What every run over such a trie is. *)
Lemma below_visited R C G t ok :
  visited R C G below_trie t ok →
  (∀ x y, R x y → ev_key x ≠ ev_key y) →
  (∀ e, e ∈ t → ev_path e ∈ ds ∧ ev_rel e = rel (ev_path e) ∧ C e) ∧
  NoDup (ev_path <$> t) ∧
  (ok = true → ∀ d, d ∈ ds → ∃ e, e ∈ t ∧ ev_path e = d ∧ G e).
Proof.
  intros (Hev & Hs & Hall) HR.
  assert (∀ e, e ∈ t → ev_path e ∈ ds ∧ ev_rel e = rel (ev_path e) ∧ C e) as Hin.
  { intros e He. destruct (Hev e He) as (k & Hk & HC).
    apply find_fold in Hk as (x & Hx & _ & [= E1 E2]); [|apply below_inj]. by subst. }
  split_and!; [done| |].
  - eapply sorted_NoDup; [exact Hs|]. intros x y Hx Hy E Hxy. apply (HR x y Hxy).
    unfold ev_key. destruct (Hin x Hx) as (_ & -> & _), (Hin y Hy) as (_ & -> & _). by rewrite E.
  - intros Hok d Hd.
    destruct (Hall Hok (segs (rel d)) (rel d, d)) as (e & He & [= _ Hp] & HG).
    + apply find_fold; [apply below_inj|]. by exists d.
    + by exists e.
Qed.

Lemma below_key_prefix (e1 e2 : event) r :
  ev_path e1 ∈ ds → ev_rel e1 = rel (ev_path e1) →
  ev_path e2 ∈ ds → ev_rel e2 = rel (ev_path e2) →
  ev_path e2 = ev_path e1 +:+ "/" +:+ r → ev_key e1 `prefix_of` ev_key e2.
Proof.
  intros [w1 H1]%Hds E1 [w2 H2]%Hds E2 E. unfold ev_key. rewrite E1, E2.
  rewrite (below_key _ w1 H1), (below_key _ w2 H2). by eapply below_prefix.
Qed.
End Below.

Lemma path_longer (p r : string) : p ≠ p +:+ "/" +:+ r.
Proof. intros E%(f_equal String.length). rewrite !StrFacts.length_app in E. simpl in E. lia. Qed.

(** C17: mounting the subdirectory exports of a share, in whatever order the
    parallel branches run: an export is mounted only after every export that
    contains it and only if those mounts succeeded; no export is mounted
    twice and nothing else is; and if the call returns [Ok] every export is
    mounted, each with its own mount command. *)
Theorem mount_nfs_subdirs_order vm_host share subdirs mnt opts elevate t ok
    (Hsub : ∀ d, d ∈ subdirs → ∃ ws, below share d ws)
    (Hrun : mount_nfs_subdirs vm_host share subdirs mnt opts elevate t ok) :
  (∀ i j e1 e2 r, t !! i = Some e1 → t !! j = Some e2 →
     ev_path e2 = ev_path e1 +:+ "/" +:+ r → i < j ∧ ev_ok e1 = true) ∧
  NoDup (ev_path <$> t) ∧
  (∀ e, e ∈ t → ev_path e ∈ subdirs ∧
     ev_cmd e = mount_cmdline vm_host mnt (to_list opts) elevate
                  (export_relative share (ev_path e)) (ev_path e)) ∧
  (ok = true → ∀ d, d ∈ subdirs → ∃ e, e ∈ t ∧ ev_path e = d ∧ ev_ok e = true).
Proof.
  unfold mount_nfs_subdirs, mount_trie in Hrun.
  destruct (fold_wf_labelled (export_relative share) subdirs) as [Hwf Hl].
  pose proof (mount_visited _ _ _ _ _ [] t ok Hwf Hl Hrun) as Hv.
  pose proof (below_visited share _ subdirs (export_relative_below share) Hsub _ _ _ t ok Hv)
    as (Hin & Hnd & Hall).
  { intros x y [H _] E. apply H. by rewrite E. }
  split_and!; [|done| |done].
  - intros i j e1 e2 r Hi Hj E.
    pose proof (list_elem_of_lookup_2 _ _ _ Hi) as (H1 & R1 & _)%Hin.
    pose proof (list_elem_of_lookup_2 _ _ _ Hj) as (H2 & R2 & _)%Hin.
    pose proof (below_key_prefix share _ subdirs (export_relative_below share) Hsub e1 e2 r
                  H1 R1 H2 R2 E) as Hpre.
    destruct Hv as (_ & Hs & _).
    destruct (lt_eq_lt_dec i j) as [[Hlt| ->]|Hlt].
    + split; [done|]. destruct (sorted_lookup _ _ _ _ _ _ Hs Hi Hj Hlt) as [_ Hf].
      destruct (ev_ok e1); [done|]. by destruct (Hf eq_refl).
    + simplify_eq. by destruct (path_longer (ev_path e1) r).
    + by destruct (sorted_lookup _ _ _ _ _ _ Hs Hj Hi Hlt) as [[] _].
  - intros e He. destruct (Hin e He) as (Hd & E & HC). split; [done|].
    unfold is_mount_cmd in HC. by rewrite <-E.
Qed.

Lemma under_mount_point_spec base d :
  under_mount_point base d = true ↔ d = base ∨ ∃ r, d = base +:+ "/" +:+ r.
Proof.
  unfold under_mount_point. rewrite orb_true_iff, andb_true_iff, !bool_decide_eq_true.
  rewrite StrFacts.starts_with_spec. split.
  - intros [?|[[r ->] Hget]]; [by left|]. right.
    assert (∀ s, String.get (String.length base) (base +:+ s) = String.get 0 s) as E
      by (intros s; induction base; simpl; auto).
    rewrite E in Hget. destruct r as [|c r]; [done|]. injection Hget as ->. by exists r.
  - intros [?|[r ->]]; [by left|]. right. split; [by eexists|].
    induction base; simpl; auto.
Qed.

(** C18: unmounting a share: the mount points that [run_unmount] selects are
    the share's and those under it; none of them is skipped and no two of them
    fall on the same key, so in every run that is not cut short by a shell
    that cannot be started each is unmounted exactly once, a mount point only
    after all those below it, and nothing else is touched. *)
Theorem unmount_nfs_subdirs_order os base mount_points t ok
    (Hplain : ∀ d, d ∈ mount_points → under_mount_point base d = true → ∃ ws, below base d ws)
    (Hrun : unmount_nfs_subdirs os (filter (λ d, under_mount_point base d = true) mount_points)
              base t ok) :
  (∀ i j e1 e2 r, t !! i = Some e1 → t !! j = Some e2 →
     ev_path e2 = ev_path e1 +:+ "/" +:+ r → j < i) ∧
  NoDup (ev_path <$> t) ∧
  (∀ e, e ∈ t → ev_path e ∈ mount_points ∧ ev_cmd e = ["sh"; "-c"; umount_script os (ev_path e)] ∧
     (ev_path e = base ∨ ∃ r, ev_path e = base +:+ "/" +:+ r)) ∧
  (ok = true → ∀ d, d ∈ mount_points → d = base ∨ (∃ r, d = base +:+ "/" +:+ r) →
     ∃ e, e ∈ t ∧ ev_path e = d).
Proof.
  set (ds := filter (λ d, under_mount_point base d = true) mount_points) in *.
  assert (∀ d, d ∈ ds → ∃ ws, below base d ws) as Hds.
  { intros d [? ?]%list_elem_of_filter. by apply Hplain. }
  set (rel d := default "" (unmount_relative base d)).
  assert (∀ d ws, below base d ws → rel d = Str.join "/" ws) as Hrel
    by (intros d ws Hb; unfold rel; by rewrite (unmount_relative_below base d ws Hb)).
  assert (unmount_trie base ds = below_trie rel ds) as E.
  { unfold unmount_trie, below_trie. clear -Hds Hrel. generalize node_default.
    induction ds as [|d ds IH]; intros n; simpl; [done|].
    destruct (Hds d) as [ws Hb]; [by left|].
    rewrite (unmount_relative_below base d ws Hb), (Hrel d ws Hb). apply IH.
    intros d' Hd'. apply Hds. by right. }
  unfold unmount_nfs_subdirs in Hrun. rewrite E in Hrun.
  destruct (fold_wf_labelled rel ds) as [Hwf Hl].
  pose proof (unmount_visited os _ [] t ok Hwf Hl Hrun) as Hv.
  pose proof (below_visited base rel ds Hrel Hds _ _ _ t ok Hv) as (Hin & Hnd & Hall).
  { intros x y H Exy. apply H. by rewrite Exy. }
  split_and!; [|done| |].
  - intros i j e1 e2 r Hi Hj Ee.
    pose proof (list_elem_of_lookup_2 _ _ _ Hi) as (H1 & R1 & _)%Hin.
    pose proof (list_elem_of_lookup_2 _ _ _ Hj) as (H2 & R2 & _)%Hin.
    pose proof (below_key_prefix base rel ds Hrel Hds e1 e2 r H1 R1 H2 R2 Ee) as Hpre.
    destruct Hv as (_ & Hs & _). destruct (lt_eq_lt_dec i j) as [[Hlt| ->]|Hlt]; [|..|done].
    + by destruct (sorted_lookup _ _ _ _ _ _ Hs Hi Hj Hlt).
    + simplify_eq. by destruct (path_longer (ev_path e1) r).
  - intros e He. destruct (Hin e He) as ([Hu Hd]%list_elem_of_filter & _ & HC).
    split_and!; [done..|]. by apply under_mount_point_spec.
  - intros Hok d Hd Hu. destruct (Hall Hok d) as (e & He & Hp & _); [|by exists e].
    apply list_elem_of_filter. split; [by apply under_mount_point_spec|done].
Qed.

(** ** Concrete runs *)
Module Witness.
Definition ev_x : event :=
  mount_event "h" "/m" "vers=3" false ("x", "/mnt/a/x") true.
Definition ev_xy : event :=
  mount_event "h" "/m" "vers=3" false ("x/y", "/mnt/a/x/y") true.

Lemma below_x : below "/mnt/a" "/mnt/a/x" ["x"].
Proof. split; [by repeat constructor|done]. Qed.
Lemma below_xy : below "/mnt/a" "/mnt/a/x/y" ["x"; "y"].
Proof. split; [by repeat constructor|done]. Qed.

Lemma interleave_one {A} (t : list A) : interleave [t] t.
Proof.
  induction t as [|x t IH]; [by repeat constructor|].
  apply (interleave_cons [] x t [] t). exact IH.
Qed.

Lemma joined_one t ok : joined [Some (t, ok)] t ok.
Proof. split; [apply interleave_one|]. destruct ok; done. Qed.
Lemma joined_none : joined [] [] true.
Proof. split_and!; [by constructor|done..]. Qed.

Example mount_nfs_subdirs_order_witness :
  (∀ i j e1 e2 r, [ev_x; ev_xy] !! i = Some e1 → [ev_x; ev_xy] !! j = Some e2 →
     ev_path e2 = ev_path e1 +:+ "/" +:+ r → i < j ∧ ev_ok e1 = true) ∧
  NoDup (ev_path <$> [ev_x; ev_xy]) ∧
  (∀ e, e ∈ [ev_x; ev_xy] → ev_path e ∈ ["/mnt/a/x/y"; "/mnt/a/x"] ∧
     ev_cmd e = mount_cmdline "h" "/m" (to_list {["vers" := "3"]}) false
                  (export_relative "/mnt/a" (ev_path e)) (ev_path e)) ∧
  (true = true → ∀ d, d ∈ ["/mnt/a/x/y"; "/mnt/a/x"] →
     ∃ e, e ∈ [ev_x; ev_xy] ∧ ev_path e = d ∧ ev_ok e = true).
Proof.
  apply (mount_nfs_subdirs_order "h" "/mnt/a" ["/mnt/a/x/y"; "/mnt/a/x"] "/m" {["vers" := "3"]} false
           [ev_x; ev_xy] true).
  - intros d [-> |[-> |[]%elem_of_nil]%elem_of_cons]%elem_of_cons;
      [exists ["x"; "y"]; apply below_xy|exists ["x"]; apply below_x].
  - unfold mount_nfs_subdirs.
    assert (to_list {["vers" := "3"]} = "vers=3") as -> by (vm_compute; reflexivity).
    assert (mount_trie "/mnt/a" ["/mnt/a/x/y"; "/mnt/a/x"] =
      Node None [("x", Node (Some ("x", "/mnt/a/x"))
        [("y", Node (Some ("x/y", "/mnt/a/x/y")) [])])]) as -> by (vm_compute; reflexivity).
    apply mount_node. exists [Some ([ev_x; ev_xy], true)].
    split; [constructor; [|constructor]|apply joined_one].
    apply mount_node. right. exists [ev_xy], [Some ([ev_xy], true)].
    split_and!; [done|constructor; [|constructor]|apply joined_one].
    apply mount_node. right. exists [], []. split_and!; [done|constructor|apply joined_none].
Defined.

Definition un_x : event := umount_event LinuxHost ("x", "/mnt/a/x") true.
Definition un_base : event := umount_event LinuxHost ("", "/mnt/a") true.

Example unmount_nfs_subdirs_order_witness :
  (∀ i j e1 e2 r, [un_x; un_base] !! i = Some e1 → [un_x; un_base] !! j = Some e2 →
     ev_path e2 = ev_path e1 +:+ "/" +:+ r → j < i) ∧
  NoDup (ev_path <$> [un_x; un_base]) ∧
  (∀ e, e ∈ [un_x; un_base] → ev_path e ∈ ["/mnt/a"; "/mnt/a-1"; "/mnt/a/x"] ∧
     ev_cmd e = ["sh"; "-c"; umount_script LinuxHost (ev_path e)] ∧
     (ev_path e = "/mnt/a" ∨ ∃ r, ev_path e = "/mnt/a" +:+ "/" +:+ r)) ∧
  (true = true → ∀ d, d ∈ ["/mnt/a"; "/mnt/a-1"; "/mnt/a/x"] →
     d = "/mnt/a" ∨ (∃ r, d = "/mnt/a" +:+ "/" +:+ r) →
     ∃ e, e ∈ [un_x; un_base] ∧ ev_path e = d).
Proof.
  apply (unmount_nfs_subdirs_order LinuxHost "/mnt/a" ["/mnt/a"; "/mnt/a-1"; "/mnt/a/x"]
           [un_x; un_base] true).
  - intros d [-> |[-> |[-> |[]%elem_of_nil]%elem_of_cons]%elem_of_cons]%elem_of_cons Hu.
    + exists []. split; [by constructor|done].
    + discriminate Hu.
    + exists ["x"]. apply below_x.
  - unfold unmount_nfs_subdirs.
    assert (unmount_trie "/mnt/a" (filter (λ d, under_mount_point "/mnt/a" d = true)
              ["/mnt/a"; "/mnt/a-1"; "/mnt/a/x"]) =
      Node (Some ("", "/mnt/a")) [("x", Node (Some ("x", "/mnt/a/x")) [])]) as ->
      by (vm_compute; reflexivity).
    apply umount_node. exists [Some ([un_x], true)], [un_x], true.
    split_and!; [constructor; [|constructor]|apply joined_one|left; by exists true].
    apply umount_node. exists [], [], true.
    split_and!; [constructor|apply joined_none|left; by exists true].
Defined.
End Witness.
