(* ===== verification/DevInfo.v ===== *)
(** * Devices and disk images ([devinfo.rs], [diskutil] disk information)

    What is known of a disk, a partition or an image: its path and raw path,
    its probed metadata and the name it has inside the VM. *)
From S2P Require Import Prelude Common Paths Settings.
From Stdlib Require Import Ascii.

Inductive DiskFormat := Raw | Qcow2.
#[global] Instance DiskFormat_eq_dec : EqDecision DiskFormat.
Proof. solve_decision. Defined.

Definition as_krun_id (f : DiskFormat) : N := match f with Raw => 0 | Qcow2 => 1 end%N.

Definition from_path (path : string) : DiskFormat :=
  if Str.ends_with ".qcow2" path then Qcow2 else Raw.

(** [diskutil::DiskInfo] *)
Record DiskInfo := { info_writable : bool }.
#[global] Instance DiskInfo_eq_dec : EqDecision DiskInfo.
Proof. solve_decision. Defined.
Definition DiskInfo_default : DiskInfo := {| info_writable := true |}.

Record DevInfo := {
  dev_path : string;
  dev_rpath : string;
  is_image : bool;
  block_size : option N;
  dev_label : option string;
  fs_type : option string;
  uuid : option string;
  pt_type : option string;
  vm_path : string;
  vm_part_idx : option N;
  dev_fs_driver : option string;
  da_info : DiskInfo;
  size_bytes : option N;
  disk_format : DiskFormat;
  metadata_probed : bool;
}.
#[global] Instance DevInfo_eq_dec : EqDecision DevInfo.
Proof. solve_decision. Defined.

Definition DevInfo_default : DevInfo := {|
  dev_path := ""; dev_rpath := ""; is_image := false; block_size := None; dev_label := None;
  fs_type := None; uuid := None; pt_type := None; vm_path := ""; vm_part_idx := None;
  dev_fs_driver := None; da_info := DiskInfo_default; size_bytes := None;
  disk_format := Raw; metadata_probed := false |}.

Definition BUF_PREFIX : string := "/dev/disk".
Definition RAW_PREFIX : string := "/dev/rdisk".

Definition lv (path : string) (label : option string) (vm_path : string) : outcome DevInfo :=
  Ok {| dev_path := path; dev_rpath := path; is_image := false; block_size := None;
        dev_label := label; fs_type := Some "auto"; uuid := None; pt_type := None;
        vm_path := vm_path; vm_part_idx := None; dev_fs_driver := None;
        da_info := DiskInfo_default; size_bytes := None; disk_format := Raw;
        metadata_probed := false |}.

(** The buffered and the raw name of a device. *)
Definition device_paths (path : string) : string * string :=
  if Str.starts_with BUF_PREFIX path then (path, replace BUF_PREFIX RAW_PREFIX path)
  else if Str.starts_with RAW_PREFIX path then (replace RAW_PREFIX BUF_PREFIX path, path)
  else (path, path).

(** ** Probing: libblkid is third-party *)
Inductive BlkidSublks := SublksLabel | SublksType | SublksUuid.
Class Blkid := {
  Probe : Type;
  Partition : Type;
  new_from_filename : string → outcome Probe;
  enable_superblocks : Probe → bool → outcome Probe;
  enable_partitions : Probe → bool → outcome Probe;
  set_superblock_flags : Probe → list BlkidSublks → outcome Probe;
  do_safeprobe : Probe → outcome Probe;
  lookup_value : Probe → string → outcome string;
  get_size : Probe → Z;                              (* blkid_loff_t, i64 *)
  (* partitions in order, each of which may fail to be read *)
  get_partitions : Probe → outcome (outcome (list (outcome Partition)));
  get_start : Partition → Z;                         (* 512-byte sectors *)
  get_part_size : Partition → Z;
  probe_new : outcome Probe;
  set_device : Probe → string → Z → Z → Probe;       (* file, offset, size; errors ignored *)
  enable_superblocks' : Probe → bool → Probe;
  set_superblock_flags' : Probe → list BlkidSublks → Probe;
  do_safeprobe' : Probe → Probe;
}.

Definition i64_wrap (z : Z) : Z :=
  let m := (z mod 18446744073709551616)%Z in
  if decide (m < 9223372036854775808)%Z then m else (m - 18446744073709551616)%Z.
(** [as u64] *)
Definition as_u64 (z : Z) : N := Z.to_N (z mod 18446744073709551616)%Z.

Section Probing.
Context `{Blkid} (get_info : string → DiskInfo) (open_file : string → outcome unit).

Definition sublks : list BlkidSublks := [SublksLabel; SublksType; SublksUuid].

(** [.ok().and_then(|v| v.parse().ok())] *)
Definition probed_block_size (p : Probe) : option N :=
  v ← ok (lookup_value p "BLOCK_SIZE"); Str.parse_uint u32_max v.

Definition pv (path : string) (is_image : bool) : outcome DevInfo :=
  if decide (path = "") then Err "Empty device path" else
  let '(path, rpath) := device_paths path in
  probe ← match new_from_filename path with
          | Ok p => Ok p
          | Err e => Err ("Cannot probe " +:+ path +:+ ": " +:+ e +:+ "; Insufficient permissions?")
          | Panic => Panic
          end;
  probe ← with_context "Cannot enable device superblock probe" (enable_superblocks probe true);
  probe ← with_context "Cannot configure device superblock probe" (set_superblock_flags probe sublks);
  probe ← with_context ("Cannot probe device " +:+ path) (do_safeprobe probe);
  Ok {| dev_path := path; dev_rpath := rpath; is_image := is_image;
        block_size := probed_block_size probe;
        dev_label := ok (lookup_value probe "LABEL");
        fs_type := ok (lookup_value probe "TYPE");
        uuid := ok (lookup_value probe "UUID");
        pt_type := None; vm_path := "/dev/vda"; vm_part_idx := None; dev_fs_driver := None;
        da_info := get_info path; size_bytes := None;
        disk_format := from_path path; metadata_probed := true |}.

Definition unprobed_image (path : string) (part_num : option N) : outcome DevInfo :=
  if decide (path = "") then Err "Empty image path"
  else if decide (part_num = Some 0%N) then Err "Partition number must be greater than zero"
  else
    Ok {| dev_path := path; dev_rpath := path; is_image := true; block_size := None;
          dev_label := None; fs_type := Some "auto"; uuid := None; pt_type := None;
          vm_path := match part_num with
                     | Some n => "/dev/vda" +:+ Str.of_N n
                     | None => "/dev/vda"
                     end;
          vm_part_idx := part_num; dev_fs_driver := None; da_info := DiskInfo_default;
          size_bytes := None; disk_format := from_path path; metadata_probed := false |}.

(** One partition of an image; [i] counts from zero. *)
Definition probe_partition (path : string) (image_format : DiskFormat) (i : N)
    (part : outcome Partition) : outcome DevInfo :=
  part ← with_context ("Cannot get partition " +:+ Str.of_N i) part;
  let offset_bytes := i64_wrap (get_start part * 512) in
  let part_bytes := i64_wrap (get_part_size part * 512) in
  part_probe ← with_context "Cannot create partition probe" probe_new;
  let part_probe := set_device part_probe path offset_bytes part_bytes in
  let part_probe := enable_superblocks' part_probe true in
  let part_probe := set_superblock_flags' part_probe sublks in
  let part_probe := do_safeprobe' part_probe in
  Ok {| dev_path := path; dev_rpath := path; is_image := true;
        block_size := probed_block_size part_probe;
        dev_label := ok (lookup_value part_probe "LABEL");
        fs_type := ok (lookup_value part_probe "TYPE");
        uuid := ok (lookup_value part_probe "UUID");
        pt_type := None; vm_path := "/dev/vda" +:+ Str.of_N (i + 1);
        vm_part_idx := Some (i + 1)%N; dev_fs_driver := None; da_info := DiskInfo_default;
        size_bytes := Some (as_u64 part_bytes);
        disk_format := image_format; metadata_probed := true |}.

Fixpoint probe_partitions (path : string) (image_format : DiskFormat) (i : N)
    (parts : list (outcome Partition)) : outcome (list DevInfo) :=
  match parts with
  | [] => Ok []
  | part :: parts =>
      d ← probe_partition path image_format i part;
      ds ← probe_partitions path image_format (i + 1) parts;
      Ok (d :: ds)
  end.

Definition probe_image (path : string) : outcome (list DevInfo) :=
  if decide (path = "") then Err "Empty image path" else
  whole ← with_context "Cannot open image with BlkidProbe" (new_from_filename path);
  whole ← with_context "Cannot enable partitions probe" (enable_partitions whole true);
  whole ← with_context "Cannot enable superblocks probe" (enable_superblocks whole true);
  whole ← with_context "Cannot configure superblock probe" (set_superblock_flags whole sublks);
  whole ← with_context ("Cannot probe image " +:+ path) (do_safeprobe whole);
  let image_format := from_path path in
  let first := {|
    dev_path := path; dev_rpath := path; is_image := true;
    block_size := probed_block_size whole;
    dev_label := ok (lookup_value whole "LABEL");
    fs_type := ok (lookup_value whole "TYPE");
    uuid := ok (lookup_value whole "UUID");
    pt_type := ok (lookup_value whole "PTTYPE");
    vm_path := "/dev/vda"; vm_part_idx := None; dev_fs_driver := None;
    da_info := DiskInfo_default; size_bytes := Some (as_u64 (get_size whole));
    disk_format := image_format; metadata_probed := true |} in
  match get_partitions whole with
  | Ok (Ok parts) =>
      _ ← with_context ("Cannot open image " +:+ path) (open_file path);
      ds ← probe_partitions path image_format 0 parts;
      Ok (first :: ds)
  | Panic | Ok Panic => Panic
  | _ => Ok [first]
  end.
End Probing.

(** ** Accessors *)
Definition with_label (d : DevInfo) (l : option string) : DevInfo := {|
  dev_path := dev_path d; dev_rpath := dev_rpath d; is_image := is_image d;
  block_size := block_size d; dev_label := l; fs_type := fs_type d; uuid := uuid d;
  pt_type := pt_type d; vm_path := vm_path d; vm_part_idx := vm_part_idx d;
  dev_fs_driver := dev_fs_driver d; da_info := da_info d; size_bytes := size_bytes d;
  disk_format := disk_format d; metadata_probed := metadata_probed d |}.
Definition set_label (d : DevInfo) (label : string) : DevInfo := with_label d (Some label).

Definition with_types (d : DevInfo) (t drv : option string) (vp : string) : DevInfo := {|
  dev_path := dev_path d; dev_rpath := dev_rpath d; is_image := is_image d;
  block_size := block_size d; dev_label := dev_label d; fs_type := t; uuid := uuid d;
  pt_type := pt_type d; vm_path := vp; vm_part_idx := vm_part_idx d;
  dev_fs_driver := drv; da_info := da_info d; size_bytes := size_bytes d;
  disk_format := disk_format d; metadata_probed := metadata_probed d |}.
Definition set_fs_type (d : DevInfo) (t : string) : DevInfo :=
  with_types d (Some t) (dev_fs_driver d) (vm_path d).
Definition set_fs_driver (d : DevInfo) (drv : string) : DevInfo :=
  with_types d (fs_type d) (Some drv) (vm_path d).

(** The driver, by default the filesystem type. *)
Definition get_fs_driver (d : DevInfo) : option string := or (dev_fs_driver d) (fs_type d).

Definition vm_disk_path (disk : string) (part_idx : option N) : string :=
  match part_idx with
  | Some idx =>
      if Str.starts_with "/dev/vtbd" disk then disk +:+ "p" +:+ Str.of_N idx
      else disk +:+ Str.of_N idx
  | None => disk
  end.
Definition set_vm_disk (d : DevInfo) (disk : string) : DevInfo :=
  with_types d (fs_type d) (dev_fs_driver d) (vm_disk_path disk (vm_part_idx d)).

(** The last element of a split is there: the split of any text has one. *)
Definition last_piece (c : ascii) (s : string) : string := default "" (last (Str.split c s)).

Definition auto_mount_name (d : DevInfo) : string :=
  match (l ← dev_label d; path_safe_label_name l) with
  | Some name => name
  | None =>
      let name := last_piece ":" (last_piece "/" (dev_path d)) in
      match vm_part_idx d with
      | Some idx => name +:+ "_s" +:+ Str.of_N idx
      | None => name
      end
  end.

Definition media_writable (d : DevInfo) : bool := info_writable (da_info d).

(** [get_info] on Linux: the [ro] attribute of the block device in sysfs. *)
Definition get_info_linux (read_to_string : string → option string) (dev_path : string) : DiskInfo :=
  let name := default "" (path.file_name dev_path) in
  {| info_writable :=
       match read_to_string ("/sys/class/block/" +:+ name +:+ "/ro") with
       | Some s => bool_decide (Str.trim s = "0")
       | None => true
       end |}.

(** ** Lemmas *)
Lemma starts_with_drop p s : Str.starts_with p (p +:+ s) = true.
Proof. apply StrFacts.starts_with_app. Qed.

(** No position of [s] starts an occurrence of the pattern. *)
Fixpoint no_match (pat s : string) : bool :=
  match s with
  | "" => true
  | String _ s' => negb (Str.starts_with pat s) && no_match pat s'
  end.

Lemma replace_no_match pat rep s : no_match pat s = true → replace pat rep s = s.
Proof.
  unfold replace. induction s as [|c s IH]; simpl; [done|].
  intros [->%negb_true_iff Hs]%andb_true_iff. by rewrite IH.
Qed.

Lemma replace_go_skip pat rep p s :
  replace_go pat rep (String.length p) (p +:+ s) = replace_go pat rep 0 s.
Proof. by induction p. Qed.

Lemma replace_prefix pat rep s :
  pat ≠ "" → no_match pat s = true → replace pat rep (pat +:+ s) = rep +:+ s.
Proof.
  intros Hp Hs. destruct pat as [|c pat]; [done|]. unfold replace.
  change (String c pat +:+ s) with (String c (pat +:+ s)). cbn [replace_go].
  change (String c (pat +:+ s)) with (String c pat +:+ s). rewrite starts_with_drop.
  replace (String.length (String c pat) - 1) with (String.length pat) by (simpl; lia).
  rewrite replace_go_skip. f_equal. by apply replace_no_match.
Qed.

Definition plain_suffix (s : string) : Prop := no_match BUF_PREFIX s = true ∧ no_match RAW_PREFIX s = true.

(** A macOS disk given by its buffered or by its raw device node is the
    same pair of nodes, so both spellings claim, open and report the same
    device; any other path stands for itself. *)
Lemma device_paths_agree s (Hs : plain_suffix s) :
  device_paths (BUF_PREFIX +:+ s) = (BUF_PREFIX +:+ s, RAW_PREFIX +:+ s) ∧
  device_paths (RAW_PREFIX +:+ s) = (BUF_PREFIX +:+ s, RAW_PREFIX +:+ s) ∧
  ∀ p, Str.starts_with BUF_PREFIX p = false → Str.starts_with RAW_PREFIX p = false →
       device_paths p = (p, p).
Proof.
  destruct Hs as [Hb Hr]. unfold device_paths. split_and!.
  - rewrite starts_with_drop. by rewrite replace_prefix.
  - rewrite starts_with_drop. assert (Str.starts_with BUF_PREFIX (RAW_PREFIX +:+ s) = false) as ->
      by reflexivity. by rewrite replace_prefix.
  - by intros p -> ->.
Qed.

Example device_paths_agree_witness :
  device_paths "/dev/disk7s1" = ("/dev/disk7s1", "/dev/rdisk7s1") ∧
  device_paths "/dev/rdisk7s1" = ("/dev/disk7s1", "/dev/rdisk7s1") ∧
  ∀ p, Str.starts_with BUF_PREFIX p = false → Str.starts_with RAW_PREFIX p = false →
       device_paths p = (p, p).
Proof. apply (device_paths_agree "7s1"). split; reflexivity. Defined.

(** On every host, a path under /dev/disk is given a raw name under
    /dev/rdisk; on Linux that is where udev keeps its stable links, so the
    device of [/dev/disk/by-uuid/X] is opened as [/dev/rdisk/by-uuid/X], a
    name that no Linux system has. *)
Lemma by_link_rpath s (Hs : plain_suffix s) :
  device_paths ("/dev/disk/by-" +:+ s) = ("/dev/disk/by-" +:+ s, "/dev/rdisk/by-" +:+ s).
Proof.
  change ("/dev/disk/by-" +:+ s) with (BUF_PREFIX +:+ ("/by-" +:+ s)).
  unfold device_paths. rewrite starts_with_drop, replace_prefix; [done..|].
  destruct Hs as [Hb _]. simpl. exact Hb.
Qed.

Example by_link_rpath_witness :
  device_paths "/dev/disk/by-uuid/1b2c" = ("/dev/disk/by-uuid/1b2c", "/dev/rdisk/by-uuid/1b2c").
Proof. apply (by_link_rpath "uuid/1b2c"). split; reflexivity. Defined.

(** The partition number of an image and its device in the VM. *)
Lemma probe_partitions_lookup `{Blkid} path fmt i parts ds n d :
  probe_partitions path fmt i parts = Ok ds → ds !! n = Some d →
  vm_part_idx d = Some (i + N.of_nat n + 1)%N ∧ vm_path d = "/dev/vda" +:+ Str.of_N (i + N.of_nat n + 1) ∧
  dev_path d = path ∧ dev_rpath d = path ∧ is_image d = true ∧ disk_format d = fmt.
Proof.
  revert i ds n; induction parts as [|p parts IH]; intros i ds n; simpl; [by intros [= <-]|].
  intros (d0 & Hd & Hds)%outcome_bind_Ok. apply outcome_bind_Ok in Hds as (ds0 & Hds & [= <-]).
  destruct n as [|n]; simpl.
  - intros [= ->]. rewrite N.add_0_r. unfold probe_partition in Hd.
    apply outcome_bind_Ok in Hd as (p' & _ & Hd).
    apply outcome_bind_Ok in Hd as (pr & _ & [= <-]). done.
  - intros Hn. destruct (IH _ _ _ Hds Hn) as (H1 & H2 & H3).
    replace (i + N.of_nat (S n) + 1)%N with (i + 1 + N.of_nat n + 1)%N by lia.
    split_and!; done || apply H3.
Qed.

Lemma probe_image_cons `{Blkid} open_file path ds :
  probe_image open_file path = Ok ds →
  ∃ first rest, ds = first :: rest ∧ vm_part_idx first = None ∧ dev_path first = path ∧
    ∀ n d, rest !! n = Some d →
      vm_part_idx d = Some (N.of_nat n + 1)%N ∧ vm_path d = "/dev/vda" +:+ Str.of_N (N.of_nat n + 1) ∧
      dev_path d = path ∧ dev_rpath d = path ∧ is_image d = true ∧ disk_format d = from_path path.
Proof.
  unfold probe_image. case_decide; [done|]. intros Hp.
  do 5 (apply outcome_bind_Ok in Hp as (? & _ & Hp)).
  destruct (get_partitions _) as [[parts|e|]|e|]; try done.
  - apply outcome_bind_Ok in Hp as (? & _ & Hp). apply outcome_bind_Ok in Hp as (rest & Hr & [= <-]).
    do 2 eexists. split_and!; [done..|]. intros n d Hn.
    pose proof (probe_partitions_lookup _ _ _ _ _ _ _ Hr Hn) as Hd. by rewrite N.add_0_l in Hd.
  - injection Hp as <-. by do 2 eexists.
  - injection Hp as <-. by do 2 eexists.
Qed.
