(* ===== verification/LvIdent.v ===== *)
(** * Device-mapper names of logical volumes ([diskutil/mod.rs] [LvIdent])

    The device mapper joins a volume group and a logical volume with a dash
    and doubles the dashes of both names. [from_str] takes such a name apart;
    [claim_devices] puts it together again. *)
From S2P Require Import Prelude Paths.
From Stdlib Require Import Ascii.

Record LvIdent := { vg_name : string; lv_name : string }.

(** [iter::from_fn(|| chars.next_if(|&c| c != '-')).collect()] and what is left. *)
Fixpoint take_name (s : string) : string * string :=
  match s with
  | "" => ("", "")
  | String c s' =>
      if decide (c = "-"%char) then ("", s)
      else let '(w, r) := take_name s' in (String c w, r)
  end.

(** [.. next_if(|&c| c == '-') .. .count()] and what is left. *)
Fixpoint count_dashes (s : string) : nat * string :=
  match s with
  | "" => (0, "")
  | String c s' =>
      if decide (c = "-"%char) then let '(n, r) := count_dashes s' in (S n, r) else (0, s)
  end.

(** The loop: [fuel] bounds the iterations, of which each consumes input. *)
Fixpoint vg_loop (fuel : nat) (vg_name chars : string) : string * string :=
  match fuel with
  | O => (vg_name, chars)
  | S fuel =>
      if decide (chars = "") then (vg_name, chars)
      else
        let '(w, chars) := take_name chars in
        let '(dash_count, chars) := count_dashes chars in
        let vg_name := (vg_name +:+ w) +:+ Str.repeat "-" (dash_count / 2) in
        if decide (dash_count mod 2 = 1) then (vg_name, chars)
        else vg_loop fuel vg_name chars
  end.

Definition from_str (s : string) : outcome LvIdent :=
  let '(vg_name, chars) := vg_loop (S (String.length s)) "" s in
  let lv_name := replace "--" "-" chars in
  if Str.is_empty vg_name || Str.is_empty lv_name then Err ("Invalid LV identifier: " +:+ s)
  else Ok {| vg_name := vg_name; lv_name := lv_name |}.

(** [name.replace("-", "--")], as [claim_devices] builds the path. *)
Definition dm_escape (name : string) : string := replace "-" "--" name.
Definition dm_name (vg lv : string) : string := dm_escape vg +:+ "-" +:+ dm_escape lv.

(** ** Lemmas *)
Lemma dm_escape_cons c s :
  dm_escape (String c s) =
    if decide (c = "-"%char) then String "-" (String "-" (dm_escape s)) else String c (dm_escape s).
Proof.
  unfold dm_escape, replace. cbn [replace_go]. unfold Str.starts_with. cbn [Str.strip_prefix].
  destruct (decide ("-"%char = c)) as [<-|Hc].
  - rewrite decide_True by done. reflexivity.
  - rewrite decide_False by congruence. reflexivity.
Qed.

Lemma dm_escape_app s t : dm_escape (s +:+ t) = dm_escape s +:+ dm_escape t.
Proof.
  induction s as [|c s IH]; [done|]. simpl. rewrite !dm_escape_cons, IH. by case_decide.
Qed.

Lemma dm_escape_length s : String.length s ≤ String.length (dm_escape s).
Proof. induction s as [|c s IH]; [done|]. rewrite dm_escape_cons. case_decide; simpl; lia. Qed.

Lemma dm_escape_lacks w : StrFacts.lacks "-" w = true → dm_escape w = w.
Proof.
  induction w as [|c w IH]; [done|]. rewrite StrFacts.lacks_cons. intros [Hc Hw].
  rewrite dm_escape_cons, decide_False by done. by rewrite IH.
Qed.

Lemma dm_escape_repeat k : dm_escape (Str.repeat "-" k) = Str.repeat "-" (k + k).
Proof.
  induction k as [|k IH]; [done|]. simpl. rewrite dm_escape_cons, decide_True by done.
  rewrite IH. by replace (k + S k) with (S (k + k)) by lia.
Qed.

(** Collapsing doubled dashes undoes the escape. *)
Lemma replace_dm_escape s : replace "--" "-" (dm_escape s) = s.
Proof.
  unfold replace. induction s as [|c s IH]; [done|].
  rewrite dm_escape_cons. destruct (decide (c = "-"%char)) as [->|Hc].
  - cbn [replace_go]. unfold Str.starts_with. simpl. by rewrite IH.
  - cbn [replace_go]. unfold Str.starts_with. cbn [Str.strip_prefix].
    rewrite decide_False by congruence. by rewrite IH.
Qed.

(** A text as a name without dashes, a run of dashes and a rest that does not
    start with one. *)
Definition no_dash_head (s : string) : Prop := ∀ t, s ≠ String "-" t.

Lemma take_name_app w r :
  StrFacts.lacks "-" w = true → (r = "" ∨ ∃ t, r = String "-" t) → take_name (w +:+ r) = (w, r).
Proof.
  intros Hw Hr. induction w as [|c w IH]; simpl.
  - destruct Hr as [->|[t ->]]; done.
  - apply StrFacts.lacks_cons in Hw as [Hc Hw]. rewrite decide_False by done. by rewrite IH.
Qed.

Lemma count_dashes_app k r :
  no_dash_head r → count_dashes (Str.repeat "-" k +:+ r) = (k, r).
Proof.
  intros Hr. induction k as [|k IH]; simpl; [|by rewrite IH].
  destruct r as [|c r]; simpl; [done|]. rewrite decide_False; [done|]. intros ->. by eapply Hr.
Qed.

Lemma decompose s :
  ∃ w k r, s = w +:+ Str.repeat "-" k +:+ r ∧ StrFacts.lacks "-" w = true ∧ no_dash_head r ∧
           (k = 0 → r = "").
Proof.
  induction s as [|c s (w & k & r & -> & Hw & Hr & Hk)].
  { exists "", 0, "". repeat split; done. }
  destruct (decide (c = "-"%char)) as [->|Hc].
  - destruct w as [|d w].
    + exists "", (S k), r. repeat split; done.
    + exists "", 1, (String d w +:+ Str.repeat "-" k +:+ r). split_and!; [done..| |done].
      apply StrFacts.lacks_cons in Hw as [Hd _]. intros t [= E _]. done.
  - exists (String c w), k, r. split_and!; try done. by apply StrFacts.lacks_cons.
Qed.

Lemma take_name_lacks w : StrFacts.lacks "-" w = true → take_name w = (w, "").
Proof. intros Hw. rewrite <-(StrFacts.app_nil_r w) at 1. apply take_name_app; auto. Qed.

Lemma dm_escape_head r : no_dash_head r → r ≠ "" → ∃ c t, dm_escape r = String c t ∧ c ≠ "-"%char.
Proof.
  intros Hr Hne. destruct r as [|c r]; [done|]. rewrite dm_escape_cons.
  rewrite decide_False; [by exists c, (dm_escape r); split; [|intros ->; eapply Hr]|].
  intros ->. by eapply Hr.
Qed.

(** The loop stops at the single dash between the two names. *)
Lemma vg_loop_dm fuel acc vg rest :
  vg ≠ "" → no_dash_head rest → String.length vg < fuel →
  vg_loop fuel acc (dm_escape vg +:+ "-" +:+ rest) = (acc +:+ vg, rest).
Proof.
  revert acc vg; induction fuel as [|fuel IH]; intros acc vg Hvg Hrest Hf; [lia|].
  destruct (decompose vg) as (w & k & r & -> & Hw & Hr & Hk).
  rewrite !dm_escape_app, dm_escape_lacks, dm_escape_repeat by done.
  cbn [vg_loop]. rewrite decide_False.
  2: { intros E. apply (f_equal String.length) in E. rewrite !StrFacts.length_app in E. simpl in E. lia. }
  rewrite !StrFacts.app_assoc.
  destruct (decide (r = "")) as [->|Hrne].
  - change (dm_escape "") with "". change ("" +:+ ?s) with s.
    assert (Str.repeat "-" (k + k) +:+ "-" +:+ rest = Str.repeat "-" (k + k + 1) +:+ rest) as ->.
    { by rewrite (StrFacts.repeat_app _ (k + k) 1), !StrFacts.app_assoc. }
    rewrite take_name_app; [|done|].
    2: { right. rewrite Nat.add_1_r. simpl. by eexists. }
    rewrite count_dashes_app by done.
    replace ((k + k + 1) / 2) with k by (apply (Nat.div_unique _ 2 k 1); lia).
    replace ((k + k + 1) mod 2) with 1 by (apply (Nat.mod_unique _ 2 k 1); lia).
    rewrite decide_True by done. by rewrite !StrFacts.app_assoc, StrFacts.app_nil_r.
  - destruct k as [|k]; [by destruct Hrne; apply Hk|].
    rewrite take_name_app; [|done|].
    2: { right. simpl. by eexists. }
    rewrite count_dashes_app.
    2: { destruct (dm_escape_head r Hr Hrne) as (c & t & -> & Hc). intros u [= ->]. done. }
    replace ((S k + S k) / 2) with (S k) by (apply (Nat.div_unique _ 2 _ 0); lia).
    replace ((S k + S k) mod 2) with 0 by (apply (Nat.mod_unique _ 2 (S k) 0); lia).
    rewrite decide_False by done. rewrite IH; [by rewrite !StrFacts.app_assoc|done..|].
    rewrite !StrFacts.length_app, StrFacts.length_repeat in Hf. lia.
Qed.

(** The fuel is enough: one more iteration changes nothing. *)
Lemma take_name_length s w r : take_name s = (w, r) → String.length s = String.length w + String.length r.
Proof.
  revert w; induction s as [|c s IH]; simpl; intros w; [by intros [= <- <-]|].
  case_decide; [by intros [= <- <-]|]. destruct (take_name s) as [w' r'].
  intros [= <- <-]. simpl. by rewrite (IH w').
Qed.
Lemma take_name_rest s w r : take_name s = (w, r) → r = "" ∨ ∃ t, r = String "-" t.
Proof.
  revert w; induction s as [|c s IH]; simpl; intros w; [intros [= <- <-]; by left|].
  case_decide; [intros [= <- <-]; subst; right; eauto|].
  destruct (take_name s) as [w' r']. intros [= <- <-]. by eapply IH.
Qed.
Lemma count_dashes_length s n r : count_dashes s = (n, r) → String.length s = n + String.length r.
Proof.
  revert n; induction s as [|c s IH]; simpl; intros n; [by intros [= <- <-]|].
  case_decide; [|by intros [= <- <-]]. destruct (count_dashes s) as [n' r'].
  intros [= <- <-]. simpl. by rewrite (IH n').
Qed.

Lemma vg_loop_step_shorter s w r n r' :
  s ≠ "" → take_name s = (w, r) → count_dashes r = (n, r') → String.length r' < String.length s.
Proof.
  intros Hs Hw Hn. pose proof (take_name_length _ _ _ Hw). pose proof (count_dashes_length _ _ _ Hn).
  destruct (take_name_rest _ _ _ Hw) as [->|[t ->]].
  - simpl in Hn. injection Hn as <- <-. destruct s; [done|]. simpl in *. lia.
  - simpl in Hn. destruct (count_dashes t) as [m u]. injection Hn as <- <-. simpl in *. lia.
Qed.

Lemma vg_loop_fuel f1 f2 acc s :
  String.length s < f1 → String.length s < f2 → vg_loop f1 acc s = vg_loop f2 acc s.
Proof.
  revert f2 acc s; induction f1 as [|f1 IH]; intros [|f2] acc s H1 H2; try lia.
  cbn [vg_loop]. case_decide as Hs; [done|].
  destruct (take_name s) as [w r] eqn:Hw. destruct (count_dashes r) as [n r'] eqn:Hn.
  pose proof (vg_loop_step_shorter _ _ _ _ _ Hs Hw Hn).
  case_decide; [done|]. apply IH; lia.
Qed.

Lemma from_str_dm vg lv :
  vg ≠ "" → lv ≠ "" → no_dash_head lv →
  from_str (dm_name vg lv) = Ok {| vg_name := vg; lv_name := lv |}.
Proof.
  intros Hvg Hlv Hdash. unfold from_str, dm_name. rewrite vg_loop_dm; [|done| |].
  - rewrite replace_dm_escape. by destruct vg, lv.
  - destruct (dm_escape_head lv Hdash Hlv) as (c & t & -> & Hc). by intros u [= ->].
  - rewrite StrFacts.length_app. pose proof (dm_escape_length vg). lia.
Qed.

(** C19: the two sides agree on the name of a logical volume: the identifier
    parsed from the device-mapper name of [vg] and [lv] is [vg] and [lv]
    again, for every volume group and every logical volume name that LVM
    admits (it admits none that starts with a dash), dashes inside and at the
    end included; and the number of iterations allowed never matters. *)
Theorem from_str_dm_name vg lv
    (Hvg : vg ≠ "") (Hlv : lv ≠ "") (Hdash : no_dash_head lv) :
  from_str (dm_name vg lv) = Ok {| vg_name := vg; lv_name := lv |} ∧
  ∀ fuel s, String.length s < fuel → vg_loop fuel "" s = vg_loop (S (String.length s)) "" s.
Proof.
  split; [by apply from_str_dm|intros; apply vg_loop_fuel; lia].
Qed.

Example from_str_dm_name_witness :
  from_str (dm_name "vg-1-" "data-lv-") = Ok {| vg_name := "vg-1-"; lv_name := "data-lv-" |} ∧
  ∀ fuel s, String.length s < fuel → vg_loop fuel "" s = vg_loop (S (String.length s)) "" s.
Proof. apply (from_str_dm_name "vg-1-" "data-lv-"); done. Defined.
