(* ===== verification/Flock.v ===== *)
(** * Advisory locks ([utils.rs] [LockFile], [FlockGuard], [AcquireLock])

    The lock file that serialises the instances of the program, the guards
    that hold it and give it back, and the locks on disks and images. The
    kernel's flock(2) is modelled on the table of the locks of one file. *)
From S2P Require Import Prelude.

Inductive FlockKind := Shared | Exclusive.
#[global] Instance FlockKind_eq_dec : EqDecision FlockKind.
Proof. solve_decision. Defined.

(** ** flock(2) with LOCK_NB

    A lock belongs to an open file description. Changing the kind of a lock
    gives up the old lock before asking for the new one, so a conversion that
    fails leaves the file unlocked. *)
Inductive flag := LOCK_SH | LOCK_EX | LOCK_UN.
Abbreviation table := (gmap nat FlockKind).

Definition kind_flag (k : FlockKind) : flag :=
  match k with Shared => LOCK_SH | Exclusive => LOCK_EX end.

Definition compatible (k1 k2 : FlockKind) : bool :=
  match k1, k2 with Shared, Shared => true | _, _ => false end.

(** May the description [fd] lock the file? *)
Definition grantable (t : table) (fd : nat) (k : FlockKind) : bool :=
  bool_decide (map_Forall (λ fd' k', fd' = fd ∨ compatible k k' = true) t).

Definition flock (t : table) (fd : nat) (f : flag) : bool * table :=
  match f with
  | LOCK_UN => (true, delete fd t)
  | LOCK_SH =>
      if decide (t !! fd = Some Shared) then (true, t)
      else if grantable t fd Shared then (true, <[fd := Shared]> t) else (false, delete fd t)
  | LOCK_EX =>
      if decide (t !! fd = Some Exclusive) then (true, t)
      else if grantable t fd Exclusive then (true, <[fd := Exclusive]> t) else (false, delete fd t)
  end.

#[global] Arguments flock : simpl never.

(** ** The code *)
(** [flock_nb] *)
Definition flock_nb (t : table) (raw_fd : nat) (f : flag) (err_msg : string) :
    outcome unit * table :=
  let '(res, t) := flock t raw_fd f in
  (if res then Ok tt else Err err_msg, t).

(** [FlockGuard]: what its drop will do is in [revert_flag]. *)
Record FlockGuard := {
  raw_fd : nat;
  current_kind : FlockKind;
  revert_flag : option flag;
}.

(** [LockFile::acquire_lock] *)
Definition lockfile_acquire_lock (t : table) (fd : nat) (kind : FlockKind) :
    outcome FlockGuard * table :=
  let '(r, t) := flock_nb t fd (kind_flag kind) "another instance is already running" in
  (_ ← r; Ok {| raw_fd := fd; current_kind := kind; revert_flag := Some LOCK_UN |}, t).

(** [FlockGuard::upgrade] *)
Definition upgrade (t : table) (g : FlockGuard) : outcome FlockGuard * table :=
  if decide (current_kind g = Exclusive)
  then (Ok {| raw_fd := raw_fd g; current_kind := Exclusive; revert_flag := None |}, t)
  else
    let '(r, t) := flock_nb t (raw_fd g) LOCK_EX "another instance is already running" in
    (_ ← r; Ok {| raw_fd := raw_fd g; current_kind := Exclusive; revert_flag := Some LOCK_SH |}, t).

(** [Drop for FlockGuard]: the result of the call is ignored. *)
Definition drop_guard (t : table) (g : FlockGuard) : table :=
  match revert_flag g with
  | Some f => (flock t (raw_fd g) f).2
  | None => t
  end.

(** [File::acquire_lock] *)
Definition file_acquire_lock (t : table) (fd : nat) (kind : FlockKind) : outcome unit * table :=
  flock_nb t fd (kind_flag kind) "file already locked".

(** ** The instances as a whole *)
(** A step of the instances other than [fd]: one flock(2) call, or the end of
    a description. *)
Inductive other_step (fd : nat) : table → table → Prop :=
| other_flock t fd' f : fd' ≠ fd → other_step fd t (flock t fd' f).2
| other_close t fd' : fd' ≠ fd → other_step fd t (delete fd' t).
Abbreviation others fd := (rtc (other_step fd)).

(** Either shared locks only or a single exclusive one. *)
Definition exclusion (t : table) : Prop :=
  ∀ fd1 fd2 k, fd1 ≠ fd2 → t !! fd1 = Some Exclusive → t !! fd2 = Some k → False.

(** ** Lemmas *)
Lemma grantable_spec t fd k :
  grantable t fd k = true ↔
  ∀ fd' k', t !! fd' = Some k' → fd' = fd ∨ compatible k k' = true.
Proof. unfold grantable. rewrite bool_decide_eq_true. done. Qed.

Lemma compatible_exclusive k : compatible Exclusive k = false.
Proof. by destruct k. Qed.

Lemma exclusion_delete t fd : exclusion t → exclusion (delete fd t).
Proof.
  intros Ht fd1 fd2 k Hne [_ H1]%lookup_delete_Some [_ H2]%lookup_delete_Some. eauto.
Qed.

Lemma exclusion_insert t fd k :
  exclusion t → grantable t fd k = true → exclusion (<[fd := k]> t).
Proof.
  rewrite grantable_spec. intros Ht Hg fd1 fd2 k2 Hne H1 H2.
  apply lookup_insert_Some in H1 as [[-> ->]|[Hn1 H1]].
  - apply lookup_insert_Some in H2 as [[? _]|[Hn2 H2]]; [done|].
    destruct (Hg _ _ H2) as [->|Hc]; [done|]. by rewrite compatible_exclusive in Hc.
  - apply lookup_insert_Some in H2 as [[-> ->]|[Hn2 H2]]; [|by eauto].
    destruct (Hg _ _ H1) as [->|Hc]; [done|]. by destruct k2.
Qed.

Lemma flock_exclusion t fd f : exclusion t → exclusion (flock t fd f).2.
Proof.
  intros Ht. unfold flock. destruct f; simpl; [..|by apply exclusion_delete].
  - case_decide; [done|]. destruct (grantable t fd Shared) eqn:Hg; simpl;
      auto using exclusion_insert, exclusion_delete.
  - case_decide; [done|]. destruct (grantable t fd Exclusive) eqn:Hg; simpl;
      auto using exclusion_insert, exclusion_delete.
Qed.

Lemma flock_other t fd fd' f : fd' ≠ fd → (flock t fd' f).2 !! fd = t !! fd.
Proof.
  intros Hne. unfold flock.
  destruct f; repeat case_decide; repeat case_match; simpl;
    rewrite ?lookup_insert_ne, ?lookup_delete_ne by done; done.
Qed.

Lemma others_ok fd t t' : others fd t t' → exclusion t → exclusion t' ∧ t' !! fd = t !! fd.
Proof.
  induction 1 as [t|t t1 t' Hs _ IH]; intros Ht; [done|].
  assert (exclusion t1 ∧ t1 !! fd = t !! fd) as [H1 E].
  { destruct Hs as [t fd' f Hne|t fd' Hne];
      [by split; [apply flock_exclusion|apply flock_other]|].
    split; [by apply exclusion_delete|]. by rewrite lookup_delete_ne. }
  destruct (IH H1) as [? ?]. split; [done|congruence].
Qed.

(** A holder of an exclusive lock is alone, so it can always go back. *)
Lemma downgrade_succeeds t fd :
  exclusion t → t !! fd = Some Exclusive → flock t fd LOCK_SH = (true, <[fd := Shared]> t).
Proof.
  intros Ht Hfd. unfold flock. rewrite decide_False by congruence.
  assert (grantable t fd Shared = true) as ->; [|done].
  apply grantable_spec. intros fd' k' Hk. destruct (decide (fd' = fd)) as [|Hne]; [by left|].
  destruct (Ht fd fd' k'); done.
Qed.

Lemma flock_nb_Ok t fd k msg t' :
  flock_nb t fd (kind_flag k) msg = (Ok tt, t') → t' !! fd = Some k.
Proof.
  unfold flock_nb, flock. destruct k; simpl; case_decide; try (intros [= <-]; done).
  - destruct (grantable t fd Shared); [|done]. intros [= <-]. by rewrite lookup_insert_eq.
  - destruct (grantable t fd Exclusive); [|done]. intros [= <-]. by rewrite lookup_insert_eq.
Qed.


