(* ===== verification/Claim.v ===== *)
(** * Claiming the devices of a mount ([cmd_mount.rs])

    The disk argument is resolved into devices: image partitions, image
    files, block devices, LVM and RAID identifiers. Each device is opened and
    locked before the VM gets it. *)
From S2P Require Import Prelude Common Paths Fsutil Settings DevInfo LvIdent Flock.
From Stdlib Require Import Ascii.

(** ** [<image>@s<N>] *)
Definition usize_max : N := u64_max.

Definition parse_image_partition_ident (s : string) : option (string * N) :=
  match Str.rfind "@s" s with
  | None => None
  | Some at_pos =>
      let image_path := Str.take at_pos s in
      let suffix := Str.drop at_pos s in
      if Str.is_empty image_path then None
      else
        let suffix := Str.drop 2 suffix in
        if negb (Str.is_empty suffix) && Str.forallb Str.is_digit suffix
        then match Str.parse_uint usize_max suffix with
             | Some n => Some (image_path, n)
             | None => None
             end
        else None
  end.

(** ** The host *)
(** A file that is open and locked. *)
Record File := { file_path : string; file_fd : nat; file_kind : FlockKind }.

(** The locks by file, and the next open file description. *)
Record Locks := { lock_tables : gmap string table; next_fd : nat }.

Class Host := {
  host_os : TargetOS;
  path_exists : string → bool;
  path_is_file : string → bool;
  open_path : string → outcome unit;
  unmount_status : string → outcome unit;        (* unmount_fs *)
  host_mounts : list MountEntry;
  disk_info : string → DiskInfo;                 (* diskutil::get_info *)
}.

Section Claim.
Context `{Blkid} `{Host}.

(** [File::open(path)?.acquire_lock(kind)?] *)
Definition open_and_lock (st : Locks) (open_ctx lock_ctx path : string) (kind : FlockKind) :
    outcome (Locks * File) :=
  _ ← with_context open_ctx (open_path path);
  let fd := next_fd st in
  let '(r, t) := file_acquire_lock (default ∅ (lock_tables st !! path)) fd kind in
  _ ← with_context lock_ctx r;
  Ok ({| lock_tables := <[path := t]> (lock_tables st); next_fd := S fd |},
      {| file_path := path; file_fd := fd; file_kind := kind |}).

Definition lock_kind (read_only : bool) : FlockKind := if read_only then Shared else Exclusive.

Definition open_image (st : Locks) (read_only : bool) (info : DevInfo) :
    outcome (Locks * (DevInfo * File)) :=
  '(st, disk) ← open_and_lock st "Failed to open image file" "Failed to acquire lock on image file"
                  (dev_rpath info) (lock_kind read_only);
  Ok (st, (info, disk)).

(** Image partition syntax. *)
Definition resolve_image_partition (st : Locks) (image_path : string) (part_num : N)
    (read_only : bool) : outcome (Locks * (DevInfo * File)) :=
  if negb (path_exists image_path) then Err ("Image file not found: " +:+ image_path)
  else if decide (from_path image_path = Qcow2) then
    partition_info ← unprobed_image image_path (Some part_num);
    open_image st read_only partition_info
  else
    probe_devs ← with_context "Failed to probe image" (probe_image open_path image_path);
    if bool_decide (part_num = 0 ∨ N.of_nat (length probe_devs) <= part_num)%N
    then Err ("Partition " +:+ Str.of_N part_num +:+ " out of range (image has " +:+
              Str.of_nat (length probe_devs - 1) +:+ " partitions)")
    else
      match probe_devs !! N.to_nat part_num with
      | Some partition_info => open_image st read_only partition_info
      | None => Panic
      end.

Definition dev_path_of (token : string) : string :=
  if Str.starts_with "/dev/" token then token else "/dev/" +:+ token.

Definition resolve_disk_token (st : Locks) (token : string) (read_only : bool) :
    outcome (Locks * (DevInfo * File)) :=
  match parse_image_partition_ident token with
  | Some (image_path, part_num) => resolve_image_partition st image_path part_num read_only
  | None =>
      if path_is_file token then
        dev_info ← (if decide (from_path token = Qcow2) then unprobed_image token None
                    else pv disk_info token true);
        open_image st read_only dev_info
      else
        dev_info ← pv disk_info (dev_path_of token) false;
        '(st, disk) ← open_and_lock st "Failed to open device" "Failed to acquire lock on device"
                        (dev_rpath dev_info) (lock_kind read_only);
        Ok (st, (dev_info, disk))
  end.

(** ** [claim_devices] *)
(** What the loops accumulate. *)
Record Claimed := {
  c_locks : Locks;
  c_infos : list DevInfo;
  c_disks : list File;
  c_raid : bool;                 (* config.assemble_raid *)
  c_unmounted : list string;     (* devices unmounted on the way *)
}.

Definition push (c : Claimed) (st : Locks) (d : DevInfo) (f : File) (raid : bool) : Claimed := {|
  c_locks := st; c_infos := c_infos c ++ [d]; c_disks := c_disks c ++ [f];
  c_raid := raid; c_unmounted := c_unmounted c |}.

Definition mount_table : MountTable := MountTable_new host_os host_mounts.

Definition already_mounted (d : DevInfo) : bool :=
  negb (is_image d) && is_mounted mount_table (dev_path d).

(** A member of an LVM or RAID volume. *)
Definition claim_member (lvm read_only : bool) (c : Claimed) (di : string) : outcome Claimed :=
  '(st, (dev_info, disk)) ← resolve_disk_token (c_locks c) di read_only;
  if already_mounted dev_info then Err (dev_path dev_info +:+ " is already mounted")
  else
    let raid := c_raid c ||
      (lvm && bool_decide (fs_type dev_info = Some "linux_raid_member")) in
    Ok (push c st dev_info disk raid).

(** A disk of a plain (or colon-separated) disk path. *)
Definition claim_disk (read_only allow_remount : bool) (c : Claimed) (token : string) :
    outcome Claimed :=
  let resolve c :=
    '(st, (dev_info, disk)) ← resolve_disk_token (c_locks c) token read_only;
    Ok (push c st dev_info disk (c_raid c)) in
  match parse_image_partition_ident token with
  | Some _ => resolve c
  | None =>
      if path_is_file token then resolve c
      else
        let dev_path := dev_path_of token in
        if negb (path_exists dev_path) then Err ("disk " +:+ dev_path +:+ " not found")
        else if is_mounted mount_table dev_path then
          if allow_remount then
            _ ← unmount_status dev_path;
            resolve {| c_locks := c_locks c; c_infos := c_infos c; c_disks := c_disks c;
                       c_raid := c_raid c; c_unmounted := c_unmounted c ++ [dev_path] |}
          else Err (dev_path +:+ " is already mounted")
        else resolve c
  end.

(** [disk_ident.iter().skip(2)], up to and without the last one. *)
Definition lvm_members (disk_ident : list string) : list string :=
  take (length disk_ident - 3) (drop 2 disk_ident).

Definition lvm_vm_path (disk_ident : list string) : string :=
  "/dev/mapper/" +:+
  dm_name (default "" (disk_ident !! 1)) (default "" (disk_ident !! (length disk_ident - 1))).

Definition claim_all (st : Locks) (config : MountConfig) : outcome (Claimed * DevInfo) :=
  let start := {| c_locks := st; c_infos := []; c_disks := []; c_raid := assemble_raid config;
                  c_unmounted := [] |} in
  let disk_path := disk_path config in
  if Str.starts_with "lvm:" disk_path then
    let disk_ident := Str.split ":" disk_path in
    if decide (length disk_ident < 4) then Err "Invalid LVM disk path"
    else
      c ← foldM (claim_member true (read_only config)) start (lvm_members disk_ident);
      lv_info ← lv disk_path None (lvm_vm_path disk_ident);
      Ok (c, lv_info)
  else if Str.starts_with "raid:" disk_path then
    let disk_ident := Str.split ":" disk_path in
    if decide (length disk_ident < 2) then Err "Invalid RAID disk path"
    else
      let start := {| c_locks := st; c_infos := []; c_disks := []; c_raid := true;
                      c_unmounted := [] |} in
      c ← foldM (claim_member false (read_only config)) start (drop 1 disk_ident);
      lv_info ← lv disk_path None "/dev/md127";
      Ok (c, lv_info)
  else if decide (disk_path = "") then Ok (start, DevInfo_default)
  else
    c ← foldM (claim_disk (read_only config) (allow_remount config)) start (Str.split ":" disk_path);
    match c_infos c with
    | d :: _ => Ok (c, d)
    | [] => Panic
    end.

(** The configuration, with the fields that claiming can change. *)
Definition set_claimed (config : MountConfig) (ro raid : bool) (kernel_file : string) : MountConfig := {|
  disk_path := disk_path config; read_only := ro; mount_options := mount_options config;
  nfs_options := nfs_options config; nfs_export_opts := nfs_export_opts config;
  ignore_permissions := ignore_permissions config; allow_remount := allow_remount config;
  vm_hostname := vm_hostname config; custom_mount_point := custom_mount_point config;
  fs_driver := fs_driver config; assemble_raid := raid; bind_addr := bind_addr config;
  verbose := verbose config; open_finder := open_finder config;
  kernel_page_size := kernel_page_size config;
  common := {| paths := paths (common config); logs := logs (common config);
               net := net (common config); privilege := privilege (common config);
               kernel := {| os := os (kernel (common config)); kernel_path := kernel_file |};
               cfg_passphrase_config := cfg_passphrase_config (common config);
               rw_rootfs := rw_rootfs (common config); cfg_zfs_os := cfg_zfs_os (common config);
               preferences := preferences (common config) |};
  custom_action := custom_action config; key_file := key_file config |}.

(** Should the kernel with 4K pages be used? *)
Definition wants_4k (config : MountConfig) (mnt_dev_info : DevInfo) : bool :=
  bool_decide (kernel_page_size config = Some Size4K) ||
  (bool_decide (fs_type mnt_dev_info = Some "f2fs") &&
   bool_decide (block_size mnt_dev_info = Some 4096%N)).

Definition claim_devices (st : Locks) (config : MountConfig) :
    outcome (MountConfig * Claimed * DevInfo) :=
  '(c, mnt_dev_info) ← claim_all st config;
  let mnt_dev_info :=
    match fs_driver config with Some drv => set_fs_driver mnt_dev_info drv | None => mnt_dev_info end in
  kernel_file ←
    (if wants_4k config mnt_dev_info then
       match path.parent (kernel_path (kernel (common config))) with
       | Some dir => Ok (path.join dir "Image-4K")
       | None => Panic
       end
     else Ok (kernel_path (kernel (common config))));
  let ro := read_only config || negb (media_writable mnt_dev_info) in
  Ok (set_claimed config ro (c_raid c) kernel_file, c, mnt_dev_info).
End Claim.

(** ** Lemmas *)
(** *** Identifiers of image partitions *)
Lemma digits_lack_at s : Str.forallb Str.is_digit s = true → StrFacts.lacks "@" s = true.
Proof. apply StrFacts.forallb_impl. intros c Hc. apply bool_decide_eq_true. by intros ->. Qed.

(** Image partitions: [<image>@s<N>] is read back as the image and the
    number it was printed from, for every image name (one that contains @s
    included) and every number that fits; and whatever is accepted has that
    shape, with a nonempty image and decimal digits only. *)
Lemma image_partition_ident image n s
    (Himg : image ≠ "") (Hn : (n <= usize_max)%N) :
  parse_image_partition_ident (image +:+ "@s" +:+ Str.of_N n) = Some (image, n) ∧
  (∀ image' n', parse_image_partition_ident s = Some (image', n') →
     ∃ digits, s = image' +:+ "@s" +:+ digits ∧ image' ≠ "" ∧
       Str.forallb Str.is_digit digits = true ∧ Str.parse_uint usize_max digits = Some n').
Proof.
  destruct (StrFacts.of_N_digits n) as [Hd Hne]. split.
  - unfold parse_image_partition_ident.
    change ("@s" +:+ Str.of_N n) with (String "@" (String "s" (Str.of_N n))).
    rewrite StrFacts.rfind_app; [|apply (StrFacts.starts_with_app "@s")|].
    2: { eapply StrFacts.rfind_lacks; [done|]. apply StrFacts.lacks_cons. split; [done|]. by apply digits_lack_at. }
    rewrite StrFacts.take_app, StrFacts.drop_app. cbn [Str.drop].
    destruct image as [|c image]; [done|]. cbn [Str.is_empty]. rewrite Hd.
    destruct (Str.of_N n) as [|d ds] eqn:E; [done|]. rewrite <-E.
    rewrite StrFacts.parse_uint_of_N by done. by rewrite E.
  - intros image' n'. unfold parse_image_partition_ident.
    destruct (Str.rfind "@s" s) as [i|] eqn:Ei; [|done].
    apply StrFacts.rfind_Some in Ei as [r Hr].
    destruct (Str.is_empty (Str.take i s)) eqn:Et; [done|]. rewrite Hr.
    change (Str.drop 2 ("@s" +:+ r)) with r.
    destruct (negb (Str.is_empty r) && Str.forallb Str.is_digit r) eqn:Hc; [|done].
    apply andb_true_iff in Hc as [_ Hc].
    destruct (Str.parse_uint usize_max r) as [m|] eqn:Hp; [|done]. intros [= <- <-].
    exists r. split_and!; [|by intros E; rewrite E in Et|done..].
    rewrite <-Hr. symmetry. apply StrFacts.take_drop.
Qed.

Example image_partition_ident_witness :
  parse_image_partition_ident ("a@s1.img" +:+ "@s" +:+ Str.of_N 12) = Some ("a@s1.img", 12%N) ∧
  (∀ image' n', parse_image_partition_ident "x@s" = Some (image', n') →
     ∃ digits, "x@s" = image' +:+ "@s" +:+ digits ∧ image' ≠ "" ∧
       Str.forallb Str.is_digit digits = true ∧ Str.parse_uint usize_max digits = Some n').
Proof. apply (image_partition_ident "a@s1.img" 12 "x@s"); done. Defined.



(** *** What a claim holds *)
Section ClaimFacts.
Context `{Blkid} `{Host}.

(** The file is open, and holds its lock. *)
Definition holds (l : Locks) (f : File) : Prop :=
  file_fd f < next_fd l ∧
  ∃ t, lock_tables l !! file_path f = Some t ∧ t !! file_fd f = Some (file_kind f).

Lemma open_and_lock_Ok st c1 c2 path kind st' f :
  open_and_lock st c1 c2 path kind = Ok (st', f) →
  f = {| file_path := path; file_fd := next_fd st; file_kind := kind |} ∧
  holds st' f ∧ next_fd st' = S (next_fd st) ∧ (∀ g, holds st g → holds st' g).
Proof.
  unfold open_and_lock. intros (u & _ & Ho)%outcome_bind_Ok.
  destruct (file_acquire_lock _ _ _) as [r t] eqn:Hl.
  apply outcome_bind_Ok in Ho as ([] & Hr%with_context_Ok & [= <- <-]). subst r.
  unfold file_acquire_lock in Hl. split_and!; [done| |done|].
  - split; [simpl; lia|]. exists t. simpl. rewrite lookup_insert_eq. split; [done|].
    by eapply flock_nb_Ok.
  - intros g (Hfd & t' & Ht' & Hg). split; [simpl; lia|]. simpl.
    destruct (decide (path = file_path g)) as [->|Hne].
    + exists t. rewrite lookup_insert_eq. split; [done|].
      rewrite Ht' in Hl. simpl in Hl. unfold flock_nb in Hl.
      pose proof (flock_other t' (file_fd g) (next_fd st) (kind_flag kind) ltac:(lia)) as E.
      destruct (flock t' _ _) as [res t2]. simpl in *. simplify_eq. congruence.
    + exists t'. by rewrite lookup_insert_ne.
Qed.

(** Resolving a token opens and locks the raw path of the device it gives. *)
Lemma resolve_disk_token_Ok st token ro st' d f :
  resolve_disk_token st token ro = Ok (st', (d, f)) →
  (∃ c1 c2, open_and_lock st c1 c2 (dev_rpath d) (lock_kind ro) = Ok (st', f)) ∧
  (is_image d = false → parse_image_partition_ident token = None ∧ path_is_file token = false ∧
     dev_path d = (device_paths (dev_path_of token)).1).
Proof.
  assert (∀ st ro i, open_image st ro i = Ok (st', (d, f)) →
    i = d ∧ ∃ c1 c2, open_and_lock st c1 c2 (dev_rpath d) (lock_kind ro) = Ok (st', f)) as Himg.
  { intros st0 ro0 i. unfold open_image. intros ([st1 f1] & Ho & [= -> -> ->])%outcome_bind_Ok.
    split; [done|]. eauto. }
  unfold resolve_disk_token. destruct (parse_image_partition_ident token) as [[img n]|].
  - intros Hr. assert (is_image d = true ∧ ∃ c1 c2,
      open_and_lock st c1 c2 (dev_rpath d) (lock_kind ro) = Ok (st', f)) as [-> Ho];
      [|by split]. revert Hr. unfold resolve_image_partition.
    destruct (path_exists img); simpl; [|done]. case_decide.
    + intros (i & Hi & [-> Ho]%Himg)%outcome_bind_Ok. split; [|done].
      unfold unprobed_image in Hi. do 2 (case_decide; [done|]). by injection Hi as <-.
    + intros (ds & Hds%with_context_Ok & Hr)%outcome_bind_Ok.
      case_bool_decide as Hrange; [done|]. destruct (ds !! N.to_nat n) as [i|] eqn:Hi; [|done].
      apply Himg in Hr as [-> Ho]. split; [|done].
      destruct (probe_image_cons _ _ _ Hds) as (first & rest & -> & _ & _ & Hrest).
      destruct (N.to_nat n) as [|m] eqn:Em; [lia|]. simpl in Hi. by apply Hrest in Hi as (_ & _ & _ & _ & ? & _).
  - destruct (path_is_file token).
    + intros (i & Hi & [-> Ho]%Himg)%outcome_bind_Ok. split; [done|].
      intros Hd. exfalso. revert Hi. case_decide.
      * unfold unprobed_image. case_decide; [done|]. rewrite decide_False by done.
        intros [= <-]. done.
      * unfold pv. case_decide; [done|]. destruct (device_paths token).
        intros Hp. do 4 (apply outcome_bind_Ok in Hp as (? & _ & Hp)). by simplify_eq/=.
    + intros (i & Hi & Hr)%outcome_bind_Ok.
      apply outcome_bind_Ok in Hr as ([st1 f1] & Ho & [= -> -> ->]). split; [by eauto|].
      intros _. split_and!; [done..|]. revert Hi. unfold pv. case_decide; [done|].
      destruct (device_paths (dev_path_of token)) as [p r].
      intros Hp. do 4 (apply outcome_bind_Ok in Hp as (? & _ & Hp)). by simplify_eq/=.
Qed.

(** The invariant of the claiming loops. *)
Record claim_inv (k : FlockKind) (P : DevInfo → Prop) (c : Claimed) : Prop := {
  inv_locked : Forall2 (λ d f, file_path f = dev_rpath d ∧ file_kind f = k ∧ holds (c_locks c) f)
                 (c_infos c) (c_disks c);
  inv_fds : NoDup (file_fd <$> c_disks c);
  inv_infos : Forall P (c_infos c);
}.

Lemma claim_inv_push k P c st d f raid :
  claim_inv k P c → P d →
  (∃ c1 c2, open_and_lock (c_locks c) c1 c2 (dev_rpath d) k = Ok (st, f)) →
  claim_inv k P (push c st d f raid).
Proof.
  intros [Hl Hn Hi] Hd (c1 & c2 & Ho).
  destruct (open_and_lock_Ok _ _ _ _ _ _ _ Ho) as (-> & Hh & Hs & Hkeep). split; simpl.
  - apply Forall2_app; [|constructor; [done|apply Forall2_nil_2]].
    eapply Forall2_impl; [exact Hl|]. intros ? ? (? & ? & ?). auto.
  - rewrite fmap_app. apply NoDup_app. split_and!; [done| |apply NoDup_singleton].
    intros fd (g & Efd & Hg)%list_elem_of_fmap Hin%list_elem_of_singleton.
    apply list_elem_of_lookup in Hg as [i Hg].
    destruct (Forall2_lookup_r _ _ _ _ _ Hl Hg) as (d' & _ & _ & _ & [Hlt _]).
    simpl in Hin. lia.
  - apply Forall_app. split; [done|by constructor].
Qed.

(** A claimed block device is not mounted; in the plain mode it may have
    been mounted when remounting is allowed. *)
Definition not_in_use (config : MountConfig) (d : DevInfo) : Prop :=
  is_image d = false → is_mounted mount_table (dev_path d) = true →
  allow_remount config = true ∧ unmount_status (dev_path d) = Ok tt.

Definition plain_tokens (config : MountConfig) : Prop :=
  ∀ token, token ∈ Str.split ":" (disk_path config) →
    Str.starts_with RAW_PREFIX (dev_path_of token) = false.

Lemma device_paths_not_raw p : Str.starts_with RAW_PREFIX p = false → (device_paths p).1 = p.
Proof. unfold device_paths. intros ->. by destruct (Str.starts_with BUF_PREFIX p). Qed.

Lemma claim_member_inv config lvm c token c' :
  claim_inv (lock_kind (read_only config)) (not_in_use config) c →
  claim_member lvm (read_only config) c token = Ok c' →
  claim_inv (lock_kind (read_only config)) (not_in_use config) c'.
Proof.
  intros Hc. unfold claim_member. intros ([st [d f]] & Hr & Hm)%outcome_bind_Ok.
  destruct (already_mounted d) eqn:Ham; [done|]. injection Hm as <-.
  apply resolve_disk_token_Ok in Hr as [Ho _]. apply claim_inv_push; [done| |done].
  intros Hi Hmnt. unfold already_mounted in Ham. by rewrite Hi, Hmnt in Ham.
Qed.

Lemma claim_disk_inv config c token c' :
  Str.starts_with RAW_PREFIX (dev_path_of token) = false →
  claim_inv (lock_kind (read_only config)) (not_in_use config) c →
  claim_disk (read_only config) (allow_remount config) c token = Ok c' →
  claim_inv (lock_kind (read_only config)) (not_in_use config) c'.
Proof.
  intros Hraw Hc. unfold claim_disk.
  assert (∀ c0, c_locks c0 = c_locks c → c_infos c0 = c_infos c → c_disks c0 = c_disks c →
    (parse_image_partition_ident token = None → path_is_file token = false →
     is_mounted mount_table (dev_path_of token) = true →
     allow_remount config = true ∧ unmount_status (dev_path_of token) = Ok tt) →
    ('(st, (d, f)) ← resolve_disk_token (c_locks c0) token (read_only config);
     Ok (push c0 st d f (c_raid c0))) = Ok c' →
    claim_inv (lock_kind (read_only config)) (not_in_use config) c') as Hres.
  { intros c0 E1 E2 E3 Hm ([st [d f]] & Hr & [= <-])%outcome_bind_Ok.
    apply resolve_disk_token_Ok in Hr as [Ho Hd].
    apply claim_inv_push; [|intros Hi Hmnt|done].
    - destruct Hc as [Hl Hn Hi]. by split; rewrite ?E1, ?E2, ?E3.
    - destruct (Hd Hi) as (Hp & Hf & E). rewrite device_paths_not_raw in E by done.
      rewrite E in *. by apply Hm. }
  destruct (parse_image_partition_ident token); [by apply Hres|].
  destruct (path_is_file token); [by apply Hres|].
  destruct (path_exists (dev_path_of token)); simpl; [|done].
  destruct (is_mounted mount_table (dev_path_of token)); [|by apply Hres].
  destruct (allow_remount config) eqn:Har; [|done].
  intros ([] & Hu & Hr)%outcome_bind_Ok. revert Hr.
  by apply (Hres {| c_locks := c_locks c; c_infos := c_infos c; c_disks := c_disks c;
                    c_raid := c_raid c; c_unmounted := c_unmounted c ++ [dev_path_of token] |}).
Qed.

Lemma claim_all_inv st config c d :
  plain_tokens config → claim_all st config = Ok (c, d) →
  claim_inv (lock_kind (read_only config)) (not_in_use config) c.
Proof.
  intros Hplain. unfold claim_all.
  assert (∀ raid um, claim_inv (lock_kind (read_only config)) (not_in_use config)
    {| c_locks := st; c_infos := []; c_disks := []; c_raid := raid; c_unmounted := um |}) as Hstart
    by (intros; split; simpl; constructor).
  destruct (Str.starts_with "lvm:" _).
  { case_decide; [done|]. intros (c1 & Hf & Hr)%outcome_bind_Ok.
    apply outcome_bind_Ok in Hr as (l & _ & [= -> _]).
    eapply foldM_invariant; [|apply Hstart|exact Hf]. intros. by eapply claim_member_inv. }
  destruct (Str.starts_with "raid:" _).
  { case_decide; [done|]. intros (c1 & Hf & Hr)%outcome_bind_Ok.
    apply outcome_bind_Ok in Hr as (l & _ & [= -> _]).
    eapply foldM_invariant; [|apply Hstart|exact Hf]. intros. by eapply claim_member_inv. }
  case_decide; [by intros [= <- _]|].
  intros (c1 & Hf & Hr)%outcome_bind_Ok.
  assert (c1 = c) as -> by (destruct (c_infos c1); simplify_eq; done).
  eapply foldM_invariant; [|apply Hstart|exact Hf]. intros s x s' Hx Hs Hcd.
  by eapply claim_disk_inv; [apply Hplain| |].
Qed.
End ClaimFacts.


(** A raw device name escapes the check of the plain mode: the mount table
    lists the buffered name. *)
Lemma raw_name_not_checked `{Host} :
  host_os = MacOS → host_mounts = [{| fs_spec := "/dev/disk7s1"; fs_file := "/Volumes/a" |}] →
  is_mounted mount_table "/dev/disk7s1" = true ∧
  is_mounted mount_table (dev_path_of "/dev/rdisk7s1") = false ∧
  (device_paths (dev_path_of "/dev/rdisk7s1")).1 = "/dev/disk7s1".
Proof. unfold mount_table. intros -> ->. split_and!; vm_compute; reflexivity. Qed.

(** ** A concrete claim *)
Module Witness.
#[local] Instance blkid : Blkid := {
  Probe := string; Partition := unit;
  new_from_filename p := Ok p; enable_superblocks p _ := Ok p; enable_partitions p _ := Ok p;
  set_superblock_flags p _ := Ok p; do_safeprobe p := Ok p;
  lookup_value _ key := if decide (key = "TYPE") then Ok "ext4" else Err "no value";
  get_size _ := 0%Z; get_partitions _ := Err "none"; get_start _ := 0%Z; get_part_size _ := 0%Z;
  probe_new := Ok ""; set_device p _ _ _ := p; enable_superblocks' p _ := p;
  set_superblock_flags' p _ := p; do_safeprobe' p := p;
}.
#[local] Instance host : Host := {
  host_os := MacOS; path_exists _ := true; path_is_file _ := false; open_path _ := Ok tt;
  unmount_status _ := Ok tt; host_mounts := [{| fs_spec := "/dev/disk1s1"; fs_file := "/" |}];
  disk_info _ := {| info_writable := false |};
}.

Definition no_locks : Locks := {| lock_tables := ∅; next_fd := 3 |}.

Definition ext4_disk (path rpath : string) : DevInfo := {|
  dev_path := path; dev_rpath := rpath; is_image := false; block_size := None; dev_label := None;
  fs_type := Some "ext4"; uuid := None; pt_type := None; vm_path := "/dev/vda"; vm_part_idx := None;
  dev_fs_driver := None; da_info := {| info_writable := false |}; size_bytes := None;
  disk_format := Raw; metadata_probed := true |}.

Definition claimed : Claimed := {|
  c_locks := {| lock_tables := <["/dev/rdisk8s1" := <[4 := Exclusive]> ∅]>
                  (<["/dev/rdisk7s1" := <[3 := Exclusive]> ∅]> ∅); next_fd := 5 |};
  c_infos := [ext4_disk "/dev/disk7s1" "/dev/rdisk7s1"; ext4_disk "/dev/disk8s1" "/dev/rdisk8s1"];
  c_disks := [{| file_path := "/dev/rdisk7s1"; file_fd := 3; file_kind := Exclusive |};
              {| file_path := "/dev/rdisk8s1"; file_fd := 4; file_kind := Exclusive |}];
  c_raid := false; c_unmounted := [] |}.

Definition config : MountConfig := Settings.Witness.sample_mount_config "disk7s1:/dev/disk8s1".

End Witness.
