(* ===== verification/Hostname.v ===== *)
(** * Host names of the VMs ([main.rs] [hostname_from_disk_ident],
      [cmd_mount.rs] [pick_unique_hostname])

    The VM of a mount gets a host name derived from the disk argument, made
    unique among the instances that are running. *)
From S2P Require Import Prelude Paths.
From Stdlib Require Import Ascii.

Definition special : list string := ["lvm"; "raid"].

(** The prefix and the token the name is taken from. *)
Definition name_token (disk_ident : string) : string * string :=
  match Str.split ":" disk_ident with
  | first_token :: second_token :: _ =>
      if decide (first_token ∈ special) then (first_token, second_token) else ("", first_token)
  | [first_token] => ("", first_token)
  | [] => ("", "")
  end.

(** Strip [@s<digits>]. *)
Definition strip_partition (disk_name : string) : string :=
  match Str.rfind "@s" disk_name with
  | Some at_pos =>
      if Str.forallb Str.is_digit (Str.drop (at_pos + 2) disk_name)
      then Str.take at_pos disk_name else disk_name
  | None => disk_name
  end.

Definition punctuation (c : ascii) : bool :=
  bool_decide (c ∈ [" "; "_"; "\"; "<"; ">"; "|"; "+"; ":"; "."; ","]%char).

Definition host_char (c : ascii) : bool := Str.is_alnum c || bool_decide (c = "-"%char).

Definition clean_name (disk_name : string) : string :=
  Str.filter host_char (Str.map (λ c, if punctuation c then "-"%char else c) disk_name).

Definition hostname_from_disk_ident (disk_ident : string) : outcome string :=
  let '(prefix, token) := name_token disk_ident in
  let disk_name := match path.file_name token with Some n => n | None => "disk" end in
  let vm_hostname := clean_name (strip_partition disk_name) in
  let vm_hostname := if decide (vm_hostname = "") then "disk" else vm_hostname in
  let vm_hostname :=
    if negb (Str.is_empty prefix) then prefix +:+ "-" +:+ vm_hostname else vm_hostname in
  Ok (if decide (63 < String.length vm_hostname) then Str.take 63 vm_hostname else vm_hostname).

(** ** [pick_unique_hostname] *)
(** One candidate; the subtraction is on [usize]. *)
Definition candidate (base : string) (counter : N) : outcome string :=
  if decide (counter = 0)%N then Ok base
  else
    let suffix := "-" +:+ Str.of_N counter in
    if decide (63 < String.length suffix) then Panic
    else
      let truncated := Str.take (String.length base `min` (63 - String.length suffix)) base in
      Ok (truncated +:+ suffix).

(** The loop; [None] when the fuel is used up. *)
Fixpoint pick_loop (fuel : nat) (base : string) (active_vm_hosts : gset string) (counter : N) :
    option (outcome string) :=
  match fuel with
  | O => None
  | S fuel =>
      match candidate base counter with
      | Ok c =>
          if decide (c +:+ ".local" ∈ active_vm_hosts)
          then if decide (counter = u32_max) then Some Panic
               else pick_loop fuel base active_vm_hosts (counter + 1)
          else Some (Ok c)
      | r => Some r
      end
  end.

Definition pick_unique_hostname (base : string) (active_vm_hosts : gset string) :
    option (outcome string) :=
  pick_loop (size active_vm_hosts + 2) base active_vm_hosts 0.

(** ** Lemmas *)
Lemma forallb_cons p c s : Str.forallb p (String c s) = p c && Str.forallb p s.
Proof. done. Qed.

Lemma special_host_char s : s ∈ special → Str.forallb host_char s = true ∧ s ≠ "".
Proof. intros [<-|[<-|[]]]%list_elem_of_In; done. Qed.

Lemma name_token_prefix d prefix token :
  name_token d = (prefix, token) → Str.forallb host_char prefix = true.
Proof.
  unfold name_token. destruct (Str.split ":" d) as [|w [|w' ws]]; [by intros [= <- _]..|].
  case_decide as Hs; intros [= <- _]; [|done]. by apply special_host_char.
Qed.

(** Every disk argument gives a host name: it is not empty, has at most
    63 characters, and only ASCII letters, digits and dashes. *)
Lemma hostname_wf disk_ident :
  ∃ h, hostname_from_disk_ident disk_ident = Ok h ∧
    h ≠ "" ∧ String.length h ≤ 63 ∧ Str.forallb host_char h = true.
Proof.
  unfold hostname_from_disk_ident. destruct (name_token disk_ident) as [prefix token] eqn:Et.
  apply name_token_prefix in Et.
  set (n := clean_name _).
  assert (Str.forallb host_char n = true) as Hn by apply StrFacts.forallb_filter.
  set (n1 := if decide (n = "") then "disk" else n).
  assert (n1 ≠ "" ∧ Str.forallb host_char n1 = true) as [Hne1 Hn1]
    by (unfold n1; by case_decide).
  set (n2 := if negb (Str.is_empty prefix) then _ else n1).
  assert (n2 ≠ "" ∧ Str.forallb host_char n2 = true) as [Hne2 Hn2].
  { unfold n2. destruct prefix as [|c prefix]; [done|]. simpl negb. cbv iota.
    split; [done|]. by rewrite !StrFacts.forallb_app, Et, Hn1. }
  eexists. split; [done|]. case_decide as Hlen; [|split_and!; [done|lia|done]].
  split_and!.
  - destruct n2; [done|]. done.
  - rewrite StrFacts.length_take. lia.
  - by apply StrFacts.forallb_take.
Qed.

(** *** Candidates *)
Lemma lacks_of_N n : StrFacts.lacks "-" (Str.of_N n) = true.
Proof.
  unfold Str.of_N, DecimalString.NilZero.string_of_uint.
  assert (∀ u, StrFacts.lacks "-" (DecimalString.NilEmpty.string_of_uint u) = true) as H
    by (induction u; done).
  by destruct (N.to_uint n) eqn:E; [done|rewrite <-E; apply H..].
Qed.

Lemma candidate_inj base k l c :
  k ≠ 0%N → l ≠ 0%N → candidate base k = Ok c → candidate base l = Ok c → k = l.
Proof.
  intros Hk Hl. unfold candidate.
  rewrite (decide_False (P := k = 0%N)), (decide_False (P := l = 0%N)) by done. cbv zeta.
  destruct (decide (63 < String.length ("-" +:+ Str.of_N k))); [done|].
  destruct (decide (63 < String.length ("-" +:+ Str.of_N l))); [done|]. intros [= <-] [= E].
  apply (f_equal (λ s, last (Str.split "-" s))) in E.
  change ("-" +:+ ?s) with (String "-" s) in E.
  rewrite !StrFacts.split_app_sep in E.
  rewrite !(StrFacts.split_lacks "-" (Str.of_N _)) in E by apply lacks_of_N.
  rewrite !last_snoc in E. injection E as E. symmetry. by apply StrFacts.of_N_inj.
Qed.

(** A numeral has at most as many decimal as binary digits. *)
Lemma nb_digits_double d :
  Decimal.nb_digits (Decimal.Little.double d) ≤ S (Decimal.nb_digits d) ∧
  Decimal.nb_digits (Decimal.Little.succ_double d) ≤ S (Decimal.nb_digits d).
Proof. induction d; simpl; lia. Qed.

Lemma nb_digits_little p : Decimal.nb_digits (Pos.to_little_uint p) ≤ Pos.size_nat p.
Proof.
  induction p as [p IH|p IH|]; simpl; [..|lia];
    destruct (nb_digits_double (Pos.to_little_uint p)); lia.
Qed.

Lemma size_nat_bound p k : (N.pos p < 2 ^ N.of_nat k)%N → Pos.size_nat p ≤ k.
Proof.
  revert p; induction k as [|k IH]; intros p Hp; [simpl in Hp; lia|].
  rewrite Nat2N.inj_succ, N.pow_succ_r' in Hp.
  destruct p as [p|p|]; simpl; [| |lia]; apply le_n_S, IH; lia.
Qed.

Lemma u32_digits n : (n <= u32_max)%N → String.length (Str.of_N n) ≤ 32.
Proof.
  intros Hn. unfold Str.of_N, DecimalString.NilZero.string_of_uint.
  assert (∀ u, String.length (DecimalString.NilEmpty.string_of_uint u) = Decimal.nb_digits u) as Hs
    by (induction u; simpl; congruence).
  assert (Decimal.nb_digits (N.to_uint n) ≤ 32) as Hd.
  { destruct n as [|p]; [simpl; lia|]. simpl. unfold Pos.to_uint.
    rewrite DecimalFacts.nb_digits_rev. etransitivity; [apply nb_digits_little|].
    apply (size_nat_bound p 32). unfold u32_max in Hn. change (2 ^ N.of_nat 32)%N with 4294967296%N. lia. }
  destruct (N.to_uint n) eqn:E; [simpl; lia|..]; by rewrite <-E, Hs, E.
Qed.

Lemma candidate_ok base n :
  (n <= u32_max)%N → String.length base ≤ 63 → Str.forallb host_char base = true →
  ∃ c, candidate base n = Ok c ∧ String.length c ≤ 63 ∧ Str.forallb host_char c = true ∧
       (base ≠ "" → c ≠ "").
Proof.
  intros Hn Hlen Hb. unfold candidate. case_decide; [by exists base|].
  pose proof (u32_digits n Hn) as Hd.
  assert (String.length ("-" +:+ Str.of_N n) = S (String.length (Str.of_N n))) as Hl by done.
  rewrite decide_False by lia. eexists. split; [done|]. split_and!.
  - rewrite StrFacts.length_app, StrFacts.length_take. lia.
  - rewrite StrFacts.forallb_app, StrFacts.forallb_take by done. simpl.
    eapply StrFacts.forallb_impl; [|apply StrFacts.digits_of_N].
    intros c Hc. unfold host_char, Str.is_alnum. by rewrite Hc.
  - intros _ E%StrFacts.app_eq_nil. by destruct E.
Qed.

(** The loop answers before its counter has passed every active host. *)
Lemma pick_loop_None fuel base active k i :
  pick_loop fuel base active k = None → i < fuel →
  ∃ c, candidate base (k + N.of_nat i) = Ok c ∧ (c +:+ ".local") ∈ active.
Proof.
  revert k i; induction fuel as [|fuel IH]; intros k i Hl Hi; [lia|]. simpl in Hl.
  destruct (candidate base k) as [c|e|] eqn:Hc; [|done..].
  case_decide as Hin; [|done]. case_decide; [done|].
  destruct i as [|i].
  - exists c. by rewrite N.add_0_r.
  - replace (k + N.of_nat (S i))%N with (k + 1 + N.of_nat i)%N by lia. apply (IH _ i Hl). lia.
Qed.

(** Whatever the base is. *)
Lemma pick_unique_not_active base active h :
  pick_unique_hostname base active = Some (Ok h) → (h +:+ ".local") ∉ active.
Proof.
  unfold pick_unique_hostname. generalize (size active + 2), 0%N.
  intros fuel; induction fuel as [|fuel IH]; intros k Hp; [done|]. cbn [pick_loop] in Hp.
  destruct (candidate base k) as [c|e|]; [|done..]. case_decide; [case_decide; [done|by eapply IH]|congruence].
Qed.

Lemma pick_loop_Some fuel base active k r :
  (k + N.of_nat fuel <= u32_max + 1)%N → String.length base ≤ 63 →
  Str.forallb host_char base = true → base ≠ "" →
  (k + N.of_nat fuel = u32_max + 1 → False)%N →
  pick_loop fuel base active k = Some r →
  ∃ c, r = Ok c ∧ ((c +:+ ".local") ∉ active) ∧ c ≠ "" ∧ String.length c ≤ 63 ∧
       Str.forallb host_char c = true.
Proof.
  revert k; induction fuel as [|fuel IH]; intros k Hk Hlen Hb Hne Hk' Hl; [done|]. simpl in Hl.
  destruct (candidate_ok base k) as (c & Hc & Hcl & Hcb & Hcn); [lia|done..|].
  rewrite Hc in Hl. case_decide as Hin; [|injection Hl as <-; eauto 10].
  rewrite decide_False in Hl by lia. eapply IH; [| | | | |exact Hl]; [lia|done..|lia].
Qed.

Lemma pick_unique_total base active :
  (N.of_nat (size active) + 2 <= u32_max)%N → pick_unique_hostname base active ≠ None.
Proof.
  intros Hs Hnone. unfold pick_unique_hostname in Hnone.
  assert (∀ i, i ≤ size active → ∃ c, candidate base (N.of_nat (S i)) = Ok c ∧ (c +:+ ".local") ∈ active) as Hall.
  { intros i Hi. destruct (pick_loop_None _ _ _ _ (S i) Hnone) as (c & ? & ?); [lia|]. by exists c. }
  destruct (fresh_candidate (λ i, default "" (ok (candidate base (N.of_nat (S i)))) +:+ ".local") active)
    as (i & Hi & Hfresh).
  - intros i j Hi Hj E. destruct (Hall i Hi) as (c & Hc & _), (Hall j Hj) as (c' & Hc' & _).
    rewrite Hc, Hc' in E. simpl in E. apply StrFacts.app_inj_r in E as <-.
    assert (N.of_nat (S i) = N.of_nat (S j)) by (eapply candidate_inj; [..|exact Hc|exact Hc']; lia).
    lia.
  - destruct (Hall i Hi) as (c & Hc & ?). rewrite Hc in Hfresh. by apply Hfresh.
Qed.

(** A host name of a running instance is never picked again: the search
    ends after at most one more attempt than there are active hosts (plus the
    name itself), never panics, and returns a valid name that none of them
    has; a name that is free is returned unchanged. *)
Lemma pick_unique_hostname_ok base active
    (Hlen : String.length base ≤ 63) (Hne : base ≠ "") (Hb : Str.forallb host_char base = true)
    (Hs : (N.of_nat (size active) + 2 <= u32_max)%N) :
  ∃ h, pick_unique_hostname base active = Some (Ok h) ∧
    ((h +:+ ".local") ∉ active) ∧ h ≠ "" ∧ String.length h ≤ 63 ∧ Str.forallb host_char h = true ∧
    ((base +:+ ".local") ∉ active → h = base).
Proof.
  destruct (pick_unique_hostname base active) as [r|] eqn:Hp;
    [|by apply pick_unique_total in Hp].
  pose proof Hp as Hp'. unfold pick_unique_hostname in Hp'.
  pose proof Hp' as Hh. apply pick_loop_Some in Hh as (h & -> & Hh); [|lia|done..|lia]. exists h. split_and!; [done|naive_solver..|].
  intros Hfree. rewrite Nat.add_comm in Hp'. simpl in Hp'. rewrite decide_False in Hp' by done.
  by injection Hp' as <-.
Qed.

Example pick_unique_hostname_ok_witness :
  ∃ h, pick_unique_hostname "disk7s1" {["disk7s1.local"; "disk7s1-1.local"]} = Some (Ok h) ∧
    ((h +:+ ".local") ∉ ({["disk7s1.local"; "disk7s1-1.local"]} : gset string)) ∧ h ≠ "" ∧
    String.length h ≤ 63 ∧ Str.forallb host_char h = true ∧
    (("disk7s1" +:+ ".local") ∉ ({["disk7s1.local"; "disk7s1-1.local"]} : gset string) → h = "disk7s1").
Proof.
  apply (pick_unique_hostname_ok "disk7s1"); [simpl; lia|done|reflexivity|].
  assert (size ({["disk7s1.local"; "disk7s1-1.local"]} : gset string) = 2) as -> by reflexivity.
  unfold u32_max. lia.
Defined.
