(* ===== verification/Privilege.v ===== *)
(** * Privileges of the process ([privilege.rs])

    The operating system's credentials and the set*id calls are modelled after
    POSIX: a process with effective user 0 may set any id, any other only to
    one of its own.  On top of that: the effective and the permanent drop, the
    re-elevation, the two RAII guards, and the search for the user behind
    [sudo]. *)
From S2P Require Import Prelude.

Record Creds := mkCreds {
  ruid : N; euid : N; suid : N;
  rgid : N; egid : N; sgid : N;
}.

(** ** The system calls; [None] is a failure with EPERM *)
Definition set_euid (u : N) (c : Creds) : option Creds :=
  if decide (euid c = 0 ∨ u = ruid c ∨ u = euid c ∨ u = suid c)%N
  then Some (mkCreds (ruid c) u (suid c) (rgid c) (egid c) (sgid c)) else None.

Definition set_egid (g : N) (c : Creds) : option Creds :=
  if decide (euid c = 0 ∨ g = rgid c ∨ g = egid c ∨ g = sgid c)%N
  then Some (mkCreds (ruid c) (euid c) (suid c) (rgid c) g (sgid c)) else None.

(** [setuid] and [setgid] of a privileged process set all three ids. *)
Definition set_uid (u : N) (c : Creds) : option Creds :=
  if decide (euid c = 0)%N then Some (mkCreds u u u (rgid c) (egid c) (sgid c))
  else if decide (u = ruid c ∨ u = suid c)
  then Some (mkCreds (ruid c) u (suid c) (rgid c) (egid c) (sgid c)) else None.

Definition set_gid (g : N) (c : Creds) : option Creds :=
  if decide (euid c = 0)%N then Some (mkCreds (ruid c) (euid c) (suid c) g g g)
  else if decide (g = rgid c ∨ g = sgid c)
  then Some (mkCreds (ruid c) (euid c) (suid c) (rgid c) g (sgid c)) else None.

(** A call whose failure is ignored. *)
Definition ignore (f : Creds → option Creds) (c : Creds) : Creds := default c (f c).

(** A call whose failure is the error of the function; the credentials reached
    so far stay. *)
Definition try_call (msg : string) (f : Creds → option Creds) (c : Creds)
    (k : Creds → outcome unit * Creds) : outcome unit * Creds :=
  match f c with
  | Some c' => k c'
  | None => (Err msg, c)
  end.

Definition done_ok (c : Creds) : outcome unit * Creds := (Ok tt, c).

(** ** Dropping and regaining *)
Definition drop_effective_privileges (sudo_uid sudo_gid : option N) (c : Creds) : outcome unit * Creds :=
  match sudo_uid, sudo_gid with
  | Some u, Some g =>
      try_call "Failed to setegid" (set_egid g) c (λ c,
      try_call "Failed to seteuid" (set_euid u) c done_ok)
  | _, _ => (Ok tt, c)
  end.

Definition drop_privileges (os : TargetOS) (sudo_uid sudo_gid : option N) (c : Creds) :
    outcome unit * Creds :=
  match os with
  | MacOS =>
      match sudo_uid, sudo_gid with
      | Some u, Some g =>
          try_call "Failed to setgid" (set_gid g) c (λ c,
          try_call "Failed to setuid" (set_uid u) c done_ok)
      | _, _ => (Ok tt, c)
      end
  | LinuxHost => drop_effective_privileges sudo_uid sudo_gid c
  end.

Definition elevate_effective_privileges (c : Creds) : outcome unit * Creds :=
  try_call "Failed to seteuid" (set_euid (ruid c)) c (λ c,
  try_call "Failed to setegid" (set_egid (rgid c)) c done_ok).

(** ** The guards *)
Record EffectiveRootGuard := mkGuard { prev_uid : option N; prev_gid : option N }.

Definition acquire (c : Creds) : EffectiveRootGuard * Creds :=
  if decide (ruid c = 0 ∧ euid c ≠ 0)%N
  then (mkGuard (Some (euid c)) (Some (egid c)), ignore (set_egid 0) (ignore (set_euid 0) c))
  else (mkGuard None None, c).

Definition drop_guard (g : EffectiveRootGuard) (c : Creds) : Creds :=
  let c := match prev_gid g with Some gid => ignore (set_egid gid) c | None => c end in
  match prev_uid g with Some uid => ignore (set_euid uid) c | None => c end.

(** [Drop for ElevateOnDrop] *)
Definition elevate_on_drop (c : Creds) : Creds :=
  if decide (ruid c = 0)%N then ignore (set_egid 0) (ignore (set_euid 0) c) else c.

(** ** The identity behind [sudo] *)
Record ProcInfo := mkProc { p_uid : N; p_gid : N; p_ppid : N }.
Record InvokerIdentity := mkInvoker { uid : N; gid : N }.

Section Invoker.
(** The process table; a process that cannot be inspected gives [None]. *)
Context (get_proc_info : N → option ProcInfo).

(** [find_map] over [take n] of the successors of a process. *)
Fixpoint walk (n : nat) (info : option ProcInfo) : option InvokerIdentity :=
  match n, info with
  | S n, Some i =>
      if decide (p_uid i ≠ 0)%N then Some (mkInvoker (p_uid i) (p_gid i))
      else walk n (get_proc_info (p_ppid i))
  | _, _ => None
  end.

Definition walk_to_invoker (pid : N) : outcome InvokerIdentity :=
  ok_or "This program must not be run directly by root; use sudo instead"
    (info ← get_proc_info pid; walk 5 (get_proc_info (p_ppid info))).

Definition resolve_invoker_identity (pid : N) (c : Creds) (env : gmap string string) :
    outcome InvokerIdentity :=
  if decide (ruid c ≠ 0)%N then Ok (mkInvoker (ruid c) (rgid c))
  else
    let sudo_uid := env !! "SUDO_UID" ≫= Str.parse_uint u32_max in
    let sudo_gid := env !! "SUDO_GID" ≫= Str.parse_uint u32_max in
    match sudo_uid, sudo_gid with
    | Some u, Some g => Ok (mkInvoker u g)
    | _, _ => walk_to_invoker pid
    end.

(** The [n]th ancestor. *)
Fixpoint ancestor (n : nat) (pid : N) : option ProcInfo :=
  match n with
  | O => get_proc_info pid
  | S n => info ← get_proc_info pid; ancestor n (p_ppid info)
  end.
End Invoker.

(** [run_as_invoker]: the ids a command is spawned with. *)
Definition run_as_invoker (sudo_uid sudo_gid : option N) (ids : option (N * N)) : option (N * N) :=
  match sudo_uid, sudo_gid with
  | Some u, Some g => Some (u, g)
  | _, _ => ids
  end.

(** ** What a session does to its credentials

    Any sequence of the operations above, in any order, failures included. *)
Inductive Op :=
| DropEffective (sudo_uid sudo_gid : option N)
| DropPriv (sudo_uid sudo_gid : option N)
| Elevate
| Acquire
| Release (g : EffectiveRootGuard).

Definition run_op (os : TargetOS) (c : Creds) (o : Op) : Creds :=
  match o with
  | DropEffective u g => (drop_effective_privileges u g c).2
  | DropPriv u g => (drop_privileges os u g c).2
  | Elevate => (elevate_effective_privileges c).2
  | Acquire => (acquire c).2
  | Release g => drop_guard g c
  end.

Definition run_ops (os : TargetOS) : Creds → list Op → Creds := foldl (run_op os).

(** ** Lemmas *)
(** The saved and real ids survive everything but [setuid] and [setgid]. *)
Definition same_saved (c c' : Creds) : Prop :=
  ruid c' = ruid c ∧ suid c' = suid c ∧ rgid c' = rgid c ∧ sgid c' = sgid c.

(** Destruct the permission checks of the goal and of the hypotheses. *)
Ltac creds :=
  unfold drop_privileges, drop_effective_privileges, elevate_effective_privileges, acquire,
    drop_guard, elevate_on_drop, ignore, try_call, done_ok, set_euid, set_egid, set_uid, set_gid,
    same_saved in *;
  repeat (case_decide || destruct_match); simplify_eq/=; try naive_solver lia.

Lemma same_saved_refl c : same_saved c c.
Proof. done. Qed.
Lemma same_saved_trans c1 c2 c3 : same_saved c1 c2 → same_saved c2 c3 → same_saved c1 c3.
Proof. unfold same_saved. naive_solver congruence. Qed.
Lemma ignore_euid_saved u c d : same_saved c d → same_saved c (ignore (set_euid u) d).
Proof. intros ?. apply same_saved_trans with d; [done|]. creds. Qed.
Lemma ignore_egid_saved g c d : same_saved c d → same_saved c (ignore (set_egid g) d).
Proof. intros ?. apply same_saved_trans with d; [done|]. creds. Qed.

Create HintDb creds.
#[export] Hint Resolve ignore_euid_saved ignore_egid_saved same_saved_refl : creds.

Lemma drop_effective_saved u g c : same_saved c (drop_effective_privileges u g c).2.
Proof. destruct u, g; simpl; creds. Qed.
Lemma elevate_saved c : same_saved c (elevate_effective_privileges c).2.
Proof. creds. Qed.
Lemma acquire_saved c : same_saved c (acquire c).2.
Proof. unfold acquire. case_decide; simpl; auto with creds. Qed.
Lemma drop_guard_saved g c : same_saved c (drop_guard g c).
Proof. unfold drop_guard. destruct (prev_gid g), (prev_uid g); auto with creds. Qed.
#[export] Hint Resolve drop_effective_saved elevate_saved acquire_saved drop_guard_saved : creds.

Lemma linux_op_saved c o : same_saved c (run_op LinuxHost c o).
Proof. destruct o; simpl; auto with creds. Qed.

Lemma linux_ops_saved ops c : same_saved c (run_ops LinuxHost c ops).
Proof.
  revert c; induction ops as [|o ops IH]; intros c; simpl; [done|].
  eapply same_saved_trans; [apply linux_op_saved|apply IH].
Qed.

Lemma ignore_euid_0 c :
  ruid c = 0%N → ignore (set_euid 0) c = mkCreds (ruid c) 0 (suid c) (rgid c) (egid c) (sgid c).
Proof. intros Hr. unfold ignore, set_euid. by rewrite decide_True by naive_solver. Qed.
Lemma ignore_euid_root u c :
  euid c = 0%N → ignore (set_euid u) c = mkCreds (ruid c) u (suid c) (rgid c) (egid c) (sgid c).
Proof. intros He. unfold ignore, set_euid. by rewrite decide_True by naive_solver. Qed.
Lemma ignore_egid_root g c :
  euid c = 0%N → ignore (set_egid g) c = mkCreds (ruid c) (euid c) (suid c) (rgid c) g (sgid c).
Proof. intros He. unfold ignore, set_egid. by rewrite decide_True by naive_solver. Qed.

Lemma elevate_on_drop_root c :
  ruid c = 0%N → euid (elevate_on_drop c) = 0%N ∧ egid (elevate_on_drop c) = 0%N.
Proof.
  intros Hr. unfold elevate_on_drop. rewrite decide_True by done.
  by rewrite ignore_euid_0, ignore_egid_root.
Qed.

(** C24: on Linux the root privileges of a session started with [sudo] can
    always be regained for the clean-up: after any sequence of drops,
    elevations and guards, failed ones included, the saved ids are still
    root's, [ElevateOnDrop] makes both effective ids 0, and so does an explicit
    elevation, without an error. *)
Theorem linux_root_recoverable ops c (Hu : ruid c = 0%N) (Hg : rgid c = 0%N) :
  let c' := run_ops LinuxHost c ops in
  ruid c' = 0%N ∧ suid c' = suid c ∧
  euid (elevate_on_drop c') = 0%N ∧ egid (elevate_on_drop c') = 0%N ∧
  ∃ c'', elevate_effective_privileges c' = (Ok tt, c'') ∧ euid c'' = 0%N ∧ egid c'' = 0%N.
Proof.
  intros c'. destruct (linux_ops_saved ops c) as (Hr & Hs & Hrg & _). fold c' in Hr, Hs, Hrg.
  assert (ruid c' = 0%N) as Hr0 by congruence.
  destruct (elevate_on_drop_root c' Hr0) as [He Hge]. split_and!; [done..|].
  unfold elevate_effective_privileges, try_call, set_euid. rewrite decide_True by auto. simpl.
  unfold set_egid. simpl. rewrite decide_True by (left; done).
  eexists. split; [done|]. simpl. by rewrite Hr0, Hrg.
Qed.

Example linux_root_recoverable_witness :
  let c' := run_ops LinuxHost (mkCreds 0 0 0 0 0 0)
    [DropEffective (Some 1000%N) (Some 100%N); Acquire; Elevate; DropPriv (Some 1000%N) (Some 100%N)] in
  ruid c' = 0%N ∧ suid c' = 0%N ∧
  euid (elevate_on_drop c') = 0%N ∧ egid (elevate_on_drop c') = 0%N ∧
  ∃ c'', elevate_effective_privileges c' = (Ok tt, c'') ∧ euid c'' = 0%N ∧ egid c'' = 0%N.
Proof. apply (linux_root_recoverable _ (mkCreds 0 0 0 0 0 0)); reflexivity. Defined.

(** No id of the process is root's. *)
Definition no_root (c : Creds) : Prop := ruid c ≠ 0%N ∧ euid c ≠ 0%N ∧ suid c ≠ 0%N.

Lemma ignore_euid_no_root u c : no_root c → no_root (ignore (set_euid u) c).
Proof. unfold no_root. creds. Qed.
Lemma ignore_egid_no_root g c : no_root c → no_root (ignore (set_egid g) c).
Proof. unfold no_root. creds. Qed.
#[export] Hint Resolve ignore_euid_no_root ignore_egid_no_root : creds.

Lemma op_no_root os c o : no_root c → no_root (run_op os c o).
Proof.
  intros H. destruct o as [u g|u g| | |g]; simpl.
  - destruct u, g; try done. unfold no_root in *. creds.
  - destruct os, u, g; try done; unfold no_root in *; creds.
  - unfold no_root in *. creds.
  - unfold acquire. rewrite decide_False; [done|]. unfold no_root in *. naive_solver.
  - unfold drop_guard. destruct (prev_gid g), (prev_uid g); auto with creds.
Qed.

Lemma ops_no_root os ops c : no_root c → no_root (run_ops os c ops).
Proof. revert c; induction ops; simpl; eauto using op_no_root. Qed.

(** On macOS the drop after the mount is final: from root it succeeds,
    the process then has the invoker's ids only, and no later sequence of
    drops, elevations and guards gets an id of root back. *)
Lemma macos_drop_permanent c u g ops (Hroot : euid c = 0%N) (Hu : u ≠ 0%N) :
  ∃ c', drop_privileges MacOS (Some u) (Some g) c = (Ok tt, c') ∧
    c' = mkCreds u u u g g g ∧
    let c'' := run_ops MacOS c' ops in
    ruid c'' ≠ 0%N ∧ euid c'' ≠ 0%N ∧ suid c'' ≠ 0%N.
Proof.
  exists (mkCreds u u u g g g). split_and!; [|done|by apply ops_no_root].
  unfold drop_privileges, try_call, set_gid. rewrite decide_True by done. simpl.
  unfold set_uid. simpl. by rewrite decide_True.
Qed.

Example macos_drop_permanent_witness :
  ∃ c', drop_privileges MacOS (Some 501%N) (Some 20%N) (mkCreds 0 0 0 0 0 0) = (Ok tt, c') ∧
    c' = mkCreds 501 501 501 20 20 20 ∧
    let c'' := run_ops MacOS c' [Elevate; DropEffective (Some 0%N) (Some 0%N)] in
    ruid c'' ≠ 0%N ∧ euid c'' ≠ 0%N ∧ suid c'' ≠ 0%N.
Proof. apply macos_drop_permanent; [reflexivity|lia]. Defined.

(** A guard on its own restores the ids it found, and everything it runs in
    between runs as root. *)
Lemma guard_restores c g c' :
  acquire c = (g, c') → ruid c = 0%N → euid c' = 0%N ∧ drop_guard g c' = c.
Proof.
  unfold acquire. intros Ha Hr. case_decide as Hd; simplify_eq.
  - rewrite (ignore_euid_0 c Hr), ignore_egid_root by done. split; [done|].
    unfold drop_guard. simpl. rewrite ignore_egid_root by done.
    rewrite ignore_euid_root by done. by destruct c.
  - split; [|done]. destruct (decide (euid c' = 0%N)); naive_solver.
Qed.

(** The ids belong to the process, so two guards that overlap in two
    threads undo each other: while the second guard is still held, the drop
    of the first takes root away from the code the second one protects. *)
Lemma overlapping_guards c (Hr : ruid c = 0%N) (He : euid c ≠ 0%N) :
  let '(g1, c1) := acquire c in
  let '(g2, c2) := acquire c1 in
  euid c2 = 0%N ∧ drop_guard g1 c2 = c ∧ euid (drop_guard g1 c2) ≠ 0%N.
Proof.
  destruct (acquire c) as [g1 c1] eqn:E1.
  destruct (guard_restores _ _ _ E1 Hr) as [H0 Hb].
  assert (acquire c1 = (mkGuard None None, c1)) as ->.
  { unfold acquire. by rewrite decide_False by naive_solver. }
  rewrite Hb. done.
Qed.

Example overlapping_guards_witness :
  let '(g1, c1) := acquire (mkCreds 0 1000 0 0 100 0) in
  let '(g2, c2) := acquire c1 in
  euid c2 = 0%N ∧ drop_guard g1 c2 = mkCreds 0 1000 0 0 100 0 ∧ euid (drop_guard g1 c2) ≠ 0%N.
Proof. apply (overlapping_guards (mkCreds 0 1000 0 0 100 0)); simpl; lia. Defined.

(** ** The invoker *)
Lemma walk_spec gpi n pid r :
  walk gpi n (gpi pid) = Some r →
  ∃ k i, k < n ∧ ancestor gpi k pid = Some i ∧ p_uid i ≠ 0%N ∧ r = mkInvoker (p_uid i) (p_gid i) ∧
    ∀ j, j < k → ∃ i', ancestor gpi j pid = Some i' ∧ p_uid i' = 0%N.
Proof.
  revert pid; induction n as [|n IH]; intros pid; simpl; [done|].
  destruct (gpi pid) as [i|] eqn:Hi; [|done]. case_decide as Hu.
  - intros [= <-]. exists 0, i. split_and!; [lia|done..|intros; lia].
  - intros (k & i' & Hk & Ha & Hn & -> & Hlt)%IH. exists (S k), i'. simpl. rewrite Hi.
    split_and!; [lia|done..|]. intros [|j] Hj; simpl; rewrite Hi; simpl.
    + exists i. split; [done|]. destruct (decide (p_uid i = 0%N)); [done|naive_solver].
    + apply Hlt. lia.
Qed.

Lemma walk_complete gpi n pid k i :
  k < n → ancestor gpi k pid = Some i → p_uid i ≠ 0%N →
  (∀ j, j < k → ∃ i', ancestor gpi j pid = Some i' ∧ p_uid i' = 0%N) →
  walk gpi n (gpi pid) = Some (mkInvoker (p_uid i) (p_gid i)).
Proof.
  revert pid k; induction n as [|n IH]; intros pid k Hk Ha Hu Hlt; [lia|]. simpl.
  destruct k as [|k]; simpl in Ha.
  - rewrite Ha. by rewrite decide_True.
  - destruct (Hlt 0) as (i0 & H0 & Hz); [lia|]. simpl in H0. rewrite H0 in *. simpl in Ha.
    rewrite decide_False by naive_solver. apply (IH _ k); [lia|done..|].
    intros j Hj. destruct (Hlt (S j)) as (i' & Hi' & ?); [lia|]. simpl in Hi'.
    rewrite H0 in Hi'. eauto.
Qed.

(** When root runs the program without [SUDO_UID] and [SUDO_GID], the
    invoker is the nearest of its five closest ancestors that root does not
    own: the walk answers with that one's real ids and never with root, and it
    fails only if none of the five qualifies. *)
Lemma invoker_is_nearest gpi pid c env r
    (Hroot : ruid c = 0%N) (Henv : env !! "SUDO_UID" = None ∨ env !! "SUDO_GID" = None) :
  resolve_invoker_identity gpi pid c env = Ok r ↔
  ∃ k i, 1 ≤ k ≤ 5 ∧ ancestor gpi k pid = Some i ∧ p_uid i ≠ 0%N ∧
    r = mkInvoker (p_uid i) (p_gid i) ∧
    ∀ j, 1 ≤ j < k → ∃ i', ancestor gpi j pid = Some i' ∧ p_uid i' = 0%N.
Proof.
  unfold resolve_invoker_identity. rewrite decide_False by naive_solver.
  assert (match env !! "SUDO_UID" ≫= Str.parse_uint u32_max, env !! "SUDO_GID" ≫= Str.parse_uint u32_max with
    | Some u, Some g => Ok (mkInvoker u g) | _, _ => walk_to_invoker gpi pid end = walk_to_invoker gpi pid) as ->.
  { destruct Henv as [-> | ->]; simpl; [done|]. by destruct (_ ≫= _). }
  unfold walk_to_invoker. destruct (gpi pid) as [i0|] eqn:Hp; cbn [mbind option_bind ok_or].
  2: { split; [done|]. intros (k & i & Hk & Ha & _). destruct k; [lia|]. simpl in Ha. by rewrite Hp in Ha. }
  split.
  - intros H. destruct (walk gpi 5 (gpi (p_ppid i0))) as [r'|] eqn:Hw; [|done].
    injection H as ->. apply walk_spec in Hw as (k & i & Hk & Ha & Hu & -> & Hlt).
    exists (S k), i. simpl. rewrite Hp. split_and!; [lia|lia|done|done|done|].
    intros [|j] Hj; [lia|]. simpl. rewrite Hp. apply Hlt. lia.
  - intros (k & i & Hk & Ha & Hu & -> & Hlt). destruct k as [|k]; [lia|]. simpl in Ha. rewrite Hp in Ha.
    rewrite (walk_complete gpi 5 (p_ppid i0) k i); [done|lia|done..|].
    intros j Hj. destruct (Hlt (S j)) as (i' & Hi' & ?); [lia|]. simpl in Hi'. rewrite Hp in Hi'. eauto.
Qed.

Definition sample_tree (pid : N) : option ProcInfo :=
  match pid with
  | 10%N => Some (mkProc 0 0 9)
  | 9%N => Some (mkProc 0 0 8)
  | 8%N => Some (mkProc 501 20 1)
  | _ => None
  end.

Example invoker_is_nearest_witness :
  resolve_invoker_identity sample_tree 10 (mkCreds 0 0 0 0 0 0) ∅ = Ok (mkInvoker 501 20) ↔
  ∃ k i, 1 ≤ k ≤ 5 ∧ ancestor sample_tree k 10 = Some i ∧ p_uid i ≠ 0%N ∧
    mkInvoker 501 20 = mkInvoker (p_uid i) (p_gid i) ∧
    ∀ j, 1 ≤ j < k → ∃ i', ancestor sample_tree j 10 = Some i' ∧ p_uid i' = 0%N.
Proof. apply invoker_is_nearest; [reflexivity|left; reflexivity]. Defined.
