(* ===== verification/Reader.v ===== *)
(** * Reading the console of the VM ([utils.rs] [PassthroughBufReader],
      [cmd_mount.rs] [PtyReader], [main.rs] [parse_vm_tag_value])

    The console arrives in pieces of any size.  [read_line] shows what is not
    a control message at once and returns whole lines; the reader thread turns
    the control messages into messages on channels. *)
From S2P Require Import Prelude.
From Stdlib Require Import Ascii.

(** ** UTF-8 ([std::str::from_utf8]) *)
Definition in_range (lo hi : nat) (c : ascii) : bool :=
  let n := nat_of_ascii c in (lo <=? n) && (n <=? hi).
Definition cont : ascii → bool := in_range 128 191.

Fixpoint valid_utf8 (s : string) : bool :=
  match s with
  | "" => true
  | String a s1 =>
      if in_range 0 127 a then valid_utf8 s1
      else if in_range 194 223 a then
        match s1 with String b s2 => cont b && valid_utf8 s2 | _ => false end
      else if in_range 224 239 a then
        match s1 with
        | String b (String c s3) =>
            in_range (if nat_of_ascii a =? 224 then 160 else 128)
                     (if nat_of_ascii a =? 237 then 159 else 191) b
            && cont c && valid_utf8 s3
        | _ => false
        end
      else if in_range 240 244 a then
        match s1 with
        | String b (String c (String d s4)) =>
            in_range (if nat_of_ascii a =? 240 then 144 else 128)
                     (if nat_of_ascii a =? 244 then 143 else 191) b
            && cont c && cont d && valid_utf8 s4
        | _ => false
        end
      else false
  end.

Definition LF : ascii := "010"%char.
Definition CR : ascii := "013"%char.
Definition TAG : string := "<anylinuxfs-".

(** ** [PassthroughBufReader] *)
(** What is written: through [prefix_print!] (console, if enabled, and log
    file) or straight to the console. *)
Inductive Out := Text (prefix : bool) (s : string) | CarriageReturn.

Record Buf := mkBuf {
  chunks : list (outcome string);   (* the results of the reads to come; none left is the end *)
  avail : string;                   (* the bytes read and not yet used: buffer[pos..cap] *)
  suppress_current_line : bool;
  pending_output : string;
  first_chunk : bool;
  shown : list Out;
}.

Definition new (inner : list (outcome string)) : Buf := mkBuf inner "" false "" true [].

(** The bytes up to the first newline, that newline included. *)
Fixpoint take_line (s : string) : string * string * bool :=
  match s with
  | "" => ("", "", false)
  | String c s =>
      if decide (c = LF) then (String c "", s, true)
      else let '(l, r, found) := take_line s in (String c l, r, found)
  end.

(** Print the pending output, if any. *)
Definition flush_pending (b : Buf) : Buf :=
  if Str.is_empty (pending_output b) then b
  else mkBuf (chunks b) (avail b) (suppress_current_line b) "" false
         (shown b ++ [Text (first_chunk b) (pending_output b)]).

(** Decide about the current line once [chunk] has been added to it. *)
Definition show_chunk (b : Buf) (line chunk : string) : Buf :=
  if suppress_current_line b then b
  else if Str.starts_with TAG line then
    mkBuf (chunks b) (avail b) true "" (first_chunk b) (shown b)
  else if Str.starts_with line TAG then
    mkBuf (chunks b) (avail b) false (pending_output b +:+ chunk) (first_chunk b) (shown b)
  else
    let b := flush_pending b in
    mkBuf (chunks b) (avail b) false (pending_output b) false
      (shown b ++ [Text (first_chunk b) chunk]).

Definition end_line (b : Buf) : Buf :=
  let b := if suppress_current_line b then b else flush_pending b in
  mkBuf (chunks b) (avail b) false "" true (shown b ++ [CarriageReturn]).

(** One pass over the buffer: the line so far, and whether it is complete. *)
Definition piece (b : Buf) (line : string) : outcome (Buf * string * bool) :=
  let '(chunk, rest, found_newline) := take_line (avail b) in
  if valid_utf8 chunk then
    let line := line +:+ chunk in
    let b := show_chunk b line chunk in
    let b := mkBuf (chunks b) rest (suppress_current_line b) (pending_output b) (first_chunk b) (shown b) in
    Ok (if found_newline then end_line b else b, line, found_newline)
  else Err "stream did not contain valid UTF-8".

(** The loop, once the buffer is used up. *)
Fixpoint refill (cs : list (outcome string)) (b : Buf) (line : string) : outcome (Buf * string) :=
  match cs with
  | [] => Ok (mkBuf [] "" (suppress_current_line b) (pending_output (flush_pending b))
                (first_chunk (flush_pending b)) (shown (flush_pending b)), line)
  | Ok "" :: cs => Ok (mkBuf cs "" (suppress_current_line b) (pending_output (flush_pending b))
                (first_chunk (flush_pending b)) (shown (flush_pending b)), line)
  | Ok c :: cs =>
      '(b, line, found) ← piece (mkBuf cs c (suppress_current_line b) (pending_output b)
                                  (first_chunk b) (shown b)) line;
      if (found : bool) then Ok (b, line) else refill cs b line
  | Err e :: _ => Err e
  | Panic :: _ => Panic
  end.

(** [read_line]; the number of bytes it returns is the length of the line. *)
Definition read_line (b : Buf) : outcome (Buf * string) :=
  if Str.is_empty (avail b) then refill (chunks b) b ""
  else
    '(b, line, found) ← piece b "";
    if (found : bool) then Ok (b, line) else refill (chunks b) b line.

(** ** [PtyReader] *)
Record NfsReadyState := mkReady {
  fslabel : option string; fstype : option string; changed_to_ro : bool; exports : list string }.
Inductive NfsStatus := Ready (s : NfsReadyState) | Failed (exit_code : option Z).

Definition parse_vm_tag_value (line : string) : option string :=
  '(_, rest) ← Str.split_once ":" line;
  let trimmed := Str.trim rest in
  Some (match Str.strip_suffix ">" trimmed with Some v => v | None => trimmed end).

(** [str::parse::<i32>] *)
Definition parse_i32 (s : string) : option Z :=
  match s with
  | String "-" r =>
      n ← Str.parse_digits r;
      if decide (n <= 2147483648)%N then Some (- Z.of_N n)%Z else None
  | String "+" r =>
      n ← Str.parse_digits r; if decide (n <= 2147483647)%N then Some (Z.of_N n) else None
  | _ => n ← Str.parse_digits s; if decide (n <= 2147483647)%N then Some (Z.of_N n) else None
  end.

(** What the thread sends, and what else it does. *)
Inductive Msg :=
| Nfs (s : NfsStatus)
| PwdPrompt (start : bool)
| SubscribeToVmEvents
| ConsoleLog (enable : bool).

Record Pty := mkPty {
  nfs_ready : bool;
  p_fslabel : option string; p_fstype : option string; p_changed_to_ro : bool;
  p_exit_code : option Z; p_exports : gset string;
  sent : list Msg;
}.

Definition pty_new : Pty := mkPty false None None false None ∅ [].

Definition tagged (line : string) : string :=
  match Str.find TAG line with Some i => Str.drop i line | None => line end.

Definition READY : string := "READY AND WAITING FOR NFS CLIENT CONNECTIONS".

Definition send (p : Pty) (m : Msg) : Pty :=
  mkPty (nfs_ready p) (p_fslabel p) (p_fstype p) (p_changed_to_ro p) (p_exit_code p) (p_exports p)
    (sent p ++ [m]).

(** What one line does.  The receivers are alive. *)
Definition handle_line (verbose : bool) (p : Pty) (line : string) : Pty :=
  let tag := tagged line in
  if Str.contains READY line then
    mkPty true None None (p_changed_to_ro p) (p_exit_code p) (p_exports p)
      (sent p ++ [Nfs (Ready (mkReady (p_fslabel p) (p_fstype p) (p_changed_to_ro p)
                                (btree_elements (p_exports p))))])
  else if Str.starts_with "<anylinuxfs-vmproxy-ready>" tag then send p SubscribeToVmEvents
  else if Str.starts_with "<anylinuxfs-exit-code" tag then
    mkPty (nfs_ready p) (p_fslabel p) (p_fstype p) (p_changed_to_ro p)
      (parse_vm_tag_value tag ≫= parse_i32) (p_exports p) (sent p)
  else if Str.starts_with "<anylinuxfs-label" tag then
    mkPty (nfs_ready p) (parse_vm_tag_value tag) (p_fstype p) (p_changed_to_ro p) (p_exit_code p)
      (p_exports p) (sent p)
  else if Str.starts_with "<anylinuxfs-type" tag then
    mkPty (nfs_ready p) (p_fslabel p) (parse_vm_tag_value tag) (p_changed_to_ro p) (p_exit_code p)
      (p_exports p) (sent p)
  else if Str.starts_with "<anylinuxfs-mount:changed-to-ro>" tag then
    mkPty (nfs_ready p) (p_fslabel p) (p_fstype p) true (p_exit_code p) (p_exports p) (sent p)
  else if Str.starts_with "<anylinuxfs-nfs-export" tag then
    match parse_vm_tag_value tag with
    | Some e => mkPty (nfs_ready p) (p_fslabel p) (p_fstype p) (p_changed_to_ro p) (p_exit_code p)
                  ({[e]} ∪ p_exports p) (sent p)
    | None => p
    end
  else if Str.starts_with "<anylinuxfs-passphrase-prompt:start>" tag then send p (PwdPrompt true)
  else if Str.starts_with "<anylinuxfs-passphrase-prompt:end>" tag then send p (PwdPrompt false)
  else if negb verbose && Str.starts_with "<anylinuxfs-force-output:off>" tag then
    send p (ConsoleLog false)
  else if negb verbose && Str.starts_with "<anylinuxfs-force-output:on>" tag then
    send p (ConsoleLog true)
  else p.

Definition finish (p : Pty) : Pty := if nfs_ready p then p else send p (Nfs (Failed (p_exit_code p))).

(** The thread: lines until an empty read or an error.  [None]: out of fuel. *)
Fixpoint pty_loop (fuel : nat) (verbose : bool) (b : Buf) (p : Pty) : option (Buf * Pty) :=
  match fuel with
  | O => None
  | S fuel =>
      match read_line b with
      | Ok (b', "") => Some (b', finish p)
      | Ok (b', line) => pty_loop fuel verbose b' (handle_line verbose p line)
      | Err _ => Some (b, finish p)
      | Panic => None
      end
  end.

Definition input_bytes (b : Buf) : nat :=
  String.length (avail b) +
  sum_list ((λ c, match c with Ok s => String.length s | _ => 0 end) <$> chunks b).

Definition spawn (verbose : bool) (inner : list (outcome string)) : option (Buf * Pty) :=
  let b := new inner in pty_loop (input_bytes b + 1) verbose b pty_new.

(** ** Reference: whole lines *)
Fixpoint lines_of (s : string) : list string :=
  match s with
  | "" => []
  | String c s =>
      if decide (c = LF) then String c "" :: lines_of s
      else match lines_of s with
           | [] => [String c ""]
           | l :: ls => String c l :: ls
           end
  end.

(** A line on the console: nothing of a control message, a carriage return
    after every complete line. *)
Definition show_line (prefix line : string) : string :=
  (if Str.starts_with TAG line then "" else prefix +:+ line) +:+
  (if Str.ends_with (String LF "") line then String CR "" else "").

Fixpoint concat_str (l : list string) : string :=
  match l with [] => "" | s :: l => s +:+ concat_str l end.

Definition render_out (prefix : string) (o : Out) : string :=
  match o with
  | Text true s => prefix +:+ s
  | Text false s => s
  | CarriageReturn => String CR ""
  end.
Definition render (prefix : string) (outs : list Out) : string := concat_str (render_out prefix <$> outs).

Definition ascii_only : string → bool := Str.forallb (in_range 0 127).

(** ** Lemmas *)
Lemma concat_str_app l1 l2 : concat_str (l1 ++ l2) = concat_str l1 +:+ concat_str l2.
Proof. induction l1; simpl; [done|]. by rewrite IHl1, StrFacts.app_assoc. Qed.

Lemma render_snoc prefix outs o :
  render prefix (outs ++ [o]) = render prefix outs +:+ render_out prefix o.
Proof. unfold render. rewrite fmap_app, concat_str_app. simpl. by rewrite StrFacts.app_nil_r. Qed.

Lemma ascii_valid s : ascii_only s = true → valid_utf8 s = true.
Proof.
  induction s as [|c s IH]; [done|]. unfold ascii_only in *. simpl.
  intros [-> ?]%andb_true_iff. auto.
Qed.

Lemma take_line_app s : let '(l, r, _) := take_line s in s = l +:+ r.
Proof.
  induction s as [|c s IH]; simpl; [done|]. case_decide; [done|].
  destruct (take_line s) as [[l r] f]. simpl. by f_equal.
Qed.

Lemma take_line_not_found s : (take_line s).2 = false → take_line s = (s, "", false).
Proof.
  induction s as [|c s IH]; simpl; [done|]. case_decide; [done|].
  destruct (take_line s) as [[l r] f]; simpl in *. intros ->. by injection (IH eq_refl) as -> ->.
Qed.

Lemma take_line_app_not_found s t :
  (take_line s).2 = false →
  take_line (s +:+ t) = (s +:+ (take_line t).1.1, (take_line t).1.2, (take_line t).2).
Proof.
  induction s as [|c s IH]; simpl; [by destruct (take_line t) as [[??]?]|].
  case_decide; [done|]. destruct (take_line s) as [[l r] f] eqn:E; simpl in *. intros ->.
  by rewrite (IH eq_refl).
Qed.

Lemma take_line_app_found s t :
  (take_line s).2 = true →
  take_line (s +:+ t) = ((take_line s).1.1, (take_line s).1.2 +:+ t, true).
Proof.
  induction s as [|c s IH]; simpl; [done|]. case_decide; [done|].
  destruct (take_line s) as [[l r] f] eqn:E; simpl in *. intros ->. by rewrite (IH eq_refl).
Qed.

Lemma take_line_lines s :
  s ≠ "" → lines_of s = (take_line s).1.1 :: lines_of (take_line s).1.2.
Proof.
  induction s as [|c s IH]; simpl; [done|]. intros _. case_decide; [done|].
  destruct (decide (s = "")) as [->|Hs]; [done|].
  destruct (take_line s) as [[l r] f]. simpl in *. by rewrite IH.
Qed.

Lemma take_line_ends s :
  Str.ends_with (String LF "") (take_line s).1.1 = (take_line s).2.
Proof.
  induction s as [|c s IH]; simpl; [done|]. case_decide as Hc; [by subst c|].
  destruct (take_line s) as [[l r] f]. simpl in *. rewrite <-IH.
  unfold Str.ends_with. simpl. rewrite decide_False by naive_solver.
  by destruct (Str.strip_suffix _ l).
Qed.

Lemma take_line_nonempty s : s ≠ "" → (take_line s).1.1 ≠ "".
Proof. destruct s as [|c s]; [done|]. intros _. simpl. case_decide; [done|]. by destruct (take_line s) as [[??]?]. Qed.

Lemma starts_with_weaken p l t : Str.starts_with p l = true → Str.starts_with p (l +:+ t) = true.
Proof.
  rewrite !StrFacts.starts_with_spec. intros [r ->]. exists (r +:+ t). by rewrite StrFacts.app_assoc.
Qed.
Lemma starts_with_shrink p l t : Str.starts_with (l +:+ t) p = true → Str.starts_with l p = true.
Proof. rewrite !StrFacts.starts_with_spec. intros [r ->]. exists (t +:+ r). by rewrite StrFacts.app_assoc. Qed.

Lemma starts_with_cons p a l b : Str.starts_with (String a p) (String b l) = bool_decide (a = b) && Str.starts_with p l.
Proof. unfold Str.starts_with. simpl. case_decide; case_bool_decide; done. Qed.

Lemma starts_with_comparable p l t :
  Str.starts_with p (l +:+ t) = true → Str.starts_with p l = true ∨ Str.starts_with l p = true.
Proof.
  revert p; induction l as [|c l IH]; intros [|a p]; simpl; try by eauto.
  change (String.append (String c l) t) with (String c (l +:+ t)). rewrite !starts_with_cons.
  intros [Ha H]%andb_true_iff. apply bool_decide_eq_true in Ha as ->.
  rewrite bool_decide_true by done. by apply IH.
Qed.

Lemma ends_with_LF_app l s :
  s ≠ "" → Str.ends_with (String LF "") (l +:+ s) = Str.ends_with (String LF "") s.
Proof.
  intros Hs. induction l as [|c l IH]; [done|]. rewrite <-IH.
  assert (l +:+ s ≠ "") by (intros [_ ?]%StrFacts.app_eq_nil; done).
  unfold Str.ends_with. simpl. rewrite decide_False by naive_solver.
  by destruct (Str.strip_suffix _ (l +:+ s)).
Qed.

(** *** The state in the middle of a line *)
Section Console.
Context (prefix : string).

(** The part of the current line is [line]; [before] was on the console when
    it began. *)
Definition mid (before line : string) (b : Buf) : Prop :=
  if Str.starts_with TAG line then
    suppress_current_line b = true ∧ pending_output b = "" ∧ render prefix (shown b) = before
  else if Str.starts_with line TAG then
    suppress_current_line b = false ∧ pending_output b = line ∧ first_chunk b = true ∧
    render prefix (shown b) = before
  else
    suppress_current_line b = false ∧ pending_output b = "" ∧ first_chunk b = false ∧
    render prefix (shown b) = before +:+ prefix +:+ line.

Definition fresh (b : Buf) : Prop :=
  suppress_current_line b = false ∧ pending_output b = "" ∧ first_chunk b = true.

Lemma fresh_mid b : fresh b → mid (render prefix (shown b)) "" b.
Proof. intros (? & ? & ?). done. Qed.

Lemma mid_ext before line b b' :
  suppress_current_line b' = suppress_current_line b → pending_output b' = pending_output b →
  first_chunk b' = first_chunk b → shown b' = shown b → mid before line b → mid before line b'.
Proof. unfold mid. intros -> -> -> ->. done. Qed.

Lemma flush_pending_none b : pending_output b = "" → flush_pending b = b.
Proof. unfold flush_pending. by intros ->. Qed.

Lemma show_chunk_mid before line chunk b :
  mid before line b → mid before (line +:+ chunk) (show_chunk b (line +:+ chunk) chunk).
Proof.
  unfold mid at 1. unfold show_chunk. destruct (Str.starts_with TAG line) eqn:E1.
  { intros (Hs & Hp & Hr). rewrite Hs. unfold mid. rewrite starts_with_weaken by done. done. }
  destruct (Str.starts_with line TAG) eqn:E2.
  - intros (Hs & Hp & Hf & Hr). rewrite Hs. unfold mid.
    destruct (Str.starts_with TAG (line +:+ chunk)) eqn:E3; [done|].
    destruct (Str.starts_with (line +:+ chunk) TAG) eqn:E4; simpl; [by rewrite Hp|].
    unfold flush_pending. rewrite Hp, Hf. destruct line as [|c line]; simpl.
    + rewrite Hp, Hf, render_snoc, Hr. done.
    + split_and!; [done..|]. rewrite !render_snoc, Hr. simpl.
      rewrite !StrFacts.app_assoc. done.
  - intros (Hs & Hp & Hf & Hr). rewrite Hs. unfold mid.
    destruct (Str.starts_with TAG (line +:+ chunk)) eqn:E3.
    { apply starts_with_comparable in E3 as [?|?]; congruence. }
    destruct (Str.starts_with (line +:+ chunk) TAG) eqn:E4.
    { apply starts_with_shrink in E4. congruence. }
    rewrite (flush_pending_none b Hp). simpl. rewrite Hp, Hf, render_snoc, Hr. simpl.
    rewrite !StrFacts.app_assoc. done.
Qed.

Lemma TAG_no_LF l : Str.starts_with (l +:+ String LF "") TAG = false.
Proof.
  destruct (Str.starts_with (l +:+ String LF "") TAG) eqn:E; [|done].
  apply StrFacts.starts_with_spec in E as [r E].
  assert (StrFacts.lacks LF (TAG) = true) as H by reflexivity. rewrite E in H.
  unfold StrFacts.lacks in H. rewrite !StrFacts.forallb_app in H.
  apply andb_true_iff in H as [[_ H]%andb_true_iff _]. by vm_compute in H.
Qed.

Lemma take_line_found_LF s :
  (take_line s).2 = true → ∃ l, (take_line s).1.1 = l +:+ String LF "".
Proof.
  intros H. rewrite <-take_line_ends in H. by apply StrFacts.ends_with_spec in H.
Qed.

Lemma end_line_mid before line b :
  (∃ l, line = l +:+ String LF "") → mid before line b →
  fresh (end_line b) ∧ chunks (end_line b) = chunks b ∧ avail (end_line b) = avail b ∧
  render prefix (shown (end_line b)) = before +:+ show_line prefix line.
Proof.
  intros [l ->] Hm. unfold end_line, show_line, mid in *.
  assert (Str.ends_with (String LF "") (l +:+ String LF "") = true) as ->
    by (apply StrFacts.ends_with_spec; eauto).
  rewrite TAG_no_LF in Hm. destruct (Str.starts_with TAG _); simpl.
  - destruct Hm as (Hs & Hp & Hr). rewrite Hs. split_and!; [done..|]. by rewrite render_snoc, Hr.
  - destruct Hm as (Hs & Hp & Hf & Hr). rewrite Hs, (flush_pending_none b Hp).
    split_and!; [done..|]. rewrite render_snoc, Hr. by rewrite !StrFacts.app_assoc.
Qed.

Lemma eof_mid before line b :
  Str.ends_with (String LF "") line = false → line ≠ "" → mid before line b →
  pending_output (flush_pending b) = "" ∧
  render prefix (shown (flush_pending b)) = before +:+ show_line prefix line.
Proof.
  intros Hl Hne Hm. unfold show_line, mid in *. rewrite Hl, StrFacts.app_nil_r.
  destruct (Str.starts_with TAG line).
  { destruct Hm as (Hs & Hp & Hr). by rewrite flush_pending_none, StrFacts.app_nil_r. }
  destruct (Str.starts_with line TAG).
  - destruct Hm as (Hs & Hp & Hf & Hr). unfold flush_pending. rewrite Hp, Hf.
    destruct line; [done|]. simpl. rewrite render_snoc, Hr. done.
  - destruct Hm as (Hs & Hp & Hf & Hr). by rewrite flush_pending_none.
Qed.

(** *** One line *)
Definition good_chunk (c : string) : Prop := c ≠ "" ∧ ascii_only c = true.

Lemma piece_mid before line b :
  ascii_only (avail b) = true → mid before line b →
  ∃ b', piece b line = Ok (b', line +:+ (take_line (avail b)).1.1, (take_line (avail b)).2) ∧
    avail b' = (take_line (avail b)).1.2 ∧ chunks b' = chunks b ∧
    if (take_line (avail b)).2
    then (∃ l, line +:+ (take_line (avail b)).1.1 = l +:+ String LF "") ∧
         fresh b' ∧ render prefix (shown b') =
           before +:+ show_line prefix (line +:+ (take_line (avail b)).1.1)
    else mid before (line +:+ (take_line (avail b)).1.1) b'.
Proof.
  intros Ha Hm. unfold piece. pose proof (take_line_app (avail b)) as Happ.
  pose proof (take_line_found_LF (avail b)) as HLF.
  destruct (take_line (avail b)) as [[chunk rest] found] eqn:E. simpl in *.
  rewrite ascii_valid; [|rewrite Happ in Ha; unfold ascii_only in *;
    rewrite StrFacts.forallb_app in Ha; by apply andb_true_iff in Ha as [? _]].
  pose proof (show_chunk_mid before line chunk b Hm) as Hm'.
  assert (chunks (show_chunk b (line +:+ chunk) chunk) = chunks b) as Hc.
  { unfold show_chunk, flush_pending. by repeat destruct_match. }
  set (b1 := mkBuf _ rest _ _ _ _).
  assert (mid before (line +:+ chunk) b1) as Hm1 by (by eapply mid_ext; [..|exact Hm']).
  eexists. split; [done|]. destruct found; [|done].
  destruct HLF as [l ->]; [done|].
  assert (∃ l', line +:+ l +:+ String LF "" = l' +:+ String LF "") as HL
    by (exists (line +:+ l); by rewrite StrFacts.app_assoc).
  destruct (end_line_mid before _ b1 HL Hm1) as (Hf & Hc1 & Ha1 & Hr).
  rewrite Ha1, Hc1. split_and!; [done|done|done|done|done].
Qed.

(** The bytes still to come. *)
Definition rest_of (b : Buf) (cs : list string) : string := avail b +:+ concat_str cs.

(** What [read_line] leaves behind after the line [line] of [line +:+ rest]. *)
Definition line_done (b' : Buf) (before line rest : string) : Prop :=
  render prefix (shown b') = before +:+ show_line prefix line ∧
  ∃ cs', chunks b' = Ok <$> cs' ∧ Forall good_chunk cs' ∧ ascii_only (avail b') = true ∧
    rest_of b' cs' = rest ∧ (fresh b' ∨ (cs' = [] ∧ avail b' = "" ∧ pending_output b' = "")).

Lemma refill_spec cs b before line :
  Forall good_chunk cs → mid before line b →
  Str.ends_with (String LF "") line = false → line +:+ concat_str cs ≠ "" →
  let l := (take_line (concat_str cs)).1.1 in
  ∃ b', refill (Ok <$> cs) b line = Ok (b', line +:+ l) ∧
    line_done b' before (line +:+ l) (take_line (concat_str cs)).1.2.
Proof.
  revert b line; induction cs as [|c cs IH]; intros b line Hg Hm Hl Hne; simpl.
  - rewrite StrFacts.app_nil_r in *. eexists. split; [done|].
    destruct (eof_mid before line b Hl Hne Hm) as [Hp Hr]. split; [done|].
    exists []. by repeat split; auto.
  - apply Forall_cons in Hg as [[Hcn Hca] Hg]. destruct c as [|a c]; [done|].
    set (b0 := mkBuf _ _ _ _ _ _).
    destruct (piece_mid before line b0) as (b1 & -> & Ha1 & Hc1 & H1);
      [done|by eapply mid_ext; [..|exact Hm]|]. cbn [avail b0] in *. cbn [mbind outcome_bind].
    change (String.append (String a c) (concat_str cs)) with (String a c +:+ concat_str cs).
    destruct (take_line (String a c)).2 eqn:Ef.
    + rewrite take_line_app_found by done. simpl fst; simpl snd.
      destruct H1 as (_ & Hf & Hr). eexists. split; [done|]. split; [done|].
      exists cs. unfold rest_of. rewrite Ha1, Hc1. split_and!; [done|done| |done|by left].
      pose proof (take_line_app (String a c)) as Happ.
      destruct (take_line (String a c)) as [[l1 r1] f1]. simpl in *.
      rewrite Happ in Hca. unfold ascii_only in *. rewrite StrFacts.forallb_app in Hca.
      by apply andb_true_iff in Hca as [_ ?].
    + rewrite take_line_app_not_found by done.
      rewrite (take_line_not_found (String a c) Ef) in H1 |- *. simpl fst in *; simpl snd in *.
      destruct (IH b1 (line +:+ String a c)) as (b2 & Hb2 & Hd); [done|done|..].
      * rewrite ends_with_LF_app by done. pose proof (take_line_ends (String a c)) as He.
        by rewrite (take_line_not_found (String a c) Ef) in He.
      * intros E%StrFacts.app_eq_nil. destruct E as [E _]. apply StrFacts.app_eq_nil in E as [_ E]. done.
      * rewrite StrFacts.app_assoc in Hb2, Hd. exists b2. split; [exact Hb2|exact Hd].
Qed.

Lemma read_line_spec cs b :
  chunks b = Ok <$> cs → Forall good_chunk cs → ascii_only (avail b) = true → fresh b →
  rest_of b cs ≠ "" →
  let l := (take_line (rest_of b cs)).1.1 in
  ∃ b', read_line b = Ok (b', l) ∧
    line_done b' (render prefix (shown b)) l (take_line (rest_of b cs)).1.2.
Proof.
  intros Hc Hg Ha Hf Hne. unfold rest_of in *. pose proof (fresh_mid b Hf) as Hm.
  unfold read_line. destruct (avail b) as [|a s] eqn:Eav; simpl Str.is_empty; cbv iota.
  - rewrite Hc. destruct (refill_spec cs b (render prefix (shown b)) "") as (b' & Hb & Hd);
      [done..|]. exists b'. done.
  - destruct (piece_mid (render prefix (shown b)) "" b) as (b1 & -> & Ha1 & Hc1 & H1);
      [by rewrite Eav|done|]. cbn [mbind outcome_bind]. rewrite Eav in Ha1, H1 |- *.
    assert (ascii_only (avail b1) = true) as Hav1.
    { rewrite Ha1. pose proof (take_line_app (String a s)) as Happ.
      destruct (take_line (String a s)) as [[l1 r1] f1]. simpl fst; simpl snd.
      rewrite Happ in Ha. unfold ascii_only in *. rewrite StrFacts.forallb_app in Ha.
      by apply andb_true_iff in Ha as [_ ?]. }
    destruct (take_line (String a s)).2 eqn:Ef.
    + rewrite take_line_app_found by done. destruct H1 as (_ & Hf1 & Hr). eexists. split; [done|].
      split; [done|]. exists cs. unfold rest_of. rewrite Ha1, Hc1. split_and!; try done; [by rewrite <-Ha1|by left].
    + rewrite take_line_app_not_found by done. rewrite (take_line_not_found _ Ef) in H1.
      destruct (refill_spec cs b1 (render prefix (shown b)) (String a s)) as (b2 & Hb2 & Hd); [done|done| |done|].
      { pose proof (take_line_ends (String a s)) as He. by rewrite Ef, (take_line_not_found _ Ef) in He. }
      exists b2. rewrite Hc1, Hc, (take_line_not_found _ Ef). split; [exact Hb2|exact Hd].
Qed.

(** At the end of the stream nothing more is shown. *)
Lemma read_line_end b :
  chunks b = [] → avail b = "" → pending_output b = "" →
  ∃ b', read_line b = Ok (b', "") ∧ shown b' = shown b.
Proof.
  intros Hc Ha Hp. unfold read_line. rewrite Ha. simpl. rewrite Hc. simpl.
  rewrite !(flush_pending_none b Hp). eauto.
Qed.
(** *** The whole stream *)
Lemma pty_loop_spec verbose fuel cs b p :
  chunks b = Ok <$> cs → Forall good_chunk cs → ascii_only (avail b) = true →
  (fresh b ∨ (cs = [] ∧ avail b = "" ∧ pending_output b = "")) →
  String.length (rest_of b cs) < fuel →
  ∃ b', pty_loop fuel verbose b p =
      Some (b', finish (foldl (handle_line verbose) p (lines_of (rest_of b cs)))) ∧
    render prefix (shown b') =
      render prefix (shown b) +:+ concat_str (show_line prefix <$> lines_of (rest_of b cs)).
Proof.
  revert cs b p; induction fuel as [|fuel IH]; intros cs b p Hc Hg Ha Hf Hlen; [lia|].
  cbn [pty_loop]. destruct (decide (rest_of b cs = "")) as [Hr|Hr].
  - assert (∃ b', read_line b = Ok (b', "") ∧ shown b' = shown b) as (b' & -> & Hs).
    { unfold rest_of in Hr. apply StrFacts.app_eq_nil in Hr as [Hav Hcs].
      assert (cs = []) as -> by (destruct cs as [|c cs]; [done|]; simpl in Hcs;
        apply StrFacts.app_eq_nil in Hcs as [-> _]; apply Forall_cons in Hg as [[? _] _]; done).
      apply read_line_end; [done..|]. destruct Hf as [(_ & ? & _)|(_ & _ & ?)]; done. }
    rewrite Hr. simpl. exists b'. by rewrite Hs, StrFacts.app_nil_r.
  - destruct Hf as [Hf|(-> & Hav & _)]; [|by unfold rest_of in Hr; rewrite Hav in Hr].
    destruct (read_line_spec cs b Hc Hg Ha Hf Hr) as (b' & -> & Hd & cs' & Hc' & Hg' & Ha' & Hr' & Hf').
    pose proof (take_line_nonempty _ Hr) as Hne. pose proof (take_line_app (rest_of b cs)) as Happ.
    rewrite (take_line_lines _ Hr).
    destruct (take_line (rest_of b cs)) as [[l rest] f]. simpl fst in *; simpl snd in *.
    destruct l as [|a l]; [done|].
    destruct (IH cs' b' (handle_line verbose p (String a l)) Hc' Hg' Ha' Hf') as (b2 & -> & H2).
    { rewrite Hr'. rewrite Happ, StrFacts.length_app in Hlen. simpl in Hlen. lia. }
    exists b2. rewrite Hr' in *. split; [done|]. rewrite H2, Hd. rewrite fmap_cons.
    rewrite StrFacts.app_assoc. done.
Qed.

(** C8: the pieces in which the console arrives do not matter: for every
    division of an ASCII stream into reads, the thread handles exactly the
    lines of the stream, in order, and the console shows, behind the guest's
    prefix, exactly the lines that are not control messages. *)
Theorem console_chunk_independent verbose cs (Hg : Forall good_chunk cs) :
  ∃ b, spawn verbose (Ok <$> cs) =
      Some (b, finish (foldl (handle_line verbose) pty_new (lines_of (concat_str cs)))) ∧
    render prefix (shown b) = concat_str (show_line prefix <$> lines_of (concat_str cs)).
Proof.
  unfold spawn.
  destruct (pty_loop_spec verbose (input_bytes (new (Ok <$> cs)) + 1) cs (new (Ok <$> cs)) pty_new)
    as (b & Hb & Hr); [done|done|done|by left| |by exists b].
  unfold input_bytes, rest_of. simpl.
  assert (String.length (concat_str cs) ≤
    sum_list ((λ c, match c with Ok s => String.length s | _ => 0 end) <$> (Ok <$> cs))) as H; [|lia].
  clear. induction cs as [|c cs IH]; simpl; [done|]. rewrite StrFacts.length_app. unfold fmap in IH. lia.
Qed.
End Console.

Definition nl (s : string) : string := s +:+ String LF "".

Example console_chunk_independent_witness :
  let cs := ["Hello <any"; "linuxfs-" +:+ nl "" +:+ "<anyl"; nl "inuxfs-label:x>" +:+ "<any"; "b"] in
  ∃ b, spawn false (Ok <$> cs) =
      Some (b, finish (foldl (handle_line false) pty_new (lines_of (concat_str cs)))) ∧
    render "Linux: " (shown b) = concat_str (show_line "Linux: " <$> lines_of (concat_str cs)).
Proof. apply (console_chunk_independent "Linux: "). repeat constructor; done. Defined.

(** *** What is reported *)
Definition first_status (ms : list Msg) : option NfsStatus :=
  head (omap (λ m, match m with Nfs s => Some s | _ => None end) ms).

(** The value of the last message of a kind. *)
Definition last_value (tag : string) (ls : list string) : option string :=
  foldl (λ acc l, if Str.starts_with tag (tagged l) then parse_vm_tag_value (tagged l) else acc)
    None ls.

Definition values (tag : string) (ls : list string) : gset string :=
  list_to_set (omap (λ l, if Str.starts_with tag (tagged l)
                          then parse_vm_tag_value (tagged l) else None) ls).

Definition is_ready (l : string) : bool := Str.contains READY l.

(** Two tags that differ at some position do not start the same line. *)
Lemma tags_exclusive p q l :
  Str.starts_with p q = false → Str.starts_with q p = false →
  Str.starts_with p l = true → Str.starts_with q l = false.
Proof.
  intros Hpq Hqp Hp. apply not_true_iff_false. intros Hq.
  apply StrFacts.starts_with_spec in Hp as [r ->].
  apply starts_with_comparable in Hq as [H|H]; congruence.
Qed.

Record summary (pre : list string) (p : Pty) : Prop := {
  sum_label : p_fslabel p = last_value "<anylinuxfs-label" pre;
  sum_type : p_fstype p = last_value "<anylinuxfs-type" pre;
  sum_exit : p_exit_code p = last_value "<anylinuxfs-exit-code" pre ≫= parse_i32;
  sum_ro : p_changed_to_ro p =
    existsb (λ l, Str.starts_with "<anylinuxfs-mount:changed-to-ro>" (tagged l)) pre;
  sum_exports : p_exports p = values "<anylinuxfs-nfs-export" pre;
  sum_ready : nfs_ready p = false;
  sum_sent : first_status (sent p) = None;
}.

Lemma last_value_snoc tag pre l :
  last_value tag (pre ++ [l]) =
  if Str.starts_with tag (tagged l) then parse_vm_tag_value (tagged l) else last_value tag pre.
Proof. unfold last_value. by rewrite foldl_app. Qed.

Lemma values_snoc tag pre l :
  values tag (pre ++ [l]) =
  (if Str.starts_with tag (tagged l)
   then match parse_vm_tag_value (tagged l) with Some e => {[e]} | None => ∅ end else ∅) ∪ values tag pre.
Proof.
  unfold values. rewrite omap_app, list_to_set_app_L, (union_comm_L (list_to_set (omap _ pre))).
  f_equal. simpl. destruct (Str.starts_with _ _); [|done]. destruct (parse_vm_tag_value _); [|done].
  simpl. by rewrite union_empty_r_L.
Qed.

Lemma first_status_send ms m :
  match m with Nfs _ => False | _ => True end → first_status (ms ++ [m]) = first_status ms.
Proof. intros Hm. unfold first_status. rewrite omap_app. destruct m; [done|..]; simpl; by rewrite app_nil_r. Qed.

Lemma first_status_snoc ms s :
  first_status ms = None → first_status (ms ++ [Nfs s]) = Some s.
Proof. unfold first_status. rewrite omap_app. simpl. by destruct (omap _ ms). Qed.

Arguments Str.starts_with : simpl never.
Arguments tagged : simpl never.
Arguments parse_vm_tag_value : simpl never.
Arguments parse_i32 : simpl never.

(** In a branch where one tag starts the line, the others do not. *)
Ltac other_tags :=
  repeat match goal with
  | E : Str.starts_with ?p ?t = true |- context [Str.starts_with ?q ?t] =>
      rewrite (tags_exclusive p q t eq_refl eq_refl E)
  | E : Str.starts_with ?p ?t = _ |- context [Str.starts_with ?p ?t] => rewrite E
  end.

Lemma summary_same pre l p p' :
  Str.starts_with "<anylinuxfs-label" (tagged l) = false →
  Str.starts_with "<anylinuxfs-type" (tagged l) = false →
  Str.starts_with "<anylinuxfs-exit-code" (tagged l) = false →
  Str.starts_with "<anylinuxfs-mount:changed-to-ro>" (tagged l) = false →
  Str.starts_with "<anylinuxfs-nfs-export" (tagged l) = false →
  p_fslabel p' = p_fslabel p → p_fstype p' = p_fstype p → p_exit_code p' = p_exit_code p →
  p_changed_to_ro p' = p_changed_to_ro p → p_exports p' = p_exports p → nfs_ready p' = nfs_ready p →
  first_status (sent p') = first_status (sent p) →
  summary pre p → summary (pre ++ [l]) p'.
Proof.
  intros H1 H2 H3 H4 H5 E1 E2 E3 E4 E5 E6 E7 [S1 S2 S3 S4 S5 S6 S7].
  split; rewrite ?last_value_snoc, ?values_snoc, ?existsb_app, ?H1, ?H2, ?H3, ?H5;
    simpl; rewrite ?H4, ?orb_false_r, ?union_empty_l_L; congruence.
Qed.

Lemma handle_line_summary verbose pre p l :
  is_ready l = false → summary pre p → summary (pre ++ [l]) (handle_line verbose p l).
Proof.
  intros Hr Hs. unfold handle_line. unfold is_ready in Hr. rewrite Hr.
  repeat match goal with
  | |- context [if ?c then _ else _] =>
      match c with
      | Str.starts_with _ _ => destruct c eqn:?
      | negb verbose && Str.starts_with ?t ?l => destruct verbose; simpl; [|destruct (Str.starts_with t l) eqn:?]
      end
  end;
  try (eapply summary_same; [other_tags; done..|exact Hs]);
  try (eapply summary_same; [other_tags; done..| | | | | | | |exact Hs]; simpl; try done;
       by apply first_status_send).
  all: destruct Hs as [S1 S2 S3 S4 S5 S6 S7].
  all: try (split; simpl; rewrite ?last_value_snoc, ?values_snoc, ?existsb_app; simpl; other_tags;
    rewrite ?orb_false_r, ?orb_true_r, ?union_empty_l_L; congruence).
  destruct (parse_vm_tag_value (tagged l)) eqn:Hv;
    split; simpl; rewrite ?last_value_snoc, ?values_snoc, ?existsb_app; simpl; other_tags;
    rewrite ?Hv, ?orb_false_r, ?union_empty_l_L; congruence.
Qed.

Lemma handle_lines_summary verbose pre :
  Forall (λ l, is_ready l = false) pre → summary pre (foldl (handle_line verbose) pty_new pre).
Proof.
  induction pre as [|l pre IH] using rev_ind; [by split|].
  intros [Hp Hl]%Forall_app. rewrite foldl_app. simpl.
  apply handle_line_summary; [by inversion Hl|auto].
Qed.

Lemma first_status_prefix ms1 ms2 s :
  first_status ms1 = Some s → first_status (ms1 ++ ms2) = Some s.
Proof.
  unfold first_status. rewrite omap_app. by destruct (omap _ ms1).
Qed.

Lemma send_sent p m : sent (send p m) = sent p ++ [m].
Proof. done. Qed.

Lemma handle_line_sent verbose p l : ∃ ms, sent (handle_line verbose p l) = sent p ++ ms.
Proof.
  unfold handle_line.
  repeat match goal with |- context [if ?c then _ else _] => destruct c end;
    rewrite ?send_sent; try destruct (parse_vm_tag_value _); simpl; eauto using app_nil_r;
    exists []; by rewrite app_nil_r.
Qed.

Lemma finish_keeps_first verbose p post s :
  first_status (sent p) = Some s →
  first_status (sent (finish (foldl (handle_line verbose) p post))) = Some s.
Proof.
  revert p; induction post as [|l post IH]; intros p Hp; simpl.
  - unfold finish. destruct (nfs_ready p); [done|]. by apply first_status_prefix.
  - apply IH. destruct (handle_line_sent verbose p l) as [ms ->]. by apply first_status_prefix.
Qed.

(** The first status, once the server has announced itself. *)
Lemma ready_status verbose pre l post :
  Forall (λ l, is_ready l = false) pre → is_ready l = true →
  first_status (sent (finish (foldl (handle_line verbose) pty_new (pre ++ l :: post)))) =
    Some (Ready {|
      fslabel := last_value "<anylinuxfs-label" pre;
      fstype := last_value "<anylinuxfs-type" pre;
      changed_to_ro := existsb (λ l, Str.starts_with "<anylinuxfs-mount:changed-to-ro>" (tagged l)) pre;
      exports := btree_elements (values "<anylinuxfs-nfs-export" pre) |}).
Proof.
  intros Hpre Hl. rewrite foldl_app. simpl. apply finish_keeps_first.
  destruct (handle_lines_summary verbose pre Hpre) as [H1 H2 _ H4 H5 _ Hs].
  unfold handle_line at 1. unfold is_ready in Hl. rewrite Hl. cbn [sent].
  rewrite first_status_snoc by done. by rewrite H1, H2, H4, H5.
Qed.

(** C7: whatever the guest prints, the mount learns exactly one first status.
    If the server announced itself, it is ready, with the label and type last
    reported before that line, every export reported by then, sorted and
    without repetition, and the read-only flag if it was reported; otherwise
    it failed, with the exit code last reported, if that was a number. *)
Theorem nfs_status_reported verbose ls :
  (Forall (λ l, is_ready l = false) ls →
    first_status (sent (finish (foldl (handle_line verbose) pty_new ls))) =
      Some (Failed (last_value "<anylinuxfs-exit-code" ls ≫= parse_i32))) ∧
  (∀ pre l post, ls = pre ++ l :: post → Forall (λ l, is_ready l = false) pre → is_ready l = true →
    first_status (sent (finish (foldl (handle_line verbose) pty_new ls))) =
      Some (Ready {|
        fslabel := last_value "<anylinuxfs-label" pre;
        fstype := last_value "<anylinuxfs-type" pre;
        changed_to_ro := existsb (λ l, Str.starts_with "<anylinuxfs-mount:changed-to-ro>" (tagged l)) pre;
        exports := btree_elements (values "<anylinuxfs-nfs-export" pre) |})).
Proof.
  split.
  - intros Hls. destruct (handle_lines_summary verbose ls Hls) as [_ _ Hx _ _ Hn Hs].
    unfold finish. rewrite Hn, send_sent, first_status_snoc by done. by rewrite Hx.
  - intros pre l post -> Hpre Hl. by apply ready_status.
Qed.

Example nfs_status_reported_witness :
  let ls := [nl "<anylinuxfs-label:data>"; nl "booting"; nl "<anylinuxfs-nfs-export:/mnt/data/b>";
             nl "<anylinuxfs-nfs-export:/mnt/data>"; nl "<anylinuxfs-type:ext4>"] in
  first_status (sent (finish (foldl (handle_line false) pty_new
    (ls ++ nl READY :: [nl "<anylinuxfs-exit-code:3>"])))) =
    Some (Ready {| fslabel := last_value "<anylinuxfs-label" ls; fstype := last_value "<anylinuxfs-type" ls;
      changed_to_ro := existsb (λ l, Str.starts_with "<anylinuxfs-mount:changed-to-ro>" (tagged l)) ls;
      exports := btree_elements (values "<anylinuxfs-nfs-export" ls) |}).
Proof.
  intros ls. apply (proj2 (nfs_status_reported false _) ls (nl READY) [nl "<anylinuxfs-exit-code:3>"]);
    [reflexivity|repeat constructor|reflexivity].
Defined.

(** A character of several bytes that the terminal delivers in two reads
    ends the reader: although the line is valid UTF-8, nothing after it is
    handled any more and the mount is told that the server failed. *)
Lemma split_character_stops_reader verbose line rest
    (Hl : ascii_only line = true) (Hn : (take_line line).2 = false) :
  let e1 := String "195" "" in
  let e2 := String "169" "" in
  valid_utf8 (line +:+ e1 +:+ e2) = true ∧
  ∃ b, spawn verbose (Ok (line +:+ e1) :: rest) = Some (b, finish pty_new) ∧
    sent (finish pty_new) = [Nfs (Failed None)].
Proof.
  intros e1 e2.
  assert (∀ s t, ascii_only s = true → valid_utf8 (s +:+ t) = valid_utf8 t) as Hv.
  { clear. intros s t. induction s as [|c s IH]; [done|]. unfold ascii_only. simpl.
    intros [-> Hs]%andb_true_iff. by apply IH. }
  split; [by rewrite Hv|].
  unfold spawn. set (fuel := input_bytes _). rewrite Nat.add_1_r. cbn [pty_loop].
  unfold read_line. simpl Str.is_empty. cbv iota. simpl chunks.
  assert (∃ a s, line +:+ e1 = String a s) as (a & s & Has).
  { destruct line; [by eexists _, _|by eexists _, _]. }
  rewrite Has. cbn [refill]. unfold piece. cbn [avail]. rewrite <-Has.
  rewrite take_line_app_not_found by done. simpl (take_line e1).
  cbn [fst snd]. rewrite Hv by done. cbn [e1 valid_utf8]. simpl. eauto.
Qed.

Example split_character_stops_reader_witness :
  let e1 := String "195" "" in
  let e2 := String "169" "" in
  valid_utf8 ("caf" +:+ e1 +:+ e2) = true ∧
  ∃ b, spawn false (Ok ("caf" +:+ e1) :: [Ok (e2 +:+ nl "" +:+ nl READY)]) = Some (b, finish pty_new) ∧
    sent (finish pty_new) = [Nfs (Failed None)].
Proof. apply (split_character_stops_reader false "caf"); reflexivity. Defined.
