(* ===== verification/Exit.v ===== *)
(** * Exit codes ([main.rs] [to_exit_code], [run], [main]; [cmd_mount.rs]
      [wait_for_vm_status], [run_mount_parent] and the end of [run_mount_child])

    A mount has three processes: the command in the foreground (the parent),
    the session it forks (the child), and the VM the session forks.  An exit
    code travels from the guest to the shell through two waits. *)
From S2P Require Import Prelude Reader.
From Stdlib Require Import ZArith.
#[local] Open Scope Z_scope.

(** ** The operating system's encoding of a wait status *)
Definition WIFEXITED (status : Z) : bool := Z.land status 127 =? 0.
Definition WEXITSTATUS (status : Z) : Z := Z.land (Z.shiftr status 8) 255.
Definition WTERMSIG (status : Z) : Z := Z.land status 127.
Definition WIFSIGNALED (status : Z) : bool :=
  negb (Z.land status 127 =? 0) && negb (Z.land status 127 =? 127).

(** The status of a process that calls [exit(code)], and of one that a signal
    ends (with or without a core dump). *)
Definition exited (code : Z) : Z := Z.shiftl (Z.land code 255) 8.
Definition killed (signal : Z) (core : bool) : Z := Z.lor signal (if core then 128 else 0).

(** ** [main.rs] *)
Definition to_exit_code (status : Z) : Z :=
  if WIFEXITED status then WEXITSTATUS status
  else if WIFSIGNALED status then WTERMSIG status + 128
  else 1.

(** What an error of the application is downcast to. *)
Inductive AppError :=
| StatusError (status : Z)
| ClapError (code : Z)
| PrintError (broken_pipe : bool)
| OtherError (msg : string).

(** [run]: the exit code of the process; [None] is success. *)
Definition run (is_child : bool) (res : option AppError) : Z :=
  match res with
  | None => 0
  | Some (StatusError status) => if is_child then status else to_exit_code status
  | Some (ClapError code) => code
  | Some (PrintError _) => 1
  | Some (OtherError _) => 1
  end.

(** [main]: a process that returns from [main] exits with 0. *)
Definition main (is_child : bool) (res : option AppError) : Z :=
  let code := run is_child res in
  if code =? 0 then exited 0 else exited code.

(** ** [cmd_mount.rs] *)
(** The answer of waitpid(2). *)
Inductive Wait := Waited (status : Z) | WaitError (errno : Z).
Definition ECHILD : Z := 10.

Definition wait_for_vm_status (w : Wait) : outcome (option Z) :=
  match w with
  | WaitError e => if e =? ECHILD then Ok None else Err "waitpid"
  | Waited status => Ok (Some status)
  end.

(** The end of [run_mount_child] in the session process. *)
Definition session_result (w : Wait) (nfs_status : NfsStatus) : option AppError :=
  match wait_for_vm_status w with
  | Ok (Some status) =>
      let status :=
        if status =? 0 then
          match nfs_status with Failed (Some exit_code) => exit_code | _ => status end
        else status in
      if negb (status =? 0) then Some (StatusError status) else None
  | Ok None => None
  | Err e => Some (OtherError e)
  | Panic => None
  end.

(** [run_mount_parent]: the lines read from the pipe ([None]: a read error;
    the empty line, or nothing left: the end), and the answer to its wait. *)
Fixpoint run_mount_parent (reads : list (option string)) (w : Wait) : option AppError :=
  let join :=
    match w with
    | WaitError _ => Some (OtherError "Failed to wait for child process")
    | Waited status => if status =? 0 then None else Some (StatusError status)
    end in
  match reads with
  | [] => join
  | None :: _ => None
  | Some line :: reads =>
      if decide (line = "" ∨ Str.trim line = "join") then join
      else if decide (Str.trim line = "detach") then None
      else run_mount_parent reads w
  end.

(** The exit code the shell sees, when the session tells the foreground
    process to wait for it: the VM's wait, the session's result, the session's
    own wait status, the foreground process. *)
Definition mount_exit_code (vm : Wait) (nfs_status : NfsStatus) (reads : list (option string)) : Z :=
  let session := main true (session_result vm nfs_status) in
  WEXITSTATUS (main false (run_mount_parent reads (Waited session))).

(** ** Lemmas *)
(** Other lines on the pipe. *)
Definition noise (line : string) : Prop :=
  line ≠ "" ∧ Str.trim line ≠ "join" ∧ Str.trim line ≠ "detach".

Lemma parent_joins ls tail w :
  Forall noise ls → tail = [] ∨ tail = [Some ("join" +:+ String LF "")] →
  run_mount_parent ((Some <$> ls) ++ tail) w = run_mount_parent [] w.
Proof.
  intros Hn Ht. induction Hn as [|l ls (Hl & Hj & Hd) _ IH]; simpl.
  - destruct Ht as [-> | ->]; done.
  - rewrite decide_False by tauto. by rewrite decide_False.
Qed.

Lemma exited_code c : WIFEXITED (exited c) = true ∧ WEXITSTATUS (exited c) = c mod 256.
Proof.
  unfold WIFEXITED, WEXITSTATUS, exited.
  change 255 with (Z.ones 8). change 127 with (Z.ones 7). rewrite !Z.land_ones by lia.
  rewrite Z.shiftr_shiftl_l by lia. simpl Z.sub. rewrite Z.shiftl_0_r, Z.mod_mod by lia.
  split; [|done]. rewrite Z.shiftl_mul_pow2 by lia. apply Z.eqb_eq.
  replace (c mod 2 ^ 8 * 2 ^ 8) with (c mod 2 ^ 8 * 2 * 2 ^ 7) by lia. apply Z.mod_mul. lia.
Qed.

Lemma main_exited is_child res : main is_child res = exited (run is_child res).
Proof. unfold main. destruct (Z.eqb_spec (run is_child res) 0) as [->|]; done. Qed.

Lemma exited_zero c : (exited c =? 0) = (c mod 256 =? 0).
Proof.
  unfold exited. change 255 with (Z.ones 8). rewrite Z.land_ones by lia.
  rewrite Z.shiftl_mul_pow2 by lia. change (2 ^ 8) with 256.
  destruct (Z.eqb_spec (c mod 256 * 256) 0), (Z.eqb_spec (c mod 256) 0); lia.
Qed.

(** A process that is waited for passes its exit code on, modulo 256. *)
Lemma joined_code res :
  WEXITSTATUS (main false (run_mount_parent [] (Waited (main true res)))) = run true res mod 256.
Proof.
  simpl. rewrite !main_exited, exited_zero. set (c := run true _).
  destruct (Z.eqb_spec (c mod 256) 0) as [Hc|Hc]; simpl; rewrite (proj2 (exited_code _)).
  - by rewrite Hc.
  - unfold to_exit_code. destruct (exited_code c) as [-> ->]. apply Z.mod_mod. lia.
Qed.

(** The shell sees the session's own exit code, which is taken modulo 256. *)
Lemma mount_exit_code_session ls tail vm nfs_status :
  Forall noise ls → tail = [] ∨ tail = [Some ("join" +:+ String LF "")] →
  mount_exit_code vm nfs_status ((Some <$> ls) ++ tail) =
    run true (session_result vm nfs_status) mod 256.
Proof. intros Hn Ht. unfold mount_exit_code. rewrite parent_joins by done. apply joined_code. Qed.

Lemma session_result_failed status nfs_status :
  status ≠ 0 → session_result (Waited status) nfs_status = Some (StatusError status).
Proof.
  intros Hs. unfold session_result, wait_for_vm_status.
  by destruct (Z.eqb_spec status 0) as [|_]; [|destruct (Z.eqb_spec status 0)].
Qed.

Lemma killed_code s : 0 < s < 127 → to_exit_code s = s + 128.
Proof.
  intros Hs. unfold to_exit_code, WIFEXITED, WIFSIGNALED, WTERMSIG.
  assert (Z.land s 127 = s) as ->
    by (change 127 with (Z.ones 7); rewrite Z.land_ones by lia; apply Z.mod_small; lia).
  destruct (Z.eqb_spec s 0), (Z.eqb_spec s 127); (lia || done).
Qed.

(** An exit code that the guest reports reaches the shell: when the VM's
    process ends with 0 and the server did not start, the command exits with
    the reported code (modulo 256, as exit codes are), whatever else was on
    the pipe, and also if the session ends without a word. *)
Lemma guest_exit_code_reported ls tail e
    (Hn : Forall noise ls) (Ht : tail = [] ∨ tail = [Some ("join" +:+ String LF "")]) :
  mount_exit_code (Waited (exited 0)) (Failed (Some e)) ((Some <$> ls) ++ tail) = e mod 256.
Proof.
  rewrite mount_exit_code_session by done. unfold session_result, wait_for_vm_status.
  change (exited 0 =? 0) with true. cbv beta iota. by destruct (Z.eqb_spec e 0) as [->|He].
Qed.

Example guest_exit_code_reported_witness :
  mount_exit_code (Waited (exited 0)) (Failed (Some 77))
    ((Some <$> ["hello"]) ++ [Some ("join" +:+ String LF "")]) = 77 mod 256.
Proof.
  apply guest_exit_code_reported; [|by right].
  repeat constructor; vm_compute; discriminate.
Defined.

(** The exit code of the VM's own process is lost: the session exits
    with the raw wait status, of which the system keeps the low byte.  A VM
    that exits with any code, such as the 1 of a microVM that could not be
    started, makes the whole command exit with 0; one that dies of a signal
    makes it exit with the number of the signal, and not with what [to_exit_code] gives for its status. *)
Lemma vm_exit_code_lost ls tail nfs_status
    (Hn : Forall noise ls) (Ht : tail = [] ∨ tail = [Some ("join" +:+ String LF "")]) :
  (∀ code, 0 < code < 256 →
    to_exit_code (exited code) = code ∧
    mount_exit_code (Waited (exited code)) nfs_status ((Some <$> ls) ++ tail) = 0) ∧
  (∀ signal, 0 < signal < 127 →
    to_exit_code (killed signal false) = signal + 128 ∧
    mount_exit_code (Waited (killed signal false)) nfs_status ((Some <$> ls) ++ tail) = signal).
Proof.
  split.
  - intros code Hc. split.
    + unfold to_exit_code. destruct (exited_code code) as [-> ->]. apply Z.mod_small. lia.
    + rewrite mount_exit_code_session, session_result_failed by
        (done || intros E; apply Z.eqb_eq in E; rewrite exited_zero, Z.mod_small in E by lia; lia).
      cbv [run]. unfold exited. rewrite Z.shiftl_mul_pow2 by lia. apply Z.mod_mul. lia.
  - intros s Hs. unfold killed. rewrite Z.lor_0_r. split; [by apply killed_code|].
    rewrite mount_exit_code_session, session_result_failed by (done || lia).
    apply Z.mod_small. lia.
Qed.

Example vm_exit_code_lost_witness :
  (∀ code, 0 < code < 256 →
    to_exit_code (exited code) = code ∧
    mount_exit_code (Waited (exited code)) (Failed None) ((Some <$> []) ++ []) = 0) ∧
  (∀ signal, 0 < signal < 127 →
    to_exit_code (killed signal false) = signal + 128 ∧
    mount_exit_code (Waited (killed signal false)) (Failed None) ((Some <$> []) ++ []) = signal).
Proof. apply vm_exit_code_lost; [constructor|by left]. Defined.
