(* ===== verification/Instance.v ===== *)
(** * Instances and their share ([api.rs] [RuntimeInfo]; [cmd_mount.rs]
      [NfsShareSetup], [validated_mount_point], the choice of instances in
      [run_unmount] and [main.rs] [run_stop]; mount options)

    The session mounts the NFS share of its VM and later commands have to
    recognise that mount in the mount table from what the session tells. *)
From S2P Require Import Prelude Common Paths Fsutil DevInfo Settings.
From Stdlib Require Import Ascii.

Record RuntimeInfo := mkRuntimeInfo {
  mount_config : MountConfig;
  dev_info : DevInfo;
  session_pgid : Z;
  vmm_pid : Z;
  net_helper_pid : Z;
  vm_host : string;
  vm_native_ip : option N;
  mount_point : option string;
}.

(** ** Mount options *)
Definition append_mount_option (options : option string) (opt : string) : option string :=
  let options := default "" options in
  Some ((if negb (Str.is_empty options) then options +:+ "," else options) +:+ opt).

Definition has_mount_option (options : option string) (key : string) : bool :=
  match options with
  | Some options =>
      existsb (λ opt, bool_decide (opt = key) || Str.starts_with (key +:+ "=") opt)
        (Str.split "," options)
  | None => false
  end.

Definition append_mount_option_if_missing (options : option string) (opt : string) : option string :=
  let key := match Str.split_once "=" opt with Some (key, _) => key | None => opt end in
  if has_mount_option options key then options else append_mount_option options opt.

Definition is_read_only_set (mount_options : option string) : bool :=
  match mount_options with
  | Some options => existsb (λ opt, bool_decide (opt = "ro")) (Str.split "," options)
  | None => false
  end.

(** The options the session adds for the file system. *)
Definition WINDOWS_FS_TYPES : list string := ["ntfs"; "exfat"; "BitLocker"].

(** ** [NfsShareSetup] *)
Record NfsShareSetup := mkShare { share_path : string; nfs_opts : NfsOptions }.

Definition share_name (config : MountConfig) (mnt_dev_info : DevInfo) : string :=
  match custom_mount_name config with
  | Some name => name
  | None => auto_mount_name mnt_dev_info
  end.

Definition export_path (config : MountConfig) (mnt_dev_info : DevInfo) : string :=
  match get_action config with
  | Some action =>
      if negb (Str.is_empty (override_nfs_export action)) then override_nfs_export action
      else "/mnt/" +:+ share_name config mnt_dev_info
  | None => "/mnt/" +:+ share_name config mnt_dev_info
  end.

Definition NfsShareSetup_new (os : TargetOS) (config : MountConfig) (mnt_dev_info : DevInfo)
    (shared_volume : bool) : NfsShareSetup :=
  let opts := NfsOptions_default os in
  let opts := if shared_volume then delete (NOLOCK_KEY os) opts else opts in
  let opts := foldl (λ (m : NfsOptions) s,
      match Str.split_once "=" s with
      | Some (key, value) => <[key := value]> m
      | None => <[s := ""]> m
      end) opts (nfs_options config) in
  {| share_path := export_path config mnt_dev_info; nfs_opts := opts |}.

(** ** The default mount point *)
Definition MOUNT_BASE (os : TargetOS) : string := match os with MacOS => "Volumes" | LinuxHost => "mnt" end.

Definition volume_base_dir (os : TargetOS) (config : MountConfig) : string :=
  path.join (match sudo_uid (privilege (common config)) with
             | Some _ => "/"
             | None => home_dir (Settings.paths (common config))
             end) (MOUNT_BASE os).

Definition mount_name (sh : NfsShareSetup) : string :=
  let name := last_piece "/" (share_path sh) in if Str.is_empty name then "root" else name.

Definition i32_max : N := 2147483647.

Definition numbered (base name : string) (i : nat) : string :=
  match i with
  | O => path.join base name
  | S _ => path.join base (name +:+ "-" +:+ Str.of_nat i)
  end.

(** [while mount_path.exists()]; [counter] is an [i32]. *)
Fixpoint mount_path_loop (fuel : nat) (exists_ : gset string) (base name mount_path : string)
    (counter : N) : option (outcome string) :=
  match fuel with
  | O => None
  | S fuel =>
      if decide (mount_path ∈ exists_) then
        if decide (counter = i32_max) then Some Panic
        else mount_path_loop fuel exists_ base name
               (path.join base (name +:+ "-" +:+ Str.of_N counter)) (counter + 1)
      else Some (Ok mount_path)
  end.

Definition default_mount_path (exists_ : gset string) (base name : string) : option (outcome string) :=
  mount_path_loop (S (size exists_)) exists_ base name (path.join base name) 1.

(** ** [NfsShareSetup::mount] *)
Definition quote : string := String (Ascii.ascii_of_nat 34) "".
Definition mount_script (vm_host : string) (sh : NfsShareSetup) (mount_point : string) : string :=
  "mount -t nfs -o " +:+ to_list (nfs_opts sh) +:+ " " +:+ quote +:+ vm_host +:+ ":" +:+
  share_path sh +:+ quote +:+ " " +:+ quote +:+ mount_point +:+ quote.

(** A command that is run: as which user, and the script. *)
Record Command := mkCommand { cmd_ids : option (N * N); cmd_script : string }.

Section Mount.
Context (os : TargetOS).
(** The exit code of a command, [None] for a signal; what exists; the calls
    that make the mount point. *)
Context (status : Command → option Z) (exists_ : gset string).
Context (create_dir_all : string → outcome unit) (chown_to_invoker : string → N → N → outcome unit).

Definition success (s : option Z) : bool := bool_decide (s = Some 0%Z).

Definition mount_point_for (config : MountConfig) (sh : NfsShareSetup) : outcome string :=
  match custom_mount_point config with
  | Some mount_point => Ok mount_point
  | None =>
      match default_mount_path exists_ (volume_base_dir os config) (mount_name sh) with
      | Some r =>
          mount_path ← r;
          _ ← with_context ("Failed to create mount point directory " +:+ mount_path) (create_dir_all mount_path);
          _ ← chown_to_invoker mount_path (invoker_uid (privilege (common config)))
                (invoker_gid (privilege (common config)));
          Ok mount_path
      | None => Panic
      end
  end.

(** The commands that run, in order, and the result. *)
Definition mount (config : MountConfig) (vm_host : string) (sh : NfsShareSetup) :
    outcome (list Command * outcome string) :=
  mount_point ← mount_point_for config sh;
  let script := mount_script vm_host sh mount_point in
  let as_invoker := mkCommand (Some (invoker_uid (privilege (common config)),
                                     invoker_gid (privilege (common config)))) script in
  let as_self := mkCommand None script in
  Ok (if success (status as_invoker) then ([as_invoker], Ok mount_point)
      else if success (status as_self) then ([as_invoker; as_self], Ok mount_point)
      else ([as_invoker; as_self],
            Err ("failed with exit code " +:+
                 match status as_self with
                 | Some c => if (c <? 0)%Z then "-" +:+ Str.of_N (Z.to_N (- c)) else Str.of_N (Z.to_N c)
                 | None => "unknown"
                 end))).
End Mount.

(** ** [validated_mount_point] *)
Inductive MountStatus := NotYet | Mounted (mount_point : string) | NoLonger.

Definition validated_mount_point (statfs : string → outcome MountEntry) (rt_info : RuntimeInfo) :
    MountStatus :=
  match mount_point rt_info with
  | None => NotYet
  | Some mp =>
      let expected := vm_host rt_info +:+ ":" +:+ export_path (mount_config rt_info) (dev_info rt_info) in
      match mounted_from statfs mp with
      | Ok mount_dev => if path.eqb mount_dev expected then Mounted mp else NoLonger
      | _ => NoLonger
      end
  end.

(** Which instance a path on the command line means. *)
Definition matches (target : string) (rt_info : RuntimeInfo) : bool :=
  let disk := disk_path (mount_config rt_info) in
  path.eqb target disk
  || match mount_point rt_info with Some mp => path.eqb target mp | None => false end
  || existsb (λ p, bool_decide (p = target)) (Str.split ":" disk).

(** ** What the session does to the runtime information *)
Definition with_mount (c : MountConfig) (ro : bool) (opts : option string) : MountConfig := {|
  disk_path := disk_path c; read_only := ro; mount_options := opts; nfs_options := nfs_options c;
  nfs_export_opts := nfs_export_opts c; ignore_permissions := ignore_permissions c;
  allow_remount := allow_remount c; vm_hostname := vm_hostname c;
  custom_mount_point := custom_mount_point c; fs_driver := fs_driver c;
  assemble_raid := assemble_raid c; bind_addr := bind_addr c; verbose := verbose c;
  open_finder := open_finder c; kernel_page_size := kernel_page_size c; common := common c;
  custom_action := custom_action c; key_file := key_file c |}.

Definition with_config (rt : RuntimeInfo) (c : MountConfig) : RuntimeInfo :=
  mkRuntimeInfo c (dev_info rt) (session_pgid rt) (vmm_pid rt) (net_helper_pid rt) (vm_host rt)
    (vm_native_ip rt) (mount_point rt).
Definition with_dev_info (rt : RuntimeInfo) (d : DevInfo) : RuntimeInfo :=
  mkRuntimeInfo (mount_config rt) d (session_pgid rt) (vmm_pid rt) (net_helper_pid rt) (vm_host rt)
    (vm_native_ip rt) (mount_point rt).
Definition with_mount_point (rt : RuntimeInfo) (mp : option string) : RuntimeInfo :=
  mkRuntimeInfo (mount_config rt) (dev_info rt) (session_pgid rt) (vmm_pid rt) (net_helper_pid rt)
    (vm_host rt) (vm_native_ip rt) mp.

(** The server fell back to a read-only mount. *)
Definition changed_to_read_only (rt : RuntimeInfo) : RuntimeInfo :=
  with_config rt (with_mount (mount_config rt) true
    (Some match mount_options (mount_config rt) with Some opts => "ro," +:+ opts | None => "ro" end)).

(** What the server reported: label, type and read-only flag, for the
    session's own copy of the device and for the runtime information. *)
Definition apply_report (label fs_type : option string) (changed_to_ro : bool)
    (mnt_dev_info : DevInfo) (rt : RuntimeInfo) : DevInfo * RuntimeInfo :=
  let '(d, rt) := match label with
    | Some l => (set_label mnt_dev_info l, with_dev_info rt (set_label (dev_info rt) l))
    | None => (mnt_dev_info, rt)
    end in
  let '(d, rt) := match fs_type with
    | Some t => (set_fs_type d t, with_dev_info rt (set_fs_type (dev_info rt) t))
    | None => (d, rt)
    end in
  (d, if changed_to_ro then changed_to_read_only rt else rt).

(** ** Lemmas *)
Lemma path_eqb_refl p : path.eqb p p = true.
Proof. unfold path.eqb. by apply bool_decide_eq_true. Qed.

Lemma join_inj base p q :
  path.is_absolute p = false → path.is_absolute q = false →
  path.join base p = path.join base q → p = q.
Proof.
  intros Hp Hq. unfold path.join. rewrite Hp, Hq. case_decide; [done|].
  destruct (Str.ends_with "/" base).
  - apply StrFacts.app_inj_l.
  - intros E. apply StrFacts.app_inj_l in E. by injection E.
Qed.

Lemma mount_name_relative sh : mount_name sh ≠ "" ∧ StrFacts.lacks "/" (mount_name sh) = true.
Proof.
  unfold mount_name, last_piece. destruct (Str.is_empty _) eqn:E; [done|]. split.
  - intros H. by rewrite H in E.
  - pose proof (StrFacts.split_pieces_lack "/" (share_path sh)) as H.
    destruct (last (Str.split "/" (share_path sh))) as [w|] eqn:Hw; [|done]. simpl.
    apply last_Some_elem_of in Hw. rewrite Forall_forall in H. by apply H.
Qed.

Lemma lacks_relative s t : s ≠ "" → StrFacts.lacks "/" s = true → path.is_absolute (s +:+ t) = false.
Proof.
  destruct s as [|c s]; [done|]. intros _ [Hc _]%StrFacts.lacks_cons.
  change (String c s +:+ t) with (String c (s +:+ t)).
  unfold path.is_absolute, Str.starts_with. simpl. by rewrite decide_False.
Qed.

Section MountPath.
Context (exists_ : gset string) (base name : string).
Context (Hname : name ≠ "") (Hslash : StrFacts.lacks "/" name = true).

Lemma numbered_inj i j : numbered base name i = numbered base name j → i = j.
Proof.
  pose proof (lacks_relative name) as Hrel.
  assert (path.is_absolute name = false) as H0 by (rewrite <-(StrFacts.app_nil_r name); by apply Hrel).
  destruct i as [|i], j as [|j]; simpl; [done|..]; intros E; apply join_inj in E; try by auto.
  - rewrite <-(StrFacts.app_nil_r name) in E at 1. by apply StrFacts.app_inj_l in E.
  - rewrite <-(StrFacts.app_nil_r name) in E at 2. by apply StrFacts.app_inj_l in E.
  - apply StrFacts.app_inj_l in E. injection E as E. apply StrFacts.of_N_inj in E. lia.
Qed.

Lemma mount_path_loop_spec fuel k :
  (N.of_nat (k + fuel) < i32_max)%N → (∀ j, j < k → numbered base name j ∈ exists_) →
  (∃ i, k ≤ i < k + fuel ∧ (numbered base name i) ∉ exists_) →
  ∃ i, mount_path_loop fuel exists_ base name (numbered base name k) (N.of_nat (S k)) =
      Some (Ok (numbered base name i)) ∧
    (numbered base name i ∉ exists_) ∧ ∀ j, j < i → numbered base name j ∈ exists_.
Proof.
  revert k; induction fuel as [|fuel IH]; intros k Hmax Hlt (i & Hi & Hfree); [lia|].
  cbn [mount_path_loop]. case_decide as Hin; [|by exists k].
  rewrite decide_False by (unfold i32_max in *; lia).
  replace (N.of_nat (S k) + 1)%N with (N.of_nat (S (S k))) by lia.
  apply (IH (S k)); [by rewrite Nat.add_succ_comm| |].
  - intros j Hj. destruct (decide (j = k)) as [->|]; [done|]. apply Hlt. lia.
  - exists i. split; [|done]. destruct (decide (i = k)) as [->|]; [done|lia].
Qed.
End MountPath.

(** The default mount point never clashes with a file that exists: the
    search ends without a panic, for as many files as fit the counter, with
    the first free one of <base>/<name>, <base>/<name>-1, and so on. *)
Lemma default_mount_path_free exists_ base sh (Hs : (N.of_nat (size exists_) + 1 < i32_max)%N) :
  let name := mount_name sh in
  ∃ i, default_mount_path exists_ base name = Some (Ok (numbered base name i)) ∧
    (numbered base name i ∉ exists_) ∧ ∀ j, j < i → numbered base name j ∈ exists_.
Proof.
  intros name. destruct (mount_name_relative sh) as [Hn Hl]. fold name in Hn, Hl.
  destruct (fresh_candidate (numbered base name) exists_) as (i & Hi & Hfree).
  { intros i j _ _. by apply numbered_inj. }
  apply (mount_path_loop_spec exists_ base name (S (size exists_)) 0);
    [unfold i32_max in *; lia|lia|]. exists i. split; [lia|done].
Qed.

Example default_mount_path_free_witness :
  let sh := mkShare "/mnt/data" ∅ in
  let taken : gset string := {["/Volumes/data"; "/Volumes/data-1"]} in
  ∃ i, default_mount_path taken "/Volumes" (mount_name sh) = Some (Ok (numbered "/Volumes" (mount_name sh) i)) ∧
    (numbered "/Volumes" (mount_name sh) i ∉ taken) ∧
    ∀ j, j < i → numbered "/Volumes" (mount_name sh) j ∈ taken.
Proof. apply (default_mount_path_free {["/Volumes/data"; "/Volumes/data-1"]}). reflexivity. Defined.


Definition sample_instance : RuntimeInfo := {|
  mount_config := Settings.Witness.sample_mount_config "disk7s1";
  dev_info := DevInfo_default; session_pgid := 100; vmm_pid := 101; net_helper_pid := 99;
  vm_host := "disk7s1.local"; vm_native_ip := None; mount_point := None |}.

