(* ===== verification/Setup.v ===== *)
(** * From the configuration to the VM ([cmd_mount.rs] [run_mount_child],
      [prepare_passphrase_callbacks], [prepare_vm_environment]; [vm.rs]
      [VMOpts], [setup_vm], [start_vmproxy])

    What a session computes before it starts the VM: the image, the mount
    options, the memory, the passphrase prompts, the disks and kernel command
    line of the VM and the arguments of the agent inside it. *)
From S2P Require Import Prelude Common EnvVars Paths Fsutil Settings DevInfo Instance.
From Stdlib Require Import Ascii.

(** ** [VMOpts] *)
Record VMOpts := mkVMOpts {
  add_disks_ro : bool;
  read_only_disk_prefix_len : nat;
  root_device : option string;
  read_only_root : bool;
  legacy_console : bool;
}.
Definition VMOpts_new : VMOpts := mkVMOpts false 0 None true false.

(** ** The image and the guest's system *)
Definition default_linux_image_source (prefs : Prefs) : ImageSource :=
  match all_images prefs !! default_image prefs Linux with
  | Some src => src
  | None => ImageSource_default
  end.

(** FreeBSD is used when the file system prefers it and no custom action asks
    for another system. *)
Definition wants_freebsd (config : MountConfig) (mnt_dev_info : DevInfo) : bool :=
  match DevInfo.fs_type mnt_dev_info with
  | Some fs =>
      bool_decide (fs_preferred_os (common config) fs = FreeBSD) &&
      bool_decide (default FreeBSD (a ← get_action config; required_os a) = FreeBSD)
  | None => false
  end.

Record Image := mkImage {
  i_config : MountConfig; i_dev_info : list DevInfo; i_mnt_dev_info : DevInfo;
  i_opts : VMOpts; i_src : ImageSource }.

Section Image.
Context (pv : string → bool → outcome DevInfo).

Definition select_image (config : MountConfig) (dev_info : list DevInfo) (mnt_dev_info : DevInfo) :
    outcome Image :=
  let opts := mkVMOpts (read_only config) 0 None (negb (rw_rootfs (common config))) false in
  if wants_freebsd config mnt_dev_info then
    let bsd_image := default_image (preferences (common config)) FreeBSD in
    src ← ok_or ("FreeBSD image " +:+ bsd_image +:+ " not found")
            (all_images (preferences (common config)) !! bsd_image);
    let mnt_dev_info := set_vm_disk mnt_dev_info "/dev/vtbd1" in
    let config := with_image_source config src in
    let freebsd_base_path := path.join (profile_path (Settings.paths (common config))) (base_dir src) in
    let root_disk_path := path.join freebsd_base_path "freebsd-microvm-disk.img" in
    let opts := mkVMOpts (add_disks_ro opts) (if rw_rootfs (common config) then 0 else 1)
                  (Some "ufs:/dev/gpt/rootfs") (read_only_root opts) true in
    root_disk ← pv root_disk_path true;
    Ok (mkImage config (root_disk :: dev_info) mnt_dev_info opts src)
  else
    Ok (mkImage config dev_info mnt_dev_info opts
          (default_linux_image_source (preferences (common config)))).
End Image.

(** ** Mount options for the file system *)
Definition add_fs_options (uid gid : N) (mnt_dev_info : DevInfo) (options : option string) : option string :=
  let options :=
    if bool_decide (get_fs_driver mnt_dev_info = Some "ntfs3")
    then append_mount_option_if_missing options "iocharset=utf8" else options in
  match DevInfo.fs_type mnt_dev_info with
  | Some fs_type =>
      if bool_decide (fs_type ∈ WINDOWS_FS_TYPES) then
        let options := append_mount_option_if_missing options ("uid=" +:+ Str.of_N uid) in
        append_mount_option_if_missing options ("gid=" +:+ Str.of_N gid)
      else options
  | None => options
  end.

(** ** Passphrases *)
Definition ensure_enough_ram_for_luks (prefs : Prefs) : Prefs :=
  if decide (krun_ram_size_mib prefs < 2560)%N
  then let u := prefs.2 in
       (prefs.1, set_krun u {| krun_log_level := krun_log_level (krun u); krun_vcpus := krun_vcpus (krun u);
                               krun_ram := Some 2560%N |}
                   (log_level_numeric u) (num_vcpus u) (ram_size_mib u))
  else prefs.

Definition needs_passphrase (di : DevInfo) : bool :=
  match DevInfo.fs_type di with Some t => is_encrypted_fs t | None => false end.

(** One device; the prompts are the disks they ask for, [None] for a shared
    prompt. *)
Definition passphrase_step (ask_for_each : bool) (acc : Prefs * list (option string) * bool) (di : DevInfo) :
    Prefs * list (option string) * bool :=
  let '(prefs, callbacks, needed) := acc in
  if needs_passphrase di then
    (if bool_decide (DevInfo.fs_type di = Some "crypto_LUKS") then ensure_enough_ram_for_luks prefs else prefs,
     if ask_for_each then callbacks ++ [Some (dev_path di)] else callbacks, true)
  else acc.

Definition prepare_passphrase_callbacks (dev_info : list DevInfo) (config : MountConfig)
    (env_has_passphrase : bool) : Prefs * list (option string) :=
  let prefs := preferences (common config) in
  if negb env_has_passphrase && bool_decide (key_file config = None) then
    let ask_for_each := match cfg_passphrase_config (common config) with AskForEach => true | OneForAll => false end in
    let '(prefs, callbacks, needed) :=
      foldl (passphrase_step ask_for_each) (prefs, [], false) dev_info in
    (prefs, if needed && negb ask_for_each then callbacks ++ [None] else callbacks)
  else (prefs, []).

(** [prepare_vm_environment] *)
Definition prepare_vm_environment (vars_os : list (string * string))
    (prepare_environment : CustomActionConfig → list string → outcome (list string)) (config : MountConfig) :
    outcome (list string * bool) :=
  let pwds := filter (λ nv, Str.starts_with "ALFS_PASSPHRASE" nv.1 = true) vars_os in
  let env_vars := (λ nv : string * string, nv.1 +:+ "=" +:+ nv.2) <$> pwds in
  let env_has_passphrase := negb (bool_decide (pwds = [])) in
  match get_action config with
  | Some action => env_vars ← prepare_environment action env_vars; Ok (env_vars, env_has_passphrase)
  | None => Ok (env_vars, env_has_passphrase)
  end.

(** ** Disks *)
Definition letters : list ascii :=
  ["a"; "b"; "c"; "d"; "e"; "f"; "g"; "h"; "i"; "j"; "k"; "l"; "m"; "n"; "o"; "p"; "q"; "r"; "s";
   "t"; "u"; "v"; "w"; "x"; "y"; "z"]%char.

Definition vd (letter : ascii) : string := "/dev/vd" +:+ String letter "".

Definition to_decrypt (dev_info : list DevInfo) : list string :=
  omap (λ dl : DevInfo * ascii, if needs_passphrase dl.1 then Some (vd dl.2) else None)
    (zip dev_info letters).

(** A disk of the VM: its identifier, the host's file, format and mode. *)
Record VmDisk := mkVmDisk { disk_id : string; disk_file : string; disk_fmt : N; disk_ro : bool }.

Definition vm_disks (opts : VMOpts) (dev_info : list DevInfo) : list VmDisk :=
  imap (λ i di, mkVmDisk ("data" +:+ Str.of_nat i) (dev_rpath di) (as_krun_id (disk_format di))
                  (add_disks_ro opts || bool_decide (i < read_only_disk_prefix_len opts))) dev_info.

Definition kernel_cmdline (os : OSType) (opts : VMOpts) : outcome string :=
  match os with
  | Linux =>
      Ok ("reboot=k panic=-1 panic_print=0 console=hvc0 rootfstype=virtiofs " +:+
          (if read_only_root opts then "ro" else "rw") +:+ " quiet no-kvmapf init=/init.krun")
  | FreeBSD =>
      match root_device opts with
      | Some root_device =>
          Ok ("FreeBSD:vfs.root.mountfrom=" +:+ root_device +:+ " -mq init_path=/init-freebsd")
      | None => Err "root device must be specified for FreeBSD"
      end
  end.

(** ** The arguments of [vmproxy] *)
Section Args.
(** The encoding of a custom action ([None]: the panic of [expect]) and the
    order in which the addresses, a [HashSet], are joined. *)
Context (percent_encode : CustomActionConfig → option string) (iter_set : gset string → list string).

Definition opt_arg (flag : string) (v : option string) : list string :=
  match v with Some v => [flag; v] | None => [] end.
Definition flag (f : string) (b : bool) : list string := if b then [f] else [].

Definition vmproxy_args (vm_native_cidr usable_loopback_ip : option string) (rpcbind_running : bool)
    (bind_addr_text : option string) (config : MountConfig) (dev_info : DevInfo) (multi_device : bool)
    (to_decrypt : list string) (key_file_args : list string) : outcome (list string) :=
  let to_decrypt_arg := if decide (to_decrypt = []) then None else Some (Str.join "," to_decrypt) in
  let reuse_passphrase :=
    match cfg_passphrase_config (common config) with OneForAll => true | AskForEach => false end in
  let vmproxy := match os (kernel (common config)) with Linux => "/vmproxy" | FreeBSD => "/vmproxy-bsd" end in
  let bind_addrs : gset string :=
    list_to_set (option_list bind_addr_text ++ option_list usable_loopback_ip) in
  action ← match get_action config with
           | Some a => match percent_encode a with Some e => Ok ["-a"; e] | None => Panic end
           | None => Ok []
           end;
  Ok ([vmproxy; "mount"; vm_path dev_info; share_name config dev_info; "-b";
       Str.join "," (iter_set bind_addrs)] ++
      flag "-c" (bool_decide (is_Some (custom_mount_point config))) ++
      opt_arg "-n" vm_native_cidr ++
      ["-t"; default "auto" (DevInfo.fs_type dev_info)] ++
      flag "--assemble-raid" (assemble_raid config) ++
      flag "--metadata-probed" (metadata_probed dev_info) ++
      opt_arg "--fs-driver" (fs_driver config) ++
      opt_arg "-o" (mount_options config) ++
      opt_arg "-d" to_decrypt_arg ++
      action ++
      opt_arg "--nfs-export-opts" (nfs_export_opts config) ++
      flag "-m" multi_device ++ flag "-r" reuse_passphrase ++ flag "-h" rpcbind_running ++
      flag "-v" (verbose config) ++ flag "--ignore-permissions" (ignore_permissions config) ++
      key_file_args).
End Args.

(** ** Facts about mount options *)
(** The options of an option string. *)
Definition opts_list (o : option string) : list string :=
  match o with
  | Some s => if decide (s = "") then [] else Str.split "," s
  | None => []
  end.

Definition opt_key (x : string) : string :=
  match Str.split_once "=" x with Some (key, _) => key | None => x end.
Definition is_opt (key x : string) : bool := bool_decide (x = key) || Str.starts_with (key +:+ "=") x.

Lemma opts_list_append o x :
  x ≠ "" → StrFacts.lacks "," x = true → opts_list (append_mount_option o x) = opts_list o ++ [x].
Proof.
  intros Hx Hl. unfold append_mount_option, opts_list.
  destruct (default "" o) as [|c s] eqn:E; cbn [Str.is_empty negb].
  - assert (match o with Some s => if decide (s = "") then [] else Str.split "," s | None => [] end = []) as ->.
    { destruct o as [s|]; [|done]. simpl in E. by subst s. }
    rewrite decide_False by done. by rewrite StrFacts.split_lacks.
  - destruct o as [s'|]; [|done]. simpl in E. subst s'.
    rewrite !decide_False by done. rewrite StrFacts.app_assoc.
    change ("," +:+ x) with (String "," x). rewrite StrFacts.split_app_sep.
    by rewrite (StrFacts.split_lacks "," x).
Qed.

Lemma has_opts_list o key : key ≠ "" → has_mount_option o key = existsb (is_opt key) (opts_list o).
Proof.
  intros Hk. destruct o as [s|]; [|done]. simpl. case_decide as Hs; [subst s|done]. simpl.
  rewrite bool_decide_false by done. simpl. destruct key; [done|]. done.
Qed.

Lemma is_opt_key x : is_opt (opt_key x) x = true.
Proof.
  unfold is_opt, opt_key. destruct (Str.split_once "=" x) as [[k v]|] eqn:E.
  - apply StrFacts.split_once_Some in E as [_ ->]. rewrite orb_true_iff. right.
    apply StrFacts.starts_with_spec. exists v. by rewrite StrFacts.app_assoc.
  - by rewrite bool_decide_true.
Qed.

(** A well-formed option: not empty, no comma, a key. *)
Definition option_ok (x : string) : Prop := x ≠ "" ∧ StrFacts.lacks "," x = true ∧ opt_key x ≠ "".

Lemma append_if_missing_list o x :
  option_ok x →
  opts_list (append_mount_option_if_missing o x) =
    opts_list o ++ (if has_mount_option o (opt_key x) then [] else [x]).
Proof.
  intros (Hx & Hl & Hk). unfold append_mount_option_if_missing. fold (opt_key x).
  destruct (has_mount_option o (opt_key x)); [by rewrite app_nil_r|by apply opts_list_append].
Qed.

Lemma has_append_if_missing o x key :
  option_ok x → key ≠ "" → is_opt key x = false →
  has_mount_option (append_mount_option_if_missing o x) key = has_mount_option o key.
Proof.
  intros Hx Hk Hn. rewrite !has_opts_list, append_if_missing_list, existsb_app by done.
  destruct (has_mount_option o (opt_key x)); simpl; by rewrite ?Hn, ?orb_false_r.
Qed.

Lemma numeric_option_ok key n :
  key ≠ "" → StrFacts.lacks "," key = true → StrFacts.lacks "=" key = true →
  option_ok (key +:+ "=" +:+ Str.of_N n) ∧ opt_key (key +:+ "=" +:+ Str.of_N n) = key.
Proof.
  intros Hk Hc He.
  assert (opt_key (key +:+ "=" +:+ Str.of_N n) = key) as Hkey.
  { unfold opt_key. change ("=" +:+ Str.of_N n) with (String "=" (Str.of_N n)).
    assert (Str.split_once "=" (key +:+ String "=" (Str.of_N n)) = Some (key, Str.of_N n)) as ->; [|done].
    by apply StrFacts.split_once_Some. }
  split; [|done]. split_and!; [by intros [? _]%StrFacts.app_eq_nil| |congruence].
  rewrite !StrFacts.lacks_app. split_and!; [done|done|].
  eapply StrFacts.forallb_impl; [|apply StrFacts.digits_of_N].
  intros c Hd. apply bool_decide_eq_true. by intros ->.
Qed.

(** The options wanted for a device. *)
Definition wanted_options (uid gid : N) (d : DevInfo) : list string :=
  (if bool_decide (get_fs_driver d = Some "ntfs3") then ["iocharset=utf8"] else []) ++
  match DevInfo.fs_type d with
  | Some t => if bool_decide (t ∈ WINDOWS_FS_TYPES)
              then ["uid=" +:+ Str.of_N uid; "gid=" +:+ Str.of_N gid] else []
  | None => []
  end.

Lemma keep_missing (b : bool) (x : string) :
  (if b then [] else [x]) = List.filter (λ _, negb b) [x].
Proof. by destruct b. Qed.

(** The options added for a file system never override the user's: the
    option list is the user's, unchanged and in order, followed by exactly
    those of the wanted options (the character set of ntfs3, the owner of
    Windows file systems) whose key the user did not give. *)
Lemma fs_options_respect_user uid gid d options :
  opts_list (add_fs_options uid gid d options) =
    opts_list options ++
    List.filter (λ x, negb (has_mount_option options (opt_key x))) (wanted_options uid gid d).
Proof.
  assert (option_ok "iocharset=utf8") as H1 by done.
  destruct (numeric_option_ok "uid" uid) as [H2 K2]; [done..|].
  destruct (numeric_option_ok "gid" gid) as [H3 K3]; [done..|].
  change ("uid" +:+ "=" +:+ Str.of_N uid) with ("uid=" +:+ Str.of_N uid) in *.
  change ("gid" +:+ "=" +:+ Str.of_N gid) with ("gid=" +:+ Str.of_N gid) in *.
  assert (is_opt "uid" "iocharset=utf8" = false ∧ is_opt "gid" "iocharset=utf8" = false) as [N1 N2] by done.
  assert (is_opt "gid" ("uid=" +:+ Str.of_N uid) = false) as N3 by done.
  unfold add_fs_options, wanted_options.
  set (u := "uid=" +:+ Str.of_N uid) in *. set (g := "gid=" +:+ Str.of_N gid) in *. clearbody u g.
  destruct (bool_decide (get_fs_driver d = Some "ntfs3")), (DevInfo.fs_type d) as [t|];
    try destruct (bool_decide (t ∈ WINDOWS_FS_TYPES));
    repeat (rewrite append_if_missing_list by done);
    rewrite ?K2, ?K3; repeat (rewrite has_append_if_missing by done);
    simpl; rewrite ?K2, ?K3; change (opt_key "iocharset=utf8") with "iocharset";
    repeat match goal with |- context [has_mount_option options ?k] => destruct (has_mount_option options k) end;
    simpl; rewrite ?app_nil_r, <-?(assoc_L (++)); done.
Qed.

(** The device node given to the decryption is always that of a whole
    disk: for an encrypted partition of an image the VM is told to open the
    disk, and the node of the partition itself is not in the list. *)
Lemma to_decrypt_whole_disk dev_info i di l k
    (Hi : dev_info !! i = Some di) (Hl : letters !! i = Some l)
    (He : needs_passphrase di = true) (Hk : vm_part_idx di = Some k) :
  vd l ∈ to_decrypt dev_info ∧ vm_disk_path (vd l) (vm_part_idx di) ∉ to_decrypt dev_info.
Proof.
  split.
  - unfold to_decrypt. apply list_elem_of_omap. exists (di, l). simpl. rewrite He. split; [|done].
    apply list_elem_of_lookup. exists i. apply lookup_zip_with_Some. eauto.
  - unfold to_decrypt. rewrite list_elem_of_omap. intros ([d' l'] & _ & H). simpl in H.
    destruct (needs_passphrase d'); [|done]. injection H as H. rewrite Hk in H. unfold vm_disk_path in H.
    assert (Str.starts_with "/dev/vtbd" (vd l) = false) as Hs by done. rewrite Hs in H.
    apply (f_equal String.length) in H. unfold vd in H. rewrite !StrFacts.length_app in H. simpl in H.
    destruct (StrFacts.of_N_digits k) as [_ Hne]. destruct (Str.of_N k); [done|]. simpl in H. lia.
Qed.

Definition luks_partition : DevInfo := {|
  dev_path := "disk.img"; dev_rpath := "disk.img"; is_image := true; block_size := None;
  dev_label := None; fs_type := Some "crypto_LUKS"; uuid := None; pt_type := None;
  vm_path := "/dev/vda2"; vm_part_idx := Some 2%N; dev_fs_driver := None; da_info := DiskInfo_default;
  size_bytes := None; disk_format := Raw; metadata_probed := true |}.

Example to_decrypt_whole_disk_witness :
  vd "a" ∈ to_decrypt [luks_partition] ∧
  vm_disk_path (vd "a") (vm_part_idx luks_partition) ∉ to_decrypt [luks_partition].
Proof. exact (to_decrypt_whole_disk [luks_partition] 0 luks_partition "a" 2%N eq_refl eq_refl eq_refl eq_refl). Defined.
