(* ===== verification/Session.v ===== *)
(** * A mount session ([cmd_mount.rs] [run_mount_child],
      [setup_rpcbind_services]; [vm.rs] [prepare_key_file_for_vm])

    The session process starts the network helper and the VM, mounts the
    share, waits for the unmount and shuts everything down.  What it acquires
    is released by deferred actions.  A call to the outside is an event with
    its success; its result comes from the environment, [None] for an error
    (or a panic: the stack is unwound the same way). *)
From S2P Require Import Prelude Deferred Common Privilege Reader Exit.
Import deferred.

Inductive Cleanup :=
| CVfkitSock | CNetHelper | CVsock | CKeyFile | CVmWait | CApiSocket | CRpcbind | CVmReport
| CStdinForwarder | CSendQuit | CMountPoint.
#[global] Instance Cleanup_eq_dec : EqDecision Cleanup.
Proof. solve_decision. Defined.

Inductive PipeMsg := Detach | Join.

Inductive Step :=
| SLockFile | SLock | SClaim | SSelectImage | SImageInit | SVmEnvironment | SSetsid
| SStartNetHelper | SWaitSocket | SPollHelper
| SKeyCopy | SKeyChown | SKeyMode | SKeyXattr | SKeyIso
| SFork | SSetupVm | SStartVm
| SSignals | SDropEffective | SRegisterDns | SServeApi | SElevate
| SListServices | SSudoUnregister | SUnregister | SRegister | SRegisterAsInvoker
| SSpawnReader | SStdinForwarder | SPrompts (n : nat) | SWaitNfs
| SEventSession | SMount | SForceUmount | SWaitMount | SMountSubdirs
| SDropPrivileges | SPipe (m : PipeMsg) | SClosePipe | SRedirectStdio
| SWaitUnmount | SSendQuit | SWaitVm | SElevateOnDrop.

Inductive Event := Call (s : Step) (success : bool) | Ran (c : Cleanup).

(** ** The state of the process, and its monad *)
Record St := mkSt { deferred_ : Deferred Cleanup; trace : list Event }.
Definition start : St := mkSt new [].

Definition M (A : Type) : Type := St → option A * St.
#[global] Instance M_ret : MRet M := λ A a st, (Some a, st).
#[global] Instance M_bind : MBind M := λ A B f m st,
  match m st with
  | (Some a, st) => f a st
  | (None, st) => (None, st)
  end.

Definition emit (e : list Event) (st : St) : St := mkSt (deferred_ st) (trace st ++ e).
Definition fail {A} : M A := λ st, (None, st).

(** A call whose failure ends the function ([?]), and one whose result is
    looked at or ignored. *)
Definition call {A} (s : Step) (r : option A) : M A :=
  λ st, (r, emit [Call s (bool_decide (is_Some r))] st).
Definition act (s : Step) (success : bool) : M bool := λ st, (Some success, emit [Call s success] st).

Definition defer (c : Cleanup) : M ActionID :=
  λ st, let '(d, id) := add (deferred_ st) c in (Some id, mkSt d (trace st)).
Definition call_action (id : ActionID) : M unit :=
  λ st, let '(ran, d) := call_now (deferred_ st) id in
        (Some tt, mkSt d (trace st ++ (Ran <$> ran.*2))).
Definition remove_action (id : ActionID) : M unit :=
  λ st, let '(_, d) := remove (deferred_ st) id in (Some tt, mkSt d (trace st)).
Definition remove_all_actions : M unit :=
  λ st, (Some tt, mkSt (remove_all (deferred_ st)) (trace st)).

(** The end of the scope: first [ElevateOnDrop], then the deferred actions. *)
Definition leave_scope (os : TargetOS) (st : St) : list Event :=
  trace st ++ (match os with LinuxHost => [Call SElevateOnDrop true] | MacOS => [] end) ++
  (Ran <$> (drop_deferred (deferred_ st)).*2).

(** ** What the session depends on *)
(** From the configuration: the key file, the guest's system, the network
    helper, the user behind sudo, whether the mount point is the user's own. *)
Record Params := mkParams {
  has_key_file : bool;
  guest_os : OSType;
  net_helper : NetHelper;
  rpcbind_running : bool;
  sudo_ids : option (N * N);
  invoker_is_root : bool;
  passphrase_prompts : nat;
  own_mount_point : bool;
}.

(** An entry of the port mapper, as far as the session looks at it. *)
Record Service := mkService { svc_prog : N; svc_owner : string }.
Definition RPCPROG_NFS : N := 100003.
Definition RPCPROG_MNT : N := 100005.
Definition RPCPROG_STAT : N := 100024.

(** The answers of the outside. *)
Record Env := mkEnv {
  e_lock_file : option unit; e_lock : option unit; e_claim : option unit;
  e_select_image : option unit; e_image_init : option unit; e_vm_environment : option unit;
  e_setsid : bool;
  e_start_helper : option unit; e_wait_socket : option unit; e_helper_alive : option unit;
  e_key_copy : option unit; e_key_chown : option unit; e_key_mode : option unit;
  e_key_xattr : option unit; e_key_iso : option unit;
  e_fork : option bool;                    (* [true] in the parent *)
  e_setup_vm : option unit; e_start_vm : option unit;
  e_signals : option unit; e_drop_effective : option unit; e_register_dns : option unit;
  e_elevate : option unit;
  e_services : option (list Service);
  e_user_name : option string;
  e_sudo_unregister : option unit; e_register : option unit;
  e_stdin : option unit;
  e_nfs : NfsStatus;
  e_event_session : option unit;
  e_mount : bool; e_mount_point : bool; e_subdirs : bool;
  e_drop : option unit; e_pipe : option unit; e_redirect : option unit;
  e_quit : option unit;
  e_wait : Wait;
}.

(** ** [prepare_key_file_for_vm] *)
Definition prepare_key_file_for_vm (p : Params) (e : Env) : M unit :=
  if negb (has_key_file p) then mret tt
  else
    match guest_os p with
    | Linux =>
        call SKeyCopy (e_key_copy e);; call SKeyChown (e_key_chown e);;
        call SKeyMode (e_key_mode e);; call SKeyXattr (e_key_xattr e);;
        defer CKeyFile;; mret tt
    | FreeBSD => call SKeyIso (e_key_iso e)
    end.

(** ** [setup_rpcbind_services] *)
Definition services_to_restore (p : Params) (e : Env) : M (list Service) :=
  match net_helper p with
  | GvProxy =>
      if rpcbind_running p then
        services ← call SListServices (e_services e);
        mret (filter (λ s, svc_prog s ∈ [RPCPROG_MNT; RPCPROG_NFS; RPCPROG_STAT]) services)
      else mret []
  | VmNet => mret []
  end.

Definition unregister_services (p : Params) (e : Env) (services : list Service) : M unit :=
  let any_root_svcs := existsb (λ s, negb (bool_decide (Some (svc_owner s) = e_user_name e))) services in
  if bool_decide (sudo_ids p = None) && negb (invoker_is_root p) && any_root_svcs
  then call SSudoUnregister (e_sudo_unregister e)
  else act SUnregister true;; mret tt.

Definition register_services (os : TargetOS) (p : Params) (e : Env) : M unit :=
  match os, sudo_ids p with
  | MacOS, Some _ => call SRegisterAsInvoker (e_register e)
  | _, _ => call SRegister (e_register e)
  end.

Definition setup_rpcbind_services (os : TargetOS) (p : Params) (e : Env) (services : list Service) : M unit :=
  if bool_decide (net_helper p = GvProxy) && rpcbind_running p then
    let is_host_rpcbind := negb (existsb (λ s, bool_decide (svc_owner s = "superuser")) services) in
    if negb is_host_rpcbind then mret tt
    else
      defer CRpcbind;;
      unregister_services p e services;;
      register_services os p e
  else mret tt.

(** ** [run_mount_child] *)
(** From the start to the moment before the fork; whether the session can
    detach. *)
Definition prepare (os : TargetOS) (p : Params) (e : Env) : M bool :=
  call SLockFile (e_lock_file e);; call SLock (e_lock e);; call SClaim (e_claim e);;
  call SSelectImage (e_select_image e);; call SImageInit (e_image_init e);;
  call SVmEnvironment (e_vm_environment e);;
  can_detach ← act SSetsid (e_setsid e);
  match os, net_helper p with
  | LinuxHost, VmNet => fail
  | _, _ => call SStartNetHelper (e_start_helper e)
  end;;
  call SWaitSocket (e_wait_socket e);;
  defer CVfkitSock;;
  call SPollHelper (e_helper_alive e);;
  defer CNetHelper;; defer CVsock;;
  prepare_key_file_for_vm p e;;
  mret can_detach.

(** The child of the fork becomes the VM. *)
Definition vm_process (e : Env) : M (option AppError) :=
  remove_all_actions;;
  call SSetupVm (e_setup_vm e);; call SStartVm (e_start_vm e);; mret None.

(** The parent, until the server is ready or has failed. *)
Definition await_server (os : TargetOS) (p : Params) (e : Env) : M (ActionID * ActionID * NfsStatus) :=
  vm_wait_action ← defer CVmWait;
  call SSignals (e_signals e);; call SDropEffective (e_drop_effective e);;
  call SRegisterDns (e_register_dns e);;
  act SServeApi true;; defer CApiSocket;;
  call SElevate (e_elevate e);;
  services ← services_to_restore p e;
  setup_rpcbind_services os p e services;;
  defer CVmReport;;
  act SSpawnReader true;;
  call SStdinForwarder (e_stdin e);;
  disable_stdin_fwd_action ← defer CStdinForwarder;
  act (SPrompts (passphrase_prompts p)) true;;
  act SWaitNfs true;;
  mret (vm_wait_action, disable_stdin_fwd_action, e_nfs e).

(** The server is ready: mount, detach, wait, quit. *)
Definition serve (p : Params) (e : Env) (can_detach : bool) (disable_stdin_fwd_action : ActionID) : M unit :=
  quit_action ← defer CSendQuit;
  call SEventSession (e_event_session e);;
  mounted ← act SMount (e_mount e);
  (if (mounted : bool) then mret true else act SForceUmount true);;
  mount_point ← (if (mounted : bool) then act SWaitMount (e_mount_point e) else mret false);
  call_action disable_stdin_fwd_action;;
  (if (mount_point : bool) then
     (if own_mount_point p then mret 0 else defer CMountPoint);;
     act SMountSubdirs (e_subdirs e);; mret tt
   else mret tt);;
  call SDropPrivileges (e_drop e);;
  (if (can_detach : bool) then
     call (SPipe Detach) (e_pipe e);; act SClosePipe true;; call SRedirectStdio (e_redirect e)
   else call (SPipe Join) (e_pipe e));;
  (if (mount_point : bool) then act SWaitUnmount true else mret true);;
  remove_action quit_action;;
  call SSendQuit (e_quit e).

Definition supervise (os : TargetOS) (p : Params) (e : Env) (can_detach : bool) : M (option AppError) :=
  '(vm_wait_action, disable_stdin_fwd_action, nfs_status) ← await_server os p e;
  match nfs_status with
  | Ready _ => serve p e can_detach disable_stdin_fwd_action
  | Failed _ => call SDropPrivileges (e_drop e);; call (SPipe Join) (e_pipe e)
  end;;
  remove_action vm_wait_action;;
  act SWaitVm true;;
  mret (session_result (e_wait e) nfs_status).

Definition run_mount_child (os : TargetOS) (p : Params) (e : Env) : M (option AppError) :=
  can_detach ← prepare os p e;
  in_parent ← call SFork (e_fork e);
  if (in_parent : bool) then supervise os p e can_detach else vm_process e.

(** The result and the events of the whole session, scope exit included. *)
Definition session (os : TargetOS) (p : Params) (e : Env) : option (option AppError) * list Event :=
  let '(r, st) := run_mount_child os p e start in (r, leave_scope os st).

(** ** Events of interest *)
Definition count (p : Event → bool) (tr : list Event) : nat := length (List.filter p tr).
(** Every [q] is preceded by a [p]. *)
Fixpoint before (p q : Event → bool) (tr : list Event) : bool :=
  match tr with
  | [] => true
  | ev :: tr => negb (q ev) && (p ev || before p q tr)
  end.

Definition runs (c : Cleanup) (ev : Event) : bool :=
  match ev with Ran c' => bool_decide (c' = c) | Call _ _ => false end.
Definition is_cleanup (ev : Event) : bool := match ev with Ran _ => true | Call _ _ => false end.
Definition waits_for_vm (ev : Event) : bool :=
  match ev with Ran CVmWait | Call SWaitVm _ => true | _ => false end.
Definition quits_vm (ev : Event) : bool :=
  match ev with Ran CSendQuit | Call SSendQuit _ => true | _ => false end.

Definition all_cleanups : list Cleanup :=
  [CVfkitSock; CNetHelper; CVsock; CKeyFile; CVmWait; CApiSocket; CRpcbind; CVmReport;
   CStdinForwarder; CSendQuit; CMountPoint].

Definition succeeded (s : Step) (ev : Event) : bool :=
  match ev, s with
  | Call SPollHelper true, SPollHelper | Call SFork true, SFork | Call SKeyXattr true, SKeyXattr
  | Call SStartNetHelper true, SStartNetHelper | Call SWaitSocket true, SWaitSocket
  | Call SWaitMount true, SWaitMount | Call SStdinForwarder true, SStdinForwarder
  | Call SElevate true, SElevate | Call SServeApi true, SServeApi => true
  | _, _ => false
  end.
Definition happened (s : Step) (tr : list Event) : bool := existsb (succeeded s) tr.
Definition b2n (b : bool) : nat := if b then 1 else 0.

(** The events the properties look at. *)
Definition relevant (ev : Event) : bool :=
  match ev with
  | Ran _ | Call SWaitVm _ | Call SSendQuit _ => true
  | Call (SPollHelper | SFork | SKeyXattr | SStartNetHelper | SWaitSocket | SWaitMount
         | SStdinForwarder | SElevate | SServeApi) true => true
  | _ => false
  end.

(** ** A program logic

    [wp m ev d Q]: started where the relevant events so far are [ev] and the
    deferred actions are [d], [m] returns with [Q], or fails where [G] holds
    of the events and actions. *)
Section Logic.
Context (G : list Event → Deferred Cleanup → Prop).

Definition wp {A} (m : M A) (ev : list Event) (d : Deferred Cleanup)
    (Q : A → list Event → Deferred Cleanup → Prop) : Prop :=
  ∀ st, List.filter relevant (trace st) = ev → deferred_ st = d →
    match m st with
    | (Some a, st') => Q a (List.filter relevant (trace st')) (deferred_ st')
    | (None, st') => G (List.filter relevant (trace st')) (deferred_ st')
    end.

Lemma wp_bind {A B} (m : M A) (f : A → M B) ev d Q :
  wp m ev d (λ a ev' d', wp (f a) ev' d' Q) → wp (m ≫= f) ev d Q.
Proof.
  intros Hm st Hev Hd. specialize (Hm st Hev Hd). unfold mbind, M_bind.
  destruct (m st) as [[a|] st']; [by apply Hm|done].
Qed.

Lemma wp_ret {A} (a : A) ev d (Q : A → _ → _ → Prop) : Q a ev d → wp (mret a) ev d Q.
Proof. by intros HQ st <- <-. Qed.

Lemma wp_fail {A} ev d (Q : A → _ → _ → Prop) : G ev d → wp fail ev d Q.
Proof. by intros HG st <- <-. Qed.

Lemma wp_call {A} s (r : option A) ev d (Q : A → _ → _ → Prop) :
  (∀ a, r = Some a → Q a (ev ++ List.filter relevant [Call s true]) d) →
  (r = None → G (ev ++ List.filter relevant [Call s false]) d) →
  wp (call s r) ev d Q.
Proof.
  intros HQ HG st <- <-. unfold call, emit. simpl. rewrite List.filter_app.
  destruct r as [a|]; [by apply HQ|by apply HG].
Qed.

Lemma wp_act s b ev d (Q : bool → _ → _ → Prop) :
  Q b (ev ++ List.filter relevant [Call s b]) d → wp (act s b) ev d Q.
Proof. intros HQ st <- <-. unfold act, emit. simpl. by rewrite List.filter_app. Qed.

Lemma wp_defer c ev d (Q : ActionID → _ → _ → Prop) :
  Q (last_id d) ev (add d c).1 → wp (defer c) ev d Q.
Proof. by intros HQ st <- <-. Qed.

Lemma filter_ran (cs : list Cleanup) : List.filter relevant (Ran <$> cs) = Ran <$> cs.
Proof. induction cs; simpl; [done|]. by f_equal. Qed.

Lemma wp_call_action id ev d (Q : unit → _ → _ → Prop) :
  Q tt (ev ++ (Ran <$> (call_now d id).1.*2)) (call_now d id).2 → wp (call_action id) ev d Q.
Proof.
  intros HQ st <- <-. unfold call_action. destruct (call_now _ id) as [ran d']. simpl in *.
  by rewrite List.filter_app, filter_ran.
Qed.

Lemma wp_remove id ev d (Q : unit → _ → _ → Prop) :
  Q tt ev (remove d id).2 → wp (remove_action id) ev d Q.
Proof. intros HQ st <- <-. unfold remove_action. by destruct (remove _ id). Qed.

Lemma wp_remove_all ev d (Q : unit → _ → _ → Prop) :
  Q tt ev (remove_all d) → wp remove_all_actions ev d Q.
Proof. by intros HQ st <- <-. Qed.

Lemma wp_mono {A} (m : M A) ev d (Q Q' : A → _ → _ → Prop) :
  wp m ev d Q → (∀ a ev' d', Q a ev' d' → Q' a ev' d') → wp m ev d Q'.
Proof.
  intros Hm HQ st Hev Hd. specialize (Hm st Hev Hd). destruct (m st) as [[a|] st']; auto.
Qed.
End Logic.

(** Execute one operation; the goals left are the postcondition and, after a
    failure, [G]. *)
Ltac wp_op :=
  cbn beta iota;
  lazymatch goal with
  | |- wp _ (_ ≫= _) _ _ _ => apply wp_bind
  | |- wp _ (mret _) _ _ _ => apply wp_ret
  | |- wp _ fail _ _ _ => apply wp_fail
  | |- wp _ (call _ _) _ _ _ => apply wp_call; [intros ? ?|intros ?]
  | |- wp _ (act _ _) _ _ _ => apply wp_act
  | |- wp _ (defer _) _ _ _ => apply wp_defer
  | |- wp _ (call_action _) _ _ _ => apply wp_call_action
  | |- wp _ (remove_action _) _ _ _ => apply wp_remove
  | |- wp _ remove_all_actions _ _ _ => apply wp_remove_all
  | |- wp _ (match ?x with _ => _ end) _ _ _ => destruct x eqn:?
  end; cbn [List.filter relevant app].

(** *** The whole session *)
Definition final_events (ev : list Event) (d : Deferred Cleanup) : list Event :=
  ev ++ (Ran <$> (drop_deferred d).*2).

Lemma session_wp (C : list Event → Prop) os p e :
  wp (λ ev d, C (final_events ev d)) (run_mount_child os p e) [] new
    (λ _ ev d, C (final_events ev d)) →
  C (List.filter relevant (session os p e).2).
Proof.
  intros H. specialize (H start eq_refl eq_refl). unfold session.
  destruct (run_mount_child os p e start) as [r st]. simpl.
  assert (List.filter relevant (leave_scope os st) =
    final_events (List.filter relevant (trace st)) (deferred_ st)) as ->.
  { unfold leave_scope, final_events. rewrite !List.filter_app, filter_ran. by destruct os. }
  by destruct r.
Qed.

(** The properties of the events only look at the relevant ones. *)
Lemma count_relevant q tr :
  (∀ ev, q ev = true → relevant ev = true) → count q (List.filter relevant tr) = count q tr.
Proof.
  intros Hq. induction tr as [|ev tr IH]; [done|]. unfold count in *. simpl.
  destruct (relevant ev) eqn:Hr; simpl; destruct (q ev) eqn:E; simpl; rewrite ?IH; try done.
  apply Hq in E. congruence.
Qed.

Lemma before_relevant q1 q2 tr :
  (∀ ev, q1 ev = true → relevant ev = true) → (∀ ev, q2 ev = true → relevant ev = true) →
  before q1 q2 (List.filter relevant tr) = before q1 q2 tr.
Proof.
  intros H1 H2. induction tr as [|ev tr IH]; [done|]. simpl.
  destruct (relevant ev) eqn:Hr; simpl; [by rewrite IH|]. rewrite IH.
  destruct (q2 ev) eqn:E2; [apply H2 in E2; congruence|].
  destruct (q1 ev) eqn:E1; [apply H1 in E1; congruence|]. done.
Qed.

Lemma happened_relevant s tr : happened s (List.filter relevant tr) = happened s tr.
Proof.
  induction tr as [|ev tr IH]; [done|]. unfold happened in *. simpl.
  destruct (relevant ev) eqn:Hr; simpl; rewrite IH; [done|].
  assert (succeeded s ev = false) as ->; [|done].
  destruct ev as [s' b|c]; [destruct b, s'; try done|]; by destruct s.
Qed.

Lemma runs_relevant c ev : runs c ev = true → relevant ev = true.
Proof. by destruct ev. Qed.
Lemma waits_relevant ev : waits_for_vm ev = true → relevant ev = true.
Proof. by destruct ev as [[] []|]. Qed.
Lemma quits_relevant ev : quits_vm ev = true → relevant ev = true.
Proof. by destruct ev as [[] []|]. Qed.
Lemma cleanup_relevant ev : is_cleanup ev = true → relevant ev = true.
Proof. by destruct ev as [[] []|]. Qed.
#[export] Hint Resolve runs_relevant waits_relevant quits_relevant cleanup_relevant : core.

Lemma prepare_wp G os p e Q :
  let ev0 : list Event := [] in
  let ev1 := [Call SStartNetHelper true] in
  let ev2 := ev1 ++ [Call SWaitSocket true] in
  let ev3 := ev2 ++ [Call SPollHelper true] in
  let d1 := mkDeferred [(0, CVfkitSock)] 1 in
  let d3 := mkDeferred [(0, CVfkitSock); (1, CNetHelper); (2, CVsock)] 3 in
  let d4 := mkDeferred [(0, CVfkitSock); (1, CNetHelper); (2, CVsock); (3, CKeyFile)] 4 in
  G ev0 new → G ev1 new → G ev2 d1 → G ev3 d3 →
  (∀ can_detach, Q can_detach ev3 d3) →
  (∀ can_detach, Q can_detach (ev3 ++ [Call SKeyXattr true]) d4) →
  wp G (prepare os p e) [] new Q.
Proof.
  intros ev0 ev1 ev2 ev3 d1 d3 d4 G0 G1 G2 G3 Q3 Q4. unfold prepare.
  do 13 (wp_op; try exact G0).
  all: destruct os, (net_helper p); repeat (wp_op; first [exact G0|exact G1|exact G2|exact G3|idtac]).
  all: unfold prepare_key_file_for_vm; destruct (has_key_file p); cbn [negb]; try destruct (guest_os p);
    repeat (wp_op; first [exact G0|exact G1|exact G2|exact G3|apply Q3|apply Q4|idtac]).
Qed.

(** ** Releasing what was acquired *)
(** Each action runs at most once, and those that release something acquired
    for certain run exactly if it was. *)
Definition releases (own : bool) (tr : list Event) : bool :=
  forallb (λ c, count (runs c) tr <=? 1) all_cleanups &&
  (count (runs CVfkitSock) tr =? b2n (happened SWaitSocket tr)) &&
  (count (runs CNetHelper) tr =? b2n (happened SPollHelper tr)) &&
  (count (runs CVsock) tr =? b2n (happened SPollHelper tr)) &&
  (count (runs CKeyFile) tr =? b2n (happened SKeyXattr tr)) &&
  (count (runs CApiSocket) tr =? b2n (happened SServeApi tr)) &&
  (count (runs CStdinForwarder) tr =? b2n (happened SStdinForwarder tr)) &&
  (count (runs CMountPoint) tr =? b2n (happened SWaitMount tr && negb own)).

(** The VM is waited for once if it was started, before the things it uses
    are taken away; and if the server was ready it is told to quit once,
    before that wait. *)
Definition shuts_down (ready : bool) (tr : list Event) : bool :=
  (count waits_for_vm tr =? b2n (happened SFork tr)) &&
  (count quits_vm tr =? b2n (happened SStdinForwarder tr && ready)) &&
  (negb (happened SFork tr) ||
   forallb (λ c, before waits_for_vm (runs c) tr) [CNetHelper; CVsock; CKeyFile; CVfkitSock]) &&
  (negb (happened SStdinForwarder tr && ready) || before quits_vm waits_for_vm tr).

Definition server_ready (e : Env) : bool := match e_nfs e with Ready _ => true | Failed _ => false end.

Definition good (p : Params) (e : Env) (tr : list Event) : Prop :=
  releases (own_mount_point p) tr = true ∧ shuts_down (server_ready e) tr = true.

(** A leaf: the events are known but for the facts that did not matter. *)
Ltac good_leaf :=
  unfold final_events, server_ready;
  repeat match goal with
  | H : own_mount_point ?p = _ |- context [own_mount_point ?p] => rewrite H
  | H : e_nfs ?e = _ |- context [e_nfs ?e] => rewrite H
  end;
  repeat match goal with
  | |- context [own_mount_point ?p] => destruct (own_mount_point p)
  | |- context [e_nfs ?e] => destruct (e_nfs e)
  end; vm_compute; split; reflexivity.

Ltac try_leaf :=
  cbn beta; lazymatch goal with |- good _ _ _ => unfold good; good_leaf | _ => idtac end.

(** The actions pending at the fork: with or without a key file. *)
Definition at_fork (key : bool) : list Event * Deferred Cleanup :=
  let ev := [Call SStartNetHelper true; Call SWaitSocket true; Call SPollHelper true] in
  if key
  then (ev ++ [Call SKeyXattr true],
        mkDeferred [(0, CVfkitSock); (1, CNetHelper); (2, CVsock); (3, CKeyFile)] 4)
  else (ev, mkDeferred [(0, CVfkitSock); (1, CNetHelper); (2, CVsock)] 3).

Arguments final_events : simpl never.

Lemma services_wp G p e ev d Q :
  G ev d → (∀ l, Q l ev d) → wp G (services_to_restore p e) ev d Q.
Proof. intros HG HQ. unfold services_to_restore. repeat (wp_op; rewrite ?app_nil_r; auto). Qed.

Lemma setup_rpcbind_wp G os p e services ev d Q :
  G ev (add d CRpcbind).1 → Q tt ev d → Q tt ev (add d CRpcbind).1 →
  wp G (setup_rpcbind_services os p e services) ev d Q.
Proof.
  intros HG HQ HQ'. unfold setup_rpcbind_services, unregister_services, register_services.
  repeat (wp_op; rewrite ?app_nil_r; repeat match goal with u : unit |- _ => destruct u end; try done).
Qed.

Lemma serve_wp key rpc p e s can_detach :
  e_nfs e = Ready s →
  let d := (at_fork key).2 in
  let d := (add (add d CVmWait).1 CApiSocket).1 in
  let d := if rpc : bool then (add d CRpcbind).1 else d in
  let d := (add d CVmReport).1 in
  wp (λ ev d, good p e (final_events ev d)) (serve p e can_detach (last_id d))
    ((at_fork key).1 ++ [Call SFork true; Call SServeApi true; Call SElevate true; Call SStdinForwarder true])
    (add d CStdinForwarder).1
    (λ _ ev d, good p e (final_events (ev ++ [Call SWaitVm true]) (remove d (last_id (at_fork key).2)).2)).
Proof.
  intros He. destruct key, rpc; cbv zeta; cbn [at_fork fst snd app]; unfold serve.
  all: repeat (wp_op; try_leaf).
Qed.

Lemma supervise_good key os p e can_detach :
  wp (λ ev d, good p e (final_events ev d)) (supervise os p e can_detach)
    ((at_fork key).1 ++ [Call SFork true]) (at_fork key).2
    (λ _ ev d, good p e (final_events ev d)).
Proof.
  unfold supervise, await_server. destruct key; cbn [at_fork fst snd].
  all: repeat (first [ apply services_wp; [|intros ?] | apply setup_rpcbind_wp
                     | wp_op; rewrite ?app_nil_r ]; cbn [app]; try_leaf).
  1: eapply wp_mono; [exact (serve_wp true false p e s can_detach Heqn)|].
  2: eapply wp_mono; [exact (serve_wp true true p e s can_detach Heqn)|].
  3: eapply wp_mono; [exact (serve_wp false false p e s can_detach Heqn)|].
  4: eapply wp_mono; [exact (serve_wp false true p e s can_detach Heqn)|].
  all: intros [] ev d Hgood; repeat wp_op; exact Hgood.
Qed.

Lemma prepare_good os p e k :
  (∀ key can_detach, wp (λ ev d, good p e (final_events ev d)) (k can_detach) (at_fork key).1 (at_fork key).2
     (λ _ ev d, good p e (final_events ev d))) →
  wp (λ ev d, good p e (final_events ev d)) (prepare os p e ≫= k) [] new
    (λ _ ev d, good p e (final_events ev d)) (A := option AppError).
Proof.
  intros Hk. apply wp_bind, prepare_wp; try (try_leaf; fail).
  - intros c. exact (Hk false c).
  - intros c. exact (Hk true c).
Qed.

Lemma session_good os p e : e_fork e ≠ Some false → good p e (List.filter relevant (session os p e).2).
Proof.
  intros Hf. apply session_wp. unfold run_mount_child. apply prepare_good. intros key c.
  apply wp_bind, wp_call.
  - intros [] Ha; [|by rewrite Ha in Hf]. apply supervise_good.
  - intros _. destruct key; cbn [at_fork fst snd app]; unfold good; good_leaf.
Qed.

Lemma vm_process_silent os p e :
  e_fork e = Some false →
  let tr := List.filter relevant (session os p e).2 in
  happened SFork tr = true → count is_cleanup tr = 0 ∧ count waits_for_vm tr = 0.
Proof.
  intros Hf. apply (session_wp (λ tr, happened SFork tr = true → count is_cleanup tr = 0 ∧ count waits_for_vm tr = 0)).
  unfold run_mount_child. apply wp_bind, prepare_wp; try (vm_compute; done).
  all: intros c; apply wp_bind, wp_call; [intros b Hb; assert (b = false) as -> by congruence|congruence].
  all: unfold vm_process; repeat wp_op; vm_compute; done.
Qed.


(** C2: the VM is shut down in order: the session waits for it exactly once
    if it was started, and takes the network, the control socket and the key
    file away only after that; once the server was ready the VM is told to
    quit exactly once, before the wait, whatever fails in between. *)
Theorem session_shuts_down os p e (Hf : e_fork e ≠ Some false) :
  let tr := (session os p e).2 in
  let ready := happened SStdinForwarder tr && server_ready e in
  count waits_for_vm tr = b2n (happened SFork tr) ∧
  count quits_vm tr = b2n ready ∧
  (happened SFork tr = true → ∀ c, c ∈ [CNetHelper; CVsock; CKeyFile; CVfkitSock] →
    before waits_for_vm (runs c) tr = true) ∧
  (ready = true → before quits_vm waits_for_vm tr = true).
Proof.
  intros tr ready. destruct (session_good os p e Hf) as [_ H]. fold tr in H. unfold shuts_down in H.
  rewrite !andb_true_iff, !Nat.eqb_eq, !orb_true_iff, !negb_true_iff, List.forallb_forall in H.
  rewrite !happened_relevant, !count_relevant, before_relevant in H by eauto.
  destruct H as (((Hw & Hq) & Hb) & Hr). fold ready in Hq, Hr. split_and!; [done|done| |].
  - intros HF c Hc. destruct Hb as [Hb|Hb]; [congruence|].
    specialize (Hb c (proj1 (list_elem_of_In _ _) Hc)). by rewrite before_relevant in Hb by eauto.
  - intros HR. destruct Hr as [Hr|Hr]; [congruence|done].
Qed.

(** The process that becomes the VM runs none of the deferred actions of
    the session it was forked from, however it ends. *)
Lemma vm_process_runs_no_cleanup os p e (Hf : e_fork e = Some false) :
  let tr := (session os p e).2 in
  happened SFork tr = true → ∀ c, c ∈ all_cleanups → count (runs c) tr = 0.
Proof.
  intros tr HF c _. destruct (vm_process_silent os p e Hf) as [H _]; [by rewrite happened_relevant|].
  rewrite count_relevant in H by eauto. unfold count in *. fold tr in H.
  assert (∀ l, length (List.filter is_cleanup l) = 0 → length (List.filter (runs c) l) = 0) as Himp.
  { clear. induction l as [|[s b|c'] l IH]; simpl; [done|auto|done]. }
  by apply Himp.
Qed.

(** Until the server is ready nothing tells the VM to quit, and yet the
    session waits for it: if a call fails after the fork (the registration
    with the port mapper, say), or the server is taken for failed although the
    VM still runs, the session waits for a VM that was never asked to end. *)
Lemma vm_not_told_to_quit os p e (Hf : e_fork e ≠ Some false) :
  let tr := (session os p e).2 in
  happened SFork tr = true → happened SStdinForwarder tr && server_ready e = false →
  count waits_for_vm tr = 1 ∧ count quits_vm tr = 0.
Proof.
  intros tr HF Hr. destruct (session_good os p e Hf) as [_ H]. fold tr in H. unfold shuts_down in H.
  rewrite !andb_true_iff, !Nat.eqb_eq in H. rewrite !happened_relevant, !count_relevant in H by eauto.
  destruct H as (((Hw & Hq) & _) & _). by rewrite Hw, Hq, HF, Hr.
Qed.

(** *** Witnesses *)
Module Witness.
Definition params : Params := {|
  has_key_file := true; guest_os := Linux; net_helper := GvProxy; rpcbind_running := true;
  sudo_ids := Some (501, 20)%N; invoker_is_root := false; passphrase_prompts := 2;
  own_mount_point := false |}.

(** Everything succeeds but the registration, if it is told to fail. *)
Definition env (fork : option bool) (register : option unit) : Env :=
  let ok := Some tt in
  let nfs := Ready (mkReady (Some "data") (Some "ext4") false ["/mnt/data"]) in
  mkEnv ok ok ok ok ok ok true ok ok ok ok ok ok ok ok fork ok ok ok ok ok ok
    (Some [mkService RPCPROG_NFS "root"]) (Some "me") ok register ok nfs ok true true true ok ok ok ok
    (Waited 0).
Definition happy : Env := env (Some true) (Some tt).
Definition unregistered : Env := env (Some true) None.
Definition in_vm : Env := env (Some false) (Some tt).


Example session_shuts_down_witness :
  let tr := (session MacOS params happy).2 in
  let ready := happened SStdinForwarder tr && server_ready happy in
  count waits_for_vm tr = b2n (happened SFork tr) ∧
  count quits_vm tr = b2n ready ∧
  (happened SFork tr = true → ∀ c, c ∈ [CNetHelper; CVsock; CKeyFile; CVfkitSock] →
    before waits_for_vm (runs c) tr = true) ∧
  (ready = true → before quits_vm waits_for_vm tr = true).
Proof. apply session_shuts_down. discriminate. Defined.

Example vm_process_runs_no_cleanup_witness :
  let tr := (session MacOS params in_vm).2 in
  happened SFork tr = true ∧ ∀ c, c ∈ all_cleanups → count (runs c) tr = 0.
Proof.
  split; [reflexivity|]. exact (vm_process_runs_no_cleanup MacOS params in_vm eq_refl eq_refl).
Defined.

Example vm_not_told_to_quit_witness :
  let tr := (session LinuxHost params unregistered).2 in
  count waits_for_vm tr = 1 ∧ count quits_vm tr = 0.
Proof.
  apply (vm_not_told_to_quit LinuxHost params unregistered); [discriminate|reflexivity|reflexivity].
Defined.

(** The events of an undisturbed session, for the reader. *)
Example happy_session :
  (session LinuxHost params happy).1 = Some None ∧
  List.filter is_cleanup (session LinuxHost params happy).2 =
    Ran <$> [CStdinForwarder; CMountPoint; CVmReport; CRpcbind; CApiSocket; CKeyFile; CVsock; CNetHelper; CVfkitSock].
Proof. split; reflexivity. Qed.
End Witness.

(** What is left behind: a network helper whose socket does not appear keeps
    running, and the copy of a key file whose owner or mode cannot be set
    stays in the root of the VM. *)
Lemma helper_left_running os p e :
  e_fork e ≠ Some false → happened SPollHelper (session os p e).2 = false →
  count (runs CNetHelper) (session os p e).2 = 0.
Proof.
  intros Hf Hp. destruct (session_good os p e Hf) as [H _]. unfold releases in H.
  rewrite !andb_true_iff, !Nat.eqb_eq in H. rewrite !happened_relevant, !count_relevant in H by eauto.
  rewrite Hp in H. tauto.
Qed.

Lemma key_file_left os p e :
  e_fork e ≠ Some false → happened SKeyXattr (session os p e).2 = false →
  count (runs CKeyFile) (session os p e).2 = 0.
Proof.
  intros Hf Hp. destruct (session_good os p e Hf) as [H _]. unfold releases in H.
  rewrite !andb_true_iff, !Nat.eqb_eq in H. rewrite !happened_relevant, !count_relevant in H by eauto.
  rewrite Hp in H. tauto.
Qed.
