(* ===== verification/Foreground.v ===== *)
(** * The command in the foreground and its session ([cmd_mount.rs] [run_mount]
      after the fork, [run_mount_parent])

    The session tells the foreground process over a pipe whether to wait for it
    or to leave it in the background. The two processes are put together here:
    what the session writes ([Session]) is what the foreground process reads
    ([Exit]); the process of the VM, which has the pipe too, may write to it. *)
From S2P Require Import Prelude Deferred Common Fsutil Reader Exit Session.
Import deferred.

(** ** What is written *)
Definition line_of (m : PipeMsg) : string :=
  (match m with Detach => "detach" | Join => "join" end) +:+ String LF "".

Definition on_pipe (ev : Event) : bool :=
  match ev with Call (SPipe _) _ | Call SClosePipe _ => true | _ => false end.
Definition pipe_events (tr : list Event) : list Event := List.filter on_pipe tr.

Definition written_line (ev : Event) : option string :=
  match ev with Call (SPipe m) true => Some (line_of m) | _ => None end.
Definition lines_written (tr : list Event) : list string := omap written_line tr.
Definition pipe_closed (tr : list Event) : bool :=
  existsb (λ ev, match ev with Call SClosePipe _ => true | _ => false end) tr.

(** The result of the session as an error of the application: [Session] leaves
    out the message of a failed call. *)
Definition session_error (r : option (option AppError)) : option AppError :=
  match r with Some res => res | None => Some (OtherError "session") end.

(** [run_mount] in the forked process, after [run_mount_child]: an error is
    followed by one more line, on a pipe that may have been closed (then the
    write goes to whatever has the descriptor). [writable] is the success of the
    write. *)
Definition end_of_child (writable : bool) (r : option (option AppError)) (tr : list Event) :
    option AppError * list string :=
  match session_error r with
  | None => (None, lines_written tr)
  | Some err =>
      if writable then
        (Some err, lines_written tr ++ (if pipe_closed tr then [] else [line_of Join]))
      else (Some (OtherError "Failed to write to pipe"), lines_written tr)
  end.

(** ** A logic of the pipe

    [pp m ev Q]: started where the events of the pipe are [ev], [m] returns with
    [Q] or fails where [F] holds. *)
Section logic.
Context (F : list Event → Prop).

Definition pp {A} (m : M A) (ev : list Event) (Q : A → list Event → Prop) : Prop :=
  ∀ st, pipe_events (trace st) = ev →
    match m st with
    | (Some a, st') => Q a (pipe_events (trace st'))
    | (None, st') => F (pipe_events (trace st'))
    end.

Lemma pp_bind {A B} (m : M A) (f : A → M B) ev Q :
  pp m ev (λ a ev', pp (f a) ev' Q) → pp (m ≫= f) ev Q.
Proof.
  intros Hm st Hev. specialize (Hm st Hev). unfold mbind, M_bind.
  destruct (m st) as [[a|] st']; [by apply Hm|done].
Qed.

Lemma pp_ret {A} (a : A) ev (Q : A → _ → Prop) : Q a ev → pp (mret a) ev Q.
Proof. by intros HQ st <-. Qed.

Lemma pp_fail {A} ev (Q : A → _ → Prop) : F ev → pp fail ev Q.
Proof. by intros HF st <-. Qed.

Lemma pp_call {A} s (r : option A) ev (Q : A → _ → Prop) :
  (∀ a, r = Some a → Q a (ev ++ pipe_events [Call s true])) →
  (r = None → F (ev ++ pipe_events [Call s false])) → pp (call s r) ev Q.
Proof.
  intros HQ HF st <-. unfold call, emit, pipe_events. cbn [trace]. rewrite List.filter_app.
  destruct r as [a|]; [by apply HQ|by apply HF].
Qed.

Lemma pp_act s b ev (Q : bool → _ → Prop) : Q b (ev ++ pipe_events [Call s b]) → pp (act s b) ev Q.
Proof. intros HQ st <-. unfold act, emit, pipe_events. cbn [trace]. by rewrite List.filter_app. Qed.

Lemma pipe_ran (cs : list Cleanup) : pipe_events (Ran <$> cs) = [].
Proof. by induction cs. Qed.

(** Deferred actions are no messages. *)
Lemma pp_defer c ev (Q : ActionID → _ → Prop) : (∀ id, Q id ev) → pp (defer c) ev Q.
Proof. intros HQ st <-. unfold defer. by destruct (add _ c). Qed.
Lemma pp_call_action id ev (Q : unit → _ → Prop) : Q tt ev → pp (call_action id) ev Q.
Proof.
  intros HQ st <-. unfold call_action. destruct (call_now _ id) as [ran d]. cbn [trace].
  unfold pipe_events. rewrite List.filter_app. fold (pipe_events (Ran <$> ran.*2)). by rewrite pipe_ran, app_nil_r.
Qed.
Lemma pp_remove id ev (Q : unit → _ → Prop) : Q tt ev → pp (remove_action id) ev Q.
Proof. intros HQ st <-. unfold remove_action. by destruct (remove _ id). Qed.

Lemma pp_mono {A} (m : M A) ev (Q Q' : A → _ → Prop) : pp m ev Q → (∀ a ev', Q a ev' → Q' a ev') → pp m ev Q'.
Proof. intros Hm HQ st Hev. specialize (Hm st Hev). destruct (m st) as [[a|] st']; auto. Qed.
End logic.

Ltac pp_op :=
  cbn beta iota;
  lazymatch goal with
  | |- pp _ (_ ≫= _) _ _ => apply pp_bind
  | |- pp _ (mret _) _ _ => apply pp_ret
  | |- pp _ fail _ _ => apply pp_fail
  | |- pp _ (call _ _) _ _ => apply pp_call; [intros ? ?|intros ?]
  | |- pp _ (act _ _) _ _ => apply pp_act
  | |- pp _ (defer _) _ _ => apply pp_defer; intros ?
  | |- pp _ (call_action _) _ _ => apply pp_call_action
  | |- pp _ (remove_action _) _ _ => apply pp_remove
  | |- pp _ (match ?x with _ => _ end) _ _ => destruct x eqn:?
  end; cbn [pipe_events List.filter on_pipe app].

(** ** What a session writes *)
Section session.
Context (os : TargetOS) (p : Params) (e : Env).

(** Nothing; a word to wait; or one to leave it alone, after which the pipe is
    closed. *)
Inductive PipeLog : list Event → Prop :=
| log_silent : PipeLog []
| log_join b : PipeLog [Call (SPipe Join) b]
| log_detach_failed : PipeLog [Call (SPipe Detach) false]
| log_detached : e_setsid e = true → server_ready e = true →
    PipeLog [Call (SPipe Detach) true; Call SClosePipe true].
#[local] Hint Constructors PipeLog : core.

Lemma prepare_pipe : pp PipeLog (prepare os p e) [] (λ can_detach ev, can_detach = e_setsid e ∧ ev = []).
Proof.
  unfold prepare, prepare_key_file_for_vm. repeat pp_op; try done; try constructor.
Qed.

Lemma await_server_pipe :
  pp PipeLog (await_server os p e) [] (λ r ev, r.2 = e_nfs e ∧ ev = []).
Proof.
  unfold await_server, services_to_restore, setup_rpcbind_services, unregister_services, register_services.
  repeat pp_op; try done; constructor.
Qed.

(** What the server's failure or readiness leads to. *)
Definition told (ev : list Event) : Prop :=
  ev = [Call (SPipe Join) true] ∨
  e_setsid e = true ∧ server_ready e = true ∧ ev = [Call (SPipe Detach) true; Call SClosePipe true].

Lemma told_log ev : told ev → PipeLog ev.
Proof. by intros [->|(? & ? & ->)]; auto. Qed.
#[local] Hint Resolve told_log : core.

Lemma serve_pipe can_detach action :
  can_detach = e_setsid e → server_ready e = true → pp PipeLog (serve p e can_detach action) [] (λ _ ev, told ev).
Proof.
  intros Hc Hr. unfold serve. repeat pp_op; auto; unfold told; auto.
Qed.

Lemma session_pipe :
  e_fork e ≠ Some false →
  let '(r, tr) := session os p e in PipeLog (pipe_events tr) ∧ (r ≠ None → told (pipe_events tr)).
Proof.
  intros Hf. assert (pp PipeLog (run_mount_child os p e) [] (λ _ ev, told ev)) as Hpp.
  { unfold run_mount_child. apply pp_bind. eapply pp_mono; [apply prepare_pipe|]. intros can_detach ? [Hc ->].
    apply pp_bind, pp_call; [|auto]. intros [] Hfork; [|done]. cbn [pipe_events List.filter on_pipe app].
    unfold supervise. apply pp_bind. eapply pp_mono; [apply await_server_pipe|]. intros [[a b] nfs] ? [Hn ->].
    cbn in Hn. subst nfs. apply pp_bind. eapply (pp_mono _ _ _ (λ _ ev, told ev)).
    - destruct (e_nfs e) eqn:En.
      + apply serve_pipe; [done|]. unfold server_ready. by rewrite En.
      + repeat pp_op; auto. by left.
    - intros ? ev Ht. repeat pp_op. by rewrite app_nil_r. }
  specialize (Hpp start eq_refl). unfold session. destruct (run_mount_child os p e start) as [r st].
  assert (pipe_events (leave_scope os st) = pipe_events (trace st)) as ->.
  { unfold leave_scope, pipe_events. rewrite !List.filter_app. fold (pipe_events (Ran <$> (drop_deferred (deferred_ st)).*2)).
    rewrite pipe_ran. destruct os; cbn; by rewrite !app_nil_r. }
  destruct r as [a|]; [|done]. split; [by apply told_log|done].
Qed.
End session.

(** ** What the foreground process does *)
Lemma first_line reads w :
  (∀ l, l ∈ reads → l = line_of Detach ∨ l = line_of Join) →
  run_mount_parent (Some <$> reads) w =
    if decide (head reads = Some (line_of Detach)) then None else run_mount_parent [] w.
Proof.
  intros Hl. destruct reads as [|l reads]; [done|]. destruct (Hl l) as [-> | ->]; [by left|by destruct w|by destruct w].
Qed.

Lemma log_lines e ev : PipeLog e ev →
  lines_written ev = [line_of Detach] ∧ e_setsid e = true ∧ server_ready e = true ∧ pipe_closed ev = true ∨
  (∀ l, l ∈ lines_written ev → l = line_of Join) ∧ pipe_closed ev = false.
Proof.
  destruct 1 as [|b| |]; [right..|by left]; (split; [|done]); intros l Hl; [by apply elem_of_nil in Hl| |by apply elem_of_nil in Hl].
  destruct b; cbn in Hl; [by apply list_elem_of_singleton in Hl|by apply elem_of_nil in Hl].
Qed.

Lemma lines_pipe tr : lines_written (pipe_events tr) = lines_written tr.
Proof.
  unfold lines_written, pipe_events. induction tr as [|ev tr IH]; [done|]. cbn [List.filter].
  destruct ev as [s b|c]; [|exact IH]. by destruct s; cbn [on_pipe omap list_omap]; destruct b; csimpl; rewrite ?IH.
Qed.
Lemma closed_pipe tr : pipe_closed (pipe_events tr) = pipe_closed tr.
Proof.
  unfold pipe_closed, pipe_events. induction tr as [|ev tr IH]; [done|]. cbn [List.filter].
  destruct ev as [s b|c]; [|exact IH]. by destruct s; cbn; rewrite ?IH.
Qed.

(** C3: The foreground process does what the session decides, whatever succeeds or
    fails and however the VM's process, which shares the pipe and can only ask it
    to wait, comes in between. It leaves with success only if the session has a
    session of its own and a ready server, has said so and has closed the pipe;
    otherwise it waits, and the shell sees the exit code of the session. *)
Theorem foreground_follows os p e writable r tr res lines vm_lines reads :
  session os p e = (r, tr) → e_fork e ≠ Some false → end_of_child writable r tr = (res, lines) →
  (∀ l, l ∈ vm_lines → l = line_of Join) → interleave [lines; vm_lines] reads →
  let code := WEXITSTATUS (main false (run_mount_parent (Some <$> reads) (Waited (main true res)))) in
  head reads = Some (line_of Detach) ∧ lines = [line_of Detach] ∧ pipe_closed tr = true ∧
    e_setsid e = true ∧ server_ready e = true ∧ code = 0%Z ∨
  head reads ≠ Some (line_of Detach) ∧ code = (run true res mod 256)%Z ∧
    (pipe_closed tr = false → line_of Detach ∉ reads ∧ (r ≠ None → lines ≠ [])).
Proof.
  intros Hs Hf Hend Hvm Hi. pose proof (session_pipe os p e Hf) as Hp. rewrite Hs in Hp. destruct Hp as [Hlog Htold].
  apply log_lines in Hlog. rewrite lines_pipe, closed_pipe in Hlog.
  assert (∀ l, l ∈ reads ↔ l ∈ lines ∨ l ∈ vm_lines) as Hreads.
  { intros l. rewrite (elem_of_interleave _ _ _ Hi). set_solver. }
  assert (lines = [line_of Detach] ∧ pipe_closed tr = true ∧ e_setsid e = true ∧ server_ready e = true ∨
          (∀ l, l ∈ lines → l = line_of Join) ∧ pipe_closed tr = false ∧ (r ≠ None → lines ≠ [])) as Hlines.
  { unfold end_of_child in Hend. destruct Hlog as [(Hl & Hc & Hr & Hcl)|(Hl & Hcl)]; rewrite Hcl in Hend.
    - left. destruct (session_error r); [destruct writable|]; injection Hend as <- <-; by rewrite ?Hl, ?app_nil_r.
    - right. assert (r ≠ None → lines_written tr ≠ []) as Hne.
      { intros Hr. specialize (Htold Hr). rewrite <-lines_pipe. rewrite <-closed_pipe in Hcl.
        destruct Htold as [Ht|(_ & _ & Ht)]; rewrite Ht in Hcl |- *; done. }
      destruct (session_error r); [destruct writable|]; injection Hend as <- <-; split_and!; try done.
      + intros l [?|?%list_elem_of_singleton]%elem_of_app; auto.
      + intros _. by destruct (lines_written tr). }
  cbv zeta. rewrite first_line; [|intros l [?|?]%Hreads; [|auto]].
  - destruct (decide (head reads = _)) as [Hh|Hh].
    + left. destruct Hlines as [(-> & -> & -> & ->)|(Hl & _)]; [done|]. exfalso.
      destruct reads as [|l reads]; [done|]. injection Hh as ->.
      destruct (proj1 (Hreads (line_of Detach))) as [?%Hl|?%Hvm]; [by left|done..].
    + right. split_and!; [done|apply joined_code|]. intros Hcl.
      destruct Hlines as [(_ & ? & _)|(Hl & _ & Hne)]; [congruence|]. split; [|done].
      intros [?%Hl|?%Hvm]%Hreads; done.
  - destruct Hlines as [(-> & _)|(Hl & _)]; [left; by apply list_elem_of_singleton|right; auto].
Qed.

(** A session that fails after it detached has closed the pipe: its last word is
    no line of it, and the result is that of a write to a descriptor that is not
    the pipe. *)
Lemma last_word_misplaced writable err tr r :
  session_error r = Some err → pipe_closed tr = true →
  end_of_child writable r tr =
    (if writable then Some err else Some (OtherError "Failed to write to pipe"), lines_written tr).
Proof. intros He Hc. unfold end_of_child. rewrite He, Hc, app_nil_r. by destruct writable. Qed.

(** ** Sessions *)
Module Witness.
Import Session.Witness.

Definition lines : list string := [line_of Detach].
Lemma happy_end : end_of_child true (session LinuxHost params happy).1 (session LinuxHost params happy).2 = (None, lines).
Proof. reflexivity. Qed.
Lemma happy_pair : session LinuxHost params happy = ((session LinuxHost params happy).1, (session LinuxHost params happy).2).
Proof. apply surjective_pairing. Qed.

(** The session detaches, then the VM's process asks to wait: too late. *)
Lemma happy_reads : interleave [lines; [line_of Join]] [line_of Detach; line_of Join].
Proof.
  apply (interleave_cons [] (line_of Detach) [] [[line_of Join]]).
  apply (interleave_cons [[]] (line_of Join) [] []). apply interleave_nil. by repeat constructor.
Qed.

Example foreground_follows_witness :
  interleave [lines; [line_of Join]] [line_of Detach; line_of Join] ∧
  let code := WEXITSTATUS (main false (run_mount_parent (Some <$> [line_of Detach; line_of Join]) (Waited (main true None)))) in
  head [line_of Detach; line_of Join] = Some (line_of Detach) ∧ lines = [line_of Detach] ∧
    pipe_closed (session LinuxHost params happy).2 = true ∧
    e_setsid happy = true ∧ server_ready happy = true ∧ code = 0%Z ∨
  head [line_of Detach; line_of Join] ≠ Some (line_of Detach) ∧ code = (run true None mod 256)%Z ∧
    (pipe_closed (session LinuxHost params happy).2 = false →
     line_of Detach ∉ [line_of Detach; line_of Join] ∧ ((session LinuxHost params happy).1 ≠ None → lines ≠ [])).
Proof.
  split; [exact happy_reads|].
  apply (foreground_follows LinuxHost params happy true _ _ None lines [line_of Join] [line_of Detach; line_of Join] happy_pair).
  - discriminate.
  - exact happy_end.
  - intros l Hl. by apply list_elem_of_singleton in Hl.
  - exact happy_reads.
Defined.

(** A session that cannot have its own asks to be waited for. *)
Example failure_waited_for :
  (end_of_child true (session LinuxHost params unregistered).1 (session LinuxHost params unregistered).2).2 = [line_of Join].
Proof. reflexivity. Qed.
End Witness.
