(* ===== verification/VmDisk.v ===== *)
(** * Disks inside the VM ([vmproxy/src/main.rs] [VmDiskContext],
      [export_args_for_path]; [vmproxy/src/zfs.rs])

    What the agent in the VM knows about the disk it serves: how it is
    decrypted, where it is found, what is on it, how it is mounted and
    exported.  The commands it runs (blkid, mdadm, zpool, mount) are
    parameters; the order of the calls is in the file [Agent]. *)
From S2P Require Import Prelude Common Paths Instance Reader.
From Stdlib Require Import Ascii.

(** ** [MountArgs] *)
Record MountArgs := mkArgs {
  a_disk_path : string; a_mount_name : string; a_custom_mount_point : bool;
  a_fs_type : option string; a_fs_driver : option string; a_mount_options : option string;
  a_decrypt : option string; a_assemble_raid : bool; a_metadata_probed : bool;
  a_action : option string; a_key_file : option string; a_nfs_export_opts : option string;
  a_ignore_permissions : bool; a_bind_addrs : list string; a_multi_device : bool;
  a_reuse_passphrase : bool; a_host_rpcbind : bool; a_native_network : option string; a_verbose : bool;
}.

(** A ZFS dataset with a mount point. *)
Record Mountpoint := mkMp { mp_name : string; mp_path : string; mp_pool : string; mp_encrypted : bool }.
#[global] Instance Mountpoint_eq_dec : EqDecision Mountpoint.
Proof. solve_decision. Defined.

(** ** [VmDiskContext] *)
Record VmDiskContext := mkDsk {
  disk_path : string; v_fs_type : option string; v_fs_driver : option string;
  v_mount_options : option string; v_mount_name : string; v_verbose : bool;
  v_metadata_probed : bool; mapper_ident_prefix : string; cryptsetup_op : string;
  v_assemble_raid : bool; env_pwds : gmap N string; key_file_path : option string;
  is_raid : bool; is_zfs : bool; zfs_mountpoints : list Mountpoint; zfs_pools : list string;
}.

Definition VmDiskContext_new (cli : MountArgs) (pwds : gmap N string) (key_file : option string) : VmDiskContext :=
  let '(prefix, op) :=
    if bool_decide (a_fs_type cli = Some "BitLocker") then ("btlk", "bitlkOpen") else ("luks", "open") in
  {| disk_path := a_disk_path cli; v_fs_type := a_fs_type cli; v_fs_driver := a_fs_driver cli;
     v_mount_options := a_mount_options cli; v_mount_name := a_mount_name cli; v_verbose := a_verbose cli;
     v_metadata_probed := a_metadata_probed cli; mapper_ident_prefix := prefix; cryptsetup_op := op;
     v_assemble_raid := a_assemble_raid cli; env_pwds := pwds; key_file_path := key_file;
     is_raid := false; is_zfs := false; zfs_mountpoints := []; zfs_pools := [] |}.

Definition is_logical (d : VmDiskContext) : bool :=
  Str.starts_with "/dev/mapper" (disk_path d) || is_raid d.

Definition specified_read_only (d : VmDiskContext) : bool := is_read_only_set (v_mount_options d).

(** [get_pwds_from_env] *)
Definition ALFS_PASSPHRASE_PREFIX : string := "ALFS_PASSPHRASE".
Definition get_pwds_from_env (vars_os : list (string * string)) : gmap N string :=
  foldl (λ (pwds : gmap N string) (kv : string * string),
      match Str.strip_prefix ALFS_PASSPHRASE_PREFIX kv.1 with
      | Some s => <[default 1%N (Str.parse_uint u64_max s) := kv.2]> pwds
      | None => pwds
      end) ∅ vars_os.

(** *** Updates *)
Definition with_disk (d : VmDiskContext) (path : string) (fs : option string) (raid zfs : bool) : VmDiskContext := {|
  disk_path := path; v_fs_type := fs; v_fs_driver := v_fs_driver d; v_mount_options := v_mount_options d;
  v_mount_name := v_mount_name d; v_verbose := v_verbose d; v_metadata_probed := v_metadata_probed d;
  mapper_ident_prefix := mapper_ident_prefix d; cryptsetup_op := cryptsetup_op d;
  v_assemble_raid := v_assemble_raid d; env_pwds := env_pwds d; key_file_path := key_file_path d;
  is_raid := raid; is_zfs := zfs; zfs_mountpoints := zfs_mountpoints d; zfs_pools := zfs_pools d |}.
Definition with_mount_name (d : VmDiskContext) (name : string) : VmDiskContext := {|
  disk_path := disk_path d; v_fs_type := v_fs_type d; v_fs_driver := v_fs_driver d;
  v_mount_options := v_mount_options d; v_mount_name := name; v_verbose := v_verbose d;
  v_metadata_probed := v_metadata_probed d; mapper_ident_prefix := mapper_ident_prefix d;
  cryptsetup_op := cryptsetup_op d; v_assemble_raid := v_assemble_raid d; env_pwds := env_pwds d;
  key_file_path := key_file_path d; is_raid := is_raid d; is_zfs := is_zfs d;
  zfs_mountpoints := zfs_mountpoints d; zfs_pools := zfs_pools d |}.
Definition with_pools (d : VmDiskContext) (mps : list Mountpoint) (pools : list string) : VmDiskContext := {|
  disk_path := disk_path d; v_fs_type := v_fs_type d; v_fs_driver := v_fs_driver d;
  v_mount_options := v_mount_options d; v_mount_name := v_mount_name d; v_verbose := v_verbose d;
  v_metadata_probed := v_metadata_probed d; mapper_ident_prefix := mapper_ident_prefix d;
  cryptsetup_op := cryptsetup_op d; v_assemble_raid := v_assemble_raid d; env_pwds := env_pwds d;
  key_file_path := key_file_path d; is_raid := is_raid d; is_zfs := is_zfs d;
  zfs_mountpoints := mps; zfs_pools := pools |}.

(** ** Tags on the console *)
Inductive Tag :=
| TReady | TLabel (l : string) | TType (t : string) | TChangedToRo | TExport (p : string)
| TPrompt (start : bool) | TForce (on : bool) | TExitCode.
#[global] Instance Tag_eq_dec : EqDecision Tag.
Proof. solve_decision. Defined.

Definition tag_line (t : Tag) : string :=
  match t with
  | TReady => "<anylinuxfs-vmproxy-ready>"
  | TLabel l => "<anylinuxfs-label:" +:+ l +:+ ">"
  | TType t => "<anylinuxfs-type:" +:+ t +:+ ">"
  | TChangedToRo => "<anylinuxfs-mount:changed-to-ro>"
  | TExport p => "<anylinuxfs-nfs-export:" +:+ p +:+ ">"
  | TPrompt true => "<anylinuxfs-passphrase-prompt:start>"
  | TPrompt false => "<anylinuxfs-passphrase-prompt:end>"
  | TForce true => "<anylinuxfs-force-output:on>"
  | TForce false => "<anylinuxfs-force-output:off>"
  | TExitCode => "<anylinuxfs-exit-code:1>"
  end.
(** The line as the host reads it from the terminal. *)
Definition console_line (t : Tag) : string := tag_line t +:+ String CR (String LF "").

(** ** [decrypt] *)
(** How cryptsetup gets the passphrase. *)
Inductive Input := Piped (pwd : string) | Prompted | KeyFile.

Definition env_has_passphrase (d : VmDiskContext) : bool := bool_decide (env_pwds d ≠ ∅).

(** [input_mode_fn]: is the standard input of cryptsetup a pipe? *)
Definition stdin_piped (d : VmDiskContext) (reuse_passphrase : bool) : bool :=
  bool_decide (key_file_path d = None) && (reuse_passphrase || env_has_passphrase d).

Definition cryptsetup_args (d : VmDiskContext) (i : nat) (dev : string) : list string :=
  ["-T1"; cryptsetup_op d] ++
  (match key_file_path d with Some k => ["--key-file"; k] | None => [] end) ++
  [dev; mapper_ident_prefix d +:+ Str.of_nat i].

(** What device number [i] (from 0) is opened with; the panic is the [unwrap]
    of a standard input that is no pipe. *)
Definition passphrase_input (d : VmDiskContext) (reuse_passphrase : bool) (pwd_for_all : option string)
    (i : nat) (dev : string) : outcome Input :=
  match (match pwd_for_all with Some p => Some p | None => env_pwds d !! N.of_nat (S i) end) with
  | Some pwd => if stdin_piped d reuse_passphrase then Ok (Piped pwd) else Panic
  | None =>
      if bool_decide (is_Some (key_file_path d)) then Ok KeyFile
      else if env_has_passphrase d then
        Err ("Missing environment variable " +:+ ALFS_PASSPHRASE_PREFIX +:+ Str.of_nat (S i) +:+
             " for device " +:+ dev)
      else Ok Prompted
  end.

(** ** The mount command *)
Definition mount_args (d : VmDiskContext) (mount_point : string) : list string :=
  ["-t"; default "auto" (match v_fs_driver d with Some x => Some x | None => v_fs_type d end);
   disk_path d; mount_point] ++
  (match v_mount_options d with Some opts => ["-o"; opts] | None => [] end) ++
  (if v_verbose d then ["-v"] else []).

(** ** NFS exports *)
Section Exports.
(** Does the path lie on a FUSE file system ([statfs])? *)
Context (guest : OSType) (is_fuse : string → outcome bool).

Definition export_args_for_path (path export_mode : string) (fsid : nat)
    (export_args_override : option string) : outcome string :=
  match guest with
  | Linux =>
      let export_args := match export_args_override with
        | Some o => o
        | None => export_mode +:+ ",no_subtree_check,no_root_squash,insecure"
        end in
      fuse ← with_context ("statfs failed for " +:+ path) (is_fuse path);
      Ok (if fuse && negb (Str.contains "fsid=" export_args)
          then export_args +:+ ",fsid=" +:+ Str.of_nat fsid else export_args)
  | FreeBSD =>
      Ok (match export_args_override with
          | Some o => o
          | None => (if decide (export_mode = "ro") then "-ro " else "") +:+ "-maproot=root"
          end)
  end.

Definition export_set (d : VmDiskContext) (export_paths : list string) : gset string :=
  list_to_set export_paths ∪ (if is_zfs d then list_to_set (mp_path <$> zfs_mountpoints d) else ∅).

Fixpoint export_entries (export_mode : string) (o : option string) (i : nat)
    (ps : list string) : outcome (list (string * string)) :=
  match ps with
  | [] => Ok []
  | p :: ps =>
      a ← export_args_for_path p export_mode i o;
      es ← export_entries export_mode o (S i) ps;
      Ok ((p, a) :: es)
  end.

Definition export_line (e : string * string) : string :=
  match guest with
  | Linux => quote +:+ e.1 +:+ quote +:+ "      *(" +:+ e.2 +:+ ")" +:+ String LF ""
  | FreeBSD => e.1 +:+ " " +:+ e.2 +:+ ",network 0.0.0.0/0" +:+ String LF ""
  end.

(** The exports in their order, with their arguments. *)
Definition all_exports (d : VmDiskContext) (export_paths : list string)
    (export_mode : string) (o : option string) : outcome (list (string * string)) :=
  export_entries export_mode o 0 (btree_elements (export_set d export_paths)).

(** The file of exports. *)
Definition exports_content (es : list (string * string)) : string := concat_str (export_line <$> es).
End Exports.

(** ** ZFS *)
Record Dataset := mkDataset { ds_name : string; ds_pool : string; properties : option (gmap string string) }.

Definition EXCLUDED_MOUNTPOINT_TYPES : list string := ["-"; "legacy"; "none"].

Definition dataset_mountpoint (ds : Dataset) : option Mountpoint :=
  props ← properties ds;
  mount_prop ← props !! "mountpoint";
  canmount ← props !! "canmount";
  if decide ((mount_prop ∉ EXCLUDED_MOUNTPOINT_TYPES) ∧ canmount ≠ "off") then
    Some (mkMp (ds_name ds) mount_prop (ds_pool ds)
            (match props !! "encryption" with Some e => bool_decide (e ≠ "off") | None => false end))
  else None.

Definition path_le (a b : Mountpoint) : Prop := str_le (mp_path a) (mp_path b).
#[global] Instance path_le_dec : RelDecision path_le.
Proof. intros a b. unfold path_le. apply _. Defined.

(** [mountpoints_from_json], once the text is parsed into the data sets; the
    order in which a hash set is read is a parameter. *)
Definition mountpoints (set_order : list Mountpoint → list Mountpoint) (datasets : list Dataset) :
    list Mountpoint :=
  merge_sort path_le (set_order (remove_dups (omap dataset_mountpoint datasets))).

Definition unique_pools (mps : list Mountpoint) : list string :=
  foldl (λ pools mp, if decide (mp_pool mp ∈ pools) then pools else pools ++ [mp_pool mp]) [] mps.

(** A command of [mount_datasets], and its input. *)
Inductive ZfsCmd :=
| LoadKey (key_file pool : string)
| ZfsMount (load_key : bool) (name : string) (pwd : option string).

Definition zfs_script (c : ZfsCmd) : string :=
  match c with
  | LoadKey key_file pool => "zfs load-key -L file://" +:+ key_file +:+ " " +:+ pool
  | ZfsMount load_key name _ => "zfs mount " +:+ (if load_key then "-l" else "") +:+ " " +:+ name
  end.

(** The commands for one data set: the key of its pool is loaded from the key
    file before the first encrypted one. *)
Definition dataset_cmds (key_file : option string) (env_pwds : gmap N string) (loaded : list string) (i : nat)
    (mp : Mountpoint) : list ZfsCmd * list string :=
  let '(cmds, loaded) :=
    match key_file with
    | Some k => if mp_encrypted mp && negb (bool_decide (mp_pool mp ∈ loaded))
                then ([LoadKey k (mp_pool mp)], mp_pool mp :: loaded) else ([], loaded)
    | None => ([], loaded)
    end in
  (cmds ++ [ZfsMount (negb (bool_decide (mp_pool mp ∈ loaded))) (mp_name mp) (env_pwds !! N.of_nat (S i))], loaded).

(** The commands of [mount_datasets]; it stops at the first that fails. *)
Fixpoint datasets_cmds (key_file : option string) (env_pwds : gmap N string) (loaded : list string) (i : nat)
    (mps : list Mountpoint) : list ZfsCmd :=
  match mps with
  | [] => []
  | mp :: mps =>
      let '(cmds, loaded) := dataset_cmds key_file env_pwds loaded i mp in
      cmds ++ datasets_cmds key_file env_pwds loaded (S i) mps
  end.

(** The script that exports the pools, the last one first. *)
Definition zfs_export_script (d : VmDiskContext) : string :=
  Str.join " && " ((λ pool, "zpool export " +:+ pool) <$> reverse (zfs_pools d)).

(** ** Lemmas on exports *)
Section ExportFacts.
Context (guest : OSType) (is_fuse : string → outcome bool).

(** The arguments before an identifier is added. *)
Definition base_args (mode : string) (o : option string) : string :=
  match guest with
  | Linux => default (mode +:+ ",no_subtree_check,no_root_squash,insecure") o
  | FreeBSD => default ((if decide (mode = "ro") then "-ro " else "") +:+ "-maproot=root") o
  end.

Lemma export_args_base path mode fsid o a :
  export_args_for_path guest is_fuse path mode fsid o = Ok a →
  a = base_args mode o ∨
  (guest = Linux ∧ is_fuse path = Ok true ∧ Str.contains "fsid=" (base_args mode o) = false ∧
   a = base_args mode o +:+ ",fsid=" +:+ Str.of_nat fsid).
Proof.
  unfold export_args_for_path, base_args. destruct guest.
  - intros (fuse & Hf%with_context_Ok & [= <-])%outcome_bind_Ok.
    change (match o with Some o => o | None => _ end) with
      (default (mode +:+ ",no_subtree_check,no_root_squash,insecure") o).
    destruct fuse, (Str.contains "fsid=" _) eqn:E; simpl; auto.
  - intros [= <-]. left. by destruct o.
Qed.

Lemma export_entries_lookup mode o i ps es k p a :
  export_entries guest is_fuse mode o i ps = Ok es → es !! k = Some (p, a) →
  ps !! k = Some p ∧ export_args_for_path guest is_fuse p mode (i + k) o = Ok a.
Proof.
  revert i es k; induction ps as [|q ps IH]; intros i es k; simpl; [by intros [= <-]|].
  intros (b & Hb & (es' & Hes & [= <-])%outcome_bind_Ok)%outcome_bind_Ok.
  destruct k as [|k]; simpl.
  - intros [= <- <-]. by rewrite Nat.add_0_r.
  - intros Hk. destruct (IH _ _ _ Hes Hk) as [? Ha]. split; [done|]. by rewrite Nat.add_succ_r.
Qed.

Lemma export_entries_fst mode o i ps es : export_entries guest is_fuse mode o i ps = Ok es → es.*1 = ps.
Proof.
  revert i es; induction ps as [|p ps IH]; intros i es; simpl; [by intros [= <-]|].
  intros (a & _ & (es' & Hes' & [= <-])%outcome_bind_Ok)%outcome_bind_Ok. simpl. f_equal. by eapply IH.
Qed.

(** The exports are the requested paths and, for ZFS, the mount points of
    all data sets, each exactly once and sorted; and the file systems of user
    space, which the kernel cannot tell apart, get identifiers that differ. *)
Lemma exports_listed d paths mode o es
    (Hes : all_exports guest is_fuse d paths mode o = Ok es) :
  Sorted.StronglySorted str_le es.*1 ∧ NoDup es.*1 ∧
  (∀ p, p ∈ es.*1 ↔ p ∈ paths ∨ (is_zfs d = true ∧ ∃ mp, mp ∈ zfs_mountpoints d ∧ mp_path mp = p)) ∧
  (∀ i j p q a b, es !! i = Some (p, a) → es !! j = Some (q, b) → i ≠ j →
    a ≠ base_args mode o → b ≠ base_args mode o → a ≠ b).
Proof.
  unfold all_exports in Hes. pose proof (export_entries_fst _ _ _ _ _ Hes) as ->. split_and!.
  - apply StronglySorted_merge_sort; apply _.
  - apply NoDup_btree_elements.
  - intros p. rewrite elem_of_btree_elements. unfold export_set. rewrite elem_of_union, elem_of_list_to_set.
    destruct (is_zfs d); [|set_solver]. rewrite elem_of_list_to_set, list_elem_of_fmap. naive_solver.
  - intros i j p q a b Hi Hj Hij Ha Hb ->.
    destruct (export_entries_lookup _ _ _ _ _ _ _ _ Hes Hi) as [_ [?|(_ & _ & _ & Ea)]%export_args_base]; [done|].
    destruct (export_entries_lookup _ _ _ _ _ _ _ _ Hes Hj) as [_ [?|(_ & _ & _ & Eb)]%export_args_base]; [done|].
    rewrite Ea in Eb. apply StrFacts.app_inj_l, StrFacts.app_inj_l, StrFacts.of_N_inj in Eb. lia.
Qed.

(** The identifier is added exactly where it is needed. *)
Lemma fuse_export_identified d paths mode o es i p a :
  all_exports guest is_fuse d paths mode o = Ok es → es !! i = Some (p, a) →
  guest = Linux → is_fuse p = Ok true → Str.contains "fsid=" (base_args mode o) = false →
  a = base_args mode o +:+ ",fsid=" +:+ Str.of_nat i.
Proof.
  intros Hes Hi Hg Hf Hc. destruct (export_entries_lookup _ _ _ _ _ _ _ _ Hes Hi) as [_ Ha].
  clear Hes. unfold export_args_for_path, base_args in *. rewrite Hg in *. rewrite Hf in Ha. simpl in Ha.
  injection Ha as <-. by destruct o; simpl in *; rewrite Hc.
Qed.
End ExportFacts.

(** ** Lemmas on data sets *)
Lemma mountpoints_elem set_order datasets mp :
  (∀ l, set_order l ≡ₚ l) →
  mp ∈ mountpoints set_order datasets ↔ ∃ ds, ds ∈ datasets ∧ dataset_mountpoint ds = Some mp.
Proof.
  intros Hperm. unfold mountpoints. rewrite merge_sort_Permutation, Hperm, elem_of_remove_dups.
  apply list_elem_of_omap.
Qed.

#[global] Instance path_le_trans : Transitive path_le.
Proof. intros a b c. unfold path_le. apply transitivity. Qed.
#[global] Instance path_le_total : Total path_le.
Proof. intros a b. unfold path_le. apply total. apply _. Qed.

(** The data sets that a sequence of commands mounts, and the pools whose key
    it loads. *)
Definition mounts (cmds : list ZfsCmd) : list string :=
  omap (λ c, match c with ZfsMount _ name _ => Some name | _ => None end) cmds.
Definition loads (cmds : list ZfsCmd) : list string :=
  omap (λ c, match c with LoadKey _ pool => Some pool | _ => None end) cmds.

Lemma mounts_app c1 c2 : mounts (c1 ++ c2) = mounts c1 ++ mounts c2.
Proof. apply omap_app. Qed.
Lemma loads_app c1 c2 : loads (c1 ++ c2) = loads c1 ++ loads c2.
Proof. apply omap_app. Qed.

Lemma dataset_cmds_spec key pwds loaded i mp :
  let '(cmds, loaded') := dataset_cmds key pwds loaded i mp in
  mounts cmds = [mp_name mp] ∧ loaded' = loads cmds ++ loaded ∧ NoDup (loads cmds) ∧
  (∀ p, p ∈ loads cmds → (p ∉ loaded) ∧ p = mp_pool mp ∧ is_Some key ∧ mp_encrypted mp = true) ∧
  (is_Some key → mp_encrypted mp = true → mp_pool mp ∈ loaded').
Proof.
  unfold dataset_cmds. destruct key as [k|].
  - destruct (mp_encrypted mp) eqn:E; simpl.
    + case_bool_decide; simpl; (split_and!; [done..| | |]).
      * constructor.
      * by intros p ?%elem_of_nil.
      * done.
      * apply NoDup_singleton.
      * intros p ->%list_elem_of_singleton. eauto.
      * intros _ _. by left.
    + split_and!; [done..| | |]; [constructor|by intros p ?%elem_of_nil|done].
  - split_and!; [done..| | |]; [constructor|by intros p ?%elem_of_nil|by intros [? ?]].
Qed.

Lemma datasets_cmds_spec key pwds loaded i mps :
  let cmds := datasets_cmds key pwds loaded i mps in
  mounts cmds = mp_name <$> mps ∧ NoDup (loads cmds) ∧ (∀ p, p ∈ loads cmds → p ∉ loaded) ∧
  (∀ p, p ∈ loads cmds ↔ (p ∉ loaded) ∧ is_Some key ∧ ∃ mp, mp ∈ mps ∧ mp_encrypted mp = true ∧ mp_pool mp = p).
Proof.
  revert loaded i; induction mps as [|mp mps IH]; intros loaded i; simpl.
  { split_and!; [done|constructor|by intros p ?%elem_of_nil|]. intros p. set_solver. }
  pose proof (dataset_cmds_spec key pwds loaded i mp) as Hd.
  destruct (dataset_cmds key pwds loaded i mp) as [c1 loaded']. destruct Hd as (Hm & -> & Hnd & Hl & Hk).
  destruct (IH (loads c1 ++ loaded) (S i)) as (Hm2 & Hnd2 & Hl2 & Hk2).
  rewrite mounts_app, loads_app, Hm, Hm2. split_and!; [done| | |].
  - apply NoDup_app. split_and!; [done| |done]. intros p Hp Hp2%Hl2. set_solver.
  - intros p. rewrite elem_of_app. intros [Hp|Hp]; [by apply Hl|]. apply Hl2 in Hp. set_solver.
  - intros p. rewrite elem_of_app, Hk2. split.
    + intros [Hp|(Hp & ? & mp' & ? & ?)]; [destruct (Hl p Hp) as (? & -> & ? & ?)|]; set_solver.
    + intros (Hp & Hkey & mp' & Hin & He & <-). destruct (decide (mp_pool mp' ∈ loads c1)); [by left|].
      right. split_and!; [set_solver|done|]. apply elem_of_cons in Hin as [->|Hin]; [|eauto].
      specialize (Hk Hkey He). set_solver.
Qed.

(** Every data set with a mount point is mounted exactly once, a directory
    before those below it, and the key of a pool is loaded from the key file
    exactly once if one of its data sets is encrypted. *)
Lemma datasets_mounted_in_order set_order key pwds datasets (Hperm : ∀ l, set_order l ≡ₚ l) :
  let mps := mountpoints set_order datasets in
  let cmds := datasets_cmds key pwds [] 0 mps in
  NoDup mps ∧ mounts cmds = mp_name <$> mps ∧
  (∀ mp, mp ∈ mps ↔ ∃ ds, ds ∈ datasets ∧ dataset_mountpoint ds = Some mp) ∧
  (∀ i j a b r, mps !! i = Some a → mps !! j = Some b →
    mp_path b = mp_path a +:+ "/" +:+ r → i < j) ∧
  NoDup (loads cmds) ∧
  (∀ pool, pool ∈ loads cmds ↔ is_Some key ∧ ∃ mp, mp ∈ mps ∧ mp_encrypted mp = true ∧ mp_pool mp = pool).
Proof.
  intros mps cmds. destruct (datasets_cmds_spec key pwds [] 0 mps) as (Hm & Hnd & _ & Hk).
  split_and!; [|done| | |done|].
  - unfold mps, mountpoints. rewrite merge_sort_Permutation, Hperm. apply NoDup_remove_dups.
  - intros mp. by apply mountpoints_elem.
  - intros i j a b r Hi Hj Hp. destruct (decide (i < j)) as [|Hij]; [done|].
    assert (str_le (mp_path a) (mp_path b)) as Hle by (rewrite Hp; apply str_le_app).
    assert (mp_path b = mp_path a) as E.
    { destruct (decide (i = j)) as [->|]; [congruence|]. apply (anti_symm str_le); [|done].
      eapply (sorted_lookup path_le mps j i); [apply StronglySorted_merge_sort; apply _|done..|lia]. }
    rewrite Hp in E. apply (f_equal String.length) in E. rewrite !StrFacts.length_app in E. simpl in E. lia.
  - intros pool. unfold cmds. rewrite (Hk pool). set_solver.
Qed.

(** ** Concrete inputs *)
Module Witness.
Definition sample_args (fs : string) (devs : option string) : MountArgs := {|
  a_disk_path := "/dev/vda"; a_mount_name := "disk7s1"; a_custom_mount_point := false;
  a_fs_type := Some fs; a_fs_driver := None; a_mount_options := None; a_decrypt := devs;
  a_assemble_raid := false; a_metadata_probed := false; a_action := None; a_key_file := None;
  a_nfs_export_opts := None; a_ignore_permissions := false; a_bind_addrs := ["127.0.0.1"];
  a_multi_device := false; a_reuse_passphrase := false; a_host_rpcbind := true;
  a_native_network := None; a_verbose := false |}.

Definition dataset (name path pool encryption : string) : Dataset :=
  mkDataset name pool (Some (list_to_map [("mountpoint", path); ("canmount", "on"); ("encryption", encryption)])).
Definition sample_datasets : list Dataset :=
  [dataset "tank/home/u" "/mnt/zfs_root/home/u" "tank" "aes-256-gcm";
   dataset "tank/home" "/mnt/zfs_root/home" "tank" "aes-256-gcm"; dataset "tank" "none" "tank" "off"].

Definition sample_disk : VmDiskContext :=
  with_pools (VmDiskContext_new (sample_args "crypto_LUKS" None) (list_to_map [(1%N, "one"); (2%N, "two")]) None)
    [] [].

Example exports_listed_witness :
  let paths := ["/mnt/b"; "/mnt/a"; "/mnt/b"] in
  let es := [("/mnt/a", "rw,no_subtree_check,no_root_squash,insecure,fsid=0");
             ("/mnt/b", "rw,no_subtree_check,no_root_squash,insecure,fsid=1")] in
  Sorted.StronglySorted str_le es.*1 ∧ NoDup es.*1 ∧
  (∀ p, p ∈ es.*1 ↔ p ∈ paths ∨ (is_zfs sample_disk = true ∧ ∃ mp, mp ∈ zfs_mountpoints sample_disk ∧ mp_path mp = p)) ∧
  (∀ i j p q a b, es !! i = Some (p, a) → es !! j = Some (q, b) → i ≠ j →
    a ≠ base_args Linux "rw" None → b ≠ base_args Linux "rw" None → a ≠ b).
Proof.
  apply (exports_listed Linux (λ _, Ok true) sample_disk ["/mnt/b"; "/mnt/a"; "/mnt/b"] "rw" None).
  vm_compute. reflexivity.
Defined.

Example datasets_mounted_in_order_witness :
  let mps := mountpoints id sample_datasets in
  let cmds := datasets_cmds (Some "/tmp/key") ∅ [] 0 mps in
  NoDup mps ∧ mounts cmds = mp_name <$> mps ∧
  (∀ mp, mp ∈ mps ↔ ∃ ds, ds ∈ sample_datasets ∧ dataset_mountpoint ds = Some mp) ∧
  (∀ i j a b r, mps !! i = Some a → mps !! j = Some b → mp_path b = mp_path a +:+ "/" +:+ r → i < j) ∧
  NoDup (loads cmds) ∧
  (∀ pool, pool ∈ loads cmds ↔ is_Some (Some "/tmp/key") ∧ ∃ mp, mp ∈ mps ∧ mp_encrypted mp = true ∧ mp_pool mp = pool).
Proof. apply (datasets_mounted_in_order id (Some "/tmp/key") ∅ sample_datasets). intros l. reflexivity. Defined.

Example sample_scripts :
  zfs_script <$> datasets_cmds (Some "/tmp/key") ∅ [] 0 (mountpoints id sample_datasets) =
  ["zfs load-key -L file:///tmp/key tank"; "zfs mount  tank/home"; "zfs mount  tank/home/u"].
Proof. vm_compute. reflexivity. Qed.
End Witness.
