(* ===== verification/Agent.v ===== *)
(** * The agent in the VM ([vmproxy/src/main.rs] [run], [main],
      [VmDiskContext], [CustomActionRunner]; [vmproxy/src/zfs.rs])

    The agent decrypts and activates the volumes, finds out what is on the
    disk, mounts it, exports it over NFS and waits for the command to quit.
    It talks to the host by tags on the console.  What it acquires is released
    by deferred actions.  Its effects are a trace of events; the commands it
    runs are answered by an environment. *)
From S2P Require Import Prelude Ipc Deferred Common Paths Instance Reader VmDisk.
From Stdlib Require Import Ascii.
Import deferred.

(** ** Effects *)
Inductive Cleanup := CReport | CUmountKeyFile | CPromptEnd | CForceOff | CUnmount | CBeforeUnmount.
#[global] Instance Cleanup_eq_dec : EqDecision Cleanup.
Proof. solve_decision. Defined.

Inductive Event :=
| Print (t : Tag)
| Crypt (args : list string) | Feed (i : Input)     (* cryptsetup started; its passphrase *)
| MountCmd (args : list string) | Zfs (c : ZfsCmd)
| Mounted (mount_point : string)                     (* '..' mounted successfully on '..' *)
| Action (script : string)
| WriteExports (content : string)
| WaitForQuit | StopServer
| Ran (c : Cleanup).

Record St := mkSt { deferred_ : Deferred Cleanup; trace : list Event }.
Definition start : St := mkSt new [].

Definition M (A : Type) : Type := St → outcome A * St.
#[global] Instance M_ret : MRet M := λ A a st, (Ok a, st).
#[global] Instance M_bind : MBind M := λ A B f m st,
  match m st with
  | (Ok a, st) => f a st
  | (Err e, st) => (Err e, st)
  | (Panic, st) => (Panic, st)
  end.

Definition lift {A} (r : outcome A) : M A := λ st, (r, st).
Definition in_context {A} (msg : string) (m : M A) : M A :=
  λ st, let '(r, st) := m st in (with_context msg r, st).
Definition emit (e : Event) : M unit := λ st, (Ok tt, mkSt (deferred_ st) (trace st ++ [e])).
Definition print (t : Tag) : M unit := emit (Print t).
Definition defer (c : Cleanup) : M ActionID :=
  λ st, let '(d, id) := add (deferred_ st) c in (Ok id, mkSt d (trace st)).
Definition call_action (id : ActionID) : M unit :=
  λ st, let '(ran, d) := call_now (deferred_ st) id in
        (Ok tt, mkSt d (trace st ++ (Ran <$> ran.*2))).

(** [let id = deferred.add(c); ...; deferred.call_now(id);] *)
Definition guarded {A} (c : Cleanup) (m : M A) : M A :=
  id ← defer c; a ← m; call_action id;; mret a.

(** ** The answers of the outside *)
Definition Status := option Z.           (* the exit code of a process, if it has one *)
Definition code_text (s : Status) : string :=
  match s with Some c => Str.of_N (Z.to_N c) | None => "unknown" end.

Definition of_io {A} (r : string + A) : outcome A :=
  match r with inl msg => Err msg | inr a => Ok a end.

Record Env := mkEnv {
  guest : OSType;
  e_init : outcome unit;                 (* temporary file systems, network, listening *)
  e_key_iso : option (outcome Status);   (* is there an image with the key file, and its mount *)
  e_vars : list (string * string);       (* the environment variables *)
  e_spawn : outcome unit; e_wait : list string → Input → outcome Status;   (* cryptsetup *)
  e_password : outcome string;
  e_mdadm : outcome unit; e_md_path : outcome string; e_vgchange : outcome unit;
  e_blkid : string → string → outcome string;
  e_modprobe : outcome unit; e_btrfs_scan : outcome unit;
  e_create_dir : string → outcome unit;
  e_zpool_import : string → bool → outcome Status;
  e_zfs_list : outcome (list Dataset); e_set_order : list Mountpoint → list Mountpoint;
  e_zfs : ZfsCmd → outcome Status;
  e_mount : list string → outcome Status;
  e_action : string → string + Status;   (* an error or a status *)
  e_mount_options : string → outcome string;
  e_is_fuse : string → outcome bool;
  e_write : outcome unit;
  e_server : bool;                       (* does [entrypoint.sh] start? *)
}.

Section Agent.
Context (e : Env).

(** ** Key file and passphrases *)
Definition KEY_FILE_MOUNT_DIR : string := "/tmp/alfs_keyfiles".
Definition KEY_FILE_ISO_DEV : string := "/dev/iso9660/ALFS_KEYFILE".
Definition KEY_FILE_NAME_IN_ISO : string := "keyfile".

Definition setup_key_file_path (key_file : option string) : M (option string) :=
  match guest e, e_key_iso e with
  | FreeBSD, Some mounted =>
      lift (with_context "Failed to create key file mount dir" (e_create_dir e KEY_FILE_MOUNT_DIR));;
      status ← lift (with_context "Failed to mount key file ISO" mounted);
      (if success status then
         defer CUmountKeyFile;;
         mret (Some (KEY_FILE_MOUNT_DIR +:+ "/" +:+ KEY_FILE_NAME_IN_ISO))
       else lift (Err ("Failed to mount key file ISO " +:+ KEY_FILE_ISO_DEV +:+ ": exit code " +:+
                       match status with Some c => Str.of_N (Z.to_N c) | None => "-1" end)))
  | _, _ => mret key_file
  end.

(** The passphrase for all devices. *)
Definition shared_password (d : VmDiskContext) (reuse_passphrase : bool) : M (option string) :=
  if reuse_passphrase && bool_decide (key_file_path d = None) then
    match env_pwds d !! 1%N with
    | Some passphrase => mret (Some passphrase)
    | None =>
        if env_has_passphrase d then lift (Err ("Missing environment variable " +:+ ALFS_PASSPHRASE_PREFIX))
        else
          print (TPrompt true);;
          pwd ← guarded CPromptEnd (lift (e_password e));
          mret (Some pwd)
    end
  else mret None.

Definition decrypt_device (d : VmDiskContext) (reuse_passphrase : bool) (pwd_for_all : option string)
    (i : nat) (dev : string) : M unit :=
  let args := cryptsetup_args d i dev in
  lift (e_spawn e);;
  emit (Crypt args);;
  input ← lift (passphrase_input d reuse_passphrase pwd_for_all i dev);
  emit (Feed input);;
  status ← (match input with
            | Prompted => print (TPrompt true);; guarded CPromptEnd (lift (e_wait e args input))
            | _ => lift (e_wait e args input)
            end);
  (if success status then mret tt
   else lift (Err ("Failed to open encrypted device '" +:+ dev +:+ "': " +:+ code_text status))).

Fixpoint decrypt_devices (d : VmDiskContext) (reuse_passphrase : bool) (pwd_for_all : option string)
    (i : nat) (devs : list string) : M unit :=
  match devs with
  | [] => mret tt
  | dev :: devs =>
      decrypt_device d reuse_passphrase pwd_for_all i dev;;
      decrypt_devices d reuse_passphrase pwd_for_all (S i) devs
  end.

Definition decrypt (d : VmDiskContext) (decrypt_devs : string) (reuse_passphrase : bool) : M unit :=
  pwd_for_all ← shared_password d reuse_passphrase;
  decrypt_devices d reuse_passphrase pwd_for_all 0 (Str.split "," decrypt_devs).

(** ** Volumes, type and label *)
Definition activate_volume_managers (d : VmDiskContext) : outcome VmDiskContext :=
  let raid := v_assemble_raid d || Str.starts_with "/dev/md" (disk_path d) in
  path ← (if raid then
            _ ← with_context "Failed to run mdadm command" (e_mdadm e);
            md_path ← with_context "Failed to get RAID device path from mdadm" (e_md_path e);
            let md_path := Str.trim md_path in
            Ok (if negb (Str.is_empty md_path) && negb (Str.starts_with "/dev/mapper" (disk_path d))
                then md_path else disk_path d)
          else Ok (disk_path d));
  _ ← (match guest e with
       | Linux => with_context "Failed to run vgchange command" (e_vgchange e)
       | FreeBSD => Ok tt
       end);
  let '(path, fs) :=
    if bool_decide (v_fs_type d = Some "crypto_LUKS" ∨ v_fs_type d = Some "BitLocker")
    then ("/dev/mapper/" +:+ mapper_ident_prefix d +:+ "0", None) else (path, v_fs_type d) in
  Ok (with_disk d path fs raid (bool_decide (fs = Some "zfs_member"))).

Definition detect_fs_type (d : VmDiskContext) : M VmDiskContext :=
  if decide (disk_path d = "") then mret d
  else if decide (v_fs_type d = Some "auto" ∨ v_fs_type d = None) then
    fs ← lift (with_context "Failed to run blkid command" (e_blkid e (disk_path d) "TYPE"));
    let fs := Str.trim fs in
    print (TType fs);;
    mret (with_disk d (disk_path d) (if negb (Str.is_empty fs) then Some fs else None) (is_raid d) (is_zfs d))
  else if decide (v_fs_type d = Some "zfs_member") then
    print (TType "zfs");;
    mret (with_disk d (disk_path d) (Some "zfs") (is_raid d) (is_zfs d))
  else mret d.

Definition resolve_mount_label (d : VmDiskContext) : M VmDiskContext :=
  if decide (disk_path d = "") then mret d
  else if is_zfs d then
    (match guest e with
     | Linux => lift (with_context "Failed to load zfs module" (e_modprobe e))
     | FreeBSD => mret tt
     end);;
    print (TLabel "zfs_root");;
    mret (with_mount_name d "zfs_root")
  else if v_metadata_probed d && negb (is_logical d) then mret d
  else
    label ← lift (with_context "Failed to run blkid command" (e_blkid e (disk_path d) "LABEL"));
    match path_safe_label_name (Str.trim label) with
    | Some label => print (TLabel label);; mret (with_mount_name d label)
    | None => mret d
    end.

(** ** Pools *)
(** [import_all_zpools]: the status, the data sets and the pools. *)
Definition import_all_zpools (mount_point_root : string) (read_only : bool) :
    outcome (Status * list Mountpoint * list string) :=
  res ← with_context "Failed to run zpool import command" (e_zpool_import e mount_point_root read_only);
  if success res then
    datasets ← with_context "Failed to get ZFS mountpoints after import" (e_zfs_list e);
    let mps := mountpoints (e_set_order e) datasets in
    Ok (res, mps, unique_pools mps)
  else Ok (res, [], []).

Definition import_zfs_pools (d : VmDiskContext) (mount_point : string) : outcome VmDiskContext :=
  if negb (is_zfs d) then Ok d
  else
    '(status, mps, zpools) ← import_all_zpools mount_point (specified_read_only d);
    if success status then Ok (with_pools d mps zpools)
    else Err ("Importing zpools failed with error code " +:+ code_text status).

Definition zfs_error (c : ZfsCmd) (s : Status) : string :=
  (match c with
   | LoadKey _ pool => "zfs load-key failed for pool " +:+ pool
   | ZfsMount _ name _ => "zfs mount failed for dataset " +:+ name
   end) +:+ ": exit code " +:+ match s with Some c => Str.of_N (Z.to_N c) | None => "-1" end.

Definition zfs_context (c : ZfsCmd) : string :=
  match c with
  | LoadKey _ pool => "Failed to load ZFS key for pool " +:+ pool
  | ZfsMount _ name _ => "Failed to mount ZFS dataset " +:+ name
  end.

Fixpoint run_zfs (cmds : list ZfsCmd) : M Status :=
  match cmds with
  | [] => mret (Some 0%Z)
  | c :: cmds =>
      emit (Zfs c);;
      status ← lift (with_context (zfs_context c) (e_zfs e c));
      (if success status then run_zfs cmds else lift (Err (zfs_error c status)))
  end.

Definition mount_datasets (mps : list Mountpoint) (pwds : gmap N string) (key_file : option string) : M Status :=
  run_zfs (datasets_cmds key_file pwds [] 0 mps).

(** ** [VmDiskContext::mount] *)
Definition mount (d : VmDiskContext) (mount_point : string) : M unit :=
  print (TForce true);;
  guarded CForceOff
    (status ← (if is_zfs d then mount_datasets (zfs_mountpoints d) (env_pwds d) (key_file_path d)
               else
                 emit (MountCmd (mount_args d mount_point));;
                 lift (with_context "Failed to run mount command" (e_mount e (mount_args d mount_point))));
     if success status then mret tt
     else lift (Err ("Mounting " +:+ disk_path d +:+ " on " +:+ mount_point +:+
                     " failed with error code " +:+ code_text status)));;
  emit (Mounted mount_point);;
  defer CUnmount;;
  mret tt.

(** ** [CustomActionRunner] *)
Definition execute_action (command : string) : M unit :=
  emit (Action command);;
  status ← lift (of_io (e_action e command));
  (if success status then mret tt
   else lift (Err ("command failed with status: " +:+ code_text status))).

(** [let result = ...; println!(..); result?]: the output is switched off
    again also if the command failed. *)
Definition try_action (command : string) : M (outcome unit) :=
  λ st, match execute_action command st with
        | (Panic, st) => (Panic, st)
        | (r, st) => (Ok r, st)
        end.

Definition shown_action (msg : string) (script : option string) : M unit :=
  match script with
  | Some script =>
      if Str.is_empty script then mret tt
      else
        print (TForce true);;
        result ← try_action script;
        print (TForce false);;
        lift (with_context msg result)
  | None => mret tt
  end.

Definition action_before_mount (a : option CustomActionConfig) : M unit :=
  shown_action "before_mount action" (before_mount <$> a).
Definition action_after_mount (a : option CustomActionConfig) : M unit :=
  shown_action "after_mount action" (after_mount <$> a).

(** ** [run] *)
Definition export_override (a : option CustomActionConfig) : option string :=
  a ← a; if Str.is_empty (override_nfs_export a) then None else Some (override_nfs_export a).
Definition export_subdirs (a : option CustomActionConfig) : list string :=
  match a with Some a => nfs_export_subdirs a | None => [] end.

Definition squash_opts (cli : MountArgs) (export_mode : string) : option string :=
  if a_ignore_permissions cli && bool_decide (a_nfs_export_opts cli = None)
  then Some (export_mode +:+ ",no_subtree_check,all_squash,anonuid=0,anongid=0,insecure")
  else a_nfs_export_opts cli.

Definition prepare_mount_point (d : VmDiskContext) : outcome string :=
  if Str.is_empty (v_mount_name d) then Ok ""
  else
    let mount_point := "/mnt/" +:+ v_mount_name d in
    _ ← with_context ("Failed to create directory '" +:+ mount_point +:+ "'") (e_create_dir e mount_point);
    Ok mount_point.

(** From the arguments to the mounted disk. *)
Definition find_disk (cli : MountArgs) (d : VmDiskContext) : M (VmDiskContext * string) :=
  (match a_decrypt cli with
   | Some devs => decrypt d devs (a_reuse_passphrase cli)
   | None => mret tt
   end);;
  d ← lift (activate_volume_managers d);
  d ← detect_fs_type d;
  d ← (if a_custom_mount_point cli then mret d else resolve_mount_label d);
  lift (if a_multi_device cli && bool_decide (v_fs_type d = Some "btrfs")
        then with_context "Failed to run btrfs command" (e_btrfs_scan e) else Ok tt);;
  lift (fail_for_known_nonmountable_types (v_fs_type d));;
  mount_point ← lift (prepare_mount_point d);
  d ← lift (import_zfs_pools d mount_point);
  mret (d, mount_point).

Definition mount_disk (a : option CustomActionConfig) (d : VmDiskContext) (mount_point : string) : M unit :=
  action_before_mount a;;
  (if negb (Str.is_empty (disk_path d)) && negb (Str.is_empty mount_point)
   then mount d mount_point else mret tt);;
  action_after_mount a;;
  defer CBeforeUnmount;;
  mret tt.

(** [build_nfs_exports]: the tags are printed before the file is written. *)
Fixpoint print_exports (es : list (string * string)) : M unit :=
  match es with
  | [] => mret tt
  | (path, _) :: es => print (TExport path);; print_exports es
  end.

Definition nfs_exports_path : string :=
  match guest e with FreeBSD => "/etc/exports" | Linux => "/tmp/exports" end.

Definition build_nfs_exports (d : VmDiskContext) (export_paths : list string)
    (export_mode : string) (o : option string) : M unit :=
  es ← lift (all_exports (guest e) (e_is_fuse e) d export_paths export_mode o);
  print_exports es;;
  lift (with_context ("Failed to write to " +:+ nfs_exports_path) (e_write e));;
  emit (WriteExports (exports_content (guest e) es)).

(** [export_path] and the paths below it. *)
Definition export_path_of (a : option CustomActionConfig) (mount_point : string) : string :=
  default mount_point (export_override a).
Definition export_paths_of (a : option CustomActionConfig) (mount_point : string) : list string :=
  let export_path := export_path_of a mount_point in
  export_path :: (path.join export_path <$> export_subdirs a).

Definition effective_read_only (d : VmDiskContext) (mount_options : string) : bool :=
  if is_zfs d then specified_read_only d
  else existsb (λ opt, bool_decide (opt = "ro")) (Str.split "," (Str.trim mount_options)).

Definition export_disk (cli : MountArgs) (a : option CustomActionConfig) (d : VmDiskContext)
    (mount_point : string) : M unit :=
  opts ← lift (with_context ("Failed to get mount options for " +:+ disk_path d)
                 (e_mount_options e (disk_path d)));
  let read_only := effective_read_only d opts in
  (if Bool.eqb (specified_read_only d) read_only then mret tt else print TChangedToRo);;
  let export_mode := if read_only then "ro" else "rw" in
  build_nfs_exports d (export_paths_of a mount_point) export_mode (squash_opts cli export_mode).

(** The NFS server, until the command to quit. *)
Definition serve : M unit :=
  if e_server e then emit WaitForQuit;; emit StopServer else mret tt.

Context `{Codec CustomActionConfig, PercentEncoding}.

Definition decode_action (cli : MountArgs) : outcome (option CustomActionConfig) :=
  match a_action cli with
  | Some action => c ← percent_decode action; Ok (Some c)
  | None => Ok None
  end.

(** Once the host can reach the control server. *)
Definition run_connected (cli : MountArgs) : M unit :=
  a ← lift (decode_action cli);
  key_file_path ← in_context "Failed to set up encryption key file" (setup_key_file_path (a_key_file cli));
  let d := VmDiskContext_new cli (get_pwds_from_env (e_vars e)) key_file_path in
  '(d, mount_point) ← find_disk cli d;
  mount_disk a d mount_point;;
  export_disk cli a d mount_point;;
  serve.

Definition run (cli : MountArgs) : M unit :=
  lift (e_init e);;
  print TReady;;
  defer CReport;;
  run_connected cli.

(** The end of [run], and [main]: the deferred actions, then the tag. *)
Definition finish (r : outcome unit) (st : St) : list Event :=
  trace st ++ (Ran <$> (drop_deferred (deferred_ st)).*2) ++
  match r with Err _ => [Print TExitCode] | _ => [] end.

Definition main (cli : MountArgs) : outcome unit * list Event :=
  let '(r, st) := run cli start in (r, finish r st).
End Agent.

(** The tags of the events, in the order in which they appear. *)
Definition event_tag (ev : Event) : option Tag :=
  match ev with
  | Print t => Some t
  | Ran CPromptEnd => Some (TPrompt false)
  | Ran CForceOff => Some (TForce false)
  | _ => None
  end.
Definition tags (tr : list Event) : list Tag := omap event_tag tr.
