(* ===== verification/AgentSpec.v ===== *)
(** * What the agent in the VM guarantees

    A small logic of extensions for the effects of the agent, the cleanup that
    holds on every path through [run], and the agreement between what the
    agent serves and what the host mounts. *)
From S2P Require Import Prelude Ipc Deferred Common Paths Settings DevInfo Instance Reader VmDisk Agent.
From Stdlib Require Import Ascii.
Import deferred.

(** ** Extensions

    [ext m R]: whatever the state, [m] only adds events [tr] and deferred
    actions [ds], and [R] holds of its result and of these. *)
Definition ext {A} (m : M A) (R : outcome A → list Event → list Cleanup → Prop) : Prop :=
  ∀ st, wf (deferred_ st) →
    wf (deferred_ (m st).2) ∧
    ∃ tr pds, trace (m st).2 = trace st ++ tr ∧
      actions (deferred_ (m st).2) = actions (deferred_ st) ++ pds ∧ R (m st).1 tr pds.*2.

Lemma ext_mono {A} (m : M A) (R R' : outcome A → list Event → list Cleanup → Prop) :
  ext m R → (∀ r tr ds, R r tr ds → R' r tr ds) → ext m R'.
Proof. intros Hm HR st Hwf. destruct (Hm st Hwf) as (? & tr & pds & ? & ? & ?). eauto 10. Qed.

Lemma ext_lift {A} (r : outcome A) (R : outcome A → list Event → list Cleanup → Prop) :
  R r [] [] → ext (lift r) R.
Proof. intros HR st Hwf. split; [done|]. exists [], []. by rewrite !app_nil_r. Qed.

Lemma ext_ret {A} (a : A) (R : outcome A → list Event → list Cleanup → Prop) :
  R (Ok a) [] [] → ext (mret a) R.
Proof. apply (ext_lift (Ok a)). Qed.

Lemma ext_emit ev (R : outcome unit → list Event → list Cleanup → Prop) :
  R (Ok tt) [ev] [] → ext (emit ev) R.
Proof. intros HR st Hwf. split; [done|]. exists [ev], []. by rewrite app_nil_r. Qed.

Lemma ext_defer c (R : outcome ActionID → list Event → list Cleanup → Prop) :
  (∀ id, R (Ok id) [] [c]) → ext (defer c) R.
Proof.
  intros HR st Hwf. split.
  - by apply (exec_op_wf (deferred_ st) (Add c) _ [] [] [(last_id (deferred_ st), c)]).
  - exists [], [(last_id (deferred_ st), c)]. split_and!; [by rewrite app_nil_r|done|apply HR].
Qed.

Lemma ext_bind {A B} (m : M A) (f : A → M B) R1 (R : outcome B → list Event → list Cleanup → Prop) :
  ext m R1 →
  (∀ a tr ds, R1 (Ok a) tr ds → ext (f a) (λ r tr' ds', R r (tr ++ tr') (ds ++ ds'))) →
  (∀ msg tr ds, R1 (Err msg) tr ds → R (Err msg) tr ds) →
  (∀ tr ds, R1 Panic tr ds → R Panic tr ds) →
  ext (m ≫= f) R.
Proof.
  intros Hm Hf He Hp st Hwf. destruct (Hm st Hwf) as (Hwf1 & tr & pds & Ht & Ha & HR).
  unfold mbind, M_bind. destruct (m st) as [[a|msg|] st1]; simpl in *;
    [|split; [done|]; exists tr, pds; split_and!; auto..].
  destruct (Hf _ _ _ HR st1 Hwf1) as (Hwf2 & tr' & pds' & Ht' & Ha' & HR').
  split; [done|]. exists (tr ++ tr'), (pds ++ pds').
  rewrite Ht', Ha', Ht, Ha, <-!app_assoc, fmap_app. done.
Qed.

(** The action added last is the one that its id finds. *)
Lemma sorted_last (l : list nat) i : Sorted.StronglySorted lt (l ++ [i]) → ∀ x, x ∈ l → x < i.
Proof.
  induction l as [|y l IH]; simpl; intros H x Hx; [by apply elem_of_nil in Hx|].
  inversion H as [|? ? H1 H2]; subst. apply elem_of_cons in Hx as [->|Hx]; [|auto].
  rewrite Forall_forall in H2. apply H2, elem_of_app. right. by apply list_elem_of_singleton.
Qed.

Lemma call_last (d : Deferred Cleanup) l id c :
  wf d → actions d = l ++ [(id, c)] →
  call_now d id = ([(id, c)], mkDeferred l (deferred.last_id d)).
Proof.
  intros [Hs _] Ha. unfold call_now, pop_action. rewrite Ha in *. rewrite list_find_app_r.
  - simpl. rewrite decide_True by done. simpl. by rewrite delete_middle, app_nil_r.
  - apply list_find_None, Forall_forall. intros p Hp E.
    rewrite fmap_app in Hs. pose proof (sorted_last _ _ Hs p.1 (list_elem_of_fmap_2 _ _ _ Hp)). simpl in *. lia.
Qed.

Lemma ext_guarded {A} c (m : M A) R1 (R : outcome A → list Event → list Cleanup → Prop) :
  ext m R1 →
  (∀ a tr ds, R1 (Ok a) tr ds → ds = [] ∧ R (Ok a) (tr ++ [Ran c]) []) →
  (∀ r tr ds, is_ok r = false → R1 r tr ds → R r tr (c :: ds)) →
  ext (guarded c m) R.
Proof.
  intros Hm Hok Hfail st Hwf. unfold guarded, mbind, M_bind, defer.
  pose proof (exec_op_wf (deferred_ st) (Add c) _ _ _ _ eq_refl Hwf) as Hwf1. simpl in *.
  set (st1 := mkSt _ _). destruct (Hm st1 Hwf1) as (Hwf2 & tr & pds & Ht & Ha & HR).
  destruct (m st1) as [[a|msg|] st2]; simpl in *.
  - destruct (Hok _ _ _ HR) as [Hnil HR']. apply fmap_nil_inv in Hnil as ->. rewrite app_nil_r in Ha.
    unfold call_action. rewrite (call_last _ _ _ _ Hwf2 Ha). simpl. split.
    + destruct (exec_op (deferred_ st2) (CallNow (last_id (deferred_ st)))) as [[[d1 ran] x] n] eqn:E.
      pose proof (exec_op_wf _ _ _ _ _ _ E Hwf2) as H.
      unfold exec_op in E. rewrite (call_last _ _ _ _ Hwf2 Ha) in E. by injection E as <- _ _ _.
    + exists (tr ++ [Ran c]), []. by rewrite Ht, app_nil_r, app_assoc.
  - split; [done|]. exists tr, ((last_id (deferred_ st), c) :: pds). rewrite Ht, Ha, <-app_assoc.
    split_and!; [done..|]. by apply (Hfail (Err msg)).
  - split; [done|]. exists tr, ((last_id (deferred_ st), c) :: pds). rewrite Ht, Ha, <-app_assoc.
    split_and!; [done..|]. by apply (Hfail Panic).
Qed.

(** *** Successful runs *)
Lemma bind_inv {A B} (m : M A) (f : A → M B) st b st' :
  (m ≫= f) st = (Ok b, st') → ∃ a st1, m st = (Ok a, st1) ∧ f a st1 = (Ok b, st').
Proof. unfold mbind, M_bind. destruct (m st) as [[a| |] st1]; [eauto|done..]. Qed.

Lemma lift_inv {A} (r : outcome A) st a st' : lift r st = (Ok a, st') → r = Ok a ∧ st' = st.
Proof. by intros [= <- <-]. Qed.

Lemma ext_Ok {A} (m : M A) R st a st1 :
  ext m R → wf (deferred_ st) → m st = (Ok a, st1) →
  wf (deferred_ st1) ∧ ∃ tr ds, trace st1 = trace st ++ tr ∧ R (Ok a) tr ds.
Proof.
  intros Hm Hwf E. destruct (Hm st Hwf) as (Hwf1 & tr & pds & Ht & _ & HR). rewrite E in *. eauto.
Qed.

(** ** Every path cleans up *)
(** The passphrase prompt and the forced output, as the host sees them: both
    are switched on and off in turn. *)
Definition Phase : Type := bool * bool.
Definition off : Phase := (false, false).
Definition phase_step (s : Phase) (ev : Event) : option Phase :=
  match event_tag ev with
  | Some (TPrompt on) => if Bool.eqb on s.1 then None else Some (on, s.2)
  | Some (TForce on) => if Bool.eqb on s.2 then None else Some (s.1, on)
  | _ => Some s
  end.
Fixpoint phase (s : Phase) (tr : list Event) : option Phase :=
  match tr with
  | [] => Some s
  | ev :: tr => s ← phase_step s ev; phase s tr
  end.

Lemma phase_app s tr1 tr2 : phase s (tr1 ++ tr2) = (s ← phase s tr1; phase s tr2).
Proof. revert s; induction tr1 as [|ev tr1 IH]; intros s; [done|]. simpl. destruct (phase_step s ev); simpl; auto. Qed.

Definition early : list Cleanup := [CPromptEnd; CForceOff].
Definition is_mounted (ev : Event) : bool := match ev with Mounted _ => true | _ => false end.
Definition mounted (tr : list Event) : bool := existsb is_mounted tr.
Definition ran_early (ev : Event) : bool :=
  match ev with Ran c => bool_decide (c ∈ early) | _ => true end.

(** A part of [run]: the prompts and the forced output end switched off once
    the deferred actions have run; these are among [Tf], on success among
    [Tok]; the file system is to be unmounted exactly if it was mounted. *)
Record clean (Tok Tf : list Cleanup) {A} (r : outcome A) (tr : list Event) (ds : list Cleanup) : Prop := {
  cl_phase : phase off (tr ++ (Ran <$> reverse ds)) = Some off;
  cl_ok : is_ok r = true → phase off tr = Some off ∧ ds `sublist_of` Tok;
  cl_sub : ds `sublist_of` Tf;
  cl_mounted : CUnmount ∈ ds ↔ mounted tr = true;
  cl_early : forallb ran_early tr = true;
}.
Definition stage (Tok Tf : list Cleanup) {A} (m : M A) : Prop := ext m (clean Tok Tf).

Lemma clean_app {A B} Tok1 Tf1 Tok2 Tf2 Tok Tf (a : A) (r : outcome B) tr1 ds1 tr2 ds2 :
  clean Tok1 Tf1 (Ok a) tr1 ds1 → clean Tok2 Tf2 r tr2 ds2 →
  Tok1 ++ Tok2 `sublist_of` Tok → Tok1 ++ Tf2 `sublist_of` Tf →
  clean Tok Tf r (tr1 ++ tr2) (ds1 ++ ds2).
Proof.
  intros [P1 O1 S1 M1 E1] [P2 O2 S2 M2 E2] HTok HTf. destruct (O1 eq_refl) as [Q1 S1'].
  split.
  - rewrite reverse_app, fmap_app, <-(assoc_L (++)), phase_app, Q1. simpl.
    rewrite phase_app in P1. rewrite Q1 in P1. simpl in P1.
    rewrite (assoc_L (++)), phase_app, P2. done.
  - intros Hr. destruct (O2 Hr) as [Q2 S2']. rewrite phase_app, Q1. split; [done|].
    etrans; [|exact HTok]. by apply sublist_app.
  - etrans; [|exact HTf]. by apply sublist_app.
  - unfold mounted in *. rewrite elem_of_app, existsb_app, orb_true_iff. tauto.
  - by rewrite forallb_app, E1, E2.
Qed.

Lemma clean_weaken {A} Tok Tf Tok' Tf' (r : outcome A) tr ds :
  clean Tok Tf r tr ds → Tok `sublist_of` Tok' → Tf `sublist_of` Tf' → clean Tok' Tf' r tr ds.
Proof. intros [P O S M' E] H1 H2. split; [done| |by etrans|done..]. intros Hr. destruct (O Hr). split; [done|by etrans]. Qed.

Lemma clean_fail {A B} Tok Tf Tok' Tf' (r : outcome A) (r' : outcome B) tr ds :
  clean Tok Tf r tr ds → is_ok r' = false → Tf `sublist_of` Tf' → clean Tok' Tf' r' tr ds.
Proof. intros [P O S M' E] Hr H2. split; [done|by rewrite Hr|by etrans|done..]. Qed.

Lemma stage_bind {A B} Tok1 Tf1 Tok2 Tf2 Tok Tf (m : M A) (f : A → M B) :
  stage Tok1 Tf1 m → (∀ a, stage Tok2 Tf2 (f a)) →
  Tok1 ++ Tok2 `sublist_of` Tok → Tf1 `sublist_of` Tf → Tok1 ++ Tf2 `sublist_of` Tf →
  stage Tok Tf (m ≫= f).
Proof.
  intros Hm Hf H1 H2 H3. eapply ext_bind; [exact Hm|..].
  - intros a tr ds Hc. eapply ext_mono; [exact (Hf a)|]. intros r tr' ds' Hc'.
    by eapply clean_app.
  - intros msg tr ds Hc. by eapply clean_fail.
  - intros tr ds Hc. by eapply clean_fail.
Qed.

(** What adds neither deferred actions nor tags is in every stage. *)
Lemma clean_nil {A} Tok Tf (r : outcome A) : clean Tok Tf r [] [].
Proof.
  split; [done| |apply sublist_nil_l| |done].
  - intros _. split; [done|apply sublist_nil_l].
  - split; [by intros ?%elem_of_nil|done].
Qed.

Lemma stage_lift {A} Tok Tf (r : outcome A) : stage Tok Tf (lift r).
Proof. apply ext_lift, clean_nil. Qed.
Lemma stage_ret {A} Tok Tf (a : A) : stage Tok Tf (mret a).
Proof. apply ext_ret, clean_nil. Qed.

(** An event that is no cleanup, no switch and no mount. *)
Definition plain (ev : Event) : bool :=
  match ev with
  | Print (TPrompt _ | TForce _) | Mounted _ | Ran _ => false
  | _ => true
  end.
Lemma stage_emit Tok Tf ev : plain ev = true → stage Tok Tf (emit ev).
Proof.
  intros Hp. apply ext_emit.
  split; [by destruct ev as [[]| | | | | | | | | |]| |apply sublist_nil_l| |by destruct ev].
  - intros _. split; [by destruct ev as [[]| | | | | | | | | |]|apply sublist_nil_l].
  - split; [by intros ?%elem_of_nil|by destruct ev].
Qed.

Lemma stage_weaken {A} Tok Tf Tok' Tf' (m : M A) :
  stage Tok Tf m → Tok `sublist_of` Tok' → Tf `sublist_of` Tf' → stage Tok' Tf' m.
Proof. intros Hm ??. eapply ext_mono; [exact Hm|]. intros. by eapply clean_weaken. Qed.

(** Switch on, do something, switch off. *)
Definition switch (c : Cleanup) : option Tag :=
  match c with CPromptEnd => Some (TPrompt true) | CForceOff => Some (TForce true) | _ => None end.

(** No switch, no mount, no cleanup and no deferred action. *)
Definition quiet {A} (r : outcome A) (tr : list Event) (ds : list Cleanup) : Prop :=
  ds = [] ∧ forallb plain tr = true.

Lemma phase_plain s tr : forallb plain tr = true → phase s tr = Some s.
Proof.
  induction tr as [|ev tr IH]; [done|]. simpl. intros [Hev Htr]%andb_true_iff.
  assert (phase_step s ev = Some s) as -> by (destruct ev as [[]| | | | | | | | | |]; done). by apply IH.
Qed.
Lemma mounted_plain tr : forallb plain tr = true → mounted tr = false ∧ forallb ran_early tr = true.
Proof.
  induction tr as [|ev tr IH]; [done|]. simpl. intros [Hev Htr]%andb_true_iff.
  destruct (IH Htr) as [Hm He]. unfold mounted in *. simpl. rewrite Hm, He. by destruct ev.
Qed.

Lemma stage_switched {A} c t Tok Tf (m : M A) :
  switch c = Some t → ext m quiet → [c] `sublist_of` Tf →
  stage Tok Tf (print t;; guarded c m).
Proof.
  intros Hc Hm HT. unfold stage, print.
  eapply ext_bind with (R1 := λ r tr ds, r = Ok tt ∧ tr = [Print t] ∧ ds = []); [by apply ext_emit| |naive_solver..].
  intros [] tr ds (_ & -> & ->). eapply ext_guarded; [exact Hm|..].
  - intros a tr ds [-> Hp]. split; [done|]. pose proof (mounted_plain tr Hp) as [Hmt He].
    assert (phase off ([Print t] ++ tr ++ [Ran c]) = Some off) as Hph.
    { destruct c; simplify_eq/=; by rewrite phase_app, phase_plain. }
    split; rewrite ?app_nil_r.
    + done.
    + intros _. split; [done|apply sublist_nil_l].
    + apply sublist_nil_l.
    + split; [by intros ?%elem_of_nil|]. unfold mounted in *. simpl. by rewrite existsb_app, Hmt.
    + simpl. rewrite forallb_app, He. by destruct c.
  - intros r tr ds Hr [-> Hp]. pose proof (mounted_plain tr Hp) as [Hmt He].
    split.
    + destruct c; simplify_eq/=; by rewrite phase_app, phase_plain.
    + by rewrite Hr.
    + done.
    + split; [by intros <-%list_elem_of_singleton|]. unfold mounted in *. simpl. by rewrite Hmt.
    + done.
Qed.

Lemma ext_assoc {A B C} (m : M A) (f : A → M B) (g : B → M C) R :
  ext ((m ≫= f) ≫= g) R → ext (m ≫= λ a, f a ≫= g) R.
Proof.
  intros H st Hwf. specialize (H st Hwf). unfold mbind, M_bind in *.
  by destruct (m st) as [[a| |] st1].
Qed.

Lemma stage_switched_bind {A B} c t Tf (m : M A) (f : A → M B) :
  switch c = Some t → ext m quiet → [c] `sublist_of` Tf → (∀ a, stage [] Tf (f a)) →
  stage [] Tf (print t;; (guarded c m ≫= f)).
Proof.
  intros Hc Hm HT Hf. apply ext_assoc, (stage_bind [] Tf [] Tf); [by apply stage_switched|done..].
Qed.

Lemma stage_defer c : c ≠ CUnmount → c ∉ early → stage [c] [c] (defer c).
Proof.
  intros Hu He. apply ext_defer. intros id. split; [|done|done| |done].
  - unfold early in He. destruct c; try done; by destruct He; set_solver.
  - split; [by intros ?%list_elem_of_singleton|done].
Qed.

(** *** The parts of [run] *)
Lemma quiet_lift {A} (r : outcome A) : ext (lift r) quiet.
Proof. by apply ext_lift. Qed.
Lemma quiet_ret {A} (a : A) : ext (mret a) quiet.
Proof. by apply ext_ret. Qed.
Lemma quiet_emit ev : plain ev = true → ext (emit ev) quiet.
Proof. intros Hp. apply ext_emit. split; [done|]. simpl. by rewrite Hp. Qed.
Lemma quiet_print t : plain (Print t) = true → ext (print t) quiet.
Proof. apply quiet_emit. Qed.
Lemma quiet_bind {A B} (m : M A) (f : A → M B) :
  ext m quiet → (∀ a, ext (f a) quiet) → ext (m ≫= f) quiet.
Proof.
  intros Hm Hf. eapply ext_bind; [exact Hm| |done..].
  intros a tr ds [-> Htr]. eapply ext_mono; [exact (Hf a)|].
  intros r tr' ds' [-> Htr']. split; [done|]. by rewrite forallb_app, Htr.
Qed.
Lemma quiet_stage {A} Tok Tf (m : M A) : ext m quiet → stage Tok Tf m.
Proof.
  intros Hm. eapply ext_mono; [exact Hm|]. intros r tr ds [-> Hp].
  pose proof (mounted_plain tr Hp) as [Hmt He].
  split; rewrite ?app_nil_r; [by apply phase_plain| |apply sublist_nil_l| |done].
  - intros _. split; [by apply phase_plain|apply sublist_nil_l].
  - split; [by intros ?%elem_of_nil|congruence].
Qed.
Lemma stage_seq {A B} T (m : M A) (f : A → M B) :
  stage [] T m → (∀ a, stage [] T (f a)) → stage [] T (m ≫= f).
Proof. intros Hm Hf. by eapply stage_bind. Qed.

Lemma stage_first {A B} Tok Tf (m : M A) (f : A → M B) :
  stage [] [] m → (∀ a, stage Tok Tf (f a)) → stage Tok Tf (m ≫= f).
Proof. intros Hm Hf. eapply (stage_bind [] [] Tok Tf); [done..|apply sublist_nil_l|done]. Qed.

Create HintDb agent.
#[export] Hint Resolve quiet_lift quiet_ret quiet_emit quiet_print quiet_bind quiet_stage
  stage_lift stage_ret stage_emit stage_seq : agent.

(** Take a part of [run] to pieces, conditions included. *)
Ltac take_apart :=
  repeat (cbn beta iota zeta; intros; lazymatch goal with
  | |- context [match ?x with _ => _ end] =>
      lazymatch x with context [match _ with _ => _ end] => fail | _ => destruct x eqn:? end
  | |- stage _ _ (print _ ≫= λ _, guarded _ _ ≫= _) =>
      apply stage_switched_bind; [done| |repeat constructor|]
  | |- stage _ _ (print _ ≫= λ _, guarded _ _) =>
      apply stage_switched; [done| |repeat constructor]
  | |- stage _ _ (_ ≫= _) => apply stage_seq
  | |- ext (_ ≫= _) quiet => apply quiet_bind
  end); auto with agent.

Section Parts.
Context (e : Env).

Lemma setup_key_file_stage k : stage [CUmountKeyFile] [CUmountKeyFile] (setup_key_file_path e k).
Proof.
  unfold setup_key_file_path. destruct (guest e); [apply stage_ret|].
  destruct (e_key_iso e) as [m|]; [|apply stage_ret].
  apply stage_first; [apply stage_lift|intros _].
  apply stage_first; [apply stage_lift|intros s].
  destruct (success s); [|apply stage_lift].
  eapply stage_bind with (Tok2 := []) (Tf2 := []);
    [apply stage_defer|intros _; apply stage_ret|..]; set_solver.
Qed.

Lemma shared_password_stage d b : stage [] [CPromptEnd] (shared_password e d b).
Proof.
  unfold shared_password. take_apart.
Qed.

Lemma decrypt_device_stage d b o i dev : stage [] [CPromptEnd] (decrypt_device e d b o i dev).
Proof.
  unfold decrypt_device. take_apart.
Qed.

Lemma decrypt_stage d devs b : stage [] [CPromptEnd] (decrypt e d devs b).
Proof.
  unfold decrypt. apply stage_seq; [apply shared_password_stage|]. intros o.
  generalize 0. induction (Str.split "," devs) as [|dev l IH]; intros i; simpl; [apply stage_ret|].
  apply stage_seq; [apply decrypt_device_stage|]. auto.
Qed.

Lemma detect_stage T d : stage [] T (detect_fs_type e d).
Proof. unfold detect_fs_type. take_apart. Qed.
Lemma label_stage T d : stage [] T (resolve_mount_label e d).
Proof. unfold resolve_mount_label. take_apart. Qed.

Lemma find_disk_stage cli d : stage [] [CPromptEnd] (find_disk e cli d).
Proof.
  unfold find_disk. take_apart; auto using decrypt_stage, detect_stage, label_stage.
Qed.
Lemma run_zfs_quiet cmds : ext (run_zfs e cmds) quiet.
Proof. induction cmds as [|c cmds IH]; simpl; take_apart. Qed.

Lemma mounted_stage mp : stage [CUnmount] [CUnmount] (emit (Mounted mp);; defer CUnmount;; mret tt).
Proof.
  intros st Hwf. split.
  - by apply (exec_op_wf (deferred_ st) (Add CUnmount) _ [] [] [(last_id (deferred_ st), CUnmount)]).
  - exists [Mounted mp], [(last_id (deferred_ st), CUnmount)]. split_and!; [done..|].
    split; try done. split; [done|]. intros _. by apply list_elem_of_singleton.
Qed.

Lemma mount_stage d mp : stage [CUnmount] [CForceOff; CUnmount] (mount e d mp).
Proof.
  unfold mount. apply ext_assoc, (stage_bind [] [CForceOff] [CUnmount] [CUnmount]).
  - apply stage_switched; [done| |done].
    take_apart. unfold mount_datasets. apply run_zfs_quiet.
  - intros _. apply mounted_stage.
  - done.
  - repeat constructor.
  - repeat constructor.
Qed.

(** The forced output around a custom action ends also if the action fails. *)
Lemma shown_action_stage Tok Tf msg s : stage Tok Tf (shown_action e msg s).
Proof.
  unfold shown_action. destruct s as [s|]; [|apply stage_ret].
  destruct (Str.is_empty s); [apply stage_ret|]. intros st Hwf.
  unfold try_action, execute_action, print, emit, lift, mbind, M_bind. simpl.
  assert (∀ r : outcome unit, clean Tok Tf r [Print (TForce true); Action s; Print (TForce false)] []) as Hc.
  { intros r. split; [done| |apply sublist_nil_l| |done].
    - intros _. split; [done|apply sublist_nil_l].
    - split; [by intros ?%elem_of_nil|done]. }
  assert (∀ t, (((t ++ [Print (TForce true)]) ++ [Action s]) ++ [Print (TForce false)]) =
    t ++ [Print (TForce true); Action s; Print (TForce false)]) as Happ by (intros; by rewrite <-!app_assoc).
  destruct (e_action e s) as [m|x]; simpl; [|destruct (success x)]; simpl; (split; [done|]);
    exists [Print (TForce true); Action s; Print (TForce false)], [];
    rewrite app_nil_r, Happ; (split_and!; [done|done|apply Hc]).
Qed.

Lemma mount_disk_stage a d mp :
  stage [CUnmount; CBeforeUnmount] [CForceOff; CUnmount; CBeforeUnmount] (mount_disk e a d mp).
Proof.
  unfold mount_disk. apply stage_first; [apply shown_action_stage|intros _].
  apply (stage_bind [CUnmount] [CForceOff; CUnmount] [CBeforeUnmount] [CBeforeUnmount]);
    [|intros _|repeat constructor..].
  - destruct (_ && _); [apply mount_stage|apply stage_ret].
  - apply stage_first; [apply shown_action_stage|intros _].
    apply (stage_bind [CBeforeUnmount] [CBeforeUnmount] [] []); [|intros _; apply stage_ret|done..].
    apply stage_defer; set_solver.
Qed.

Lemma export_disk_stage cli a d mp : stage [] [] (export_disk e cli a d mp).
Proof.
  unfold export_disk, build_nfs_exports. take_apart.
  all: apply quiet_stage.
  all: match goal with |- ext (print_exports ?l) _ => induction l as [|[]]; simpl; take_apart end.
Qed.

Lemma serve_stage : stage [] [] (serve e).
Proof. unfold serve. take_apart. Qed.
Lemma in_context_stage {A} Tok Tf msg (m : M A) : stage Tok Tf m → stage Tok Tf (in_context msg m).
Proof.
  intros Hm st Hwf. destruct (Hm st Hwf) as (Hwf1 & tr & pds & Ht & Ha & [P O S Mt E]).
  unfold in_context. destruct (m st) as [r st1]. simpl in *. split; [done|].
  exists tr, pds. split_and!; [done..|]. split; try done. by destruct r.
Qed.

Context `{Codec CustomActionConfig, PercentEncoding}.

Definition late : list Cleanup := [CUmountKeyFile; CUnmount; CBeforeUnmount].
Definition pending : list Cleanup := [CUmountKeyFile; CPromptEnd; CForceOff; CUnmount; CBeforeUnmount].

Lemma run_connected_stage cli : stage late pending (run_connected e cli).
Proof.
  unfold run_connected. apply stage_first; [apply stage_lift|intros a].
  apply (stage_bind [CUmountKeyFile] [CUmountKeyFile] [CUnmount; CBeforeUnmount]
           [CPromptEnd; CForceOff; CUnmount; CBeforeUnmount]);
    [apply in_context_stage, setup_key_file_stage|intros k|repeat constructor..].
  apply (stage_bind [] [CPromptEnd] [CUnmount; CBeforeUnmount] [CForceOff; CUnmount; CBeforeUnmount]);
    [apply find_disk_stage|intros [d mp]|repeat constructor..].
  apply (stage_bind [CUnmount; CBeforeUnmount] [CForceOff; CUnmount; CBeforeUnmount] [] []);
    [apply mount_disk_stage|intros _|repeat constructor..].
  apply stage_seq; [apply export_disk_stage|intros _; apply serve_stage].
Qed.
End Parts.

Lemma sublist_reverse {A} (l1 l2 : list A) : l1 `sublist_of` l2 → reverse l1 `sublist_of` reverse l2.
Proof.
  induction 1 as [|x l1 l2 _ IH|x l1 l2 _ IH]; [done|..]; rewrite !reverse_cons.
  - by apply sublist_app.
  - by apply sublist_inserts_r.
Qed.


(** ** Decryption *)
Definition opened (tr : list Event) : list (list string) :=
  omap (λ ev, match ev with Crypt args => Some args | _ => None end) tr.
Definition fed (tr : list Event) : list Input :=
  omap (λ ev, match ev with Feed i => Some i | _ => None end) tr.

Lemma opened_app t1 t2 : opened (t1 ++ t2) = opened t1 ++ opened t2.
Proof. apply omap_app. Qed.
Lemma fed_app t1 t2 : fed (t1 ++ t2) = fed t1 ++ fed t2.
Proof. apply omap_app. Qed.

(** Inputs for the devices from number [i] on, each of which cryptsetup
    accepted. *)
Fixpoint accepted (e : Env) (d : VmDiskContext) (reuse : bool) (pwd : option string) (i : nat)
    (devs : list string) (inputs : list Input) : Prop :=
  match devs, inputs with
  | [], [] => True
  | dev :: devs, input :: inputs =>
      passphrase_input d reuse pwd i dev = Ok input ∧
      e_wait e (cryptsetup_args d i dev) input = Ok (Some 0%Z) ∧
      accepted e d reuse pwd (S i) devs inputs
  | _, _ => False
  end.

Section Decrypt.
Context (e : Env) (d : VmDiskContext) (reuse : bool).

(** Events that neither start cryptsetup nor feed it. *)
Definition no_crypt {A} (r : outcome A) (tr : list Event) (ds : list Cleanup) : Prop :=
  opened tr = [] ∧ fed tr = [].

Lemma guarded_wait_run {A} c (m : outcome A) a st st' :
  wf (deferred_ st) → guarded c (lift m) st = (Ok a, st') →
  m = Ok a ∧ wf (deferred_ st') ∧ ∃ tr, trace st' = trace st ++ tr ∧ opened tr = [] ∧ fed tr = [].
Proof.
  intros Hwf Hrun.
  assert (ext (guarded c (lift m)) (λ r tr _, r = m ∧ opened tr = [] ∧ fed tr = [])) as Hext.
  { eapply ext_guarded with (R1 := λ r tr ds, r = m ∧ tr = [] ∧ ds = []); [by apply ext_lift|..].
    - intros a' tr ds (<- & -> & ->). done.
    - intros r tr ds _ (-> & -> & _). done. }
  destruct (Hext st Hwf) as (Hwf' & tr & pds & Ht & _ & Hm & Ho). rewrite Hrun in *. simpl in *. eauto 10.
Qed.

Lemma decrypt_device_run pwd i dev st st' :
  wf (deferred_ st) → decrypt_device e d reuse pwd i dev st = (Ok tt, st') →
  wf (deferred_ st') ∧ ∃ tr input, trace st' = trace st ++ tr ∧
    opened tr = [cryptsetup_args d i dev] ∧ fed tr = [input] ∧
    passphrase_input d reuse pwd i dev = Ok input ∧ e_wait e (cryptsetup_args d i dev) input = Ok (Some 0%Z).
Proof.
  intros Hwf H. unfold decrypt_device in H. apply bind_inv in H as (? & ? & [_ ->]%lift_inv & H).
  apply bind_inv in H as (? & ? & E1 & H). injection E1 as <- <-.
  apply bind_inv in H as (input & ? & [Hi ->]%lift_inv & H).
  apply bind_inv in H as (? & ? & E1 & H). injection E1 as <- <-.
  apply bind_inv in H as (s & st2 & Hw & H).
  assert (e_wait e (cryptsetup_args d i dev) input = Ok s ∧ wf (deferred_ st2) ∧
    ∃ tr, trace st2 = (trace st ++ [Crypt (cryptsetup_args d i dev)]) ++ [Feed input] ++ tr ∧
      opened tr = [] ∧ fed tr = []) as (Hs & Hwf2 & tr & Ht & Ho & Hf).
  { destruct input.
    1,3: apply lift_inv in Hw as [-> ->]; split_and!; [done..|]; exists []; by rewrite app_nil_r.
    apply bind_inv in Hw as (? & st3 & E1 & Hw). injection E1 as <- <-.
    apply guarded_wait_run in Hw as (-> & ? & tr & Ht & Ho & Hf); [|done].
    split_and!; [done..|]. exists (Print (TPrompt true) :: tr). rewrite Ht. simpl. by rewrite <-!app_assoc. }
  destruct (success s) eqn:E; [|done]. apply bool_decide_eq_true in E as ->. injection H as <-.
  split; [done|]. exists ([Crypt (cryptsetup_args d i dev)] ++ [Feed input] ++ tr), input.
  rewrite Ht, !opened_app, !fed_app, Ho, Hf, <-!app_assoc. done.
Qed.

Lemma decrypt_devices_run pwd i devs st st' :
  wf (deferred_ st) → decrypt_devices e d reuse pwd i devs st = (Ok tt, st') →
  ∃ tr, trace st' = trace st ++ tr ∧
    opened tr = imap (λ k dev, cryptsetup_args d (i + k) dev) devs ∧
    accepted e d reuse pwd i devs (fed tr).
Proof.
  revert i st; induction devs as [|dev devs IH]; intros i st Hwf; simpl.
  - intros [= <-]. exists []. by rewrite app_nil_r.
  - intros (? & st1 & H1 & H)%bind_inv. destruct x.
    apply decrypt_device_run in H1 as (Hwf1 & tr1 & input & Ht1 & Ho1 & Hf1 & Hi & Hw); [|done].
    apply IH in H as (tr2 & Ht2 & Ho2 & Ha); [|done].
    exists (tr1 ++ tr2). rewrite Ht2, Ht1, opened_app, fed_app, Ho1, Ho2, Hf1. simpl. split_and!; [by rewrite app_assoc| |done..].
    rewrite Nat.add_0_r. f_equal. apply imap_ext. intros k dev' _. simpl. f_equal. lia.
Qed.

Lemma shared_password_run st o st' :
  wf (deferred_ st) → shared_password e d reuse st = (Ok o, st') →
  wf (deferred_ st') ∧ (is_Some o ↔ reuse = true ∧ key_file_path d = None) ∧
  ∃ tr, trace st' = trace st ++ tr ∧ opened tr = [] ∧ fed tr = [].
Proof.
  intros Hwf. unfold shared_password. destruct (reuse && bool_decide (key_file_path d = None)) eqn:E.
  - apply andb_true_iff in E as [-> E%bool_decide_eq_true].
    destruct (env_pwds d !! 1%N) as [p|].
    { intros [= <- <-]. split_and!; [done|naive_solver|]. exists []. by rewrite app_nil_r. }
    destruct (env_has_passphrase d); [done|].
    intros (? & st1 & E1 & H)%bind_inv. injection E1 as <- <-.
    apply bind_inv in H as (pwd & st2 & H & [= <- <-]).
    apply guarded_wait_run in H as (Hp & Hwf2 & tr & Ht & Ho & Hf); [|done].
    split_and!; [done|naive_solver|]. exists (Print (TPrompt true) :: tr). rewrite Ht. simpl.
    by rewrite <-app_assoc.
  - intros [= <- <-]. split_and!; [done| |exists []; by rewrite app_nil_r].
    split; [by intros [? ?]|]. intros [-> Hk]. rewrite bool_decide_eq_true_2 in E by done. done.
Qed.
End Decrypt.

(** A decryption that succeeds has opened every device of the list
    exactly once, in its order, under the mapper names 0, 1, 2 and so on, and
    each with the passphrase that is meant for it: the shared one, else the
    one of its number from the environment, else the key file or the user. *)
Lemma decrypt_opens_all e d devs reuse st st'
    (Hwf : wf (deferred_ st)) (Hrun : decrypt e d devs reuse st = (Ok tt, st')) :
  ∃ tr pwd, trace st' = trace st ++ tr ∧
    (is_Some pwd ↔ reuse = true ∧ key_file_path d = None) ∧
    opened tr = imap (λ i dev, cryptsetup_args d i dev) (Str.split "," devs) ∧
    accepted e d reuse pwd 0 (Str.split "," devs) (fed tr).
Proof.
  unfold decrypt in Hrun. apply bind_inv in Hrun as (pwd & st1 & H1 & H2).
  apply shared_password_run in H1 as (Hwf1 & Hp & tr1 & Ht1 & Ho1 & Hf1); [|done].
  apply decrypt_devices_run in H2 as (tr2 & Ht2 & Ho2 & Ha); [|done].
  exists (tr1 ++ tr2), pwd. by rewrite Ht2, Ht1, opened_app, fed_app, Ho1, Ho2, Hf1, app_assoc.
Qed.

(** A key file together with a passphrase in the environment is a panic:
    cryptsetup reads the key file and has no piped input, but the agent finds
    a passphrase for the first device and unwraps that pipe.  Nothing is
    opened, and no exit code is reported. *)
Lemma key_file_with_passphrase_panics e d devs reuse st k p
    (Hkey : key_file_path d = Some k) (Hpwd : env_pwds d !! 1%N = Some p) (Hspawn : e_spawn e = Ok tt) :
  (decrypt e d devs reuse st).1 = Panic ∧
  fed (trace (decrypt e d devs reuse st).2) = fed (trace st).
Proof.
  unfold decrypt, shared_password. rewrite Hkey, andb_false_r.
  destruct (Str.split "," devs) as [|dev l] eqn:E; [by apply StrFacts.split_ne in E|].
  unfold mbind at 1, M_bind at 1, mret, M_ret. simpl. unfold decrypt_device, mbind, M_bind, lift, emit.
  rewrite Hspawn. simpl. unfold passphrase_input, stdin_piped.
  change (N.of_nat 1) with 1%N. rewrite Hpwd, Hkey. simpl. split; [done|].
  by rewrite fed_app, app_nil_r.
Qed.

(** ** Concrete inputs *)
Module Witness.
(** An ext4 disk with a label; everything succeeds but what it is told not to. *)
Definition env (vars : list (string * string)) (mounts : bool) : Env := {|
  guest := Linux; e_init := Ok tt; e_key_iso := None; e_vars := vars;
  e_spawn := Ok tt; e_wait := λ _ _, Ok (Some 0%Z); e_password := Ok "pw";
  e_mdadm := Ok tt; e_md_path := Ok ""; e_vgchange := Ok tt;
  e_blkid := λ _ what, Ok (if decide (what = "TYPE") then "ext4" else "my data");
  e_modprobe := Ok tt; e_btrfs_scan := Ok tt; e_create_dir := λ _, Ok tt;
  e_zpool_import := λ _ _, Ok (Some 0%Z); e_zfs_list := Ok []; e_set_order := id;
  e_zfs := λ _, Ok (Some 0%Z); e_mount := λ _, Ok (Some (if mounts then 0 else 32)%Z);
  e_action := λ _, inr (Some 0%Z); e_mount_options := λ _, Ok "rw,relatime";
  e_is_fuse := λ _, Ok false; e_write := Ok tt; e_server := true |}.

#[local] Existing Instances Common.Witness.codec Common.Witness.pct.

Definition luks_args : MountArgs := VmDisk.Witness.sample_args "crypto_LUKS" (Some "/dev/vda,/dev/vdb").


Definition vars : list (string * string) := [("ALFS_PASSPHRASE", "one"); ("ALFS_PASSPHRASE2", "two")].
Definition luks_disk (key : option string) : VmDiskContext :=
  VmDiskContext_new luks_args (get_pwds_from_env vars) key.

Example decrypt_opens_all_witness :
  let d := luks_disk None in
  let st' := (decrypt (env vars true) d "/dev/vda,/dev/vdb" false start).2 in
  ∃ tr pwd, trace st' = trace start ++ tr ∧
    (is_Some pwd ↔ false = true ∧ key_file_path d = None) ∧
    opened tr = imap (λ i dev, cryptsetup_args d i dev) ["/dev/vda"; "/dev/vdb"] ∧
    accepted (env vars true) d false pwd 0 ["/dev/vda"; "/dev/vdb"] (fed tr).
Proof.
  apply (decrypt_opens_all (env vars true) (luks_disk None) "/dev/vda,/dev/vdb" false start).
  - repeat constructor.
  - vm_compute. reflexivity.
Defined.

Example key_file_with_passphrase_panics_witness :
  let d := luks_disk (Some "/tmp/key") in
  (decrypt (env vars true) d "/dev/vda" false start).1 = Panic ∧
  fed (trace (decrypt (env vars true) d "/dev/vda" false start).2) = fed (trace start).
Proof. apply (key_file_with_passphrase_panics _ _ _ _ _ "/tmp/key" "one"); vm_compute; reflexivity. Defined.
End Witness.
