(* ===== verification/AgentReport.v ===== *)
(** * The agent's report and the host

    What the agent in the VM prints about the disk is what the reader thread
    of the session takes in, and the export that the session mounts is one
    that the agent serves. *)
From S2P Require Import Prelude Ipc Deferred Common Paths Settings DevInfo Instance Reader VmDisk Agent AgentSpec.
From Stdlib Require Import Ascii.
Import deferred.

(** ** Tags that say something about the disk *)
Definition reports (t : Tag) : bool :=
  match t with TLabel _ | TType _ | TChangedToRo | TExport _ => true | _ => false end.

(** The last label among the tags. *)
Definition label_from (acc : option string) (ts : list Tag) : option string :=
  foldl (λ acc t, match t with TLabel l => Some l | _ => acc end) acc ts.
Definition label_of : list Tag → option string := label_from None.

(** Tags that report neither a label nor an export nor the fallback. *)
Definition neutral (t : Tag) : bool :=
  match t with TLabel _ | TChangedToRo | TExport _ => false | _ => true end.

Lemma label_from_app acc ts1 ts2 : label_from acc (ts1 ++ ts2) = label_from (label_from acc ts1) ts2.
Proof. apply foldl_app. Qed.
Lemma label_from_neutral acc ts : forallb neutral ts = true → label_from acc ts = acc.
Proof.
  induction ts as [|t ts IH]; [done|]. simpl. intros [Ht Hts]%andb_true_iff. by destruct t; auto.
Qed.
Lemma label_from_exports acc ps : label_from acc (TExport <$> ps) = acc.
Proof. by induction ps. Qed.

Lemma tags_app tr1 tr2 : tags (tr1 ++ tr2) = tags tr1 ++ tags tr2.
Proof. apply omap_app. Qed.

(** ** Computations that print only neutral tags *)
Definition says_neutral {A} (r : outcome A) (tr : list Event) (ds : list Cleanup) : Prop :=
  forallb neutral (tags tr) = true.
Definition silent {A} (r : outcome A) (tr : list Event) (ds : list Cleanup) : Prop :=
  ds = [] ∧ tags tr = [].

Lemma silent_lift {A} (r : outcome A) : ext (lift r) silent.
Proof. by apply ext_lift. Qed.
Lemma silent_emit ev : event_tag ev = None → ext (emit ev) silent.
Proof. intros He. apply ext_emit. split; [done|]. unfold tags. simpl. by rewrite He. Qed.
Lemma silent_ret {A} (a : A) : ext (mret a) silent.
Proof. by apply ext_ret. Qed.
Lemma silent_bind {A B} (m : M A) (f : A → M B) :
  ext m silent → (∀ a, ext (f a) silent) → ext (m ≫= f) silent.
Proof.
  intros Hm Hf. eapply ext_bind; [exact Hm| |done..].
  intros a tr ds [-> Htr]. eapply ext_mono; [exact (Hf a)|].
  intros r tr' ds' [-> Htr']. split; [done|]. by rewrite tags_app, Htr, Htr'.
Qed.

Lemma neutral_lift {A} (r : outcome A) : ext (lift r) says_neutral.
Proof. by apply ext_lift. Qed.
Lemma neutral_ret {A} (a : A) : ext (mret a) says_neutral.
Proof. by apply ext_ret. Qed.
Lemma neutral_emit ev : match event_tag ev with Some t => neutral t | None => true end = true → ext (emit ev) says_neutral.
Proof.
  intros Hn. apply ext_emit. unfold says_neutral, tags. simpl.
  destruct (event_tag ev); [|done]. simpl. by rewrite Hn.
Qed.
Lemma neutral_print t : neutral t = true → ext (print t) says_neutral.
Proof. intros Ht. by apply neutral_emit. Qed.
Lemma neutral_defer c : ext (defer c) says_neutral.
Proof. by apply ext_defer. Qed.
Lemma neutral_bind {A B} (m : M A) (f : A → M B) :
  ext m says_neutral → (∀ a, ext (f a) says_neutral) → ext (m ≫= f) says_neutral.
Proof.
  intros Hm Hf. eapply ext_bind; [exact Hm| |done..].
  intros a tr ds Htr. eapply ext_mono; [exact (Hf a)|].
  intros r tr' ds' Htr'. unfold says_neutral in *. by rewrite tags_app, forallb_app, Htr.
Qed.
Lemma neutral_guarded {A} c (m : M A) : ext m silent → ext (guarded c m) says_neutral.
Proof.
  intros Hm. eapply ext_guarded; [exact Hm|..].
  - intros a tr ds [-> Htr]. split; [done|]. unfold says_neutral. rewrite tags_app, Htr. by destruct c.
  - intros r tr ds _ [_ Htr]. unfold says_neutral. by rewrite Htr.
Qed.

Create HintDb report.
#[export] Hint Resolve silent_lift silent_emit silent_ret silent_bind neutral_lift neutral_ret neutral_emit
  neutral_print neutral_defer neutral_bind neutral_guarded : report.

(** Take a computation to pieces, conditions included. *)
Ltac walk :=
  repeat (cbn beta iota zeta; intros; lazymatch goal with
  | |- context [match ?x with _ => _ end] =>
      lazymatch x with context [match _ with _ => _ end] => fail | _ => destruct x eqn:? end
  | |- ext (_ ≫= _) silent => apply silent_bind
  | |- ext (_ ≫= _) says_neutral => apply neutral_bind
  | |- ext (guarded _ _) says_neutral => apply neutral_guarded
  end); auto with report.

Section Parts.
Context (e : Env).

Lemma shared_password_neutral d b : ext (shared_password e d b) says_neutral.
Proof. unfold shared_password. walk. Qed.

Lemma decrypt_neutral d devs b : ext (decrypt e d devs b) says_neutral.
Proof.
  unfold decrypt. apply neutral_bind; [apply shared_password_neutral|]. intros o.
  generalize 0. induction (Str.split "," devs) as [|dev l IH]; intros i; simpl; [apply neutral_ret|].
  apply neutral_bind; [|auto]. unfold decrypt_device. walk.
Qed.

Lemma run_zfs_silent cmds : ext (run_zfs e cmds) silent.
Proof. induction cmds as [|c cmds IH]; simpl; walk. Qed.

Lemma mount_disk_neutral a d mp : ext (mount_disk e a d mp) says_neutral.
Proof.
  assert (∀ msg s, ext (shown_action e msg s) says_neutral) as Hact.
  { intros msg s. unfold shown_action. destruct s as [s|]; [|apply neutral_ret].
    destruct (Str.is_empty s); [apply neutral_ret|].
    apply neutral_bind; [by apply neutral_print|intros _].
    apply neutral_bind; [|intros r; apply neutral_bind; [by apply neutral_print|intros _; apply neutral_lift]].
    intros st Hwf. unfold try_action, execute_action, emit, lift, mbind, M_bind. simpl.
    destruct (e_action e s) as [m|x]; simpl; [|destruct (success x)]; simpl; (split; [done|]);
      exists [Action s], []; by rewrite app_nil_r. }
  unfold mount_disk, action_before_mount, action_after_mount, mount. walk.
  apply run_zfs_silent.
Qed.
(** What a computation that adds known events leaves to prove. *)
Ltac adds tr := split; [done|]; exists tr, []; rewrite !app_nil_r; split; [done|split; [done|]].

Lemma detect_report d : ext (detect_fs_type e d)
  (λ r tr _, forallb neutral (tags tr) = true ∧ ∀ d', r = Ok d' → v_mount_name d' = v_mount_name d).
Proof.
  intros st Hwf. unfold detect_fs_type, print, emit, lift, mbind, M_bind.
  case_decide; [|case_decide; [destruct (e_blkid e _ _) as [fs|msg|]|case_decide]]; simpl.
  - adds (@nil Event). naive_solver.
  - adds [Print (TType (Str.trim fs))]. naive_solver.
  - adds (@nil Event). naive_solver.
  - adds (@nil Event). naive_solver.
  - adds [Print (TType "zfs")]. naive_solver.
  - adds (@nil Event). naive_solver.
Qed.

(** The label that was printed names the mount point. *)
Definition label_report (d : VmDiskContext) (r : outcome VmDiskContext) (tr : list Event) : Prop :=
  ∀ d', r = Ok d' → ∃ lbl, tags tr = TLabel <$> option_list lbl ∧
    v_mount_name d' = default (v_mount_name d) lbl ∧
    (∀ l, lbl = Some l → l ≠ "" ∧ path_safe_label_name l = Some l).

Lemma resolve_report d : ext (resolve_mount_label e d) (λ r tr _, label_report d r tr).
Proof.
  intros st Hwf. unfold resolve_mount_label, print, emit, lift, mbind, M_bind, mret, M_ret.
  assert (label_report d (Ok d) []) as Hnone by (intros d' [= <-]; by exists None).
  case_decide; [adds (@nil Event); exact Hnone|].
  destruct (is_zfs d).
  { assert (label_report d (Ok (with_mount_name d "zfs_root")) [Print (TLabel "zfs_root")]) as Hz.
    { intros d' [= <-]. exists (Some "zfs_root"). split_and!; [done..|]. by intros l [= <-]. }
    destruct (guest e); [destruct (e_modprobe e) as [u|msg|]|]; simpl.
    1,4: adds [Print (TLabel "zfs_root")]; exact Hz.
    all: adds (@nil Event); by intros ?. }
  destruct (_ && _); [adds (@nil Event); exact Hnone|].
  destruct (e_blkid e _ _) as [label|msg|]; simpl; [|by adds (@nil Event); intros ?..].
  destruct (path_safe_label_name _) as [l|] eqn:Hl; simpl; [|adds (@nil Event); exact Hnone].
  adds [Print (TLabel l)]. intros d' [= <-]. exists (Some l). split_and!; [done..|].
  intros l' [= <-]. apply path_safe_stable in Hl. naive_solver.
Qed.

Lemma print_exports_run es st :
  print_exports es st = (Ok tt, mkSt (deferred_ st) (trace st ++ ((λ p, Print (TExport p)) <$> es.*1))).
Proof.
  revert st; induction es as [|[p a] es IH]; intros st; simpl.
  - rewrite app_nil_r. by destruct st.
  - unfold mbind, M_bind, print, emit. rewrite IH. simpl. by rewrite <-app_assoc.
Qed.

Lemma tags_exports ps : tags ((λ p, Print (TExport p)) <$> ps) = TExport <$> ps.
Proof. induction ps as [|p ps IH]; [done|]. unfold tags in *. simpl. by f_equal. Qed.

(** The exports that are printed, after the fallback to read-only if the
    mount differs from what was asked. *)
Lemma export_disk_report cli a d mp st st' :
  export_disk e cli a d mp st = (Ok tt, st') →
  ∃ ro, tags (trace st') = tags (trace st) ++ (if ro : bool then [TChangedToRo] else []) ++
    (TExport <$> btree_elements (export_set d (export_paths_of a mp))).
Proof.
  unfold export_disk, build_nfs_exports, mbind, M_bind, lift, print, emit.
  destruct (with_context _ (e_mount_options e _)) as [opts| |]; [|done..].
  set (ro := effective_read_only d opts). set (mode := if ro then "ro" else "rw").
  destruct (Bool.eqb (specified_read_only d) ro); simpl.
  all: destruct (all_exports _ _ _ _ _ _) as [es| |] eqn:Hes; [|done..].
  all: unfold mbind, M_bind; rewrite print_exports_run.
  all: destruct (with_context _ (e_write e)) as [[]| |]; [|done..]; intros [= <-]; simpl.
  all: apply export_entries_fst in Hes as ->.
  - exists false. by rewrite !tags_app, tags_exports, app_nil_r.
  - exists true. rewrite !tags_app, tags_exports, app_nil_r. by rewrite <-app_assoc.
Qed.
(** *** One run *)
Lemma activate_name d d' : activate_volume_managers e d = Ok d' → v_mount_name d' = v_mount_name d.
Proof.
  unfold activate_volume_managers. intros (p & _ & (u & _ & H)%outcome_bind_Ok)%outcome_bind_Ok.
  by repeat case_match; simplify_eq/=.
Qed.

Lemma import_name d mp d' : import_zfs_pools e d mp = Ok d' → v_mount_name d' = v_mount_name d.
Proof.
  unfold import_zfs_pools. destruct (negb _); [by intros [= <-]|].
  intros ([[s mps] pools] & _ & H)%outcome_bind_Ok.
  by destruct (success s); simplify_eq/=.
Qed.

Definition mount_point_named (name : string) : string :=
  if Str.is_empty name then "" else "/mnt/" +:+ name.

Lemma find_disk_report cli d st d' mp st' :
  wf (deferred_ st) → find_disk e cli d st = (Ok (d', mp), st') →
  wf (deferred_ st') ∧ ∃ t1 lbl, tags (trace st') = tags (trace st) ++ t1 ++ (TLabel <$> option_list lbl) ∧
    forallb neutral t1 = true ∧
    (a_custom_mount_point cli = true → lbl = None) ∧
    (∀ l, lbl = Some l → l ≠ "" ∧ path_safe_label_name l = Some l) ∧
    mp = mount_point_named (default (v_mount_name d) lbl).
Proof.
  intros Hwf. unfold find_disk. intros ([] & st1 & H1 & H)%bind_inv.
  assert (ext (match a_decrypt cli with Some devs => decrypt e d devs (a_reuse_passphrase cli) | None => mret tt end)
    says_neutral) as Hd by (destruct (a_decrypt cli); [apply decrypt_neutral|apply neutral_ret]).
  destruct (ext_Ok _ _ _ _ _ Hd Hwf H1) as (Hwf1 & tr1 & ds1 & Ht1 & Hn1). clear Hd H1.
  apply bind_inv in H as (d1 & ? & [Ha ->]%lift_inv & H). apply activate_name in Ha.
  apply bind_inv in H as (d2 & st2 & H2 & H).
  destruct (ext_Ok _ _ _ _ _ (detect_report d1) Hwf1 H2) as (Hwf2 & tr2 & ds2 & Ht2 & Hn2 & Hname2). clear H2.
  specialize (Hname2 d2 eq_refl). apply bind_inv in H as (d3 & st3 & H3 & H).
  assert (wf (deferred_ st3) ∧ ∃ lbl, tags (trace st3) = tags (trace st2) ++ (TLabel <$> option_list lbl) ∧
    (a_custom_mount_point cli = true → lbl = None) ∧ v_mount_name d3 = default (v_mount_name d2) lbl ∧
    (∀ l, lbl = Some l → l ≠ "" ∧ path_safe_label_name l = Some l)) as (Hwf3 & lbl & Ht3 & Hc & Hname3 & Hl).
  { destruct (a_custom_mount_point cli).
    - injection H3 as <- <-. split; [done|]. exists None. by rewrite app_nil_r.
    - destruct (ext_Ok _ _ _ _ _ (resolve_report d2) Hwf2 H3) as (Hwf3 & tr3 & ds3 & Ht3 & Hr).
      destruct (Hr d3 eq_refl) as (lbl & Htr3 & Hn & Hl). split; [done|]. exists lbl.
      by rewrite Ht3, tags_app, Htr3. }
  clear H3. apply bind_inv in H as (? & ? & [_ ->]%lift_inv & H).
  apply bind_inv in H as (? & ? & [_ ->]%lift_inv & H).
  apply bind_inv in H as (mp' & ? & [Hmp ->]%lift_inv & H).
  apply bind_inv in H as (d4 & ? & [_ ->]%lift_inv & H). injection H as -> -> ->.
  split; [done|]. exists (tags tr1 ++ tags tr2), lbl. split_and!; [| |done..|].
  - by rewrite Ht3, Ht2, Ht1, !tags_app, <-!app_assoc.
  - unfold says_neutral in Hn1. by rewrite forallb_app, Hn1.
  - rewrite <-Ha, <-Hname2, <-Hname3. unfold prepare_mount_point in Hmp. unfold mount_point_named.
    destruct (Str.is_empty _); [by injection Hmp as <-|].
    by apply outcome_bind_Ok in Hmp as (? & _ & [= <-]).
Qed.

Context `{Codec CustomActionConfig, PercentEncoding}.

Lemma new_mount_name cli pwds k : v_mount_name (VmDiskContext_new cli pwds k) = a_mount_name cli.
Proof. unfold VmDiskContext_new. by destruct (bool_decide _). Qed.

(** The tags of a run that reached the server. *)
Lemma run_report cli st :
  run e cli start = (Ok tt, st) →
  ∃ a d lbl t1 t2 ro, decode_action cli = Ok a ∧
    tags (trace st) = t1 ++ (TLabel <$> option_list lbl) ++ t2 ++ (if ro : bool then [TChangedToRo] else []) ++
      (TExport <$> btree_elements (export_set d (export_paths_of a
        (mount_point_named (default (a_mount_name cli) lbl))))) ∧
    forallb neutral t1 = true ∧ forallb neutral t2 = true ∧
    (a_custom_mount_point cli = true → lbl = None) ∧
    (∀ l, lbl = Some l → l ≠ "" ∧ path_safe_label_name l = Some l).
Proof.
  unfold run. intros (? & ? & [_ ->]%lift_inv & H1)%bind_inv.
  apply bind_inv in H1 as (? & st0 & E0 & H1). injection E0 as _ <-.
  apply bind_inv in H1 as (? & st1 & E1 & H1). injection E1 as _ <-.
  set (st1 := mkSt _ _) in H1.
  assert (wf (deferred_ st1)) as Hwf1 by (split; repeat constructor).
  unfold run_connected in H1. apply bind_inv in H1 as (a & ? & [Hdec ->]%lift_inv & H1).
  apply bind_inv in H1 as (k & st2 & H2 & H1).
  assert (ext (in_context "Failed to set up encryption key file" (setup_key_file_path e (a_key_file cli)))
    says_neutral) as Hk.
  { assert (ext (setup_key_file_path e (a_key_file cli)) says_neutral) as Hk by (unfold setup_key_file_path; walk).
    intros st' Hwf. unfold in_context. destruct (Hk st' Hwf) as (? & tr & pds & ? & ? & ?).
    destruct (setup_key_file_path e _ st') as [r st'']. simpl in *. split; [done|]. by exists tr, pds. }
  destruct (ext_Ok _ _ _ _ _ Hk Hwf1 H2) as (Hwf2 & tr2 & ds2 & Ht2 & Hn2). clear Hk H2.
  apply bind_inv in H1 as ([d mp] & st3 & H3 & H1).
  apply find_disk_report in H3 as (Hwf3 & t1 & lbl & Ht3 & Hn1 & Hc & Hl & Hmp); [|done].
  apply bind_inv in H1 as (? & st4 & H4 & H1).
  destruct (ext_Ok _ _ _ _ _ (mount_disk_neutral a d mp) Hwf3 H4) as (Hwf4 & tr4 & ds4 & Ht4 & Hn4).
  apply bind_inv in H1 as ([] & st5 & H5 & H1). apply export_disk_report in H5 as (ro & Ht5).
  assert (tags (trace st) = tags (trace st5)) as ->.
  { revert H1. unfold serve. destruct (e_server e); [|by intros [= <-]].
    unfold mbind, M_bind, emit. intros [= <-]. simpl. by rewrite !tags_app, !app_nil_r. }
  exists a, d, lbl, ([TReady] ++ tags tr2 ++ t1), (tags tr4), ro. rewrite new_mount_name in Hmp.
  rewrite Ht5, Ht4, tags_app, Ht3, Ht2, tags_app, <-Hmp. split_and!; [done| |..|done|done|done].
  - simpl. by rewrite <-!app_assoc.
  - unfold says_neutral in Hn2. simpl. by rewrite forallb_app, Hn2.
Qed.
End Parts.

(** ** The host's side *)
Definition label_tag : string := "<anylinuxfs-label".
Definition type_tag : string := "<anylinuxfs-type".
Definition ro_tag : string := "<anylinuxfs-mount:changed-to-ro>".
Definition export_tag : string := "<anylinuxfs-nfs-export".
Definition host_tags : list string := [label_tag; type_tag; ro_tag; export_tag].

(** A line with a report, and the reports of the agent as lines. *)
Definition is_report (l : string) : bool := existsb (λ t, Str.starts_with t (tagged l)) host_tags.
Definition report_lines (ts : list Tag) : list string := console_line <$> List.filter reports ts.

(** No white space at the start of what is reported (it would be trimmed). *)
Definition tag_clean (t : Tag) : Prop :=
  match t with TLabel s | TType s | TExport s => Str.trim_start s = s | _ => True end.

Lemma tagged_console t : tagged (console_line t) = console_line t.
Proof. by destruct t as [| | | | |[]|[]|]. Qed.

Lemma trim_start_length s : String.length (Str.trim_start s) ≤ String.length s.
Proof. induction s as [|c s IH]; simpl; [done|]. destruct (Str.is_space c); simpl; lia. Qed.

Lemma trim_start_app s t :
  Str.trim_start s = s → Str.trim_start t = t → Str.trim_start (s +:+ t) = s +:+ t.
Proof.
  destruct s as [|c s]; [done|]. simpl. destruct (Str.is_space c); [|done]. intros E.
  pose proof (trim_start_length s) as H. rewrite E in H. simpl in H. lia.
Qed.

Lemma trim_end_app s t :
  Str.trim_end t ≠ "" → Str.trim_end (s +:+ t) = s +:+ Str.trim_end t.
Proof.
  intros Ht. induction s as [|c s IH]; [done|]. simpl. rewrite IH.
  destruct (s +:+ Str.trim_end t) as [|a r] eqn:E; [|done].
  apply StrFacts.app_eq_nil in E as [_ ?]. done.
Qed.

Lemma trim_value s : Str.trim_start s = s → Str.trim (s +:+ ">" +:+ String CR (String LF "")) = s +:+ ">".
Proof.
  intros Hs. unfold Str.trim. rewrite trim_start_app by done. by rewrite trim_end_app.
Qed.

(** What the host gets out of a line that the agent printed. *)
Definition reported (t : Tag) : option string :=
  match t with TLabel s | TType s | TExport s => Some s | _ => None end.

Lemma parse_console t s :
  reported t = Some s → tag_clean t → parse_vm_tag_value (console_line t) = Some s.
Proof.
  intros Ht Hc.
  assert (∃ p, Str.split_once ":" (console_line t) = Some (p, s +:+ ">" +:+ String CR (String LF ""))) as [p Hp].
  { destruct t; try discriminate Ht; injection Ht as ->;
      [exists label_tag|exists type_tag|exists export_tag]; apply StrFacts.split_once_Some; (split; [done|]);
      unfold console_line, tag_line; by rewrite !StrFacts.app_assoc. }
  assert (Str.trim_start s = s) as Hs by (by destruct t; simplify_eq/=).
  unfold parse_vm_tag_value. rewrite Hp. simpl. rewrite trim_value by done.
  by rewrite StrFacts.strip_suffix_app.
Qed.

(** *** A stretch of the console *)
(** The readings of [Reader], on the lines from their tag on. *)
Definition reading (tag : string) (acc : option string) (ls : list string) : option string :=
  foldl (λ acc l, if Str.starts_with tag l then parse_vm_tag_value l else acc) acc ls.

Lemma reading_spec tag acc ls :
  tag ∈ host_tags →
  foldl (λ acc l, if Str.starts_with tag (tagged l) then parse_vm_tag_value (tagged l) else acc) acc ls =
  reading tag acc (tagged <$> List.filter is_report ls).
Proof.
  intros Hin. revert acc; induction ls as [|l ls IH]; intros acc; [done|]. simpl. rewrite IH.
  destruct (is_report l) eqn:Hr; [done|]. destruct (Str.starts_with tag (tagged l)) eqn:Hs; [|done].
  assert (is_report l = true) as ?; [|congruence]. unfold is_report. apply existsb_exists.
  exists tag. split; [by apply list_elem_of_In|done].
Qed.

Lemma reading_label acc ts :
  Forall tag_clean ts → reading label_tag acc (report_lines ts) = label_from acc ts.
Proof.
  intros Hc. revert acc; induction Hc as [|t ts Ht Hts IH]; intros acc; [done|]. unfold report_lines in *. simpl.
  destruct t; simpl; rewrite <-?IH; try done. unfold reading. simpl.
  by rewrite (parse_console (TLabel l) l).
Qed.

Lemma omap_cons {A B} (f : A → option B) x l :
  omap f (x :: l) = match f x with Some y => y :: omap f l | None => omap f l end.
Proof. done. Qed.

(** The lines that [f] picks are among the reports. *)
Lemma reports_only {A} (f : string → option A) ls :
  (∀ l, is_report l = false → f (tagged l) = None) →
  omap (λ l, f (tagged l)) ls = omap f (tagged <$> List.filter is_report ls).
Proof.
  intros Hf. induction ls as [|l ls IH]; [done|]. rewrite omap_cons, IH. simpl.
  destruct (is_report l) eqn:Hr; [done|]. by rewrite Hf.
Qed.

Lemma not_report tag l : tag ∈ host_tags → is_report l = false → Str.starts_with tag (tagged l) = false.
Proof.
  intros Hin Hr. destruct (Str.starts_with tag (tagged l)) eqn:Hs; [|done].
  enough (is_report l = true) by congruence. apply existsb_exists.
  exists tag. split; [by apply list_elem_of_In|done].
Qed.

Lemma export_values ls ts :
  tagged <$> List.filter is_report ls = report_lines ts → Forall tag_clean ts →
  ∀ p, p ∈ values export_tag ls ↔ TExport p ∈ ts.
Proof.
  intros Hls Hc p. unfold values. rewrite elem_of_list_to_set.
  set (f := λ l, if Str.starts_with export_tag l then parse_vm_tag_value l else None).
  change (p ∈ omap (λ l, f (tagged l)) ls ↔ TExport p ∈ ts).
  rewrite (reports_only f ls), Hls by (intros l Hl; unfold f; rewrite not_report; [done|set_solver|done]).
  assert (∀ t, tag_clean t → f (console_line t) = match t with TExport s => Some s | _ => None end) as Hf.
  { intros t Ht. unfold f. destruct t as [| | | |s|[]|[]|]; try done. exact (parse_console (TExport s) s eq_refl Ht). }
  clear Hls. clearbody f. induction Hc as [|t ts Ht Hts IH]; [by split; intros ?%elem_of_nil|].
  unfold report_lines in *. specialize (Hf t Ht). rewrite elem_of_cons, <-IH.
  destruct t; cbn [List.filter reports]; rewrite ?fmap_cons, ?omap_cons, ?Hf, ?elem_of_cons; naive_solver.
Qed.

Lemma ro_value ls ts :
  tagged <$> List.filter is_report ls = report_lines ts →
  existsb (λ l, Str.starts_with ro_tag (tagged l)) ls = bool_decide (TChangedToRo ∈ ts).
Proof.
  intros Hls. apply eq_bool_prop_intro. rewrite bool_decide_spec, Is_true_true, existsb_exists.
  set (f := λ l, if Str.starts_with ro_tag l then Some tt else None).
  assert (tt ∈ omap (λ l, f (tagged l)) ls ↔ TChangedToRo ∈ ts) as <-.
  - rewrite (reports_only f ls), Hls by (intros l Hl; unfold f; rewrite not_report; [done|set_solver|done]).
    assert (∀ t, f (console_line t) = match t with TChangedToRo => Some tt | _ => None end) as Hf
      by (by intros [| | | | |[]|[]|]).
    clear Hls. clearbody f. induction ts as [|t ts IH]; [by split; intros ?%elem_of_nil|].
    unfold report_lines in *. rewrite elem_of_cons, <-IH.
    destruct t; cbn [List.filter reports]; rewrite ?fmap_cons, ?omap_cons, ?Hf, ?elem_of_cons; naive_solver.
  - rewrite list_elem_of_omap. subst f. simpl. split.
    + intros (l & Hin%list_elem_of_In & E). exists l. by rewrite E.
    + intros (l & Hin%list_elem_of_In & E). exists l. split; [done|]. by destruct (Str.starts_with _ _).
Qed.

(** The session starts the agent with what it knows ([vmproxy_args]). *)
Record started_for `{Codec CustomActionConfig, PercentEncoding}
    (config : MountConfig) (dev : DevInfo) (cli : MountArgs) : Prop := {
  sf_name : a_mount_name cli = share_name config dev;
  sf_named : share_name config dev ≠ "";
  sf_custom : a_custom_mount_point cli = bool_decide (is_Some (custom_mount_point config));
  sf_action : match get_action config with
              | Some action => ∃ s, percent_encode action = Ok s ∧ a_action cli = Some s
              | None => a_action cli = None
              end;
}.

Lemma decode_action_started `{CodecLaws CustomActionConfig, PercentLaws} config dev cli a :
  started_for config dev cli → decode_action cli = Ok a → a = get_action config.
Proof.
  intros [_ _ _ Ha]. unfold decode_action. destruct (get_action config) as [action|].
  - destruct Ha as (s & Hs & ->). rewrite (percent_decode_encode _ _ Hs).
    by intros (c & [-> _]%validate_Ok & [= <-])%outcome_bind_Ok.
  - by rewrite Ha; intros [= <-].
Qed.

(** The name of the share, once the report has been applied. *)
Lemma share_name_reported `{Codec CustomActionConfig, PercentEncoding} config dev cli lbl fs ro rt :
  started_for config dev cli →
  (a_custom_mount_point cli = true → lbl = None) →
  (∀ l, lbl = Some l → l ≠ "" ∧ path_safe_label_name l = Some l) →
  share_name config (apply_report lbl fs ro dev rt).1 = default (a_mount_name cli) lbl ∧
  default (a_mount_name cli) lbl ≠ "".
Proof.
  intros [Hn Hne Hc _] Hcustom Hl. rewrite Hn.
  assert (share_name config (apply_report lbl fs ro dev rt).1 =
    share_name config (match lbl with Some l => set_label dev l | None => dev end)) as ->.
  { unfold share_name. destruct (custom_mount_name config); [done|]. by destruct lbl, fs. }
  destruct lbl as [l|]; [|done]. destruct (Hl l eq_refl) as [Hln Hls]. split; [|done].
  unfold share_name, custom_mount_name. destruct (custom_mount_point config) as [p|].
  - rewrite bool_decide_eq_true_2 in Hc by eauto. by discriminate (Hcustom Hc).
  - simpl. unfold auto_mount_name. simpl. by rewrite Hls.
Qed.

(** C10: agent and session agree on what is shared: when the server announces
    itself, the session knows every export of the agent and whether the mount
    fell back to read-only, whatever else was printed between the reports; and
    the export that it then mounts, computed from its own configuration and
    the reported label, is one of those the agent serves. *)
Theorem export_path_agrees `{CodecLaws CustomActionConfig, PercentLaws}
    verbose e cli st config dev rt pre l post
    (Hrun : run e cli start = (Ok tt, st))
    (Hstarted : started_for config dev cli)
    (Hclean : Forall tag_clean (tags (trace st)))
    (Hpre : tagged <$> List.filter is_report pre = report_lines (tags (trace st)))
    (Hready : Forall (λ l, is_ready l = false) pre ∧ is_ready l = true) :
  ∃ r, first_status (sent (Reader.finish (foldl (handle_line verbose) pty_new (pre ++ l :: post)))) = Some (Ready r) ∧
    (∀ p, p ∈ exports r ↔ TExport p ∈ tags (trace st)) ∧
    changed_to_ro r = bool_decide (TChangedToRo ∈ tags (trace st)) ∧
    export_path config (apply_report (fslabel r) (fstype r) (changed_to_ro r) dev rt).1 ∈ exports r.
Proof.
  destruct Hready as [Hpre' Hl]. rewrite ready_status by done. eexists. split; [done|]. simpl.
  assert (∀ p, p ∈ btree_elements (values export_tag pre) ↔ TExport p ∈ tags (trace st)) as Hex
    by (intros p; rewrite elem_of_btree_elements; by apply export_values).
  split; [exact Hex|]. split; [by apply ro_value|]. apply Hex.
  assert (last_value "<anylinuxfs-label" pre = label_of (tags (trace st))) as ->.
  { unfold last_value. rewrite reading_spec, Hpre by set_solver. by apply reading_label. }
  destruct (run_report e cli st Hrun) as (a & d & lbl & t1 & t2 & ro & Hdec & -> & Hn1 & Hn2 & Hc & Hlbl).
  apply (decode_action_started config dev) in Hdec as ->; [|done].
  assert (label_of (t1 ++ (TLabel <$> option_list lbl) ++ t2 ++ (if ro then [TChangedToRo] else []) ++
    (TExport <$> btree_elements (export_set d (export_paths_of (get_action config)
       (mount_point_named (default (a_mount_name cli) lbl)))))) = lbl) as ->.
  { unfold label_of. rewrite !label_from_app, label_from_exports, (label_from_neutral _ t1), (label_from_neutral _ t2) by done.
    by destruct lbl, ro. }
  set (fs := last_value _ _). set (b := existsb _ _). clearbody fs b.
  destruct (share_name_reported config dev cli lbl fs b rt Hstarted Hc Hlbl) as [Hs Hne].
  assert (export_path config (apply_report lbl fs b dev rt).1 =
    export_path_of (get_action config) (mount_point_named (default (a_mount_name cli) lbl))) as ->.
  { unfold export_path, export_path_of, export_override, mount_point_named. rewrite Hs.
    destruct (default (a_mount_name cli) lbl) as [|c s]; [done|]. simpl.
    destruct (get_action config) as [action|]; [|done]. simpl. by destruct (Str.is_empty _). }
  rewrite !elem_of_app. do 4 right. apply list_elem_of_fmap_2, elem_of_btree_elements.
  unfold export_set, export_paths_of. set_solver.
Qed.

(** ** Concrete inputs *)
Module Witness.
#[local] Existing Instances Common.Witness.codec Common.Witness.codec_laws Common.Witness.pct Common.Witness.pct_laws.
Import AgentSpec.Witness.

Definition config : MountConfig := Settings.Witness.sample_mount_config "/dev/disk7s1".
Definition dev : DevInfo := {|
  dev_path := "/dev/disk7s1"; dev_rpath := "/dev/rdisk7s1"; is_image := false; block_size := None;
  dev_label := None; fs_type := Some "crypto_LUKS"; uuid := None; pt_type := None; vm_path := "/dev/vda";
  vm_part_idx := None; dev_fs_driver := None; da_info := da_info DevInfo_default; size_bytes := None;
  disk_format := disk_format DevInfo_default; metadata_probed := false |}.
Definition after_run : St := (run (env vars true) luks_args start).2.
Definition console : list string :=
  ["Starting" +:+ String LF ""; console_line TReady] ++ report_lines (tags (trace after_run)) ++
  ["/dev/mapper/luks0 mounted" +:+ String LF ""].

Example export_path_agrees_witness :
  ∃ r, first_status (sent (Reader.finish (foldl (handle_line false) pty_new
      (console ++ (READY +:+ String LF "") :: [])))) = Some (Ready r) ∧
    (∀ p, p ∈ exports r ↔ TExport p ∈ tags (trace after_run)) ∧
    changed_to_ro r = bool_decide (TChangedToRo ∈ tags (trace after_run)) ∧
    export_path config (apply_report (fslabel r) (fstype r) (changed_to_ro r) dev Instance.sample_instance).1 ∈ exports r.
Proof.
  apply (export_path_agrees false (env vars true) luks_args after_run config dev Instance.sample_instance
           console (READY +:+ String LF "") []).
  - vm_compute. reflexivity.
  - split; [vm_compute; reflexivity|vm_compute; discriminate|vm_compute; reflexivity|vm_compute; reflexivity].
  - vm_compute. repeat constructor.
  - vm_compute. reflexivity.
  - split; [vm_compute; repeat constructor|vm_compute; reflexivity].
Defined.

(** The tags of a whole run. *)
Example sample_tags :
  tags (main (env vars true) luks_args).2 =
  [TReady; TType "ext4"; TLabel "my_data"; TForce true; TForce false; TExport "/mnt/my_data"].
Proof. vm_compute. reflexivity. Qed.
End Witness.
