(* ===== verification/CmdLine.v ===== *)
(** * The command line of the agent ([vmproxy/src/main.rs] [Cli], [MountArgs],
      [ShellArgs]) and the session that writes it

    The session starts the agent with a command line ([vm.rs] [start_vmproxy]),
    which the agent reads with the declarations of its options. The parser is
    third-party: a class, with what it does on a well-formed line as its law.
    The file [AgentStart] puts the session and the agent together. *)
From S2P Require Import Prelude Common Setup VmDisk.
From Stdlib Require Import Ascii.

(** ** Declarations *)
Inductive OptKind := Flag | Value | Values.
#[global] Instance OptKind_eq_dec : EqDecision OptKind.
Proof. solve_decision. Defined.
Record OptDecl := mkDecl { o_field : string; o_short : option string; o_long : string; o_kind : OptKind }.
#[global] Instance OptDecl_eq_dec : EqDecision OptDecl.
Proof. solve_decision. Defined.

Definition names (d : OptDecl) : list string := option_list (o_short d) ++ [o_long d].

(** The attributes of [MountArgs]; a name that is not given is that of the field. *)
Definition mount_decls : list OptDecl := [
  mkDecl "custom_mount_point" (Some "-c") "--custom-mount-point" Flag;
  mkDecl "fs_type" (Some "-t") "--types" Value;
  mkDecl "fs_driver" None "--fs-driver" Value;
  mkDecl "mount_options" (Some "-o") "--options" Value;
  mkDecl "decrypt" (Some "-d") "--decrypt" Value;
  mkDecl "assemble_raid" None "--assemble-raid" Flag;
  mkDecl "metadata_probed" None "--metadata-probed" Flag;
  mkDecl "action" (Some "-a") "--action" Value;
  mkDecl "key_file" None "--key-file" Value;
  mkDecl "nfs_export_opts" None "--nfs-export-opts" Value;
  mkDecl "ignore_permissions" None "--ignore-permissions" Flag;
  mkDecl "bind_addrs" (Some "-b") "--bind-addrs" Values;
  mkDecl "multi_device" (Some "-m") "--multi-device" Flag;
  mkDecl "reuse_passphrase" (Some "-r") "--reuse-passphrase" Flag;
  mkDecl "host_rpcbind" (Some "-h") "--host-rpcbind" Flag;
  mkDecl "native_network" (Some "-n") "--native-network" Value;
  mkDecl "verbose" (Some "-v") "--verbose" Flag ].

(** The attributes of [ShellArgs]. *)
Definition shell_decls : list OptDecl := [
  mkDecl "command" None "--command" Value;
  mkDecl "dns_server" None "--dns-server" Value;
  mkDecl "native_network" (Some "-n") "--native-network" Value;
  mkDecl "verbose" (Some "-v") "--verbose" Flag ].

(** ** The parser *)
(** What it finds: the positional arguments, and the values of each option that
    occurs. *)
Record Matches := { positionals : list string; occurrences : string → option (list string) }.
Class Clap := clap_parse : list OptDecl → list string → option Matches.

(** An option on a line: its declaration, the name it is given by, its value. *)
Record Occ := mkOcc { oc_decl : OptDecl; oc_name : string; oc_value : option string }.
Definition render (o : Occ) : list string := oc_name o :: option_list (oc_value o).
Definition find_occ (f : string) (occs : list Occ) : option Occ :=
  List.find (λ o, String.eqb (o_field (oc_decl o)) f) occs.

(** A word that is not taken for an option. *)
Definition plain (w : string) : bool := negb (Str.starts_with "-" w).

Definition occ_ok (decls : list OptDecl) (o : Occ) : Prop :=
  oc_decl o ∈ decls ∧ oc_name o ∈ names (oc_decl o) ∧
  match o_kind (oc_decl o), oc_value o with
  | Flag, None => True
  | Value, Some v | Values, Some v => plain v = true
  | _, _ => False
  end.

(** The values that are found: one, or those between the commas. *)
Definition values_of (o : Occ) (vs : list string) : Prop :=
  match o_kind (oc_decl o), oc_value o with
  | Flag, _ => True
  | Value, v => vs = option_list v
  | Values, v => v ≠ Some "" → vs = default [] (Str.split "," <$> v)
  end.

(** A line of positional arguments and of different options after them is read as
    such. *)
Class ClapLaws `{Clap} := clap_line decls ps occs :
  NoDup (decls ≫= names) → Forall (λ n, plain n = false) (decls ≫= names) → Forall (λ p, plain p = true) ps → Forall (occ_ok decls) occs →
  NoDup ((λ o, o_field (oc_decl o)) <$> occs) →
  ∃ m, clap_parse decls (ps ++ (occs ≫= render)) = Some m ∧ positionals m = ps ∧
    ∀ f, match find_occ f occs with
         | Some o => ∃ vs, occurrences m f = Some vs ∧ values_of o vs
         | None => occurrences m f = None
         end.

Section parse.
Context `{Clap}.

(** The fields by the kind of their type. *)
Definition flagged (m : Matches) (f : string) : bool := bool_decide (is_Some (occurrences m f)).
Definition opt (m : Matches) (f : string) : option string := vs ← occurrences m f; head vs.
Definition many (m : Matches) (f : string) : list string := default [] (occurrences m f).

Definition mount_args_of (m : Matches) : outcome MountArgs :=
  match positionals m with
  | [disk_path; mount_name] =>
      Ok {| a_disk_path := disk_path; a_mount_name := mount_name;
            a_custom_mount_point := flagged m "custom_mount_point"; a_fs_type := opt m "fs_type";
            a_fs_driver := opt m "fs_driver"; a_mount_options := opt m "mount_options";
            a_decrypt := opt m "decrypt"; a_assemble_raid := flagged m "assemble_raid";
            a_metadata_probed := flagged m "metadata_probed"; a_action := opt m "action";
            a_key_file := opt m "key_file"; a_nfs_export_opts := opt m "nfs_export_opts";
            a_ignore_permissions := flagged m "ignore_permissions"; a_bind_addrs := many m "bind_addrs";
            a_multi_device := flagged m "multi_device"; a_reuse_passphrase := flagged m "reuse_passphrase";
            a_host_rpcbind := flagged m "host_rpcbind"; a_native_network := opt m "native_network";
            a_verbose := flagged m "verbose" |}
  | _ => Err "usage"
  end.

Record ShellArgs := mkShellArgs {
  sa_command : option string; sa_dns_server : option string; sa_native_network : option string; sa_verbose : bool }.
Definition shell_args_of (m : Matches) : outcome ShellArgs :=
  match positionals m with
  | [] => Ok (mkShellArgs (opt m "command") (opt m "dns_server") (opt m "native_network") (flagged m "verbose"))
  | _ => Err "usage"
  end.

Inductive SubCmd := Mount (a : MountArgs) | Shell (a : ShellArgs).

(** [Cli::parse], of the words with the program. *)
Definition parse (args : list string) : outcome SubCmd :=
  match args with
  | _ :: sub :: rest =>
      if decide (sub = "mount") then
        m ← ok_or "usage" (clap_parse mount_decls rest); a ← mount_args_of m; Ok (Mount a)
      else if decide (sub = "shell") then
        m ← ok_or "usage" (clap_parse shell_decls rest); a ← shell_args_of m; Ok (Shell a)
      else Err "usage"
  | _ => Err "usage"
  end.
End parse.

(** ** Lines in pieces *)
Definition decl (decls : list OptDecl) (f : string) : OptDecl :=
  default (mkDecl f None "" Flag) (List.find (λ d, String.eqb (o_field d) f) decls).

(** Flags and options as the session writes them. *)
Definition flag_occ (d : OptDecl) (n : string) (b : bool) : list Occ := if b then [mkOcc d n None] else [].
Definition opt_occ (d : OptDecl) (n : string) (v : option string) : list Occ :=
  match v with Some v => [mkOcc d n (Some v)] | None => [] end.

Lemma render_flag d n b : flag_occ d n b ≫= render = flag n b.
Proof. by destruct b. Qed.
Lemma render_opt d n v : opt_occ d n v ≫= render = opt_arg n v.
Proof. by destruct v. Qed.

Lemma flag_occ_ok decls d n b : d ∈ decls → n ∈ names d → o_kind d = Flag → Forall (occ_ok decls) (flag_occ d n b).
Proof. intros Hd Hn Hk. destruct b; repeat constructor; cbn; [done|done|by rewrite Hk]. Qed.
Lemma opt_occ_ok decls d n v :
  d ∈ decls → n ∈ names d → o_kind d ≠ Flag → (∀ w, v = Some w → plain w = true) → Forall (occ_ok decls) (opt_occ d n v).
Proof.
  intros Hd Hn Hk Hv. destruct v as [w|]; repeat constructor; cbn; [done|done|].
  specialize (Hv w eq_refl). by destruct (o_kind d).
Qed.

Lemma find_occ_app f l1 l2 : find_occ f (l1 ++ l2) = match find_occ f l1 with Some o => Some o | None => find_occ f l2 end.
Proof. unfold find_occ. induction l1 as [|o l1 IH]; cbn; [done|]. by destruct (String.eqb _ f). Qed.
Lemma find_flag f d n b :
  find_occ f (flag_occ d n b) = if String.eqb (o_field d) f then (if b then Some (mkOcc d n None) else None) else None.
Proof. destruct b; cbn; by destruct (String.eqb _ f). Qed.
Lemma find_opt f d n v :
  find_occ f (opt_occ d n v) = if String.eqb (o_field d) f then mkOcc d n ∘ Some <$> v else None.
Proof. destruct v; cbn; by destruct (String.eqb _ f). Qed.

Definition fields (occs : list Occ) : list string := (λ o, o_field (oc_decl o)) <$> occs.
Lemma fields_app l1 l2 : fields (l1 ++ l2) = fields l1 ++ fields l2.
Proof. apply fmap_app. Qed.
Lemma fields_flag d n b : fields (flag_occ d n b) `sublist_of` [o_field d].
Proof. destruct b; cbn; [done|]. constructor. constructor. Qed.
Lemma fields_opt d n v : fields (opt_occ d n v) `sublist_of` [o_field d].
Proof. destruct v; cbn; [done|]. constructor. constructor. Qed.

Lemma elem_option_list {A} (x : A) o : x ∈ option_list o ↔ o = Some x.
Proof. destruct o; cbn; [rewrite list_elem_of_singleton; naive_solver|by split; [intros ?%elem_of_nil|]]. Qed.

(** ** The line of a mount *)
Section mount_line.
Context (addrs : string) (custom : bool) (cidr : option string) (fs_type : string) (raid probed : bool)
  (fs_driver options decrypt action export_opts : option string)
  (multi reuse rpcbind verbose ignore : bool) (key_file : option string).
#[local] Abbreviation D := (decl mount_decls).

Definition mount_occs : list Occ :=
  opt_occ (D "bind_addrs") "-b" (Some addrs) ++ flag_occ (D "custom_mount_point") "-c" custom ++
  opt_occ (D "native_network") "-n" cidr ++ opt_occ (D "fs_type") "-t" (Some fs_type) ++
  flag_occ (D "assemble_raid") "--assemble-raid" raid ++ flag_occ (D "metadata_probed") "--metadata-probed" probed ++
  opt_occ (D "fs_driver") "--fs-driver" fs_driver ++ opt_occ (D "mount_options") "-o" options ++
  opt_occ (D "decrypt") "-d" decrypt ++ opt_occ (D "action") "-a" action ++
  opt_occ (D "nfs_export_opts") "--nfs-export-opts" export_opts ++ flag_occ (D "multi_device") "-m" multi ++
  flag_occ (D "reuse_passphrase") "-r" reuse ++ flag_occ (D "host_rpcbind") "-h" rpcbind ++
  flag_occ (D "verbose") "-v" verbose ++ flag_occ (D "ignore_permissions") "--ignore-permissions" ignore ++
  opt_occ (D "key_file") "--key-file" key_file.

(** The values that the session writes are no options. *)
Definition words : list string :=
  [addrs; fs_type] ++ option_list cidr ++ option_list fs_driver ++ option_list options ++ option_list decrypt ++
  option_list action ++ option_list export_opts ++ option_list key_file.

Lemma word_plain : Forall (λ w, plain w = true) words → ∀ w, w ∈ words → plain w = true.
Proof. by rewrite Forall_forall. Qed.

Lemma mount_occs_ok : Forall (λ w, plain w = true) words → Forall (occ_ok mount_decls) mount_occs.
Proof.
  intros Hw. pose proof (word_plain Hw) as Hp. unfold mount_occs. rewrite !Forall_app.
  split_and!;
    first [apply flag_occ_ok | apply opt_occ_ok];
    try (apply (bool_decide_unpack _); vm_compute; reflexivity); try reflexivity; try discriminate;
    intros w Hv; apply Hp; unfold words; rewrite !elem_of_app, !elem_of_cons, !elem_option_list; simplify_eq; tauto.
Qed.

Lemma mount_occs_render :
  mount_occs ≫= render =
    ["-b"; addrs] ++ flag "-c" custom ++ opt_arg "-n" cidr ++ ["-t"; fs_type] ++ flag "--assemble-raid" raid ++
    flag "--metadata-probed" probed ++ opt_arg "--fs-driver" fs_driver ++ opt_arg "-o" options ++ opt_arg "-d" decrypt ++
    opt_arg "-a" action ++ opt_arg "--nfs-export-opts" export_opts ++ flag "-m" multi ++ flag "-r" reuse ++
    flag "-h" rpcbind ++ flag "-v" verbose ++ flag "--ignore-permissions" ignore ++ opt_arg "--key-file" key_file.
Proof. unfold mount_occs. by rewrite !bind_app, !render_opt, !render_flag. Qed.

Lemma mount_occs_nodup : NoDup (fields mount_occs).
Proof.
  assert (fields mount_occs `sublist_of` (["bind_addrs"] ++ ["custom_mount_point"] ++ ["native_network"] ++ ["fs_type"] ++
    ["assemble_raid"] ++ ["metadata_probed"] ++ ["fs_driver"] ++ ["mount_options"] ++ ["decrypt"] ++ ["action"] ++
    ["nfs_export_opts"] ++ ["multi_device"] ++ ["reuse_passphrase"] ++ ["host_rpcbind"] ++ ["verbose"] ++
    ["ignore_permissions"] ++ ["key_file"])) as Hs.
  { unfold mount_occs. rewrite !fields_app. repeat apply sublist_app; first [apply fields_flag|apply fields_opt]. }
  eapply sublist_NoDup; [|exact Hs]. apply (bool_decide_unpack _). vm_compute. reflexivity.
Qed.
End mount_line.

(** What the options of a line come to. *)
Section read.
Context `{Clap} (m : Matches) (occs : list Occ).
Context (Hm : ∀ f, match find_occ f occs with
                   | Some o => ∃ vs, occurrences m f = Some vs ∧ values_of o vs
                   | None => occurrences m f = None
                   end).

Lemma flagged_read f d n b : find_occ f occs = (if b : bool then Some (mkOcc d n None) else None) → flagged m f = b.
Proof.
  intros Hf. specialize (Hm f). rewrite Hf in Hm. unfold flagged. destruct b.
  - destruct Hm as (vs & -> & _). done.
  - by rewrite Hm.
Qed.

Lemma opt_read f d n v : find_occ f occs = mkOcc d n ∘ Some <$> v → o_kind d = Value → opt m f = v.
Proof.
  intros Hf Hk. specialize (Hm f). rewrite Hf in Hm. unfold opt. destruct v as [v|]; cbn in Hm.
  - destruct Hm as (vs & -> & Hv). unfold values_of in Hv. cbn in Hv. rewrite Hk in Hv. by subst vs.
  - by rewrite Hm.
Qed.

Lemma many_read f d n v :
  find_occ f occs = Some (mkOcc d n (Some v)) → o_kind d = Values → v ≠ "" → many m f = Str.split "," v.
Proof.
  intros Hf Hk Hv. specialize (Hm f). rewrite Hf in Hm. unfold many. destruct Hm as (vs & -> & Hvs).
  unfold values_of in Hvs. cbn in Hvs. rewrite Hk in Hvs. apply Hvs. congruence.
Qed.
End read.

(** An option is found in its piece of the line. *)
Ltac found v := rewrite !find_occ_app, ?find_opt, ?find_flag; cbn; by destruct v.
Ltac read_flag m Hm f v := erewrite (flagged_read m _ Hm f _ _ v) by found v.
Ltac read_opt m Hm f v := erewrite (opt_read m _ Hm f _ _ v) by first [found v | reflexivity].

(** The agent reads what the session wrote: the line of the session is accepted,
    and every argument is the value it was written for; the addresses are those
    between the commas when there are any. *)
Lemma mount_line_read `{ClapLaws} prog disk name addrs custom cidr fs_type raid probed fs_driver options decrypt action
    export_opts multi reuse rpcbind verbose ignore key_file :
  plain disk = true → plain name = true →
  Forall (λ w, plain w = true) (words addrs cidr fs_type fs_driver options decrypt action export_opts key_file) →
  ∃ bind_addrs, (addrs ≠ "" → bind_addrs = Str.split "," addrs) ∧
    parse ([prog; "mount"; disk; name] ++ (mount_occs addrs custom cidr fs_type raid probed fs_driver options decrypt action
             export_opts multi reuse rpcbind verbose ignore key_file ≫= render)) =
      Ok (Mount {| a_disk_path := disk; a_mount_name := name; a_custom_mount_point := custom; a_fs_type := Some fs_type;
                   a_fs_driver := fs_driver; a_mount_options := options; a_decrypt := decrypt; a_assemble_raid := raid;
                   a_metadata_probed := probed; a_action := action; a_key_file := key_file; a_nfs_export_opts := export_opts;
                   a_ignore_permissions := ignore; a_bind_addrs := bind_addrs; a_multi_device := multi;
                   a_reuse_passphrase := reuse; a_host_rpcbind := rpcbind; a_native_network := cidr; a_verbose := verbose |}).
Proof.
  intros Hd Hn Hw. set (occs := mount_occs _ _ _ _ _ _ _ _ _ _ _ _ _ _ _ _ _).
  destruct (clap_line mount_decls [disk; name] occs) as (m & Hp & Hpos & Hm).
  { apply (bool_decide_unpack _). vm_compute. reflexivity. }
  { repeat constructor. }
  { by repeat constructor. }
  { by apply mount_occs_ok. }
  { apply mount_occs_nodup. }
  exists (many m "bind_addrs"). split.
  - apply (many_read m occs Hm _ (decl mount_decls "bind_addrs") "-b"); [|reflexivity].
    unfold occs, mount_occs. by rewrite find_occ_app, find_opt.
  - unfold parse. cbn [app]. rewrite decide_True by done. cbn [app] in Hp. rewrite Hp. cbn [ok_or mbind outcome_bind].
    unfold mount_args_of. rewrite Hpos. cbn [mbind outcome_bind]. unfold occs, mount_occs in Hm.
    read_flag m Hm "custom_mount_point" custom. read_flag m Hm "assemble_raid" raid. read_flag m Hm "metadata_probed" probed.
    read_flag m Hm "ignore_permissions" ignore. read_flag m Hm "multi_device" multi. read_flag m Hm "reuse_passphrase" reuse.
    read_flag m Hm "host_rpcbind" rpcbind. read_flag m Hm "verbose" verbose.
    read_opt m Hm "fs_type" (Some fs_type). read_opt m Hm "fs_driver" fs_driver. read_opt m Hm "mount_options" options.
    read_opt m Hm "decrypt" decrypt. read_opt m Hm "action" action. read_opt m Hm "key_file" key_file.
    read_opt m Hm "nfs_export_opts" export_opts. read_opt m Hm "native_network" cidr. done.
Qed.

(** ** A parser *)
(** An instance of the class with its law. *)
Module Parser.
Definition add_word (w : string) (m : list string * list (string * list string)) := (w :: m.1, m.2).
Definition add_occ (f : string) (vs : list string) (m : list string * list (string * list string)) := (m.1, (f, vs) :: m.2).

Fixpoint clap_go (decls : list OptDecl) (ws : list string) : option (list string * list (string * list string)) :=
  match ws with
  | [] => Some ([], [])
  | w :: ws =>
      match List.find (λ d, bool_decide (w ∈ names d)) decls with
      | Some d =>
          match o_kind d, ws with
          | Flag, _ => add_occ (o_field d) [] <$> clap_go decls ws
          | Value, v :: ws => if plain v then add_occ (o_field d) [v] <$> clap_go decls ws else None
          | Values, v :: ws => if plain v then add_occ (o_field d) (Str.split "," v) <$> clap_go decls ws else None
          | _, [] => None
          end
      | None => if plain w then add_word w <$> clap_go decls ws else None
      end
  end.

#[global] Instance parser : Clap := λ decls ws,
  '(p, o) ← clap_go decls ws;
  Some {| positionals := p; occurrences f := snd <$> List.find (λ x, String.eqb x.1 f) o |}.

Lemma find_decl decls d n :
  NoDup (decls ≫= names) → d ∈ decls → n ∈ names d → List.find (λ d, bool_decide (n ∈ names d)) decls = Some d.
Proof.
  induction decls as [|d' decls IH]; intros Hnd Hd Hn; [by apply elem_of_nil in Hd|]. rewrite bind_cons in Hnd.
  apply NoDup_app in Hnd as (_ & Hdis & Hnd). cbn [List.find]. case_bool_decide as Hn'.
  - apply elem_of_cons in Hd as [->|Hd]; [done|]. exfalso. apply (Hdis n Hn'). apply list_elem_of_bind. eauto.
  - apply elem_of_cons in Hd as [->|Hd]; [done|]. by apply IH.
Qed.

Lemma find_plain decls w :
  Forall (λ n, plain n = false) (decls ≫= names) → plain w = true → List.find (λ d, bool_decide (w ∈ names d)) decls = None.
Proof.
  intros Hf Hw. destruct (List.find _ decls) as [d|] eqn:Ef; [|done].
  apply find_some in Ef as [Hd%list_elem_of_In Hn%bool_decide_eq_true]. rewrite Forall_forall in Hf.
  rewrite Hf in Hw; [done|]. apply list_elem_of_bind. eauto.
Qed.

Definition found_values (o : Occ) : list string :=
  match o_kind (oc_decl o), oc_value o with
  | Value, Some v => [v]
  | Values, Some v => Str.split "," v
  | _, _ => []
  end.

Lemma go_occs decls occs :
  NoDup (decls ≫= names) → Forall (occ_ok decls) occs →
  clap_go decls (occs ≫= render) = Some ([], (λ o, (o_field (oc_decl o), found_values o)) <$> occs).
Proof.
  intros Hnd. induction 1 as [|o occs (Hd & Hn & Hv) _ IH]; [done|]. rewrite bind_cons, fmap_cons.
  change (render o ++ (occs ≫= render)) with (oc_name o :: option_list (oc_value o) ++ (occs ≫= render)).
  set (rest := occs ≫= render) in *. clearbody rest.
  cbn [clap_go]. rewrite (find_decl decls (oc_decl o)) by done.
  assert (found_values o = match o_kind (oc_decl o), oc_value o with
                           | Value, Some v => [v] | Values, Some v => Str.split "," v | _, _ => [] end) as -> by done.
  destruct (o_kind (oc_decl o)), (oc_value o) as [v|]; try done; cbn -[clap_go]; cbn in Hv; rewrite ?Hv, IH; done.
Qed.

Lemma go_words decls ps ws :
  Forall (λ n, plain n = false) (decls ≫= names) → Forall (λ p, plain p = true) ps →
  clap_go decls (ps ++ ws) = (λ m, (ps ++ m.1, m.2)) <$> clap_go decls ws.
Proof.
  intros Hf. induction 1 as [|p ps Hp _ IH]; cbn [app clap_go]; [by destruct (clap_go decls ws) as [[??]|]|].
  rewrite find_plain, Hp, IH by done. by destruct (clap_go decls ws).
Qed.

#[global] Instance parser_laws : ClapLaws.
Proof.
  intros decls ps occs Hnd Hf Hps Hok _. unfold clap_parse, parser. rewrite go_words, go_occs by done.
  eexists. split; [done|]. split; [cbn; by rewrite app_nil_r|]. intros f. cbn. clear Hnd Hf Hps.
  induction Hok as [|o occs (_ & _ & Hv) _ IH]; [done|]. unfold find_occ. cbn. destruct (String.eqb _ f); [|exact IH].
  eexists. split; [done|]. unfold values_of, found_values. destruct (o_kind (oc_decl o)), (oc_value o); done.
Qed.
End Parser.
