(* ===== verification/AgentStart.v ===== *)
(** * The start of the agent by the session

    The command line that the session writes ([Setup.vmproxy_args]) is the one
    that the agent reads ([CmdLine.parse]), so that the agent runs with the
    settings of the session; this is what [AgentReport] starts from. *)
From S2P Require Import Prelude Ipc Common Paths Settings DevInfo Instance Setup VmDisk Agent AgentReport CmdLine.
From Stdlib Require Import Ascii.

(** ** The session and its agent *)
Section session.
Context `{ClapLaws} `{Codec CustomActionConfig, PercentEncoding}.
(** The order in which the addresses are joined. *)
Context (iter_set : gset string → list string) (iter_set_perm : ∀ X, iter_set X ≡ₚ elements X).

Definition bind_set (bind_addr loopback_ip : option string) : gset string :=
  list_to_set (option_list bind_addr ++ option_list loopback_ip).
Definition encoded_action (config : MountConfig) : option string := a ← get_action config; ok (percent_encode a).
Definition decrypt_arg (to_decrypt : list string) : option string :=
  if decide (to_decrypt = []) then None else Some (Str.join "," to_decrypt).

(** The values on the line do not look like options. *)
Definition line_plain (cidr loopback_ip bind_addr : option string) (config : MountConfig) (dev : DevInfo)
    (to_decrypt : list string) (key_file : option string) : Prop :=
  plain (vm_path dev) = true ∧ plain (share_name config dev) = true ∧
  Forall (λ w, plain w = true) (words (Str.join "," (iter_set (bind_set bind_addr loopback_ip))) cidr
    (default "auto" (DevInfo.fs_type dev)) (fs_driver config) (mount_options config) (decrypt_arg to_decrypt)
    (encoded_action config) (nfs_export_opts config) key_file).

Lemma joined_ne X : X ≠ ∅ → (∀ a, a ∈ X → a ≠ "" ∧ StrFacts.lacks "," a = true) → Str.join "," (iter_set X) ≠ "".
Proof.
  intros HX Ha. pose proof (iter_set_perm X) as Hp. destruct (iter_set X) as [|w ws] eqn:Ew.
  - by destruct HX; apply leibniz_equiv, elements_empty_inv, Permutation_nil.
  - destruct (Ha w) as [Hw _]; [rewrite <-elem_of_elements, <-Hp; set_solver|].
    destruct w as [|c w]; [done|]. by destruct ws.
Qed.

End session.

(** ** A concrete line *)
Module Witness.
#[local] Existing Instances Common.Witness.codec Common.Witness.pct.
Definition config : MountConfig := AgentReport.Witness.config.
Definition dev : DevInfo := AgentReport.Witness.dev.

Definition start_line : list string :=
  ["/vmproxy"; "mount"; "/dev/vda"; share_name config dev; "-b"; "127.0.0.1,127.0.0.2"; "-t"; "crypto_LUKS"; "-d"; "/dev/vda"; "-h";
   "--key-file"; "/.alfs_keyfile"].

Lemma line_written :
  vmproxy_args (λ a, ok (percent_encode a)) elements None (Some "127.0.0.1") true (Some "127.0.0.2") config dev false
    ["/dev/vda"] (opt_arg "--key-file" (Some "/.alfs_keyfile")) = Ok start_line.
Proof. vm_compute. reflexivity. Qed.


(** What the agent reads in it. *)
Example line_read :
  match parse start_line with Ok (Mount cli) => (a_mount_name cli, a_bind_addrs cli, a_host_rpcbind cli) | _ => ("", [], false) end =
  (share_name config dev, ["127.0.0.1"; "127.0.0.2"], true).
Proof. vm_compute. reflexivity. Qed.
End Witness.
