(* ===== verification/Ctrl.v ===== *)
(** * The control server of the agent ([vmproxy/src/main.rs]
      [CtrlSocketServer]; [common-utils/src/vmctrl.rs])

    Three kinds of threads work together: the accept loop, one thread for each
    subscriber, and the main thread, which waits for the command to quit and
    at the end for the report to be delivered.  Their steps interleave freely;
    a step is what a thread does between two operations on what they share:
    channels, locks, the flag of the subscription. *)
From S2P Require Import Prelude.
From stdpp Require Import relations.

(** ** State *)
Inductive Request := Quit | SubscribeEvents | Unreadable.   (* [read_request] failed *)

(** The accept loop: waiting for a connection; a quit command has been passed
    on to the main thread; the loop is left and the scope waits for the
    subscribers; the thread is gone. *)
Inductive Server := Accepting | Quitting | Joining | Ended.

(** A subscriber: before it takes the receiver of the report; waiting for the
    report (it holds the lock from here on); about to write the response;
    about to signal that it is done; finished. *)
Inductive Subscriber := Spawned | Waiting | Writing | Signalling | Finished.
#[global] Instance Subscriber_eq_dec : EqDecision Subscriber.
Proof. solve_decision. Defined.

(** The main thread: serving the disk; waiting for the command to quit; about
    to send the report; waiting until it is delivered; at its end. *)
Inductive Main := Working | WaitingQuit | Reporting | WaitingDone | Exited.

(** The report: not sent, in the channel, received. *)
Inductive Report := NotSent | Queued | Received.

Record State := mkState {
  server : Server;
  subs : list Subscriber;
  main : Main;
  report : Report;
  events_subscribed : bool;
  rx_taken : bool;          (* has a subscriber taken the receiver of the report? *)
  quit_sent : bool;         (* has [quit_tx] been used? *)
  done_sent : bool;         (* has [done_tx] been taken and used? *)
  written : option bool;    (* was the report written to a subscriber, and with success? *)
  accept_failed : bool;
}.
Definition initial : State := mkState Accepting [] Working NotSent false false false false None false.

(** ** Steps *)
Inductive Label :=
| Connect (r : Request) | AcceptError                     (* the outside *)
| FinishQuit | JoinAll                                    (* accept loop *)
| Take (i : nat) | Recv (i : nat) | Write (i : nat) (ok : bool) | Signal (i : nat)
| MainServe | MainSkip | MainQuit | MainSend | MainDone.

Definition internal (l : Label) : bool :=
  match l with Connect _ | AcceptError => false | _ => true end.

(** Holding the receiver of the report, and the lock around it. *)
Definition active (s : Subscriber) : bool :=
  match s with Waiting | Writing | Signalling => true | _ => false end.
Definition finished (s : Subscriber) : bool := bool_decide (s = Finished).

(** Is the receiver of the report still there? *)
Definition rx_alive (s : State) : bool :=
  if rx_taken s then existsb active (subs s)
  else match server s with Ended => false | _ => true end.

Definition with_server (s : State) (v : Server) : State :=
  mkState v (subs s) (main s) (report s) (events_subscribed s) (rx_taken s) (quit_sent s) (done_sent s)
    (written s) (accept_failed s).
Definition with_sub (s : State) (i : nat) (x : Subscriber) : State :=
  mkState (server s) (<[i := x]> (subs s)) (main s) (report s) (events_subscribed s) (rx_taken s)
    (quit_sent s) (done_sent s) (written s) (accept_failed s).
Definition with_main (s : State) (m : Main) : State :=
  mkState (server s) (subs s) m (report s) (events_subscribed s) (rx_taken s) (quit_sent s) (done_sent s)
    (written s) (accept_failed s).
Definition with_report (s : State) (r : Report) : State :=
  mkState (server s) (subs s) (main s) r (events_subscribed s) (rx_taken s) (quit_sent s) (done_sent s)
    (written s) (accept_failed s).
Definition signal_done (s : State) : State :=
  mkState (server s) (subs s) (main s) (report s) (events_subscribed s) (rx_taken s) (quit_sent s) true
    (written s) (accept_failed s).

(** The accept loop, on a connection and its request. *)
Definition connect (s : State) (r : Request) : State :=
  match r with
  | Quit => mkState Quitting (subs s) (main s) (report s) (events_subscribed s) (rx_taken s) true
              (done_sent s) (written s) (accept_failed s)
  | SubscribeEvents =>
      mkState Accepting (subs s ++ [Spawned]) (main s) (report s) true (rx_taken s) (quit_sent s)
        (done_sent s) (written s) (accept_failed s)
  | Unreadable => s
  end.

(** One subscriber. *)
Definition take_receiver (s : State) (i : nat) : State :=
  if rx_taken s then with_sub s i Finished      (* "Report channel already taken" *)
  else
    let s := with_sub s i Waiting in
    mkState (server s) (subs s) (main s) (report s) (events_subscribed s) true (quit_sent s) (done_sent s)
      (written s) (accept_failed s).
Definition write_report (s : State) (i : nat) (ok : bool) : State :=
  let s := with_sub s i Signalling in
  mkState (server s) (subs s) (main s) (report s) (events_subscribed s) (rx_taken s) (quit_sent s)
    (done_sent s) (match report s with Received => Some ok | _ => written s end) (accept_failed s).

Definition subscriber_step (s : State) (i : nat) (l : Label) : option State :=
  match l, subs s !! i with
  | Take _, Some Spawned => if existsb active (subs s) then None else Some (take_receiver s i)
  | Recv _, Some Waiting =>
      match report s, main s with
      | Queued, _ => Some (with_report (with_sub s i Writing) Received)
      | _, Exited => Some (with_sub s i Writing)      (* the sender is gone: an error is reported *)
      | _, _ => None
      end
  | Write _ ok, Some Writing => Some (write_report s i ok)
  | Signal _, Some Signalling => Some (signal_done (with_sub s i Finished))
  | _, _ => None
  end.

(** [send_report] *)
Definition send_report (s : State) : State :=
  if rx_alive s then with_report (with_main s WaitingDone) Queued else with_main s Exited.

Definition exec (s : State) (l : Label) : option State :=
  match l with
  | Connect r => match server s with Accepting => Some (connect s r) | _ => None end
  | AcceptError =>
      match server s with
      | Accepting =>
          Some (mkState Joining (subs s) (main s) (report s) (events_subscribed s) (rx_taken s)
                  (quit_sent s) (done_sent s) (written s) true)
      | _ => None
      end
  | FinishQuit =>
      match server s with
      | Quitting =>
          let s := if events_subscribed s then s else signal_done s in Some (with_server s Joining)
      | _ => None
      end
  | JoinAll =>
      match server s with
      | Joining => if forallb finished (subs s) then Some (with_server s Ended) else None
      | _ => None
      end
  | Take i | Recv i | Write i _ | Signal i => subscriber_step s i l
  | MainServe => match main s with Working => Some (with_main s WaitingQuit) | _ => None end
  | MainSkip => match main s with Working => Some (with_main s Reporting) | _ => None end
  | MainQuit =>
      match main s with
      | WaitingQuit =>
          if quit_sent s || match server s with Ended => true | _ => false end
          then Some (with_main s Reporting) else None
      | _ => None
      end
  | MainSend => match main s with Reporting => Some (send_report s) | _ => None end
  | MainDone =>
      match main s with
      | WaitingDone =>
          if done_sent s || match server s with Ended => true | _ => false end
          then Some (with_main s Exited) else None
      | _ => None
      end
  end.

Definition step (s s' : State) : Prop := ∃ l, exec s l = Some s'.
Definition internal_step (s s' : State) : Prop := ∃ l, internal l = true ∧ exec s l = Some s'.
Definition reachable (s : State) : Prop := rtc step initial s.

(** ** The invariant *)
Definition left_loop (s : State) : Prop := server s = Joining ∨ server s = Ended.

Record inv (s : State) : Prop := {
  (* the subscription *)
  i_subs : events_subscribed s = true ↔ subs s ≠ [];
  i_fresh : rx_taken s = false → written s = None ∧ report s ≠ Received ∧ ∀ i x, subs s !! i = Some x → x = Spawned;
  i_one : ∀ i j x y, subs s !! i = Some x → subs s !! j = Some y → active x = true → active y = true → i = j;
  i_waiting : ∀ i, subs s !! i = Some Waiting → report s ≠ Received ∧ written s = None;
  i_writing : ∀ i, subs s !! i = Some Writing → report s = Received ∧ written s = None;
  i_signalling : ∀ i, subs s !! i = Some Signalling → is_Some (written s);
  i_taken : rx_taken s = true →
    (∃ i x, subs s !! i = Some x ∧ active x = true) ∨ (is_Some (written s) ∧ done_sent s = true);
  (* the report and the main thread *)
  i_early : (main s = Working ∨ main s = WaitingQuit ∨ main s = Reporting) → report s = NotSent;
  i_sent : main s = WaitingDone → report s ≠ NotSent;
  i_written : is_Some (written s) → report s = Received;
  i_done : done_sent s = true → is_Some (written s) ∨ (events_subscribed s = false ∧ left_loop s);
  i_exited : main s = Exited → is_Some (written s) ∨ (events_subscribed s = false ∧ left_loop s);
  (* the accept loop *)
  i_ended : server s = Ended → ∀ i x, subs s !! i = Some x → x = Finished;
  i_accepting : server s = Accepting → quit_sent s = false ∧ accept_failed s = false;
  i_quitting : server s = Quitting → quit_sent s = true;
  i_left : left_loop s → quit_sent s = true ∨ accept_failed s = true;
  i_quit_done : left_loop s → quit_sent s = true → events_subscribed s = false → done_sent s = true;
}.

Lemma inv_initial : inv initial.
Proof.
  split; simpl; try done; unfold left_loop; simpl; try (intuition congruence).
Qed.

Lemma existsb_active s : existsb active s = false → ∀ i x, s !! i = Some x → active x = false.
Proof.
  intros H i x Hx. destruct (active x) eqn:E; [|done].
  enough (existsb active s = true) by congruence. apply existsb_exists.
  exists x. split; [|done]. apply list_elem_of_In. by eapply list_elem_of_lookup_2.
Qed.

Lemma insert_nonempty {A} (l : list A) i x : <[i := x]> l ≠ [] ↔ l ≠ [].
Proof. destruct l as [|y l]; [done|]. by destruct i. Qed.

(** What a lookup in a list with one element replaced, or one added, says. *)
Ltac lookups :=
  repeat match goal with
  | H : <[_ := _]> _ !! _ = Some _ |- _ => apply list_lookup_insert_Some in H as [(? & ? & ?)|[? ?]]
  | H : (_ ++ [_]) !! _ = Some _ |- _ => apply lookup_snoc_Some in H as [[? ?]|[? ?]]
  end; simplify_eq/=.

(** The invariant after one subscriber has moved. *)
Ltac inv_split := split; simpl; rewrite ?insert_nonempty; intros; lookups; try done; eauto.

(** Someone would hold the receiver although nobody does. *)
Ltac not_active Hno :=
  exfalso; match goal with
  | A : active ?x = true, H : _ !! _ = Some ?x |- _ => rewrite (Hno _ _ H) in A; discriminate A
  end.

Ltac other_active Hno :=
  exfalso; match goal with N : ?i ≠ ?j, K : _ !! ?j = Some _ |- _ => by specialize (Hno _ _ N K) end.

(** The components that a step leaves alone, or that follow by propositional
    reasoning from the facts about the accept loop. *)
Ltac rest := simpl; try assumption; intros; try congruence; try tauto; try (intuition congruence).

Section Preserved.
Context (s : State) (Hinv : inv s).

Lemma inv_connect r : server s = Accepting → inv (connect s r).
Proof.
  intros Ha. destruct r; [| |done]; destruct Hinv as [I1 I2 I3 I4 I5 I6 I7 I8 I9 I10 I11 I12 I13 I14 I15 I16 I17].
  - split; simpl; try done; unfold left_loop in *; rewrite Ha in *; naive_solver.
  - split; simpl; try done; unfold left_loop in *; rewrite Ha in *; simpl.
    + split; [|done]. intros _ E. by apply app_eq_nil in E as [_ ?].
    + intros Hr. destruct (I2 Hr) as (? & ? & Hs). split_and!; [done..|]. intros i x Hx. lookups; [by eapply Hs|done].
    + intros i j x y Hi Hj. lookups; eauto; done.
    + intros i Hi. lookups. eauto.
    + intros i Hi. lookups. eauto.
    + intros i Hi. lookups. eauto.
    + intros Hr. destruct (I7 Hr) as [(i & x & Hi & Hx)|?]; [|by right]. left. exists i, x.
      split; [by apply lookup_app_l_Some|done].
    + intros Hd. destruct (I11 Hd) as [?|[_ [?|?]]]; [by left|done..].
    + intros Hm. destruct (I12 Hm) as [?|[_ [?|?]]]; [by left|done..].
    + naive_solver.
    + naive_solver.
Qed.

Lemma inv_take i : subs s !! i = Some Spawned → existsb active (subs s) = false → inv (take_receiver s i).
Proof.
  intros Hi Hact. pose proof (existsb_active _ Hact) as Hno. unfold take_receiver.
  destruct Hinv as [I1 I2 I3 I4 I5 I6 I7 I8 I9 I10 I11 I12 I13 I14 I15 I16 I17].
  assert (server s ≠ Ended) as Hend by (intros E; by specialize (I13 E _ _ Hi)).
  destruct (rx_taken s) eqn:Hr; inv_split.
  - congruence.
  - destruct (I7 eq_refl) as [(j & x & Hj & Hx)|?]; [|by right]. specialize (Hno _ _ Hj). congruence.
  - not_active Hno.
  - not_active Hno.
  - destruct (I2 eq_refl) as (? & ? & _). done.
  - left. exists i, Waiting. split; [|done]. apply list_lookup_insert_eq. by eapply lookup_lt_Some.
Qed.

(** When a subscriber holds the receiver. *)
Lemma holder_facts i x :
  subs s !! i = Some x → active x = true →
  rx_taken s = true ∧ server s ≠ Ended ∧ (∀ j y, i ≠ j → subs s !! j = Some y → active y = false).
Proof.
  intros Hi Hx. split_and!.
  - destruct (rx_taken s) eqn:E; [done|]. destruct (i_fresh s Hinv E) as (_ & _ & H).
    by rewrite (H _ _ Hi) in Hx.
  - intros E. by rewrite (i_ended s Hinv E _ _ Hi) in Hx.
  - intros j y Hij Hj. destruct (active y) eqn:Hy; [|done]. by destruct Hij; apply (i_one s Hinv i j x y).
Qed.

Lemma holder_stays i y :
  subs s !! i = Some y → ∀ x, active x = true →
  ∃ j z, <[i := x]> (subs s) !! j = Some z ∧ active z = true.
Proof.
  intros Hi x Hx. exists i, x. split; [|done]. apply list_lookup_insert_eq. by eapply lookup_lt_Some.
Qed.

Lemma inv_recv i : subs s !! i = Some Waiting → report s = Queued →
  inv (with_report (with_sub s i Writing) Received).
Proof.
  intros Hi Hq. destruct (holder_facts i _ Hi eq_refl) as (Hr & Hend & Hno).
  pose proof (holder_stays i _ Hi Writing eq_refl). pose proof (i_waiting s Hinv i Hi) as [_ Hw].
  destruct Hinv as [I1 I2 I3 I4 I5 I6 I7 I8 I9 I10 I11 I12 I13 I14 I15 I16 I17].
  inv_split; try congruence; try other_active Hno.
  - rewrite I8 in Hq; done.
Qed.

Lemma inv_write i ok : subs s !! i = Some Writing → inv (write_report s i ok).
Proof.
  intros Hi. destruct (holder_facts i _ Hi eq_refl) as (Hr & Hend & Hno).
  pose proof (holder_stays i _ Hi Signalling eq_refl). pose proof (i_writing s Hinv i Hi) as [Hq Hw].
  unfold write_report. simpl. rewrite Hq.
  destruct Hinv as [I1 I2 I3 I4 I5 I6 I7 I8 I9 I10 I11 I12 I13 I14 I15 I16 I17].
  inv_split; try congruence; try other_active Hno.
  rewrite I8 in Hq; done.
Qed.

Lemma inv_signal i : subs s !! i = Some Signalling → inv (signal_done (with_sub s i Finished)).
Proof.
  intros Hi. destruct (holder_facts i _ Hi eq_refl) as (Hr & Hend & Hno).
  pose proof (i_signalling s Hinv i Hi) as Hw.
  destruct Hinv as [I1 I2 I3 I4 I5 I6 I7 I8 I9 I10 I11 I12 I13 I14 I15 I16 I17].
  inv_split; try congruence; try other_active Hno.
Qed.

Lemma inv_finish_quit :
  server s = Quitting → inv (with_server (if events_subscribed s then s else signal_done s) Joining).
Proof.
  intros Hq. destruct Hinv as [I1 I2 I3 I4 I5 I6 I7 I8 I9 I10 I11 I12 I13 I14 I15 I16 I17].
  assert (left_loop s → False) as Hn by (unfold left_loop; rewrite Hq; naive_solver).
  destruct (events_subscribed s) eqn:He; split; unfold left_loop in *; rest.
Qed.

Lemma inv_join : server s = Joining → forallb finished (subs s) = true → inv (with_server s Ended).
Proof.
  intros Hj Hf.
  assert (∀ i x, subs s !! i = Some x → x = Finished) as Hall.
  { intros i x Hi. rewrite List.forallb_forall in Hf.
    specialize (Hf x (proj1 (list_elem_of_In _ _) (list_elem_of_lookup_2 _ _ _ Hi))).
    by apply bool_decide_eq_true in Hf. }
  destruct Hinv as [I1 I2 I3 I4 I5 I6 I7 I8 I9 I10 I11 I12 I13 I14 I15 I16 I17].
  split; unfold left_loop in *; rest.
  by eapply Hall.
Qed.

Lemma inv_accept_error : server s = Accepting →
  inv (mkState Joining (subs s) (main s) (report s) (events_subscribed s) (rx_taken s) (quit_sent s)
         (done_sent s) (written s) true).
Proof.
  intros Ha. destruct Hinv as [I1 I2 I3 I4 I5 I6 I7 I8 I9 I10 I11 I12 I13 I14 I15 I16 I17].
  destruct (I14 Ha) as [Hq _].
  split; unfold left_loop in *; rest.
Qed.

(** Once the accept loop has ended, a subscriber has been served. *)
Lemma ended_served : server s = Ended → events_subscribed s = true → is_Some (written s) ∧ done_sent s = true.
Proof.
  intros He Hs. apply (i_subs s Hinv) in Hs. destruct (subs s) as [|x l] eqn:El; [done|].
  assert (subs s !! 0 = Some x) as H0 by by rewrite El.
  pose proof (i_ended s Hinv He _ _ H0) as ->.
  destruct (rx_taken s) eqn:Hr.
  - destruct (i_taken s Hinv Hr) as [(i & y & Hi & Hy)|?]; [|done].
    by rewrite (i_ended s Hinv He _ _ Hi) in Hy.
  - destruct (i_fresh s Hinv Hr) as (_ & _ & H). by specialize (H _ _ H0).
Qed.

Lemma inv_main m :
  (m = WaitingQuit ∨ m = Reporting → main s = Working ∨ main s = WaitingQuit) →
  (m = Working → main s = Working) → (m = WaitingDone → False) →
  (m = Exited → is_Some (written s) ∨ (events_subscribed s = false ∧ left_loop s)) →
  inv (with_main s m).
Proof.
  intros H1 H2 H3 H4. destruct Hinv as [I1 I2 I3 I4 I5 I6 I7 I8 I9 I10 I11 I12 I13 I14 I15 I16 I17].
  split; unfold left_loop in *; rest.
Qed.

Lemma inv_send : main s = Reporting → inv (send_report s).
Proof.
  intros Hm. pose proof (i_early s Hinv ltac:(tauto)) as Hn.
  assert (written s = None) as Hw.
  { destruct (written s) as [b|] eqn:E; [|done].
    assert (report s = Received) by (apply (i_written s Hinv); by rewrite E). congruence. }
  unfold send_report. destruct (rx_alive s) eqn:Halive.
  - assert (∀ i, subs s !! i = Some Writing → False) as Hnw.
    { intros i Hi. apply (i_writing s Hinv) in Hi as [? _]. congruence. }
    destruct Hinv as [I1 I2 I3 I4 I5 I6 I7 I8 I9 I10 I11 I12 I13 I14 I15 I16 I17].
    split; unfold left_loop in *; rest.
  - apply inv_main; try (intuition congruence). intros _. right. unfold rx_alive in Halive.
    destruct (rx_taken s) eqn:Hr.
    + pose proof (existsb_active _ Halive) as Hno.
      destruct (i_taken s Hinv Hr) as [(i & x & Hi & Hx)|[[? ?] _]]; [|congruence].
      by rewrite (Hno _ _ Hi) in Hx.
    + assert (server s = Ended) as He by (by destruct (server s)). split; [|by right].
      destruct (events_subscribed s) eqn:Es; [|done].
      destruct (ended_served He Es) as [[? ?] _]. congruence.
Qed.

Lemma inv_main_done : main s = WaitingDone → done_sent s = true ∨ server s = Ended → inv (with_main s Exited).
Proof.
  intros Hm Hd. apply inv_main; try (intuition congruence). intros _. destruct Hd as [Hd|He]; [by apply i_done|].
  destruct (events_subscribed s) eqn:Es; [left|right; split; [done|by right]].
  by apply ended_served.
Qed.

(** No subscriber waits for a report that can no longer come. *)
Lemma waiting_not_exited i : subs s !! i = Some Waiting → main s ≠ Exited.
Proof.
  intros Hi Hm. destruct (i_waiting s Hinv i Hi) as [_ Hw].
  destruct (i_exited s Hinv Hm) as [[? ?]|[He _]]; [congruence|].
  assert (subs s ≠ []) as Hne by (intros E; by rewrite E in Hi).
  apply (i_subs s Hinv) in Hne. congruence.
Qed.
End Preserved.

Lemma inv_step s s' : inv s → step s s' → inv s'.
Proof.
  intros Hinv [l Hl]. destruct l; simpl in Hl; repeat case_match; simplify_eq.
  all: try (by apply inv_connect); try (by apply inv_accept_error); try (by apply inv_finish_quit);
       try (by apply inv_join); try (by apply inv_take); try (by apply inv_recv); try (by apply inv_write);
       try (by apply inv_signal); try (by apply inv_send); try (by apply inv_main; intuition congruence).
  all: try (exfalso; by eapply waiting_not_exited).
  all: rewrite ?orb_true_r, ?orb_false_r in *.
  all: try (apply inv_main_done; [done|done|by auto]).
  all: match goal with E : server _ = Quitting |- _ => pose proof (inv_finish_quit _ Hinv E) as HQ end.
  all: by destruct (events_subscribed s).
Qed.

Lemma reachable_inv s : reachable s → inv s.
Proof.
  intros Hr. pose proof inv_initial as Hi. unfold reachable in Hr. generalize dependent initial.
  induction 1 as [|s1 s2 s3 H12 _ IH]; [done|]. intros Hi. by eapply IH, inv_step.
Qed.

(** C15: the agent does not end before the host has its report: however the
    threads interleave and whatever connects, if anybody had subscribed, the
    report was received from the main thread and written to the subscriber
    (or the write failed) before the main thread goes on. *)
Theorem report_before_exit s (Hr : reachable s) (Hm : main s = Exited) (Hs : events_subscribed s = true) :
  is_Some (written s) ∧ report s = Received.
Proof.
  pose proof (reachable_inv s Hr) as Hi.
  destruct (i_exited s Hi Hm) as [Hw|[? _]]; [|congruence]. split; [done|]. by apply i_written.
Qed.

(** ** Progress *)
(** Every step of a thread brings the whole closer to its end. *)
Definition sub_weight (x : Subscriber) : nat :=
  match x with Spawned => 4 | Waiting => 3 | Writing => 2 | Signalling => 1 | Finished => 0 end.
Definition main_weight (m : Main) : nat :=
  match m with Working => 4 | WaitingQuit => 3 | Reporting => 2 | WaitingDone => 1 | Exited => 0 end.
Definition server_weight (v : Server) : nat :=
  match v with Accepting => 3 | Quitting => 2 | Joining => 1 | Ended => 0 end.
Definition weight (s : State) : nat :=
  server_weight (server s) + main_weight (main s) + sum_list_with sub_weight (subs s).

Lemma sum_insert (l : list Subscriber) i x y :
  l !! i = Some x →
  sum_list_with sub_weight (<[i := y]> l) + sub_weight x = sum_list_with sub_weight l + sub_weight y.
Proof.
  revert i; induction l as [|z l IH]; intros [|i]; simpl; [done|done| |].
  - intros [= ->]. lia.
  - intros Hi. specialize (IH i Hi). lia.
Qed.

Lemma internal_decreases s s' : internal_step s s' → weight s' < weight s.
Proof.
  intros (l & Hl & He). unfold weight.
  destruct l; try done; simpl in He; repeat case_match; simplify_eq; simpl;
    unfold take_receiver, send_report; repeat case_match; simpl;
    repeat match goal with H : server _ = _ |- _ => rewrite H | H : main _ = _ |- _ => rewrite H end;
    try match goal with
    | H : subs ?s !! ?i = Some ?x |- context [<[_ := ?y]> _] => pose proof (sum_insert _ _ _ y H); simpl in *
    end; simpl; try lia.
Qed.

Lemma internal_sn s : sn internal_step s.
Proof.
  remember (weight s) as n eqn:Hn. revert s Hn.
  induction n as [n IH] using lt_wf_ind. intros s ->. constructor. intros s' Hs.
  apply (IH (weight s')); [by apply internal_decreases|done].
Qed.

(** When no thread can move, the agent is at its end, or the server waits for
    a connection, or a failed accept has left it without one. *)
Definition stranded (s : State) : Prop :=
  accept_failed s = true ∧ quit_sent s = false ∧ events_subscribed s = true ∧ main s = WaitingQuit.

Lemma blocked s l s' : nf internal_step s → internal l = true → exec s l = Some s' → False.
Proof. intros Hnf Hl He. apply Hnf. by exists s', l. Qed.

Lemma stuck_subs s :
  nf internal_step s → inv s → main s ≠ Exited →
  Forall (λ x, x = Finished) (subs s) ∨ ((∃ i, subs s !! i = Some Waiting) ∧ report s = NotSent).
Proof.
  intros Hnf Hinv Hm.
  assert (∀ i, subs s !! i = Some Writing → False) as Hw.
  { intros i Hi. eapply (blocked s (Write i true)); [done..|]. simpl. by rewrite Hi. }
  assert (∀ i, subs s !! i = Some Signalling → False) as Hg.
  { intros i Hi. eapply (blocked s (Signal i)); [done..|]. simpl. by rewrite Hi. }
  destruct (existsb active (subs s)) eqn:Ha.
  - right. apply existsb_exists in Ha as (x & [i Hi]%list_elem_of_In%list_elem_of_lookup & Hx).
    destruct x; try done; [|by destruct (Hw i)|by destruct (Hg i)]. split; [by exists i|].
    destruct (report s) eqn:Hr; [done| |].
    + exfalso. eapply (blocked s (Recv i)); [done..|]. simpl. by rewrite Hi, Hr.
    + by destruct (i_waiting s Hinv i Hi) as [? _].
  - left. apply Forall_lookup. intros i x Hi. pose proof (existsb_active _ Ha _ _ Hi) as Hx.
    destruct x; try done. exfalso. eapply (blocked s (Take i)); [done..|]. simpl. by rewrite Hi, Ha.
Qed.

Lemma stuck_cases s :
  nf internal_step s → inv s → main s = Exited ∨ server s = Accepting ∨ stranded s.
Proof.
  intros Hnf Hinv. destruct (main s) eqn:Hm; [| | | |by left].
  - exfalso. eapply (blocked s MainServe); [done..|]. simpl. by rewrite Hm.
  - right. destruct (server s) eqn:Hv; [by left|..]; right.
    + exfalso. eapply (blocked s FinishQuit); [done..|]. simpl. by rewrite Hv.
    + assert (quit_sent s = false) as Hq.
      { destruct (quit_sent s) eqn:Hq; [|done]. exfalso. eapply (blocked s MainQuit); [done..|]. simpl. by rewrite Hm, Hq. }
      assert (accept_failed s = true) as Hf by (destruct (i_left s Hinv); [by left|congruence|done]).
      split_and!; try done. apply (i_subs s Hinv). intros Hs.
      eapply (blocked s JoinAll); [done..|]. simpl. by rewrite Hv, Hs.
    + exfalso. eapply (blocked s MainQuit); [done..|]. simpl. by rewrite Hm, Hv, orb_true_r.
  - exfalso. eapply (blocked s MainSend); [done..|]. simpl. by rewrite Hm.
  - right. destruct (server s) eqn:Hv; [by left|..]; exfalso.
    + eapply (blocked s FinishQuit); [done..|]. simpl. by rewrite Hv.
    + destruct (stuck_subs s Hnf Hinv) as [Hfin|[_ Hns]]; [congruence| |by apply (i_sent s Hinv) in Hm].
      eapply (blocked s JoinAll); [done..|]. simpl. rewrite Hv.
      assert (forallb finished (subs s) = true) as ->; [|done].
      apply List.forallb_forall. intros x Hx%list_elem_of_In. rewrite Forall_forall in Hfin.
      by rewrite (Hfin x Hx).
    + eapply (blocked s MainDone); [done..|]. simpl. by rewrite Hm, Hv, orb_true_r.
Qed.

(** The facts about the accept loop that no step of a thread changes back. *)
Lemma internal_keeps s s' :
  internal_step s s' → (quit_sent s' = quit_sent s) ∧ (server s' = Accepting → server s = Accepting) ∧
    accept_failed s' = accept_failed s.
Proof.
  intros (l & Hl & He). destruct l; try done; simpl in He; repeat case_match; simplify_eq; simpl;
    unfold take_receiver, send_report; repeat case_match; simpl; try done;
    split_and!; try done; congruence.
Qed.

(** C16: a command to quit ends the agent: from every reachable state in which
    one has been received, the steps of the threads come to an end, in every
    order, and where none is possible any more the main thread is at its end;
    no interleaving with subscribers blocks it.  More generally a state in
    which no thread can move is the end, or waits for a connection, or had a
    failed accept. *)
Theorem quit_ends_agent s (Hr : reachable s) :
  sn internal_step s ∧
  (∀ s', rtc internal_step s s' → nf internal_step s' →
    (main s' = Exited ∨ server s' = Accepting ∨ stranded s') ∧
    (quit_sent s = true → main s' = Exited)).
Proof.
  split; [apply internal_sn|]. intros s' Hs Hnf.
  assert (inv s' ∧ quit_sent s' = quit_sent s) as [Hi Hq].
  { pose proof (reachable_inv s Hr) as Hi. clear Hr Hnf.
    induction Hs as [|s1 s2 s3 H12 _ IH]; [done|].
    destruct IH as [? ->]; [|split; [done|by apply internal_keeps]].
    destruct H12 as (l & _ & He). eapply inv_step; [done|by exists l]. }
  destruct (stuck_cases s' Hnf Hi) as [?|[Ha|Hst]]; [by auto|split; [by auto|]..]; intros Hqs.
  - destruct (i_accepting s' Hi Ha) as [? _]. congruence.
  - destruct Hst as (_ & ? & _). congruence.
Qed.

(** A schedule. *)
Fixpoint exec_all (s : State) (ls : list Label) : option State :=
  match ls with [] => Some s | l :: ls => s ← exec s l; exec_all s ls end.

Lemma exec_all_steps s ls s' : exec_all s ls = Some s' → rtc step s s'.
Proof.
  revert s; induction ls as [|l ls IH]; intros s; simpl; [by intros [= <-]|].
  destruct (exec s l) as [s1|] eqn:E; simpl; [|done]. intros H. eapply rtc_l; [by exists l|by apply IH].
Qed.

(** A failed accept strands the agent once somebody has subscribed: the
    loop is left, the main thread waits for a command to quit that nobody can
    deliver any more, and the subscriber for a report that is not sent.  No
    step at all is possible in that state, and it can be reached. *)
Lemma failed_accept_strands :
  ∃ s, reachable s ∧ stranded s ∧ main s ≠ Exited ∧ ∀ s', ¬ step s s'.
Proof.
  assert (∃ s, exec_all initial [MainServe; Connect SubscribeEvents; Take 0; AcceptError] = Some s ∧ stranded s ∧
    subs s = [Waiting] ∧ server s = Joining ∧ main s = WaitingQuit ∧ report s = NotSent ∧ quit_sent s = false)
    as (s & Hs & Hst & Hsub & Hv & Hm & Hrep & Hq) by (eexists; split; [reflexivity|done]).
  exists s. split_and!; [by eapply exec_all_steps|done|congruence|].
  - intros s' [l Hl]. destruct l; simpl in Hl; rewrite ?Hv, ?Hm, ?Hq, ?Hsub in Hl; simpl in Hl; try done.
    all: destruct i as [|i]; simpl in Hl; rewrite ?Hrep, ?Hm in Hl; done.
Qed.

(** ** Concrete schedules *)
Module Witness.
Definition after (ls : list Label) : State := default initial (exec_all initial ls).
Definition served : list Label :=
  [Connect SubscribeEvents; MainServe; Connect SubscribeEvents; Take 1; Connect Quit; MainQuit; MainSend;
   FinishQuit; Recv 1; Write 1 true; Signal 1; Take 0; MainDone].

Example report_before_exit_witness :
  is_Some (written (after served)) ∧ report (after served) = Received.
Proof.
  apply (report_before_exit (after served)); [|vm_compute; reflexivity..].
  apply (exec_all_steps initial served). vm_compute. reflexivity.
Defined.

Definition quitting : State := after [Connect SubscribeEvents; Connect Quit].
Example quit_ends_agent_witness :
  sn internal_step quitting ∧
  (∀ s', rtc internal_step quitting s' → nf internal_step s' →
    (main s' = Exited ∨ server s' = Accepting ∨ stranded s') ∧
    (quit_sent quitting = true → main s' = Exited)).
Proof.
  apply (quit_ends_agent quitting).
  apply (exec_all_steps initial [Connect SubscribeEvents; Connect Quit]). vm_compute. reflexivity.
Defined.
End Witness.
