(* ===== verification/Ipnet.v ===== *)
(** * IPv4 networks ([ipnet::Ipv4Net], third-party)

    What the choice of a network needs of [ipnet]: a class of its operations
    and the class of their documented laws, over sets of addresses.  The lemmas
    derive that two networks are nested or disjoint, and that the networks that
    overlap a given one, together with it, have a largest member. *)
From S2P Require Import Prelude Settings.

(** ** Addresses of a network *)
(** The number of addresses of a network of a prefix length. *)
Definition block (p : N) : N := (2 ^ (32 - p))%N.

(** [Ipv4Net::network()]: the first address. *)
Definition net_network (n : Ipv4Net) : N :=
  (net_addr n / block (prefix_len n) * block (prefix_len n))%N.

Definition in_net (x : N) (n : Ipv4Net) : Prop :=
  (x / block (prefix_len n) = net_addr n / block (prefix_len n))%N.
#[global] Instance in_net_dec x n : Decision (in_net x n).
Proof. unfold in_net. apply _. Defined.

Definition net_wf (n : Ipv4Net) : Prop := (net_addr n < 2 ^ 32 ∧ prefix_len n ≤ 32)%N.
#[global] Instance net_wf_dec n : Decision (net_wf n).
Proof. unfold net_wf. apply _. Defined.

(** Without host bits. *)
Definition aligned (n : Ipv4Net) : Prop := net_network n = net_addr n.
#[global] Instance aligned_dec n : Decision (aligned n).
Proof. unfold aligned. apply _. Defined.

(** Every address of the second is one of the first. *)
Definition covers (a b : Ipv4Net) : Prop := ∀ x, in_net x b → in_net x a.

(** No common address. *)
Definition net_disjoint (a b : Ipv4Net) : Prop := ∀ x, in_net x a → ¬ in_net x b.

(** ** The operations used, and their laws *)
Class Ipnet := {
  net_new : N → N → outcome Ipv4Net;               (* [Ipv4Net::new] *)
  net_contains : Ipv4Net → Ipv4Net → bool;         (* [contains] *)
  net_le : Ipv4Net → Ipv4Net → bool;               (* [<=], derived *)
  aggregate : list Ipv4Net → list Ipv4Net;
  subnets : Ipv4Net → N → outcome (list Ipv4Net);  (* in iteration order *)
  supernet : Ipv4Net → option Ipv4Net;
  hosts : Ipv4Net → list N;
  netmask : Ipv4Net → N;
  with_netmask : N → N → outcome Ipv4Net;          (* [Ipv4Net::with_netmask] *)
  trunc : Ipv4Net → Ipv4Net;
}.

Class IpnetLaws `{Ipnet} := {
  net_new_ok a p : (p ≤ 32)%N → net_new a p = Ok (mkIpv4Net a p);
  net_contains_spec a b : net_wf a → net_wf b → net_contains a b = true ↔ covers a b;
  net_le_spec a b :
    net_le a b = true ↔
    (net_addr a < net_addr b ∨ net_addr a = net_addr b ∧ prefix_len a ≤ prefix_len b)%N;
  (* the smallest list with the same addresses, when one member has them all *)
  aggregate_largest l m :
    Forall net_wf l → m ∈ l → (∀ x, x ∈ l → covers m x) →
    aggregate l = [mkIpv4Net (net_network m) (prefix_len m)];
  (* the blocks of the new length, in increasing order *)
  subnets_ok n p :
    net_wf n → (prefix_len n ≤ p ≤ 32)%N →
    ∃ l, subnets n p = Ok l ∧ length l = N.to_nat (2 ^ (p - prefix_len n)) ∧
      ∀ i s, l !! i = Some s → s = mkIpv4Net (net_network n + N.of_nat i * block p) p;
  supernet_ok n :
    net_wf n → (0 < prefix_len n)%N →
    ∃ s, supernet n = Some s ∧ prefix_len s = (prefix_len n - 1)%N ∧ net_wf s ∧ covers s n;
  (* all addresses but the first and the last *)
  hosts_ok n :
    net_wf n → (prefix_len n ≤ 30)%N →
    length (hosts n) = N.to_nat (block (prefix_len n)) - 2 ∧
    ∀ i x, hosts n !! i = Some x → x = (net_network n + 1 + N.of_nat i)%N;
  with_netmask_ok a m n : with_netmask a m = Ok n → net_addr n = a ∧ (prefix_len n ≤ 32)%N;
  trunc_spec n : trunc n = mkIpv4Net (net_network n) (prefix_len n);
}.

(** ** Arithmetic of blocks *)
Lemma block_pos p : (0 < block p)%N.
Proof. unfold block. apply N.neq_0_lt_0, N.pow_nonzero. lia. Qed.
#[export] Hint Resolve block_pos : core.

Lemma block_ne p : block p ≠ 0%N.
Proof. pose proof (block_pos p). lia. Qed.
#[export] Hint Resolve block_ne : core.

(** A shorter prefix is a whole number of blocks of the longer one. *)
Lemma block_split p q : (p ≤ q ≤ 32)%N → block p = (block q * 2 ^ (q - p))%N.
Proof. intros ?. unfold block. rewrite <-N.pow_add_r. f_equal. lia. Qed.

Lemma div_block p q x : (p ≤ q ≤ 32)%N → (x / block p = x / block q / 2 ^ (q - p))%N.
Proof. intros ?. rewrite (block_split p q) by done. by rewrite N.Div0.div_div. Qed.

Lemma in_net_addr n : in_net (net_addr n) n.
Proof. done. Qed.

Lemma in_net_network n : in_net (net_network n) n.
Proof. unfold in_net, net_network. by rewrite N.div_mul. Qed.

Lemma net_network_le n : (net_network n ≤ net_addr n)%N.
Proof. unfold net_network. rewrite N.mul_comm. by apply N.Div0.mul_div_le. Qed.

Lemma in_net_bounds x n :
  in_net x n ↔ (net_network n ≤ x < net_network n + block (prefix_len n))%N.
Proof.
  unfold in_net, net_network. generalize (net_addr n / block (prefix_len n))%N. intros q.
  pose proof (block_pos (prefix_len n)). generalize dependent (block (prefix_len n)). intros b Hb.
  split.
  - intros <-. rewrite (N.mul_comm _ b). pose proof (N.mod_lt x b ltac:(lia)) as Hr.
    pose proof (N.div_mod x b ltac:(lia)) as Hx. revert Hx Hr.
    generalize (b * (x / b))%N (x mod b)%N. lia.
  - intros Hx. symmetry. apply (N.div_unique _ _ _ (x - q * b)); nia.
Qed.

(** Containment is agreement on the shorter prefix. *)
Lemma covers_iff a b :
  net_wf a → net_wf b →
  covers a b ↔ (prefix_len a ≤ prefix_len b)%N ∧ in_net (net_addr b) a.
Proof.
  intros [_ Ha] [_ Hb]. split.
  - intros Hc. split; [|by apply Hc, in_net_addr].
    destruct (decide (prefix_len a ≤ prefix_len b)%N) as [|Hn]; [done|]. exfalso.
    pose proof (Hc _ (in_net_network b)) as H1.
    assert (in_net (net_network b + block (prefix_len b) - 1)%N b) as H2%Hc.
    { apply in_net_bounds. pose proof (block_pos (prefix_len b)). lia. }
    apply in_net_bounds in H1, H2.
    pose proof (block_pos (prefix_len a)).
    assert (block (prefix_len a) * 2 ≤ block (prefix_len b))%N; [|lia].
    unfold block. rewrite N.mul_comm, <-N.pow_succ_r'. apply N.pow_le_mono_r; [done|]. lia.
  - intros [Hp Hin] x Hx. unfold in_net in *.
    rewrite <-Hin, !(div_block (prefix_len a) (prefix_len b)) by lia. by rewrite Hx.
Qed.

Lemma covers_refl a : covers a a.
Proof. by intros x. Qed.

Lemma covers_trans a b c : covers a b → covers b c → covers a c.
Proof. intros ?? x ?. auto. Qed.
#[export] Hint Resolve covers_refl : core.

(** Two networks are nested or disjoint. *)
Lemma overlap_covers a b x :
  net_wf a → net_wf b → in_net x a → in_net x b → (prefix_len a ≤ prefix_len b)%N → covers a b.
Proof.
  intros Ha Hb Hxa Hxb Hp. apply covers_iff; [done..|]. split; [done|].
  destruct Hb. unfold in_net in *. rewrite <-Hxa, !(div_block (prefix_len a) (prefix_len b)) by lia. by rewrite Hxb.
Qed.

Lemma not_covers_disjoint a b :
  net_wf a → net_wf b → ¬ covers a b → ¬ covers b a → net_disjoint a b.
Proof.
  intros Ha Hb H1 H2 x Hxa Hxb.
  destruct (decide (prefix_len a ≤ prefix_len b)%N);
    [apply H1|apply H2]; eapply overlap_covers; eauto; lia.
Qed.

(** Networks of one length are equal blocks or disjoint. *)
Lemma covers_same_length a b :
  net_wf a → net_wf b → prefix_len a = prefix_len b →
  covers a b ↔ (net_addr a / block (prefix_len a) = net_addr b / block (prefix_len a))%N.
Proof.
  intros Ha Hb Hp. rewrite covers_iff by done. unfold in_net. rewrite Hp. split; [by intros [_ ->]|].
  intros ->. by split.
Qed.

(** A network and those that overlap it have a largest one. *)
Lemma largest_overlapping (c : Ipv4Net) (l : list Ipv4Net) :
  net_wf c → Forall net_wf l → (∀ u, u ∈ l → covers c u ∨ covers u c) →
  ∃ m, m ∈ l ++ [c] ∧ ∀ x, x ∈ l ++ [c] → covers m x.
Proof.
  intros Hc. induction l as [|u l IH]; intros Hwf Hov.
  { exists c. split; [set_solver|]. intros x Hx. by assert (x = c) as -> by set_solver. }
  apply Forall_cons in Hwf as [Hu Hwf].
  destruct IH as (m & Hm & Hcov); [done|set_solver|].
  assert (net_wf m) as Hmw.
  { apply elem_of_app in Hm as [Hm|Hm]; [by eapply Forall_forall in Hwf|].
    by assert (m = c) as -> by set_solver. }
  assert (covers m c) as Hmc by (apply Hcov; set_solver).
  assert (covers m u ∨ covers u m) as [Hmu|Hum].
  { destruct (Hov u) as [Hcu|Huc]; [set_solver|left; by eapply covers_trans|].
    destruct (decide (prefix_len m ≤ prefix_len u)%N); [left|right];
      eapply (overlap_covers _ _ (net_addr c)); eauto using in_net_addr; try lia;
      first [apply Hmc|apply Huc]; apply in_net_addr. }
  - exists m. split; [set_solver|]. intros x [->|Hx]%elem_of_cons; auto.
  - exists u. split; [set_solver|]. intros x [->|Hx]%elem_of_cons; [done|].
    eapply covers_trans; eauto.
Qed.

(** ** A concrete instance *)
Module Concrete.
Definition contains (a b : Ipv4Net) : bool :=
  bool_decide ((prefix_len a ≤ prefix_len b)%N ∧ in_net (net_addr b) a).

Definition mask_prefix (m : N) : option N :=
  N.of_nat <$> List.find (λ p, bool_decide (m = 2 ^ 32 - block (N.of_nat p))%N) (seq 0 33).

Lemma mask_prefix_le m p : mask_prefix m = Some p → (p ≤ 32)%N.
Proof.
  unfold mask_prefix. rewrite fmap_Some. intros (q & Hq & ->).
  apply find_some in Hq as [Hin%in_seq _]. lia.
Qed.

#[export] Instance ipnet : Ipnet := {|
  net_new a p := if decide (p ≤ 32)%N then Ok (mkIpv4Net a p) else Err "invalid IP prefix length";
  net_contains := contains;
  net_le a b := bool_decide (net_addr a < net_addr b ∨
                             net_addr a = net_addr b ∧ prefix_len a ≤ prefix_len b)%N;
  aggregate l :=
    match List.find (λ m, List.forallb (contains m) l) l with
    | Some m => [mkIpv4Net (net_network m) (prefix_len m)]
    | None => l
    end;
  subnets n p :=
    if decide (prefix_len n ≤ p ≤ 32)%N
    then Ok ((λ i, mkIpv4Net (net_network n + N.of_nat i * block p) p) <$>
             seq 0 (N.to_nat (2 ^ (p - prefix_len n))))
    else Err "invalid IP prefix length";
  supernet n :=
    if decide (0 < prefix_len n)%N
    then Some (mkIpv4Net (net_network n) (prefix_len n - 1)) else None;
  hosts n := (λ i, (net_network n + 1 + N.of_nat i)%N) <$> seq 0 (N.to_nat (block (prefix_len n)) - 2);
  netmask n := (2 ^ 32 - block (prefix_len n))%N;
  with_netmask a m :=
    match mask_prefix m with
    | Some p => Ok (mkIpv4Net a p)
    | None => Err "invalid IP prefix length"
    end;
  trunc n := mkIpv4Net (net_network n) (prefix_len n);
|}.

Lemma covers_both a b :
  net_wf a → net_wf b → covers a b → covers b a →
  mkIpv4Net (net_network a) (prefix_len a) = mkIpv4Net (net_network b) (prefix_len b).
Proof.
  intros Ha Hb [Hp1 Hin1]%covers_iff [Hp2 _]%covers_iff; [|done..].
  assert (prefix_len a = prefix_len b) as Hp by lia.
  unfold net_network. unfold in_net in Hin1. rewrite Hp in Hin1 |- *. by rewrite Hin1.
Qed.

#[local] Opaque mask_prefix.
#[export] Instance ipnet_laws : IpnetLaws.
Proof.
  split; simpl.
  - intros a p Hp. by rewrite decide_True.
  - intros a b Ha Hb. unfold contains. by rewrite bool_decide_eq_true, covers_iff.
  - intros a b. by rewrite bool_decide_eq_true.
  - intros l m Hwf Hm Hcov. rewrite Forall_forall in Hwf.
    assert (∀ x, x ∈ l → List.forallb (contains x) l = true ↔ ∀ y, y ∈ l → covers x y) as Hall.
    { intros x Hx. rewrite forallb_forall. unfold contains. split.
      - intros Hf y Hy. apply covers_iff; [auto..|]. apply (bool_decide_eq_true _).
        apply Hf. by apply list_elem_of_In.
      - intros Hf y Hy%list_elem_of_In. apply bool_decide_eq_true, covers_iff; auto. }
    destruct (List.find _ l) as [x|] eqn:Ef.
    + apply find_some in Ef as [Hx%list_elem_of_In Hf]. rewrite Hall in Hf by done.
      f_equal. apply covers_both; auto.
    + eapply find_none in Ef; [|by apply list_elem_of_In].
      apply not_true_iff_false in Ef. exfalso. by apply Ef, Hall.
  - intros n p Hn Hp. rewrite decide_True by done. eexists; split; [done|].
    rewrite length_fmap, length_seq. split; [done|].
    intros i s. rewrite list_lookup_fmap, fmap_Some. intros (j & [-> _]%lookup_seq & ->). done.
  - intros n Hn Hp. rewrite decide_True by done. eexists; split; [done|].
    pose proof (net_network_le n) as Hle. destruct Hn as [Ha Hp'].
    assert (net_wf (mkIpv4Net (net_network n) (prefix_len n - 1))) as Hw by (split; simpl; lia).
    split_and!; [done..|]. apply covers_iff; [done..|]. simpl. split; [lia|].
    unfold in_net; simpl. rewrite !(div_block (prefix_len n - 1) (prefix_len n)) by lia.
    unfold net_network. by rewrite N.div_mul.
  - intros n Hn Hp. rewrite length_fmap, length_seq. split; [done|].
    intros i s. rewrite list_lookup_fmap, fmap_Some. intros (j & [-> _]%lookup_seq & ->). done.
  - intros a m n. destruct (mask_prefix m) as [p|] eqn:Ep; [|done]. intros [= <-].
    split; [done|]. by apply mask_prefix_le in Ep.
  - done.
Qed.
#[local] Transparent mask_prefix.
End Concrete.
