(* ===== verification/NetPick.v ===== *)
(** * The choice of a network for the VM ([netutil.rs])

    The deterministic search for a free network in the pool
    ([pick_available_network_in_pool]), the random one, and what each
    guarantees.  Addresses and networks are those of [Ipnet]. *)
From S2P Require Import Prelude Common Settings Ipnet.

(** ** Iterators *)
(** [Iterator::skip_while] and [Iterator::take_while] *)
Fixpoint skip_while {A} (p : A → bool) (l : list A) : list A :=
  match l with
  | [] => []
  | x :: l' => if p x then skip_while p l' else l
  end.
Fixpoint take_while {A} (p : A → bool) (l : list A) : list A :=
  match l with
  | [] => []
  | x :: l' => if p x then x :: take_while p l' else []
  end.

(** ** [netutil.rs] *)
Section netutil.
Context `{Ipnet}.

(** [a < b], from the derived order. *)
Definition net_lt (a b : Ipv4Net) : bool := net_le a b && negb (net_le b a).

Definition overlaps (candidate net : Ipv4Net) : bool :=
  net_contains candidate net || net_contains net candidate.

Definition network_overlaps_any (candidate : Ipv4Net) (used_networks : list Ipv4Net) : bool :=
  existsb (overlaps candidate) used_networks.

Definition invalid_prefix_len (prefix_len pool_prefix_len : N) : string :=
  "invalid prefix length: " +:+ Str.of_N prefix_len +:+ ", must be greater than " +:+
  Str.of_N pool_prefix_len.

(** The state of the outer loop: [search_prefix_len] and [candidate]. *)
Record Search := mkSearch { search_prefix_len : N; sc_candidate : Ipv4Net }.

Inductive flow := Break (r : outcome Ipv4Net) | Continue (s : Search).

(** The next sibling after the candidate, or the first one before it. *)
Definition next_sibling (candidate : Ipv4Net) (siblings : list Ipv4Net) : option Ipv4Net :=
  or (head (skip_while (λ it, net_le it candidate) siblings))
     (head (take_while (λ it, net_lt it candidate) siblings)).

(** The inner loop; [None] when the fuel is used up. *)
Fixpoint advance (fuel : nat) (len : N) (candidate_base aggregated : Ipv4Net)
    (search : N) (supernet candidate : Ipv4Net) : option flow :=
  match fuel with
  | O => None
  | S fuel =>
      match subnets supernet (prefix_len aggregated) with
      | Ok siblings =>
          match next_sibling candidate siblings with
          | Some next_candidate =>
              match net_new (net_network next_candidate) len with
              | Ok candidate =>
                  if decide (candidate = candidate_base) then
                    if decide (12 < prefix_len supernet)%N then
                      match Ipnet.supernet supernet with
                      | Some supernet =>
                          advance fuel len candidate_base aggregated (prefix_len supernet)
                            supernet candidate
                      | None => Some (Break Panic)
                      end
                    else Some (Break (Err "exhausted candidate IP ranges for VMs"))
                  else Some (Continue (mkSearch search candidate))
              | Err e => Some (Break (Err e))
              | Panic => Some (Break Panic)
              end
          | None => Some (Break (Err "failed to autoconfigure IP range for VMs"))
          end
      | _ => Some (Break Panic)
      end
  end.

(** The supernet loses a bit in each turn of the inner loop but the last. *)
Definition advance_fuel : nat := 33.

Definition conflicting (candidate : Ipv4Net) (used_networks : list Ipv4Net) : list Ipv4Net :=
  List.filter (overlaps candidate) used_networks.

(** One turn of the outer loop; [prefix_len - 1] is on [u8]. *)
Definition round (len : N) (used_networks : list Ipv4Net) (candidate_base : Ipv4Net)
    (s : Search) : option flow :=
  let candidate := sc_candidate s in
  match conflicting candidate used_networks with
  | [] => Some (Break (Ok candidate))
  | conflicting =>
      match aggregate (conflicting ++ [candidate]) with
      | aggregated :: _ =>
          if decide (prefix_len aggregated = 0)%N then Some (Break Panic)
          else
            let search := N.min (search_prefix_len s) (prefix_len aggregated - 1) in
            match net_new (net_network aggregated) search with
            | Ok supernet =>
                advance advance_fuel len candidate_base aggregated search supernet candidate
            | Err e => Some (Break (Err e))
            | Panic => Some (Break Panic)
            end
      | [] => Some (Break Panic)
      end
  end.

Fixpoint pick_loop (fuel : nat) (len : N) (used_networks : list Ipv4Net)
    (candidate_base : Ipv4Net) (s : Search) : option (outcome Ipv4Net) :=
  match fuel with
  | O => None
  | S fuel =>
      match round len used_networks candidate_base s with
      | Some (Break r) => Some r
      | Some (Continue s) => pick_loop fuel len used_networks candidate_base s
      | None => None
      end
  end.

Definition pick_available_network_in_pool (fuel : nat) (len : N)
    (used_networks : list Ipv4Net) (pool : Ipv4Net) : option (outcome Ipv4Net) :=
  if decide (len ≤ prefix_len pool)%N then Some (Err (invalid_prefix_len len (prefix_len pool)))
  else
    match net_new (net_addr pool) len with
    | Ok candidate_base =>
        pick_loop fuel len used_networks candidate_base (mkSearch (len - 1) candidate_base)
    | Err e => Some (Err e)
    | Panic => Some Panic
    end.

(** The sum and the product are on [u64], the address is cut to [u32]. *)
Definition network_in_pool_by_index (len : N) (pool : Ipv4Net) (index : N) : outcome Ipv4Net :=
  let block_size := N.shiftl 1 (32 - len) in
  let pool_base := net_network pool in
  if decide (u64_max < pool_base + index * block_size)%N then Panic
  else net_new ((pool_base + index * block_size) mod 2 ^ 32)%N len.

(** The attempts; [rng i] is the [i]-th result of the generator. *)
Fixpoint attempts (n : nat) (i : nat) (len : N) (used_networks : list Ipv4Net) (pool : Ipv4Net)
    (rng : nat → N) : outcome (option Ipv4Net) :=
  match n with
  | O => Ok None
  | S n =>
      candidate ← network_in_pool_by_index len pool (rng i);
      if negb (network_overlaps_any candidate used_networks) then Ok (Some candidate)
      else attempts n (S i) len used_networks pool rng
  end.

(** [rng.random_range(0..candidate_count)] *)
Definition candidate_count (len : N) (pool : Ipv4Net) : N := N.shiftl 1 (len - prefix_len pool).

Definition pick_random_available_network_in_pool (len : N) (used_networks : list Ipv4Net)
    (pool : Ipv4Net) (max_attempts : nat) (rng : nat → N) : outcome (option Ipv4Net) :=
  if decide (32 < len)%N then
    Err ("invalid prefix length: " +:+ Str.of_N len +:+ ", must be less than or equal to 32")
  else if decide (len ≤ prefix_len pool)%N then Err (invalid_prefix_len len (prefix_len pool))
  else if decide (max_attempts = 0) then Ok None
  else attempts max_attempts 0 len used_networks pool rng.
End netutil.

(** ** What the search returns *)
Lemma head_skip_while {A} (p : A → bool) (l : list A) k :
  (∀ i x, l !! i = Some x → p x = bool_decide (i < k)) → head (skip_while p l) = l !! k.
Proof.
  revert k; induction l as [|x l IH]; intros k Hp; [done|].
  destruct k as [|k]; simpl.
  - by rewrite (Hp 0 x eq_refl).
  - rewrite (Hp 0 x eq_refl). apply IH. intros i y Hy.
    rewrite (Hp (S i) y Hy). apply bool_decide_ext. lia.
Qed.

Lemma head_skip_while_elem {A} (p : A → bool) (l : list A) x :
  head (skip_while p l) = Some x → x ∈ l.
Proof.
  induction l as [|y l IH]; simpl; [done|]. destruct (p y); [|simpl]; set_solver.
Qed.

Lemma head_take_while_elem {A} (p : A → bool) (l : list A) x :
  head (take_while p l) = Some x → x ∈ l.
Proof. destruct l as [|y l]; simpl; [done|]. destruct (p y); simpl; [set_solver|done]. Qed.

Section facts.
Context `{IpnetLaws}.

Lemma next_sibling_elem c l x : next_sibling c l = Some x → x ∈ l.
Proof.
  unfold next_sibling, or. destruct (head (skip_while _ l)) eqn:E; intros Hx.
  - simplify_eq. by eapply head_skip_while_elem.
  - by eapply head_take_while_elem.
Qed.

Lemma overlaps_true c u :
  net_wf c → net_wf u → overlaps c u = true ↔ covers c u ∨ covers u c.
Proof. intros. unfold overlaps. by rewrite orb_true_iff, !net_contains_spec. Qed.

Lemma overlaps_false c u :
  net_wf c → net_wf u → overlaps c u = false ↔ net_disjoint c u.
Proof.
  intros Hc Hu. split.
  - intros Ho. apply not_covers_disjoint; [done..| |]; intros Hco;
      [assert (overlaps c u = true) by (apply overlaps_true; auto)
      |assert (overlaps c u = true) by (apply overlaps_true; auto)]; congruence.
  - intros Hd. apply not_true_iff_false. rewrite overlaps_true by done. intros [Hco|Hco].
    + apply (Hd (net_addr u)); [apply Hco|]; apply in_net_addr.
    + apply (Hd (net_addr c)); [|apply Hco]; apply in_net_addr.
Qed.

Lemma conflicting_elem c used u :
  u ∈ conflicting c used ↔ u ∈ used ∧ overlaps c u = true.
Proof. unfold conflicting. rewrite !list_elem_of_In. apply filter_In. Qed.

Lemma conflicting_nil c used :
  net_wf c → Forall net_wf used →
  conflicting c used = [] ↔ ∀ u, u ∈ used → net_disjoint c u.
Proof.
  intros Hc Hu. rewrite Forall_forall in Hu. split.
  - intros Hn u Hin. apply overlaps_false; auto. apply not_true_iff_false. intros Ho.
    assert (u ∈ conflicting c used) as Hx by by apply conflicting_elem. rewrite Hn in Hx. set_solver.
  - intros Hd. destruct (conflicting c used) as [|u l] eqn:E; [done|].
    assert (u ∈ conflicting c used) as [Hin Ho]%conflicting_elem by (rewrite E; set_solver).
    pose proof (Hu _ Hin). apply Hd in Hin. apply overlaps_false in Hin; [congruence|done..].
Qed.

(** What is aggregated is the largest of the conflicting networks. *)
Lemma aggregate_conflicting c used :
  net_wf c → Forall net_wf used →
  ∃ m, m ∈ conflicting c used ++ [c] ∧ (∀ x, x ∈ conflicting c used ++ [c] → covers m x) ∧
    net_wf m ∧ aggregate (conflicting c used ++ [c]) = [mkIpv4Net (net_network m) (prefix_len m)].
Proof.
  intros Hc Hu.
  assert (Forall net_wf (conflicting c used)) as Hcw.
  { rewrite Forall_forall in *. intros u [??]%conflicting_elem. auto. }
  destruct (largest_overlapping c (conflicting c used)) as (m & Hm & Hcov); [done..| |].
  { intros u [Hin Ho]%conflicting_elem. rewrite Forall_forall in Hu. apply overlaps_true in Ho; auto. }
  assert (Forall net_wf (conflicting c used ++ [c])) as Hall by (apply Forall_app; auto).
  exists m. split_and!; [done..| |].
  - by eapply Forall_forall in Hall.
  - by apply aggregate_largest.
Qed.

Lemma network_wf n : net_wf n → (net_network n + block (prefix_len n) ≤ 2 ^ 32)%N.
Proof.
  intros [Ha Hp]. unfold net_network.
  assert (net_addr n / block (prefix_len n) < 2 ^ prefix_len n)%N as Hq.
  { apply N.Div0.div_lt_upper_bound. unfold block. rewrite <-N.pow_add_r.
    by replace (32 - prefix_len n + prefix_len n)%N with 32%N by lia. }
  assert (2 ^ 32 = 2 ^ prefix_len n * block (prefix_len n))%N as ->.
  { unfold block. rewrite <-N.pow_add_r. f_equal. lia. }
  nia.
Qed.

Lemma subnets_elem n p l s :
  net_wf n → (prefix_len n ≤ p ≤ 32)%N → subnets n p = Ok l → s ∈ l →
  net_wf s ∧ prefix_len s = p ∧ covers n s ∧ ∃ q, net_addr s = (q * block p)%N.
Proof.
  intros Hn Hp Hl Hs. destruct (subnets_ok n p Hn Hp) as (l' & Hl' & Hlen & Hi).
  rewrite Hl in Hl'; simplify_eq. apply list_elem_of_lookup in Hs as [i Hs].
  pose proof (lookup_lt_Some _ _ _ Hs) as Hlt. apply Hi in Hs as ->. rename i into k.
  pose proof (network_wf n Hn) as Hub. rewrite (block_split _ p) in Hub by lia.
  assert (N.of_nat k < 2 ^ (p - prefix_len n))%N as Hk.
  { apply N.compare_lt_iff. rewrite <-(N2Nat.id (2 ^ _)), <-Hlen. apply N.compare_lt_iff. lia. }
  assert (net_wf (mkIpv4Net (net_network n + N.of_nat k * block p) p)) as Hwf.
  { split; simpl; [|lia]. pose proof (block_pos p). nia. }
  split_and!; [done..| |].
  - apply covers_iff; [done..|]. split; [simpl; lia|]. apply in_net_bounds. simpl.
    rewrite (block_split (prefix_len n) p) by lia. pose proof (block_pos p). nia.
  - simpl. unfold net_network. rewrite (block_split (prefix_len n) p) by lia.
    set (q := (net_addr n / _)%N). exists (q * 2 ^ (p - prefix_len n) + N.of_nat k)%N. simpl. lia.
Qed.

(** Every turn of the inner loop but the last shortens the prefix, so that its
    fuel is enough; it never panics and leaves a candidate of the length. *)
Lemma advance_spec fuel len base agg search sup c :
  net_wf sup → (prefix_len sup ≤ prefix_len agg ≤ 32)%N → (len ≤ 32)%N →
  N.to_nat (prefix_len sup) < fuel →
  ∃ fl, advance fuel len base agg search sup c = Some fl ∧
    match fl with
    | Break r => ∃ e, r = Err e
    | Continue s => net_wf (sc_candidate s) ∧ prefix_len (sc_candidate s) = len
    end.
Proof.
  revert search sup c; induction fuel as [|fuel IH]; intros search sup c Hs Ha Hl Hf; [lia|].
  simpl. destruct (subnets_ok sup (prefix_len agg)) as (l & Hl' & _ & _); [done..|]. rewrite Hl'.
  destruct (next_sibling c l) as [n|] eqn:En; [|by (eexists; split; [done|]; simpl; eauto)].
  apply next_sibling_elem in En.
  destruct (subnets_elem sup (prefix_len agg) l n) as ([Hn _] & _); [done..|].
  rewrite net_new_ok by done. destruct (decide _) as [|Hne].
  - destruct (decide _); [|by (eexists; split; [done|]; simpl; eauto)].
    destruct (supernet_ok sup) as (s' & -> & Hp & Hw & _); [done|lia|]. apply IH; [done|lia..].
  - eexists; split; [done|]. simpl. split; [|done]. split; [|done]. simpl.
    pose proof (net_network_le n). lia.
Qed.

#[local] Opaque advance.

(** One turn of the search, for a candidate of the length: it returns the
    candidate when nothing overlaps it and never returns another one; it panics
    only for a used network of length 0. *)
Lemma round_spec len used base s :
  Forall net_wf used → net_wf (sc_candidate s) → prefix_len (sc_candidate s) = len →
  (0 < len)%N →
  ∃ fl, round len used base s = Some fl ∧
    match fl with
    | Break (Ok n) => n = sc_candidate s ∧ ∀ u, u ∈ used → net_disjoint n u
    | Break (Err _) => True
    | Break Panic => ∃ u, u ∈ used ∧ prefix_len u = 0%N
    | Continue s' => net_wf (sc_candidate s') ∧ prefix_len (sc_candidate s') = len
    end.
Proof.
  intros Hu Hc Hp Hl. unfold round.
  destruct (conflicting (sc_candidate s) used) as [|u0 l0] eqn:E.
  { eexists; split; [done|]. simpl. split; [done|]. by apply conflicting_nil. }
  destruct (aggregate_conflicting (sc_candidate s) used) as (m & Hm & _ & Hmw & Ha); [done..|].
  rewrite E in Ha. rewrite Ha. simpl. destruct (decide _) as [Hz|Hz].
  { simpl in Hz. eexists; split; [done|]. simpl. exists m. split; [|done].
    apply elem_of_app in Hm as [[??]%conflicting_elem|Hm]; [done|].
    exfalso. assert (m = sc_candidate s) as -> by set_solver. lia. }
  destruct Hc as [Hc1 Hc2], Hmw as [Hm1 Hm2]. rewrite net_new_ok by lia.
  set (p := N.min _ _). assert (p ≤ prefix_len m - 1)%N as Hpm by (subst p; lia).
  set (g := mkIpv4Net (net_network m) (prefix_len m)).
  edestruct (advance_spec advance_fuel len base g p (mkIpv4Net (net_network g) p))
    as (fl & -> & Hfl); simpl; try (unfold advance_fuel; lia).
  - split; simpl; [|lia]. pose proof (net_network_le m). pose proof (net_network_le g).
    subst g; simpl in *; lia.
  - exists fl; split; [done|]. destruct fl as [r|]; [destruct Hfl as [e ->]|]; done.
Qed.

Lemma pick_loop_result fuel len used base s r :
  Forall net_wf used → net_wf (sc_candidate s) → prefix_len (sc_candidate s) = len →
  (0 < len)%N → pick_loop fuel len used base s = Some r →
  match r with
  | Ok n => net_wf n ∧ prefix_len n = len ∧ ∀ u, u ∈ used → net_disjoint n u
  | Err _ => True
  | Panic => ∃ u, u ∈ used ∧ prefix_len u = 0%N
  end.
Proof.
  intros Hu. revert s; induction fuel as [|fuel IH]; intros s Hc Hp Hl; simpl; [done|].
  destruct (round_spec len used base s) as (fl & -> & Hfl); [done..|].
  destruct fl as [r'|s']; [intros [= <-]; destruct r'; naive_solver|].
  destruct Hfl. by apply IH.
Qed.

(** ** The order of the search

    When no used network is larger than what is looked for, the search goes
    through the blocks of the supernet of the base in a circle, and on to the
    next larger supernet when it is back at the base. *)
Lemma succ_mod a n :
  n ≠ 0%N → ((a + 1) mod n)%N = (if decide (a mod n + 1 < n) then a mod n + 1 else 0)%N.
Proof.
  intros Hn. pose proof (N.mod_lt a n Hn) as Hr. pose proof (N.div_mod a n Hn) as Ha.
  destruct (decide _); symmetry.
  - apply (N.mod_unique _ _ (a / n)); [done|]. rewrite Ha at 1. lia.
  - apply (N.mod_unique _ _ (a / n + 1)); [lia|]. rewrite Ha at 1. nia.
Qed.

(** The number of blocks of length [len] in a network of length [s]. *)
Definition blocks_of (len s : N) : N := (2 ^ (len - s))%N.
Lemma blocks_of_ne len s : blocks_of len s ≠ 0%N.
Proof. by apply N.pow_nonzero. Qed.

(** The [k]-th block after block [ib], in the circle of the network of length
    [s] around it. *)
Definition circle (len ib s k : N) : N :=
  let n := blocks_of len s in (ib / n * n + (ib mod n + k) mod n)%N.
Definition nth_block (len i : N) : Ipv4Net := mkIpv4Net (i * block len) len.

Lemma circle_0 len ib s : circle len ib s 0 = ib.
Proof.
  unfold circle. pose proof (blocks_of_ne len s) as Hn.
  rewrite N.add_0_r, N.Div0.mod_mod. rewrite (N.div_mod ib _ Hn) at 3. lia.
Qed.

Lemma circle_full len ib s : circle len ib s (blocks_of len s) = ib.
Proof.
  rewrite <-(circle_0 len ib s) at 2. unfold circle. f_equal.
  rewrite N.add_0_r, <-N.Div0.add_mod_idemp_r, N.Div0.mod_same, N.add_0_r. done.
Qed.

Lemma circle_ne len ib s k : (0 < k < blocks_of len s)%N → circle len ib s k ≠ ib.
Proof.
  intros Hk He. rewrite <-(circle_0 len ib s) in He at 2. unfold circle in He.
  pose proof (blocks_of_ne len s) as Hn. set (n := blocks_of len s) in *.
  clearbody n. rewrite N.add_0_r, N.Div0.mod_mod in He. apply N.add_cancel_l in He.
  pose proof (N.mod_lt ib n Hn) as Ho. generalize dependent (ib mod n)%N. intros o He Ho.
  destruct (decide (o + k < n)%N).
  - rewrite N.mod_small in He by lia. lia.
  - rewrite <-(N.mod_unique (o + k) n 1 (o + k - n)) in He; lia.
Qed.

Lemma circle_div len ib s k :
  (circle len ib s k / blocks_of len s = ib / blocks_of len s)%N.
Proof.
  unfold circle. pose proof (blocks_of_ne len s) as Hn.
  rewrite N.div_add_l by done. rewrite (N.div_small (_ mod _)); [lia|]. by apply N.mod_lt.
Qed.

(** The blocks of the network are the members of the circle. *)
Lemma circle_onto len ib s i :
  (i / blocks_of len s = ib / blocks_of len s)%N →
  ∃ k, (k < blocks_of len s)%N ∧ circle len ib s k = i.
Proof.
  unfold circle. pose proof (blocks_of_ne len s) as Hn. generalize dependent (blocks_of len s).
  intros n Hn Hi. rewrite <-Hi.
  assert ((i / n * n + i mod n)%N = i) as Hdm by (rewrite (N.mul_comm _ n); symmetry; by apply N.div_mod).
  pose proof (N.mod_lt i n Hn) as Hr. pose proof (N.mod_lt ib n Hn) as Ho.
  generalize dependent (i / n)%N. generalize dependent (ib mod n)%N. intros o Ho q _ Hdm.
  set (r := (i mod n)%N) in *. assert (r mod n = r)%N as Hrr by by apply N.mod_small.
  clearbody r. destruct (decide (o ≤ r)%N).
  - exists (r - o)%N. split; [lia|]. by replace (o + _)%N with r by lia; rewrite Hrr.
  - exists (n + r - o)%N. split; [lia|]. replace (o + _)%N with (r + 1 * n)%N by lia.
    by rewrite N.Div0.mod_add, Hrr.
Qed.

Lemma nth_block_le len i j : (net_le (nth_block len i) (nth_block len j) = true ↔ i ≤ j)%N.
Proof. rewrite net_le_spec. simpl. pose proof (block_pos len). nia. Qed.

Lemma nth_block_leb len i j : net_le (nth_block len i) (nth_block len j) = bool_decide (i ≤ j)%N.
Proof. apply eq_true_iff_eq. by rewrite nth_block_le, bool_decide_eq_true. Qed.

Lemma nth_block_inj len i j : nth_block len i = nth_block len j → i = j.
Proof. intros [= He]. by apply N.mul_cancel_r in He. Qed.

(** The siblings are consecutive blocks; the search takes them in a circle. *)
Lemma next_sibling_circle len l f n j :
  length l = N.to_nat n → (∀ i x, l !! i = Some x → x = nth_block len (f + N.of_nat i)) →
  (1 < n)%N → (j < n)%N →
  next_sibling (nth_block len (f + j)) l =
    Some (nth_block len (f + if decide (j + 1 < n)%N then j + 1 else 0)).
Proof.
  intros Hlen Hl Hn Hj. unfold next_sibling.
  rewrite (head_skip_while _ _ (N.to_nat (j + 1))).
  2:{ intros i x Hx. rewrite (Hl _ _ Hx), nth_block_leb. apply bool_decide_ext. lia. }
  destruct (decide _) as [Hlt|Hge].
  - destruct (lookup_lt_is_Some_2 l (N.to_nat (j + 1))) as [x Hx]; [lia|].
    rewrite Hx. simpl. rewrite (Hl _ _ Hx), N2Nat.id. done.
  - rewrite lookup_ge_None_2 by lia. simpl.
    destruct l as [|x l]; [simpl in Hlen; lia|]. simpl.
    rewrite (Hl 0 x eq_refl). unfold net_lt. rewrite !nth_block_leb.
    rewrite bool_decide_eq_true_2 by lia. rewrite bool_decide_eq_false_2 by lia. done.
Qed.

(** The network of length [s] around block [ib]. *)
Definition around (len ib s : N) (sup : Ipv4Net) : Prop :=
  net_wf sup ∧ prefix_len sup = s ∧
  (net_addr sup / block s = ib / blocks_of len s)%N.

Lemma around_next len ib s sup k :
  around len ib s sup → (s < len ≤ 32)%N →
  ∃ l, subnets sup len = Ok l ∧
    next_sibling (nth_block len (circle len ib s k)) l = Some (nth_block len (circle len ib s (k + 1))).
Proof.
  intros (Hw & Hp & Hf) Hs.
  destruct (subnets_ok sup len) as (l & -> & Hlen & Hl); [done|lia|].
  exists l; split; [done|]. unfold circle.
  pose proof (blocks_of_ne len s) as Hn. rewrite N.add_assoc, succ_mod by done.
  apply next_sibling_circle.
  - rewrite Hlen. unfold blocks_of. by rewrite Hp.
  - intros i x Hx. apply Hl in Hx as ->. unfold nth_block. f_equal. unfold net_network.
    rewrite Hp, Hf, (block_split s len) by lia. unfold blocks_of. lia.
  - unfold blocks_of. apply N.pow_gt_1; lia.
  - by apply N.mod_lt.
Qed.

Lemma around_supernet len ib s sup :
  around len ib s sup → (0 < s < len)%N → (len ≤ 32)%N →
  ∃ sup', supernet sup = Some sup' ∧ around len ib (s - 1) sup'.
Proof.
  intros (Hw & Hp & Hf) Hs Hlen.
  destruct (supernet_ok sup) as (sup' & Hs' & Hp' & Hw' & Hc); [done|lia|].
  exists sup'. split; [done|]. split_and!; [done|lia|].
  specialize (Hc _ (in_net_addr sup)). unfold in_net in Hc. rewrite Hp', Hp in Hc. rewrite <-Hc.
  rewrite (div_block (s - 1) s), Hf by lia.
  replace (s - (s - 1))%N with 1%N by lia. unfold blocks_of. rewrite N.Div0.div_div, <-N.pow_add_r.
  do 2 f_equal. lia.
Qed.

(** The largest network that a block conflicts with is the block. *)
Lemma aggregate_block len i used :
  Forall net_wf used → (∀ u, u ∈ used → (len ≤ prefix_len u)%N) →
  net_wf (nth_block len i) →
  aggregate (conflicting (nth_block len i) used ++ [nth_block len i]) = [nth_block len i].
Proof.
  intros Hu Hlen Hc.
  destruct (aggregate_conflicting (nth_block len i) used) as (m & Hm & Hcov & Hmw & ->); [done..|].
  assert (covers m (nth_block len i)) as Hmc by (apply Hcov; set_solver).
  assert (len ≤ prefix_len m)%N as Hge.
  { apply elem_of_app in Hm as [[??]%conflicting_elem|Hm]; [auto|].
    by assert (m = nth_block len i) as -> by set_solver. }
  apply covers_iff in Hmc as [Hle Hin]; [|done..]. simpl in Hle.
  assert (prefix_len m = len) as Hp by lia. unfold in_net in Hin. rewrite Hp in Hin. simpl in Hin.
  rewrite N.div_mul in Hin by done.
  unfold nth_block, net_network. by rewrite Hp, <-Hin.
Qed.

Lemma nth_block_network len i : net_network (nth_block len i) = (i * block len)%N.
Proof. unfold net_network. simpl. by rewrite N.div_mul. Qed.

Lemma nth_block_wf len i : (len ≤ 32)%N → (i < 2 ^ len)%N → net_wf (nth_block len i).
Proof.
  intros Hl Hi. split; [|done]. simpl.
  replace (2 ^ 32)%N with (2 ^ len * block len)%N; [by apply N.mul_lt_mono_pos_r|].
  unfold block. rewrite <-N.pow_add_r. f_equal. lia.
Qed.

Lemma circle_bound len ib s k :
  (s ≤ len)%N → (ib < 2 ^ len)%N → (circle len ib s k < 2 ^ len)%N.
Proof.
  intros Hs Hi. pose proof (blocks_of_ne len s) as Hn.
  assert (2 ^ len = blocks_of len s * 2 ^ s)%N as Hsplit.
  { unfold blocks_of. rewrite <-N.pow_add_r. f_equal. lia. }
  assert (circle len ib s k / blocks_of len s < 2 ^ s)%N as Hq.
  { rewrite circle_div. apply N.Div0.div_lt_upper_bound. by rewrite <-Hsplit. }
  pose proof (N.mul_succ_div_gt (circle len ib s k) (blocks_of len s) Hn). nia.
Qed.

#[local] Transparent advance.
Lemma advance_S fuel len base agg search sup c l n :
  subnets sup (prefix_len agg) = Ok l → next_sibling c l = Some n → (len ≤ 32)%N →
  advance (S fuel) len base agg search sup c =
    let c' := mkIpv4Net (net_network n) len in
    if decide (c' = base) then
      if decide (12 < prefix_len sup)%N then
        match supernet sup with
        | Some sup => advance fuel len base agg (prefix_len sup) sup c'
        | None => Some (Break Panic)
        end
      else Some (Break (Err "exhausted candidate IP ranges for VMs"))
    else Some (Continue (mkSearch search c')).
Proof. intros Hl Hn Hlen. cbn [advance]. by rewrite Hl, Hn, net_new_ok. Qed.
#[local] Opaque advance.

Lemma advance_circle fuel len ib i search s sup k :
  around len ib s sup → (12 ≤ s < len)%N → (len ≤ 32)%N → (k < blocks_of len s)%N →
  advance (S (S fuel)) len (nth_block len ib) (nth_block len i) search sup
      (nth_block len (circle len ib s k)) =
    Some (if decide (k + 1 < blocks_of len s)%N
          then Continue (mkSearch search (nth_block len (circle len ib s (k + 1))))
          else if decide (12 < s)%N
          then Continue (mkSearch (s - 1) (nth_block len (circle len ib (s - 1) 1)))
          else Break (Err "exhausted candidate IP ranges for VMs")).
Proof.
  intros Ha Hs Hl Hk.
  destruct (around_next len ib s sup k) as (l & Hsub & Hnext); [done|lia|].
  rewrite (advance_S _ len _ (nth_block len i) _ _ _ l _ Hsub Hnext Hl), nth_block_network. cbv zeta.
  fold (nth_block len (circle len ib s (k + 1))).
  destruct (decide (k + 1 < _)%N) as [Hlt|Hge].
  { rewrite decide_False; [done|]. intros He%nth_block_inj. revert He. apply circle_ne. lia. }
  replace (k + 1)%N with (blocks_of len s) by lia. rewrite circle_full, decide_True by done.
  destruct Ha as (Hw & Hp & Hf). rewrite Hp. destruct (decide (12 < s)%N); [|done].
  destruct (around_supernet len ib s sup) as (sup' & -> & Ha'); [done|lia|done|].
  destruct (around_next len ib (s - 1) sup' 0) as (l' & Hsub' & Hnext'); [done|lia|].
  rewrite circle_0 in Hnext'.
  rewrite (advance_S _ len _ (nth_block len i) _ _ _ l' _ Hsub' Hnext' Hl), nth_block_network. cbv zeta.
  fold (nth_block len (circle len ib (s - 1) (0 + 1))).
  rewrite decide_False; [by destruct Ha' as (_ & -> & _)|].
  intros He%nth_block_inj. revert He. apply circle_ne. split; [lia|].
  unfold blocks_of. apply N.pow_gt_1; lia.
Qed.

(** One turn of the search at the [k]-th block of a circle, when it conflicts. *)
Lemma round_circle len ib used s k :
  Forall net_wf used → (∀ u, u ∈ used → (len ≤ prefix_len u)%N) →
  (ib < 2 ^ len)%N → (12 ≤ s < len)%N → (len ≤ 32)%N → (k < blocks_of len s)%N →
  let c := nth_block len (circle len ib s k) in
  conflicting c used ≠ [] →
  round len used (nth_block len ib) (mkSearch s c) =
    Some (if decide (k + 1 < blocks_of len s)%N
          then Continue (mkSearch s (nth_block len (circle len ib s (k + 1))))
          else if decide (12 < s)%N
          then Continue (mkSearch (s - 1) (nth_block len (circle len ib (s - 1) 1)))
          else Break (Err "exhausted candidate IP ranges for VMs")).
Proof.
  intros Hu Hsm Hib Hs Hl Hk c Hc. unfold round. cbn [sc_candidate search_prefix_len].
  assert (net_wf c) as Hcw by (apply nth_block_wf, circle_bound; [done|lia|done]).
  pose proof (aggregate_block len _ used Hu Hsm Hcw) as Hagg. fold c in Hagg.
  destruct (conflicting c used) as [|u0 l0]; [done|]. rewrite Hagg. cbv zeta. unfold c. cbn [prefix_len nth_block].
  rewrite decide_False by lia. rewrite N.min_l by lia. rewrite net_new_ok by lia.
  fold (nth_block len (circle len ib s k)). rewrite nth_block_network. unfold advance_fuel. apply advance_circle; [|done..].
  split_and!; simpl; [|done|].
  - split; simpl; [|lia]. by destruct Hcw.
  - rewrite (div_block s len) by lia. rewrite N.div_mul by done. apply circle_div.
Qed.

(** How a search over blocks ends: at a block that nothing overlaps, or when all
    blocks of the network of length 12 around the base conflict. *)
Definition circle_end (len ib : N) (used : list Ipv4Net) (r : outcome Ipv4Net) : Prop :=
  (∃ s k, (12 ≤ s < len)%N ∧ r = Ok (nth_block len (circle len ib s k)) ∧
    conflicting (nth_block len (circle len ib s k)) used = []) ∨
  (r = Err "exhausted candidate IP ranges for VMs" ∧
    ∀ k, (k < blocks_of len 12)%N → conflicting (nth_block len (circle len ib 12 k)) used ≠ []).

Lemma pick_loop_continue fuel len used base s s' :
  round len used base s = Some (Continue s') →
  pick_loop (S fuel) len used base s = pick_loop fuel len used base s'.
Proof. simpl. by intros ->. Qed.

Lemma pick_loop_break fuel len used base s r :
  round len used base s = Some (Break r) → pick_loop (S fuel) len used base s = Some r.
Proof. simpl. by intros ->. Qed.

Lemma circle_search len ib used :
  Forall net_wf used → (∀ u, u ∈ used → (len ≤ prefix_len u)%N) →
  (ib < 2 ^ len)%N → (len ≤ 32)%N →
  ∀ (d : nat) (e : nat) s k, s = (12 + N.of_nat d)%N → (s < len)%N →
    (k + 1 + N.of_nat e = blocks_of len s)%N →
    (∀ j, (j < k)%N → conflicting (nth_block len (circle len ib s j)) used ≠ []) →
    ∃ fuel r, pick_loop fuel len used (nth_block len ib)
        (mkSearch s (nth_block len (circle len ib s k))) = Some r ∧ circle_end len ib used r.
Proof.
  intros Hu Hsm Hib Hl. induction d as [d IHd] using lt_wf_ind.
  induction e as [e IHe] using lt_wf_ind. intros s k Hs Hsl Hk Hvis.
  set (c := nth_block len (circle len ib s k)).
  destruct (conflicting c used) as [|u0 l0] eqn:Ec.
  { exists 1, (Ok c). split; [apply pick_loop_break; unfold round; simpl; fold c; by rewrite Ec|].
    left. exists s, k. split_and!; [lia..|done|done]. }
  assert (conflicting c used ≠ []) as Hc by by rewrite Ec.
  pose proof (round_circle len ib used s k Hu Hsm Hib ltac:(lia) Hl ltac:(lia) Hc) as Hr.
  assert (∀ j, (j < k + 1)%N → conflicting (nth_block len (circle len ib s j)) used ≠ []) as Hvis'.
  { intros j Hj. destruct (decide (j = k)) as [->|]; [done|]. apply Hvis. lia. }
  destruct (decide _) as [Hlt|Hge].
  - destruct (IHe (Nat.pred e) ltac:(lia) s (k + 1)%N) as (fuel & r & Hp & He); [done..|lia|done|].
    exists (S fuel), r. split; [|done]. by rewrite (pick_loop_continue _ _ _ _ _ _ Hr).
  - destruct (decide (12 < s)%N) as [H12|H12].
    + assert (1 < blocks_of len (s - 1))%N by (unfold blocks_of; apply N.pow_gt_1; lia).
      destruct (IHd (Nat.pred d) ltac:(lia) (N.to_nat (blocks_of len (s - 1)) - 2) (s - 1)%N 1%N)
        as (fuel & r & Hp & He); [lia..| |].
      { intros j Hj. assert (j = 0%N) as -> by lia. rewrite circle_0.
        rewrite <-(circle_0 len ib s). apply Hvis'. lia. }
      exists (S fuel), r. split; [|done]. by rewrite (pick_loop_continue _ _ _ _ _ _ Hr).
    + exists 1, (Err "exhausted candidate IP ranges for VMs").
      split; [by apply pick_loop_break|]. right. split; [done|]. assert (s = 12%N) as -> by lia.
      intros j Hj. apply Hvis'. lia.
Qed.

Lemma circle_covered len ib s k a :
  (12 ≤ s < len)%N → (len ≤ 32)%N → (ib < 2 ^ len)%N → (a / block len = ib)%N → (a < 2 ^ 32)%N →
  covers (mkIpv4Net a 12) (nth_block len (circle len ib s k)).
Proof.
  intros Hs Hl Hib Ha Ha'. apply covers_iff.
  - split; simpl; [done|lia].
  - apply nth_block_wf, circle_bound; [done|lia|done].
  - split; simpl; [lia|]. unfold in_net; simpl.
    rewrite !(div_block 12 len) by lia. rewrite N.div_mul, Ha by done.
    replace (len - 12)%N with (len - s + (s - 12))%N by lia.
    rewrite N.pow_add_r, <-!N.Div0.div_div.
    change (2 ^ (len - s))%N with (blocks_of len s). by rewrite circle_div.
Qed.

(** When every block of the circle conflicts, every network of the length in the
    /12 network overlaps a used one. *)
Lemma circle_exhausted len a used n :
  Forall net_wf used → (12 < len ≤ 32)%N → (a < 2 ^ 32)%N → (a / block len < 2 ^ len)%N →
  (∀ k, (k < blocks_of len 12)%N →
    conflicting (nth_block len (circle len (a / block len) 12 k)) used ≠ []) →
  net_wf n → prefix_len n = len → covers (mkIpv4Net a 12) n →
  ∃ u, u ∈ used ∧ ¬ net_disjoint n u.
Proof.
  intros Hu Hl Ha Hb Hc Hn Hp Hcov. set (ib := (a / block len)%N) in *.
  apply covers_iff in Hcov as [_ Hin]; [|split; simpl; [done|lia]|done].
  unfold in_net in Hin; simpl in Hin. rewrite !(div_block 12 len) in Hin by lia. fold ib in Hin.
  destruct (circle_onto len ib 12 (net_addr n / block len)%N Hin) as (k & Hk & He).
  specialize (Hc k Hk). set (c := nth_block len (circle len ib 12 k)) in *.
  assert (net_wf c) as Hcw by (apply nth_block_wf, circle_bound; [lia..|done]).
  destruct (conflicting c used) as [|u l] eqn:Ec; [done|].
  assert (u ∈ conflicting c used) as [Hiu Ho]%conflicting_elem by (rewrite Ec; set_solver).
  exists u. split; [done|]. intros Hd.
  assert (overlaps c u = false); [|congruence].
  apply overlaps_false; [done|by rewrite Forall_forall in Hu; apply Hu|].
  intros x Hx. apply Hd. revert Hx. unfold in_net, c. rewrite He, Hp. simpl. by rewrite N.div_mul.
Qed.



(** *** A search that does not end *)
(** Two used networks that fill a /15 in which the base of the default pool
    lies.  The next sibling of one is the other, and the base is between
    siblings, so that the search never is back at the base. *)
Definition lower_half : Ipv4Net := mkIpv4Net (ipv4 172 26 0 0) 16.
Definition upper_half : Ipv4Net := mkIpv4Net (ipv4 172 27 0 0) 16.
Definition in_lower : Ipv4Net := mkIpv4Net (ipv4 172 26 0 0) 30.
Definition in_upper : Ipv4Net := mkIpv4Net (ipv4 172 27 0 0) 30.
Definition pool_base : Ipv4Net := mkIpv4Net (ipv4 172 27 1 0) 30.


Lemma overlaps_bool c u :
  net_wf c → net_wf u →
  overlaps c u = bool_decide ((prefix_len c ≤ prefix_len u)%N ∧ in_net (net_addr u) c ∨
                              (prefix_len u ≤ prefix_len c)%N ∧ in_net (net_addr c) u).
Proof.
  intros. apply eq_true_iff_eq. by rewrite overlaps_true, bool_decide_eq_true, !covers_iff.
Qed.

Lemma net_le_bool a b :
  net_le a b = bool_decide (net_addr a < net_addr b ∨
                            net_addr a = net_addr b ∧ prefix_len a ≤ prefix_len b)%N.
Proof. apply eq_true_iff_eq. by rewrite net_le_spec, bool_decide_eq_true. Qed.

Lemma subnets_halves a :
  a ∈ [net_addr lower_half; net_addr upper_half] →
  subnets (mkIpv4Net a 15) 16 = Ok [lower_half; upper_half].
Proof.
  intros Ha. assert (a < 2 ^ 32 ∧ a / block 15 * block 15 = net_addr lower_half)%N as [Hw Hn].
  { apply list_elem_of_In in Ha as [<-|[<-|[]]]; vm_compute; done. }
  destruct (subnets_ok (mkIpv4Net a 15) 16) as (l & -> & Hlen & Hl); [split; simpl; [done|lia]|simpl; lia|].
  simpl in Hlen. change (N.to_nat _) with 2 in Hlen.
  destruct l as [|x [|y [|z l]]]; simpl in Hlen; try lia.
  rewrite (Hl 0 x eq_refl), (Hl 1 y eq_refl). unfold net_network. simpl. by rewrite Hn.
Qed.

(** The blocks that the search comes to, with the half around them and the
    other half. *)
Inductive in_half : Ipv4Net → Ipv4Net → Ipv4Net → Prop :=
| base_upper : in_half pool_base upper_half lower_half
| block_lower : in_half in_lower lower_half upper_half
| block_upper : in_half in_upper upper_half lower_half.

(** One turn at a block in one half: the first block of the other half. *)
Lemma round_halves s c half other :
  in_half c half other →
  sc_candidate s = c → (15 ≤ search_prefix_len s)%N →
  round 30 [lower_half; upper_half] pool_base s =
    Some (Continue (mkSearch 15 (mkIpv4Net (net_addr other) 30))).
Proof.
  intros Hin Hc Hs. unfold round. rewrite Hc. cbv zeta.
  assert (net_wf lower_half ∧ net_wf upper_half ∧ net_wf c) as (Hwl & Hwu & Hwc).
  { destruct Hin; vm_compute; done. }
  assert (conflicting c [lower_half; upper_half] = [half]) as Hco.
  { unfold conflicting. simpl. rewrite !overlaps_bool by done.
    destruct Hin; vm_compute; done. }
  assert (net_wf half ∧ covers half c ∧ prefix_len half = 16%N ∧ net_network half = net_addr half ∧
    net_addr half ∈ [net_addr lower_half; net_addr upper_half]) as (Hwh & Hcov & Hp & Hn & Hel).
  { rewrite covers_iff by (destruct Hin; by vm_compute).
    rewrite list_elem_of_In.
    destruct Hin; vm_compute; intuition congruence. }
  assert (aggregate ([half] ++ [c]) = [half]) as Hagg.
  { rewrite (aggregate_largest _ half).
    - f_equal. destruct half; simpl in *. by rewrite Hn.
    - simpl. by rewrite !Forall_cons, Forall_nil.
    - set_solver.
    - intros x [->|[->|[]%elem_of_nil]%elem_of_cons]%elem_of_cons; done. }
  rewrite Hco, Hagg, Hp. rewrite decide_False by done.
  rewrite N.min_r, net_new_ok by lia. rewrite Hn. unfold advance_fuel.
  erewrite (advance_S _ _ _ _ _ (mkIpv4Net (net_addr half) 15) _ _ other);
    [|rewrite Hp; by apply subnets_halves| |done].
  - cbv zeta. destruct Hin; vm_compute; done.
  - unfold next_sibling, net_lt. simpl. rewrite !net_le_bool.
    destruct Hin; vm_compute; done.
Qed.

Lemma pick_loop_halves fuel s :
  (∃ half other, in_half (sc_candidate s) half other) → (15 ≤ search_prefix_len s)%N →
  pick_loop fuel 30 [lower_half; upper_half] pool_base s = None.
Proof.
  revert s; induction fuel as [|fuel IH]; intros s Hc Hs; [done|].
  destruct Hc as (half & other & Hc).
  rewrite (pick_loop_continue _ _ _ _ _ _ (round_halves s _ half other Hc eq_refl Hs)).
  apply IH; [|done]. destruct Hc; [exists lower_half|exists upper_half|exists lower_half]; eauto using in_half.
Qed.

(** With the default pool and the networks 172.26.0.0/16 and 172.27.0.0/16 in
    use the search for a network for the VM does not end, whatever the fuel,
    although the pool has free networks. *)
Lemma pick_endless :
  (∀ fuel, pick_available_network_in_pool fuel VMNET_PREFIX_LEN [lower_half; upper_half]
     DEFAULT_VMNET_POOL = None) ∧
  ∃ n, prefix_len n = VMNET_PREFIX_LEN ∧ covers DEFAULT_VMNET_POOL n ∧
    ∀ u, u ∈ [lower_half; upper_half] → net_disjoint n u.
Proof.
  split.
  - intros fuel. unfold pick_available_network_in_pool. rewrite decide_False by (vm_compute; auto).
    rewrite net_new_ok by (vm_compute; discriminate).
    apply pick_loop_halves; [|done]. eexists _, _. apply base_upper.
  - exists (mkIpv4Net (ipv4 172 16 0 0) 30). split_and!; [done|apply covers_iff; vm_compute; done|].
    intros u Hu. apply overlaps_false; [by vm_compute| |].
    + apply list_elem_of_In in Hu as [<-|[<-|[]]]; by vm_compute.
    + apply list_elem_of_In in Hu as [<-|[<-|[]]]; rewrite overlaps_bool by (by vm_compute); by vm_compute.
Qed.

(** *** The random choice *)
(** An index in range names a network of the pool; neither the arithmetic on
    [u64] nor the cut to [u32] loses anything. *)
Lemma network_by_index_ok len pool i :
  net_wf pool → (prefix_len pool < len ≤ 32)%N → (i < candidate_count len pool)%N →
  ∃ n, network_in_pool_by_index len pool i = Ok n ∧ net_wf n ∧ prefix_len n = len ∧
    covers pool n ∧ net_addr n = (net_network pool + i * block len)%N.
Proof.
  intros Hp Hl Hi. unfold network_in_pool_by_index, candidate_count in *.
  rewrite N.shiftl_1_l in Hi |- *. cbv zeta. fold (block len).
  pose proof (network_wf pool Hp) as Hub. rewrite (block_split (prefix_len pool) len) in Hub by lia.
  pose proof (block_pos len) as Hb.
  assert (net_network pool + i * block len + block len ≤ 2 ^ 32)%N as Hin by nia.
  rewrite decide_False by (change u64_max with 18446744073709551615%N; lia).
  rewrite N.mod_small, net_new_ok by lia. eexists; split; [done|].
  assert (net_wf (mkIpv4Net (net_network pool + i * block len) len)) as Hw by (split; simpl; lia).
  split_and!; [done..| |done]. apply covers_iff; [done..|]. simpl. split; [lia|].
  apply in_net_bounds. rewrite (block_split (prefix_len pool) len) by lia. nia.
Qed.

Lemma network_overlaps_any_false n used :
  net_wf n → Forall net_wf used →
  network_overlaps_any n used = false ↔ ∀ u, u ∈ used → net_disjoint n u.
Proof.
  intros Hn Hu. unfold network_overlaps_any. rewrite <-not_true_iff_false, existsb_exists.
  rewrite Forall_forall in Hu. split.
  - intros Hno u Hin. apply overlaps_false; auto. apply not_true_iff_false. intros Ho.
    apply Hno. exists u. by rewrite <-list_elem_of_In.
  - intros Hd (u & Hin & Ho). apply list_elem_of_In in Hin. pose proof (Hu _ Hin).
    apply Hd, overlaps_false in Hin; [congruence|done..].
Qed.

(** What the attempts from the [i]-th on return. *)
Definition random_result (len : N) (used : list Ipv4Net) (pool : Ipv4Net) (rng : nat → N)
    (i n : nat) (r : outcome (option Ipv4Net)) : Prop :=
  match r with
  | Ok (Some net) => prefix_len net = len ∧ covers pool net ∧ ∀ u, u ∈ used → net_disjoint net u
  | Ok None => ∀ j, i ≤ j < i + n → ∃ net, network_in_pool_by_index len pool (rng j) = Ok net ∧
                 ∃ u, u ∈ used ∧ ¬ net_disjoint net u
  | _ => False
  end.

Lemma attempts_spec len used pool rng n i :
  net_wf pool → Forall net_wf used → (prefix_len pool < len ≤ 32)%N →
  (∀ j, (rng j < candidate_count len pool)%N) →
  random_result len used pool rng i n (attempts n i len used pool rng).
Proof.
  intros Hp Hu Hl Hr. revert i; induction n as [|n IH]; intros i; [simpl; intros; lia|].
  destruct (network_by_index_ok len pool (rng i)) as (net & Hnet & Hw & Hlen & Hcov & _); [done..|].
  simpl. rewrite Hnet. simpl. destruct (network_overlaps_any net used) eqn:Eo; simpl.
  - specialize (IH (S i)). destruct (attempts n (S i) len used pool rng) as [[m|]| |]; simpl in *;
      try done.
    intros j Hj. destruct (decide (j = i)) as [->|]; [|apply IH; lia].
    exists net. split; [done|]. apply existsb_exists in Eo as (u & Hin & Ho).
    apply list_elem_of_In in Hin. exists u. split; [done|]. intros Hd%overlaps_false; [congruence|done|].
    rewrite Forall_forall in Hu. auto.
  - split_and!; [done..|]. by apply network_overlaps_any_false.
Qed.

(** The networks that both choices return are networks of the length. *)
Lemma pick_wf fuel len used pool n :
  net_wf pool → Forall net_wf used → (len ≤ 32)%N →
  pick_available_network_in_pool fuel len used pool = Some (Ok n) →
  prefix_len n = len ∧ net_wf n ∧ ∀ u, u ∈ used → net_disjoint n u.
Proof.
  intros Hp Hu Hl. unfold pick_available_network_in_pool.
  destruct (decide _) as [|Hlt]; [done|]. rewrite net_new_ok by done. intros Hr.
  apply pick_loop_result in Hr; simpl; [naive_solver|done| |done|lia].
  destruct Hp. by split.
Qed.

Lemma random_wf len used pool n rng net :
  net_wf pool → Forall net_wf used → (∀ j, (rng j < candidate_count len pool)%N) →
  pick_random_available_network_in_pool len used pool n rng = Ok (Some net) →
  prefix_len net = len ∧ net_wf net ∧ ∀ u, u ∈ used → net_disjoint net u.
Proof.
  intros Hp Hu Hr. unfold pick_random_available_network_in_pool.
  destruct (decide _); [done|]. destruct (decide _); [done|]. destruct (decide _) as [|_]; [done|].
  generalize 0. induction n as [|n IH]; intros i; [done|]. simpl.
  destruct (network_by_index_ok len pool (rng i)) as (m & -> & Hw & Hlen & _); [done|lia|done|]. simpl.
  destruct (network_overlaps_any m used) eqn:Eo; simpl; [by apply IH|]. intros [= <-].
  split_and!; [done..|]. by apply network_overlaps_any_false.
Qed.

(** For a valid length the random choice never fails: it returns a network
    of the length, in the pool, with no address in common with a used network,
    or nothing, when every attempt drew a network that overlaps a used one. *)
Lemma random_pick_spec len used pool n rng :
  net_wf pool → Forall net_wf used → (prefix_len pool < len ≤ 32)%N →
  (∀ j, (rng j < candidate_count len pool)%N) →
  random_result len used pool rng 0 n
    (pick_random_available_network_in_pool len used pool n rng).
Proof.
  intros Hp Hu Hl Hr. unfold pick_random_available_network_in_pool.
  rewrite !decide_False by lia. destruct (decide (n = 0)) as [->|]; [simpl; intros; lia|].
  by apply attempts_spec.
Qed.
End facts.

(** ** Witnesses *)
Module Witness.
Import Ipnet.Concrete.

(** One /30 network at the base of the default pool is in use. *)
Definition used : list Ipv4Net := [mkIpv4Net (ipv4 172 27 1 0) 30].
Definition free : Ipv4Net := mkIpv4Net (ipv4 172 27 1 4) 30.

Lemma pool_wf : net_wf DEFAULT_VMNET_POOL.
Proof. split; vm_compute; done. Qed.
Lemma used_wf : Forall net_wf used.
Proof. constructor; [split; vm_compute; done|constructor]. Qed.



Example pick_endless_witness :
  (∀ fuel, pick_available_network_in_pool fuel VMNET_PREFIX_LEN [lower_half; upper_half]
     DEFAULT_VMNET_POOL = None) ∧
  ∃ n, prefix_len n = VMNET_PREFIX_LEN ∧ covers DEFAULT_VMNET_POOL n ∧
    ∀ u, u ∈ [lower_half; upper_half] → net_disjoint n u.
Proof. apply pick_endless. Defined.

Example random_pick_spec_witness :
  pick_random_available_network_in_pool 30 used DEFAULT_VMNET_POOL 1 (λ _, 1%N) =
    Ok (Some (mkIpv4Net (ipv4 172 16 0 4) 30)) ∧
  random_result 30 used DEFAULT_VMNET_POOL (λ _, 1%N) 0 1
    (pick_random_available_network_in_pool 30 used DEFAULT_VMNET_POOL 1 (λ _, 1%N)).
Proof.
  split; [vm_compute; reflexivity|].
  apply (random_pick_spec 30 used DEFAULT_VMNET_POOL 1 (λ _, 1%N)).
  - apply pool_wf.
  - apply used_wf.
  - split; vm_compute; [reflexivity|discriminate].
  - intros _. vm_compute; reflexivity.
Defined.

(** The cases that the tests of the source check. *)
Definition picks (len : N) (used : list Ipv4Net) (n : Ipv4Net) : Prop :=
  pick_available_network_in_pool 10 len used DEFAULT_VMNET_POOL = Some (Ok n).
Example test_no_conflicts :
  picks 24 []
    (mkIpv4Net (ipv4 172 27 1 0) 24).
Proof. vm_compute; reflexivity. Qed.
Example test_exact_conflict :
  picks 24 [mkIpv4Net (ipv4 172 27 1 0) 24]
    (mkIpv4Net (ipv4 172 27 0 0) 24).
Proof. vm_compute; reflexivity. Qed.
Example test_multiple_conflicts :
  picks 24 [mkIpv4Net (ipv4 172 27 0 0) 24; mkIpv4Net (ipv4 172 27 1 0) 24]
    (mkIpv4Net (ipv4 172 27 2 0) 24).
Proof. vm_compute; reflexivity. Qed.
Example test_multiple_conflicts_extended :
  picks 24 [mkIpv4Net (ipv4 172 27 0 0) 24; mkIpv4Net (ipv4 172 27 1 0) 24; mkIpv4Net (ipv4 172 27 2 0) 24; mkIpv4Net (ipv4 172 27 3 0) 24]
    (mkIpv4Net (ipv4 172 27 4 0) 24).
Proof. vm_compute; reflexivity. Qed.
Example test_supernet_conflict :
  picks 24 [mkIpv4Net (ipv4 172 27 0 0) 16; mkIpv4Net (ipv4 172 26 0 0) 24]
    (mkIpv4Net (ipv4 172 26 1 0) 24).
Proof. vm_compute; reflexivity. Qed.
Example test_subnet_conflict :
  picks 24 [mkIpv4Net (ipv4 172 27 1 128) 26]
    (mkIpv4Net (ipv4 172 27 0 0) 24).
Proof. vm_compute; reflexivity. Qed.
Example test_different_prefix_len :
  picks 26 []
    (mkIpv4Net (ipv4 172 27 1 0) 26).
Proof. vm_compute; reflexivity. Qed.
Example test_short_prefix_len :
  picks 16 [mkIpv4Net (ipv4 172 27 1 128) 26]
    (mkIpv4Net (ipv4 172 26 0 0) 16).
Proof. vm_compute; reflexivity. Qed.
Example test_long_prefix_len :
  picks 30 [mkIpv4Net (ipv4 172 27 1 0) 30; mkIpv4Net (ipv4 172 27 1 4) 30; mkIpv4Net (ipv4 172 27 1 8) 30; mkIpv4Net (ipv4 172 27 1 12) 30; mkIpv4Net (ipv4 172 27 1 16) 30]
    (mkIpv4Net (ipv4 172 27 1 20) 30).
Proof. vm_compute; reflexivity. Qed.

(** The pool is left when it is full: the search goes on in the /12 network. *)
Example pool_left :
  let pool := mkIpv4Net (ipv4 192 168 64 0) 29 in
  let used := [mkIpv4Net (ipv4 192 168 64 0) 30; mkIpv4Net (ipv4 192 168 64 4) 30] in
  let found := mkIpv4Net (ipv4 192 168 64 8) 30 in
  pick_available_network_in_pool 5 30 used pool = Some (Ok found) ∧ ¬ covers pool found.
Proof.
  split; [vm_compute; reflexivity|]. intros Hc.
  apply (net_contains_spec _ _) in Hc; [by vm_compute in Hc|split; vm_compute; done..].
Qed.
End Witness.
