(* ===== verification/VmNetwork.v ===== *)
(** * Network helpers ([netutil.rs], [vm_network/mod.rs], [vm_network/darwin.rs])

    Hosts and loopback addresses, name servers, the addresses that
    [vmnet-helper] is started with, the arguments of the helpers, their sockets
    and the connection to the control server of the VM. *)
From S2P Require Import Prelude Common Paths Settings Ipnet NetPick.
From Stdlib Require Import Ascii.

(** ** Hosts *)
Module host.
Inductive Host := IPv4 (addr : string) | IPv6 (addr : string) | Hostname (name : string).
#[export] Instance Host_eq_dec : EqDecision Host.
Proof. solve_decision. Defined.

(** [Ipv4Addr::to_string()] *)
Definition octets (a : N) : list N := [a / 2 ^ 24; a / 2 ^ 16 mod 256; a / 2 ^ 8 mod 256; a mod 256]%N.
Definition show_v4 (a : N) : string := Str.join "." (Str.of_N <$> octets a).

Section host.
(** [Ipv6Addr::to_string()] *)
Context (show_v6 : N → string).

Definition from_ip (ip : IpAddr) (scope_id : option N) : Host :=
  match ip with
  | V4 addr => IPv4 (show_v4 addr)
  | V6 addr =>
      match scope_id with
      | Some id => if decide (id ≠ 0)%N then IPv6 (show_v6 addr +:+ "%" +:+ Str.of_N id)
                   else IPv6 (show_v6 addr)
      | None => IPv6 (show_v6 addr)
      end
  end.
End host.

Definition raw_str (h : Host) : string :=
  match h with IPv4 a => a | IPv6 a => a | Hostname n => n end.

(** [Display]: an IPv6 address in brackets. *)
Definition display (h : Host) : string :=
  match h with
  | IPv4 a => a
  | IPv6 a => "[" +:+ a +:+ "]"
  | Hostname n => n
  end.
End host.
Export host.

(** ** Ports *)
(** [TcpListener::bind] on an address, a scope and a port. *)
Inductive PortCheck := PortFree | AddrInUse | PortError (e : string).
#[global] Instance PortCheck_eq_dec : EqDecision PortCheck.
Proof. solve_decision. Defined.

Definition check_port_availability (r : PortCheck) (port : N) : outcome unit :=
  match r with
  | PortFree => Ok tt
  | AddrInUse => Err ("port " +:+ Str.of_N port +:+ " already in use")
  | PortError e => Err ("unexpected error checking port " +:+ Str.of_N port +:+ ": " +:+ e)
  end.

Definition GVPROXY_FORWARDED_PORTS : list N := [2049; 32765; 32767]%N.

Section loopback.
Context (show_v6 : N → string).
Context (try_port : IpAddr → option N → N → PortCheck).

(** *** Linux *)
Definition all_free (ip : IpAddr) (required_ports : list N) : bool :=
  forallb (λ port, bool_decide (try_port ip None port = PortFree)) required_ports.

Fixpoint pick_octet (octets : list N) (required_ports : list N) : outcome Host :=
  match octets with
  | [] => Err "no usable loopback IP in 127.0.0.0/24 for required ports"
  | last_octet :: octets =>
      let ip := V4 (ipv4 127 0 0 last_octet) in
      if all_free ip required_ports then Ok (from_ip show_v6 ip None)
      else pick_octet octets required_ports
  end.

(** [1u8..=254] *)
Definition last_octets : list N := N.of_nat <$> seq 1 254.
Definition linux_pick_usable_loopback_ip (required_ports : list N) : outcome Host :=
  pick_octet last_octets required_ports.

(** *** macOS *)
(** An address of [lo0]. *)
Record Interface := { ip_addr : option IpAddr; if_index : option N }.

(** The loop over the ports for one address. *)
Fixpoint check_ports (addr : IpAddr) (ipv6_scope : option N) (ports : list N)
    (ip_candidate : option IpAddr) : outcome (option IpAddr) :=
  match ports with
  | [] => Ok ip_candidate
  | port :: ports =>
      match try_port addr ipv6_scope port with
      | PortFree => check_ports addr ipv6_scope ports (Some addr)
      | AddrInUse => Ok None
      | PortError e =>
          Err ("unexpected error checking port " +:+ Str.of_N port +:+ ": " +:+ e)
      end
  end.

Definition ipv6_scope (itf : Interface) : option N :=
  match ip_addr itf with Some (V6 _) => if_index itf | _ => None end.

(** Four random groups after [fe80::], and whether [ifconfig] took the alias. *)
Definition make_new_loopback (random : N) (ifconfig : outcome bool) : outcome Host :=
  success ← ifconfig;
  let addr := (0xFE80 * 2 ^ 112 + random mod 2 ^ 64)%N in
  if (success : bool) then Ok (from_ip show_v6 (V6 addr) (Some 1%N))
  else Err "unable to create loopback alias, please retry with sudo".

Fixpoint macos_pick_usable_loopback_ip (lo0 : list Interface) (required_ports : list N)
    (random : N) (ifconfig : outcome bool) : outcome Host :=
  match lo0 with
  | [] => make_new_loopback random ifconfig
  | itf :: lo0 =>
      match ip_addr itf with
      | None => macos_pick_usable_loopback_ip lo0 required_ports random ifconfig
      | Some addr =>
          ip_candidate ← check_ports addr (ipv6_scope itf) required_ports None;
          match ip_candidate with
          | Some ip => Ok (from_ip show_v6 ip (ipv6_scope itf))
          | None => macos_pick_usable_loopback_ip lo0 required_ports random ifconfig
          end
      end
  end.
End loopback.

(** ** Name servers *)
Definition DEFAULT_DNS_SERVER : string := "1.1.1.1".

Section dns.
(** [IpAddr::from_str] and [to_string] *)
Context (parse_ip : string → option IpAddr) (show_ip : IpAddr → string).

(** Lines of [/etc/resolv.conf], each of which may fail to be read. *)
Fixpoint find_nameserver (lines : list (outcome string)) : outcome string :=
  match lines with
  | [] => Err "no nameserver found in /etc/resolv.conf"
  | line :: lines =>
      line ← with_context "failed to read /etc/resolv.conf" line;
      match Str.strip_prefix "nameserver" (Str.trim line) with
      | Some addr =>
          match parse_ip (Str.trim addr) with
          | Some ip => Ok (show_ip ip)
          | None => find_nameserver lines
          end
      | None => find_nameserver lines
      end
  end.

Definition linux_get_configured_dns_server (resolv_conf : outcome (list (outcome string))) :
    outcome string :=
  lines ← with_context "failed to open /etc/resolv.conf" resolv_conf;
  find_nameserver lines.

Definition is_ipv4 (ip : IpAddr) : bool := match ip with V4 _ => true | V6 _ => false end.

(** The addresses of the system's configuration: IPv4 first. *)
Definition macos_get_configured_dns_server (server_addresses : outcome (list string)) :
    outcome string :=
  srv_addrs ← server_addresses;
  let ips := omap parse_ip srv_addrs in
  ok_or "no DNS server addresses found"
    (show_ip <$> head (List.filter is_ipv4 ips ++ List.filter (λ ip, negb (is_ipv4 ip)) ips)).

Definition get_dns_server_with_fallback (configured : outcome string) : outcome string :=
  match configured with
  | Ok s => Ok s
  | Err _ => Ok DEFAULT_DNS_SERVER
  | Panic => Panic
  end.
End dns.

(** ** The networks of the host *)
Record Iface := { if_loopback : bool; if_ip : option IpAddr; if_mask : option IpAddr }.

Section networks.
Context `{Ipnet}.

(** One turn of the loop of [get_interface_networks]; [netmask().unwrap()]. *)
Definition interface_network (networks : list Ipv4Net) (iface : Iface) : outcome (list Ipv4Net) :=
  if if_loopback iface then Ok networks
  else
    match if_ip iface with
    | None => Ok networks
    | Some (V6 _) => Err "unexpected non-IPv4 address"
    | Some (V4 ip) =>
        match if_mask iface with
        | None => Panic
        | Some (V6 _) => Err "unexpected non-IPv4 netmask"
        | Some (V4 netmask) => net ← with_netmask ip netmask; Ok (networks ++ [trunc net])
        end
    end.

Definition get_interface_networks (ifaces : outcome (list Iface)) : outcome (list Ipv4Net) :=
  ifaces ← ifaces; foldM interface_network [] ifaces.

(** ** The network of vmnet ([start_vmnet_helper]) *)
Definition max_attempts : nat := 1024.

(** The choice: random when [ANYLINUXFS_RANDOM_VMNET_CIDR] is ["1"], the search
    otherwise and when the attempts are used up. *)
Definition select_vmnet_cidr (fuel : nat) (random_var : option string) (rng : nat → N)
    (known_networks : list Ipv4Net) (vmnet_pool : Ipv4Net) : option (outcome Ipv4Net) :=
  let search := with_context "Failed to find available network for vmnet-helper" <$>
    pick_available_network_in_pool fuel VMNET_PREFIX_LEN known_networks vmnet_pool in
  if decide (random_var = Some "1") then
    match with_context "Failed to randomly select vmnet network for vmnet-helper"
        (pick_random_available_network_in_pool VMNET_PREFIX_LEN known_networks vmnet_pool
           max_attempts rng) with
    | Ok (Some cidr) => Some (Ok cidr)
    | Ok None => search
    | Err e => Some (Err e)
    | Panic => Some Panic
    end
  else search.

(** [Option::unwrap] *)
Definition unwrap {A} (o : option A) : outcome A := match o with Some a => Ok a | None => Panic end.

(** [VmnetConfig::vm_ip] *)
Definition vm_ip (vmnet_cidr : Ipv4Net) : outcome N := unwrap (hosts vmnet_cidr !! 1).

(** What the helper is told. *)
Record VmnetArgs := {
  va_socket : string; va_offload : bool;
  va_start_address : N; va_end_address : N; va_subnet_mask : N }.

Definition vmnet_helper_cmd (config : Config) (vmnet_cidr : Ipv4Net) : outcome VmnetArgs :=
  start_address ← unwrap (head (hosts vmnet_cidr));
  end_address ← unwrap (last (hosts vmnet_cidr));
  Ok {| va_socket := unixgram_sock_path (net config);
        va_offload := config_vmnet_offloading (net config) &&
                      bool_decide (Settings.os (kernel config) = Linux);
        va_start_address := start_address; va_end_address := end_address;
        va_subnet_mask := netmask vmnet_cidr |}.

Definition vmnet_args (a : VmnetArgs) : list string :=
  ["--socket"; va_socket a] ++
  (if va_offload a then ["--enable-tso"; "--enable-checksum-offload"] else []) ++
  ["--start-address=" +:+ show_v4 (va_start_address a);
   "--end-address=" +:+ show_v4 (va_end_address a);
   "--subnet-mask=" +:+ show_v4 (va_subnet_mask a); "--operation-mode=shared"].
End networks.

(** ** The service that a started helper is *)
Record NetHelperService := {
  nh_name : string; vm_host_ip : Host; vm_native_cidr : option Ipv4Net; vm_native_ip : option N }.

(** The calls of a start to the outside, with their results. *)
Record StartEnv := {
  se_cleanup : outcome unit;       (* [vfkit_sock_cleanup] *)
  se_rootless : bool;              (* [macos_rootless_vmnet] *)
  se_interfaces : outcome (list Iface);
  se_random_var : option string;
  se_rng : nat → N;
  se_log : outcome unit;           (* creation of the log and its owner *)
  se_spawn : outcome unit;
  se_config : outcome unit;        (* what the helper prints *)
  se_loopback : outcome Host;      (* [pick_usable_loopback_ip] *)
}.

Definition need_elevation (e : StartEnv) (p : PrivilegeConfig) : bool :=
  negb (se_rootless e) && bool_decide (sudo_uid p = None) && negb (bool_decide (invoker_uid p = 0%N)).

(** [start_vmnet_helper] on macOS after the guard: the service and the
    arguments of the helper; [None] when the search runs out of fuel. *)
Section start.
Context `{Ipnet} (show_v6 : N → string).

Definition start_with_cidr (config : Config) (e : StartEnv) (vmnet_cidr : Ipv4Net) :
    outcome (NetHelperService * VmnetArgs) :=
  _ ← se_log e;
  args ← vmnet_helper_cmd config vmnet_cidr;
  _ ← with_context "Failed to start vmnet-helper process" (se_spawn e);
  _ ← with_context "Failed to parse vmnet-helper config" (se_config e);
  ip ← vm_ip vmnet_cidr;
  Ok ({| nh_name := "vmnet-helper"; vm_host_ip := from_ip show_v6 (V4 ip) None;
         vm_native_cidr := Some vmnet_cidr; vm_native_ip := Some ip |}, args).

Definition start_vmnet_helper (fuel : nat) (config : Config) (e : StartEnv) :
    option (outcome (NetHelperService * VmnetArgs)) :=
  match se_cleanup e with
  | Err m => Some (Err m)
  | Panic => Some Panic
  | Ok _ =>
      if need_elevation e (privilege config) then
        Some (Err "anylinuxfs is configured to use vmnet-helper which needs sudo unless you're on macOS Tahoe or later")
      else
        match with_context "Failed to get interface networks" (get_interface_networks (se_interfaces e)) with
        | Ok known_networks =>
            mbind (start_with_cidr config e) <$>
              select_vmnet_cidr fuel (se_random_var e) (se_rng e) known_networks
                (prefs_vmnet_pool (preferences config))
        | Err m => Some (Err m)
        | Panic => Some Panic
        end
  end.

(** [start_gvproxy]; the loopback address is chosen after the process started. *)
Definition gvproxy_args (config : Config) : list string :=
  ["--listen"; "unix://" +:+ gvproxy_net_sock_path (net config);
   "--listen-vfkit"; "unixgram://" +:+ unixgram_sock_path (net config);
   "--ssh-port"; "-1"] ++
  (if gvproxy_debug (preferences config) then ["--debug"] else []).

Definition start_gvproxy (config : Config) (e : StartEnv) : outcome NetHelperService :=
  _ ← se_cleanup e;
  _ ← se_log e;
  _ ← with_context "Failed to start gvproxy process" (se_spawn e);
  loopback_ip ← se_loopback e;
  Ok {| nh_name := "gvproxy"; vm_host_ip := loopback_ip;
        vm_native_cidr := None; vm_native_ip := None |}.
End start.

(** ** Sockets *)
(** The socket files, and the result of [remove_file] that is neither success
    nor [NotFound]. *)
Section sockets.
Context (denied : string → option string).

Definition remove_socket (msg : string) (files : gset string) (path : string) :
    outcome unit * gset string :=
  match denied path with
  | Some e => (with_context msg (Err e), files)
  | None => (Ok tt, files ∖ {[path]})
  end.

Definition krun_path (vfkit_sock_path : string) : string :=
  replace ".sock" ".sock-krun.sock" vfkit_sock_path.

Definition vfkit_sock_cleanup (files : gset string) (vfkit_sock_path : string) :
    outcome unit * gset string :=
  match remove_socket "Failed to remove vfkit socket" files (krun_path vfkit_sock_path) with
  | (Ok _, files) => remove_socket "Failed to remove vfkit socket" files vfkit_sock_path
  | r => r
  end.

Definition vsock_cleanup (files : gset string) (vsock_path : string) : outcome unit * gset string :=
  remove_socket "Failed to remove vsock socket" files vsock_path.
End sockets.

(** ** The control server of the VM ([connect_to_vm_ctrl_socket]) *)
Definition VM_CTRL_VSOCK_PORT : N := 12700.

Inductive Endpoint := Tcp (ip port : N) | Unix (path : string).
#[global] Instance Endpoint_eq_dec : EqDecision Endpoint.
Proof. solve_decision. Defined.

Definition ctrl_endpoint (config : Config) (vm_native_ip : option N) : Endpoint :=
  match vm_native_ip, Settings.os (kernel config) with
  | Some ip, FreeBSD => Tcp ip VM_CTRL_PORT
  | _, Linux => Unix (vsock_path (net config))
  | None, FreeBSD => Unix (gvproxy_net_sock_path (net config))
  end.

Definition crlf : string := String "013" (String "010" "").
Definition tunnel_req : string :=
  "POST /tunnel?ip=" +:+ VM_IP +:+ "&port=" +:+ Str.of_N VM_CTRL_PORT +:+ " HTTP/1.1" +:+ crlf +:+
  "Host: localhost" +:+ crlf +:+ "Content-Length: 0" +:+ crlf +:+ crlf.

Definition needs_tunnel (config : Config) (vm_native_ip : option N) : bool :=
  bool_decide (vm_native_ip = None) && negb (bool_decide (Settings.os (kernel config) = Linux)).

(** What the other side does: takes the connection, the timeouts and the
    request, and replies two bytes. *)
Record ConnectEnv := {
  ce_connect : Endpoint → outcome unit; ce_timeouts : outcome unit;
  ce_write : string → outcome unit; ce_reply : outcome string }.

(** The endpoint connected to and the bytes written before the caller's. *)
Definition connect_to_vm_ctrl_socket (config : Config) (vm_native_ip : option N)
    (e : ConnectEnv) : outcome (Endpoint * string) :=
  let ep := ctrl_endpoint config vm_native_ip in
  _ ← with_context "Failed to connect to VM control socket" (ce_connect e ep);
  _ ← ce_timeouts e;
  if needs_tunnel config vm_native_ip then
    _ ← ce_write e tunnel_req;
    resp ← ce_reply e;
    if decide (resp = "OK") then Ok (ep, tunnel_req)
    else Err "Failed to establish VM control socket tunnel"
  else Ok (ep, "").

(** ** The addresses of the VM *)
Lemma interface_network_wf `{IpnetLaws} nets iface nets' :
  (∀ ip, if_ip iface = Some (V4 ip) → ip < 2 ^ 32)%N →
  Forall net_wf nets → interface_network nets iface = Ok nets' → Forall net_wf nets'.
Proof.
  intros Hip Hn. unfold interface_network. destruct (if_loopback iface); [by intros [= <-]|].
  destruct (if_ip iface) as [[ip|]|]; [|done|by intros [= <-]].
  destruct (if_mask iface) as [[m|]|]; [|done..]. intros Hb. inv_ok.
  apply with_netmask_ok in Hx as [Ha Hp]. rewrite trunc_spec.
  apply Forall_app. split; [done|]. constructor; [|constructor]. split; simpl; [|done].
  pose proof (net_network_le x). specialize (Hip ip eq_refl). lia.
Qed.

(** The networks of the host's interfaces are networks. *)
Lemma get_interface_networks_wf `{IpnetLaws} ifaces nets :
  (∀ iface ip, iface ∈ ifaces → if_ip iface = Some (V4 ip) → ip < 2 ^ 32)%N →
  get_interface_networks (Ok ifaces) = Ok nets → Forall net_wf nets.
Proof.
  intros Hip Hg. unfold get_interface_networks in Hg. simpl in Hg.
  eapply (foldM_invariant _ (Forall net_wf)); [|constructor|exact Hg].
  intros s x s' Hx Hs. apply interface_network_wf; [|done]. intros ip. by apply Hip.
Qed.

(** Whichever way it was chosen, the network is free and of the length. *)
Lemma select_vmnet_cidr_spec `{IpnetLaws} fuel var rng known pool n :
  net_wf pool → Forall net_wf known → (∀ j, rng j < candidate_count VMNET_PREFIX_LEN pool)%N →
  select_vmnet_cidr fuel var rng known pool = Some (Ok n) →
  prefix_len n = VMNET_PREFIX_LEN ∧ net_wf n ∧ ∀ u, u ∈ known → net_disjoint n u.
Proof.
  intros Hp Hk Hr.
  assert (∀ n, with_context "Failed to find available network for vmnet-helper" <$>
    pick_available_network_in_pool fuel VMNET_PREFIX_LEN known pool = Some (Ok n) →
    prefix_len n = VMNET_PREFIX_LEN ∧ net_wf n ∧ ∀ u, u ∈ known → net_disjoint n u) as Hsearch.
  { intros m (r & Hr' & Hm)%fmap_Some. symmetry in Hm. apply with_context_Ok in Hm as ->.
    by eapply pick_wf in Hr'. }
  unfold select_vmnet_cidr. destruct (decide _); [|apply Hsearch].
  destruct (with_context _ _) as [[m|]| |] eqn:Er; [|apply Hsearch|done..].
  intros [= ->]. apply with_context_Ok in Er. by eapply random_wf in Er.
Qed.

Lemma hosts_30 `{IpnetLaws} n :
  net_wf n → prefix_len n = VMNET_PREFIX_LEN →
  hosts n = [net_network n + 1; net_network n + 2]%N.
Proof.
  intros Hn Hp. destruct (hosts_ok n) as [Hlen Hl]; [done|by rewrite Hp|].
  rewrite Hp in Hlen. change (_ - 2) with 2 in Hlen.
  destruct (hosts n) as [|x [|y [|z l]]]; simpl in Hlen; try lia.
  rewrite (Hl 0 x eq_refl), (Hl 1 y eq_refl). f_equal; [lia|]. f_equal. lia.
Qed.

(** A started [vmnet-helper] is given a network that overlaps none of the
    host's interfaces, its first address as its own and its second as the last
    one to give away, which is the address under which the session then looks
    for the VM. *)
Lemma vmnet_service_addresses `{IpnetLaws} show_v6 fuel config e ifaces svc args :
  se_interfaces e = Ok ifaces →
  (∀ iface ip, iface ∈ ifaces → if_ip iface = Some (V4 ip) → ip < 2 ^ 32)%N →
  net_wf (prefs_vmnet_pool (preferences config)) →
  (∀ j, se_rng e j < candidate_count VMNET_PREFIX_LEN (prefs_vmnet_pool (preferences config)))%N →
  start_vmnet_helper show_v6 fuel config e = Some (Ok (svc, args)) →
  ∃ n known, get_interface_networks (Ok ifaces) = Ok known ∧
    (∀ u, u ∈ known → net_disjoint n u) ∧ net_wf n ∧ prefix_len n = VMNET_PREFIX_LEN ∧
    vm_native_cidr svc = Some n ∧ vm_native_ip svc = Some (net_network n + 2)%N ∧
    vm_host_ip svc = IPv4 (show_v4 (net_network n + 2)) ∧
    va_start_address args = (net_network n + 1)%N ∧ va_end_address args = (net_network n + 2)%N ∧
    need_elevation e (privilege config) = false.
Proof.
  intros Hi Hip Hpool Hrng. unfold start_vmnet_helper.
  destruct (se_cleanup e); [|done..]. destruct (need_elevation _ _); [done|].
  rewrite Hi. destruct (get_interface_networks (Ok ifaces)) as [known| |] eqn:Ek; [|done..].
  simpl. intros (r & Hr & Hs)%fmap_Some. symmetry in Hs. apply outcome_bind_Ok in Hs as (n & -> & Hs).
  pose proof (get_interface_networks_wf _ _ Hip Ek) as Hk.
  apply select_vmnet_cidr_spec in Hr as (Hp & Hn & Hd); [|done..].
  unfold start_with_cidr, vmnet_helper_cmd, vm_ip in Hs. rewrite (hosts_30 n Hn Hp) in Hs. simpl in Hs.
  inv_ok. exists n, known. by split_and!.
Qed.

(** ** Loopback addresses *)
Section loopback_facts.
Context (show_v6 : N → string) (try_port : IpAddr → option N → N → PortCheck).

(** Every port can be bound at an address. *)
Definition free_at (ip : IpAddr) (scope : option N) (ports : list N) : Prop :=
  ∀ port, port ∈ ports → try_port ip scope port = PortFree.

Lemma all_free_spec ip ports : all_free try_port ip ports = true ↔ free_at ip None ports.
Proof.
  unfold all_free, free_at. rewrite forallb_forall. split.
  - intros Hf port Hin%list_elem_of_In. by eapply bool_decide_eq_true, Hf.
  - intros Hf port Hin%list_elem_of_In. by apply bool_decide_eq_true, Hf.
Qed.

Definition loopback (n : N) : IpAddr := V4 (ipv4 127 0 0 n).

Lemma pick_octet_spec octets ports :
  match pick_octet show_v6 try_port octets ports with
  | Ok h => ∃ i n, octets !! i = Some n ∧ h = from_ip show_v6 (loopback n) None ∧
      free_at (loopback n) None ports ∧
      ∀ j m, j < i → octets !! j = Some m → ¬ free_at (loopback m) None ports
  | Err _ => ∀ m, m ∈ octets → ¬ free_at (loopback m) None ports
  | Panic => False
  end.
Proof.
  induction octets as [|n octets IH]; simpl; [set_solver|].
  fold (loopback n). destruct (all_free try_port (loopback n) ports) eqn:Ef.
  - exists 0, n. rewrite all_free_spec in Ef. split_and!; [done..|]. intros; lia.
  - assert (¬ free_at (loopback n) None ports) as Hn by (rewrite <-all_free_spec; congruence).
    destruct (pick_octet _ _ octets ports); [|set_solver|done].
    destruct IH as (i & m & Hi & Hh & Hf & Hb). exists (S i), m. split_and!; [done..|].
    intros [|j] k Hj Hk; simpl in Hk; [by simplify_eq|]. apply (Hb j k); [lia|done].
Qed.

Lemma last_octets_lookup i : last_octets !! i = if decide (i < 254) then Some (N.of_nat i + 1)%N else None.
Proof.
  unfold last_octets. rewrite list_lookup_fmap. destruct (decide _).
  - rewrite lookup_seq_lt by lia. simpl. f_equal. lia.
  - by rewrite lookup_seq_ge by lia.
Qed.

(** On Linux the loopback address chosen for [gvproxy] is the first of
    127.0.0.1 to 127.0.0.254 at which all ports can be bound, and the choice
    fails only when there is none. *)
Theorem linux_loopback_first ports :
  match linux_pick_usable_loopback_ip show_v6 try_port ports with
  | Ok h => ∃ n, (1 ≤ n ≤ 254)%N ∧ h = IPv4 (show_v4 (ipv4 127 0 0 n)) ∧
      free_at (loopback n) None ports ∧
      ∀ m, (1 ≤ m < n)%N → ¬ free_at (loopback m) None ports
  | Err _ => ∀ m, (1 ≤ m ≤ 254)%N → ¬ free_at (loopback m) None ports
  | Panic => False
  end.
Proof.
  unfold linux_pick_usable_loopback_ip. pose proof (pick_octet_spec last_octets ports) as Hs.
  destruct (pick_octet _ _ last_octets ports) as [h|e|]; [| |done].
  - destruct Hs as (i & n & Hi & -> & Hf & Hb). rewrite last_octets_lookup in Hi.
    destruct (decide _); simplify_eq. eexists. split_and!; [| |by reflexivity|done|]; [lia|lia|].
    intros m Hm. apply (Hb (N.to_nat m - 1)); [lia|]. rewrite last_octets_lookup, decide_True by lia.
    f_equal. lia.
  - intros m Hm. apply Hs, list_elem_of_lookup. exists (N.to_nat m - 1).
    rewrite last_octets_lookup, decide_True by lia. f_equal. lia.
Qed.

(** On macOS an address is taken when no port failed on it and the last check
    succeeded; a busy port gives up the address, another error the choice. *)
Lemma check_ports_spec addr scope ports c :
  match check_ports try_port addr scope ports c with
  | Ok (Some ip) => free_at addr scope ports ∧ (ip = addr ∨ c = Some ip)
  | Ok None => (ports = [] ∧ c = None) ∨ ∃ port, port ∈ ports ∧ try_port addr scope port = AddrInUse
  | Err _ => ∃ port e, port ∈ ports ∧ try_port addr scope port = PortError e
  | Panic => False
  end.
Proof.
  revert c; induction ports as [|port ports IH]; intros c; simpl.
  { destruct c as [ip|]; [|auto]. split; [intros ??; set_solver|auto]. }
  destruct (try_port addr scope port) as [| |e] eqn:Et.
  - specialize (IH (Some addr)). destruct (check_ports _ _ _ ports (Some addr)) as [[ip|]|e|]; [| | |done].
    + destruct IH as [Hf Hip]. split; [|naive_solver].
      intros q [->|Hq]%elem_of_cons; [done|auto].
    + right. destruct IH as [[_ [=]]|(q & Hq & He)]. exists q. set_solver.
    + destruct IH as (q & e' & Hq & He). exists q, e'. set_solver.
  - right. exists port. set_solver.
  - exists port, e. set_solver.
Qed.
End loopback_facts.

(** ** The way to the control server *)
(** The session talks to the agent over the socket that is mapped to the VM's
    vsock port when the VM runs Linux; for FreeBSD over TCP to the address that
    [vmnet-helper] gave the VM, or, with [gvproxy], over a tunnel that the
    proxy has accepted. *)
Lemma ctrl_connection `{Ipnet} show_v6 config e ec ep sent svc :
  (start_gvproxy config e = Ok svc ∨
   ∃ fuel args, start_vmnet_helper show_v6 fuel config e = Some (Ok (svc, args))) →
  connect_to_vm_ctrl_socket config (vm_native_ip svc) ec = Ok (ep, sent) →
  ce_connect ec ep = Ok tt ∧
  match Settings.os (kernel config), vm_native_cidr svc with
  | Linux, _ => ep = Unix (vsock_path (net config)) ∧ sent = ""
  | FreeBSD, Some n => ∃ ip, vm_ip n = Ok ip ∧ ep = Tcp ip VM_CTRL_PORT ∧ sent = ""
  | FreeBSD, None => ep = Unix (gvproxy_net_sock_path (net config)) ∧ sent = tunnel_req ∧
      ce_write ec tunnel_req = Ok tt ∧ ce_reply ec = Ok "OK"
  end.
Proof.
  intros Hsvc Hc. unfold connect_to_vm_ctrl_socket in Hc. inv_ok. destruct x, x0.
  assert (match vm_native_cidr svc with
          | Some n => ∃ ip, vm_ip n = Ok ip ∧ vm_native_ip svc = Some ip
          | None => vm_native_ip svc = None end) as Hip.
  { destruct Hsvc as [Hg|(fuel & args & Hv)].
    - unfold start_gvproxy in Hg. inv_ok. done.
    - unfold start_vmnet_helper in Hv. destruct (se_cleanup e); [|done..].
      destruct (need_elevation _ _); [done|]. destruct (with_context _ _); [|done..].
      apply fmap_Some in Hv as (r & _ & Hr). symmetry in Hr.
      apply outcome_bind_Ok in Hr as (n & -> & Hr). unfold start_with_cidr in Hr. inv_ok. simpl. eauto. }
  unfold ctrl_endpoint, needs_tunnel in *.
  destruct (vm_native_cidr svc) as [n|]; [destruct Hip as (ip & Hip & Hn)|rename Hip into Hn];
    rewrite Hn in Hx, Hc; destruct (Settings.os (kernel config)); simpl in *; inv_ok; eauto 6.
  destruct (decide _) as [->|]; [|done]. inv_ok. destruct x. done.
Qed.

(** ** Witnesses *)
Module Witness.
Import Ipnet.Concrete.

(** The loopback interface, and one that uses the base of the default pool. *)
Definition ifaces : list Iface :=
  [{| if_loopback := true; if_ip := Some (V4 (ipv4 127 0 0 1)); if_mask := Some (V4 (ipv4 255 0 0 0)) |};
   {| if_loopback := false; if_ip := Some (V4 (ipv4 172 27 1 1));
      if_mask := Some (V4 (ipv4 255 255 255 252)) |}].
Definition env : StartEnv := {|
  se_cleanup := Ok tt; se_rootless := true; se_interfaces := Ok ifaces; se_random_var := None;
  se_rng := λ _, 0%N; se_log := Ok tt; se_spawn := Ok tt; se_config := Ok tt;
  se_loopback := Ok (IPv4 "127.0.0.1") |}.
Definition show_v6 (a : N) : string := "".
Definition config : Config := Settings.Witness.sample_config.

Definition service : NetHelperService := {|
  nh_name := "vmnet-helper"; vm_host_ip := IPv4 "172.27.1.6";
  vm_native_cidr := Some (mkIpv4Net (ipv4 172 27 1 4) 30);
  vm_native_ip := Some (ipv4 172 27 1 6) |}.
Definition args : VmnetArgs := {|
  va_socket := unixgram_sock_path (net config);
  va_offload := config_vmnet_offloading (net config) && bool_decide (Settings.os (kernel config) = Linux);
  va_start_address := ipv4 172 27 1 5; va_end_address := ipv4 172 27 1 6;
  va_subnet_mask := ipv4 255 255 255 252 |}.

Example vmnet_service_addresses_witness :
  start_vmnet_helper show_v6 5 config env = Some (Ok (service, args)) ∧
  ∃ n known, get_interface_networks (Ok ifaces) = Ok known ∧
    (∀ u, u ∈ known → net_disjoint n u) ∧ net_wf n ∧ prefix_len n = VMNET_PREFIX_LEN ∧
    vm_native_cidr service = Some n ∧ vm_native_ip service = Some (net_network n + 2)%N ∧
    vm_host_ip service = IPv4 (show_v4 (net_network n + 2)) ∧
    va_start_address args = (net_network n + 1)%N ∧ va_end_address args = (net_network n + 2)%N ∧
    need_elevation env (privilege config) = false.
Proof.
  split; [vm_compute; reflexivity|].
  apply (vmnet_service_addresses show_v6 5 config env ifaces service args).
  - reflexivity.
  - intros iface ip Hin Hip. apply list_elem_of_In in Hin as [<-|[<-|[]]];
      injection Hip as <-; vm_compute; reflexivity.
  - split; [vm_compute; reflexivity|vm_compute; discriminate].
  - intros j. vm_compute. reflexivity.
  - vm_compute; reflexivity.
Defined.

Definition accepting : ConnectEnv := {|
  ce_connect := λ _, Ok tt; ce_timeouts := Ok tt; ce_write := λ _, Ok tt; ce_reply := Ok "OK" |}.

Example ctrl_connection_witness :
  connect_to_vm_ctrl_socket config (vm_native_ip service) accepting =
    Ok (Unix (vsock_path (net config)), "") ∧
  ce_connect accepting (Unix (vsock_path (net config))) = Ok tt ∧
  Unix (vsock_path (net config)) = Unix (vsock_path (net config)) ∧ "" = "".
Proof.
  split; [vm_compute; reflexivity|].
  apply (ctrl_connection show_v6 config env accepting (Unix (vsock_path (net config))) "" service).
  - right. exists 5, args. vm_compute; reflexivity.
  - vm_compute; reflexivity.
Defined.
End Witness.
