(* ===== verification/ListFmt.v ===== *)
(** * The text of the disk listing ([diskutil/mod.rs] [Entry], [List] and the
      formatting functions)

    Rows, sizes and labels of the listing, and its text.  Floating-point
    numbers are the binary64 numbers of [SpecFloat]. *)
From S2P Require Import Prelude Common.
From Stdlib Require Import Ascii Floats.SpecFloat.

(** ** Characters of UTF-8 text *)
(** A byte that continues a character. *)
Definition is_cont (c : ascii) : bool := (128 <=? N_of_ascii c)%N && (N_of_ascii c <? 192)%N.

(** [s.chars().count()] *)
Fixpoint char_count (s : string) : nat :=
  match s with
  | "" => 0
  | String c s => (if is_cont c then 0 else 1) + char_count s
  end.

(** [s.is_char_boundary(i)] *)
Definition is_char_boundary (i : nat) (s : string) : bool :=
  if decide (i = 0) then true
  else match String.get i s with
       | Some c => negb (is_cont c)
       | None => bool_decide (i = String.length s)
       end.

(** [format!("{:>n}", s)] and [format!("{:<n}", s)] *)
Definition pad_left (n : nat) (s : string) : string := Str.repeat " " (n - char_count s) +:+ s.
Definition pad_right (n : nat) (s : string) : string := s +:+ Str.repeat " " (n - char_count s).

(** ** Binary64 *)
Module f64.
Definition prec : Z := 53.
Definition emax : Z := 1024.
Definition of_Z (z : Z) : spec_float := binary_normalize prec emax z 0 false.
Definition of_N (n : N) : spec_float := of_Z (Z.of_N n).
Definition add := SFadd prec emax.
Definition mul := SFmul prec emax.
Definition div := SFdiv prec emax.
Definition ge (x y : spec_float) : bool := SFleb y x.

(** The number nearest to [n / d]. *)
Definition ratio (neg : bool) (n d : N) : spec_float :=
  match n, d with
  | N0, _ => S754_zero neg
  | Npos n, Npos d => div (S754_finite neg n 0) (S754_finite false d 0)
  | Npos _, N0 => S754_nan
  end.

(** The nearest integer to [n / d], ties to even. *)
Definition round_half_even (n d : Z) : Z :=
  let q := (n / d)%Z in
  let r := (n mod d)%Z in
  if (2 * r <? d)%Z then q
  else if (d <? 2 * r)%Z then (q + 1)%Z
  else if Z.even q then q else (q + 1)%Z.

(** Ten times the absolute value, rounded. *)
Definition tenths (m : positive) (e : Z) : Z :=
  if (0 <=? e)%Z then (10 * Zpos m * 2 ^ e)%Z
  else round_half_even (10 * Zpos m) (2 ^ (- e)).

Definition sign (s : bool) : string := if s then "-" else "".
Definition show_tenths (t : Z) : string :=
  Str.of_N (Z.to_N (t / 10)) +:+ "." +:+ Str.of_N (Z.to_N (t mod 10)).

(** [format!("{:.1}", x)] *)
Definition show1 (x : spec_float) : string :=
  match x with
  | S754_zero s => sign s +:+ "0.0"
  | S754_infinity s => sign s +:+ "inf"
  | S754_nan => "NaN"
  | S754_finite s m e => sign s +:+ show_tenths (tenths m e)
  end.

(** [x as u64]: towards zero, saturating. *)
Definition to_u64 (x : spec_float) : N :=
  match x with
  | S754_finite false m e =>
      N.min u64_max (if (0 <=? e)%Z then Z.to_N (Zpos m * 2 ^ e) else Z.to_N (Zpos m / 2 ^ (- e)))
  | S754_infinity false => u64_max
  | _ => 0%N
  end.
End f64.

(** ** [Entry] *)
Record Entry := mkEntry {
  e_disk : string; e_header : string; e_scheme : string; e_partitions : list string }.
#[global] Instance Entry_eq_dec : EqDecision Entry.
Proof. solve_decision. Defined.

Definition Entry_new (disk : string) : Entry := mkEntry disk "" "" [].

Definition LIST_HEADER : string :=
  "   #:                       TYPE NAME                    SIZE       IDENTIFIER".
Definition entry_with_header (disk : string) : Entry := mkEntry disk LIST_HEADER "" [].

Definition set_scheme (e : Entry) (s : string) : Entry :=
  mkEntry (e_disk e) (e_header e) s (e_partitions e).
Definition push_partition (e : Entry) (p : string) : Entry :=
  mkEntry (e_disk e) (e_header e) (e_scheme e) (e_partitions e ++ [p]).

(** ** Rows *)
Definition format_list_row (index : nat) (type_name name : string) (size_prefix : option ascii)
    (size ident : string) : string :=
  match size_prefix with
  | Some prefix =>
      pad_left 4 (Str.of_nat index) +:+ ": " +:+ pad_left 26 type_name +:+ " " +:+
      pad_right 22 name +:+ " " +:+ String prefix "" +:+ pad_right 10 size +:+ " " +:+ ident
  | None =>
      pad_left 4 (Str.of_nat index) +:+ ": " +:+ pad_left 26 type_name +:+ " " +:+
      pad_right 23 name +:+ " " +:+ pad_right 10 size +:+ " " +:+ ident
  end.

Definition format_prefixed_row (index : nat) (type_name name : string) (size_prefix : ascii)
    (size ident : string) : string :=
  format_list_row index type_name name (Some size_prefix) size ident.

Definition format_partition_row (index : nat) (fs_type label size ident : string) : string :=
  format_list_row index fs_type label None size ident.

(** [&s[..max_len - 3]]: the subtraction is on [usize], the slice must end at a
    character. *)
Definition trunc_with_ellipsis (s : string) (max_len : nat) : outcome string :=
  if decide (max_len < String.length s) then
    if decide (max_len < 3) then Panic
    else if is_char_boundary (max_len - 3) s then Ok (Str.take (max_len - 3) s +:+ "...")
    else Panic
  else Ok s.

Definition normalize_pt_type (pt_type : string) : string :=
  if decide (pt_type = "gpt") then "GUID_partition_scheme"
  else if decide (pt_type = "dos") then "FDisk_partition_scheme"
  else pt_type.

(** ** Sizes *)
Definition UNITS : list string := [""; "K"; "M"; "G"; "T"; "P"].

(** The loop: the units left are those from [unit_idx] on. *)
Fixpoint scale (size : spec_float) (unit : string) (units : list string) : spec_float * string :=
  match units with
  | next :: units =>
      if f64.ge size (f64.of_Z 1000) then scale (f64.div size (f64.of_Z 1000)) next units
      else (size, unit)
  | [] => (size, unit)
  end.

Definition format_partition_size (size_bytes : N) : string :=
  let '(size, unit) := scale (f64.of_N size_bytes) "" (tail UNITS) in
  f64.show1 size +:+ " " +:+ unit +:+ "B".

(** ** The text ([Display for List]) *)
Definition newline : string := String "010" "".
Definition line (s : string) : string := s +:+ newline.

Definition optional_line (s : string) : string := if decide (s = "") then "" else line s.

Fixpoint partition_lines (is_last_entry : bool) (partitions : list string) : string :=
  match partitions with
  | [] => ""
  | [partition] => if is_last_entry then partition else line partition
  | partition :: partitions => line partition +:+ partition_lines is_last_entry partitions
  end.

Definition entry_lines (is_last_entry : bool) (e : Entry) : string :=
  line (e_disk e) +:+ optional_line (e_header e) +:+ optional_line (e_scheme e) +:+
  partition_lines is_last_entry (e_partitions e).

Fixpoint list_lines (idx : nat) (entries : list Entry) : string :=
  match entries with
  | [] => ""
  | e :: rest =>
      (if decide (0 < idx) then line "" else "") +:+
      entry_lines (bool_decide (rest = [])) e +:+ list_lines (S idx) rest
  end.

Definition shown (e : Entry) : bool := negb (bool_decide (e_partitions e = [])).
Definition list_display (entries : list Entry) : string := list_lines 0 (List.filter shown entries).

(** *** A listing is its entries, separated by empty lines *)
Definition entry_text (e : Entry) : string :=
  Str.join newline
    ([e_disk e] ++ (if decide (e_header e = "") then [] else [e_header e]) ++
     (if decide (e_scheme e = "") then [] else [e_scheme e]) ++ e_partitions e).

Lemma join_cons_ne sep x l : l ≠ [] → Str.join sep (x :: l) = x +:+ sep +:+ Str.join sep l.
Proof. by destruct l. Qed.

Lemma partition_lines_join b ps :
  ps ≠ [] → partition_lines b ps = Str.join newline ps +:+ (if b then "" else newline).
Proof.
  intros Hp. induction ps as [|p [|q ps] IH]; [done| |].
  - simpl. destruct b; [by rewrite StrFacts.app_nil_r|done].
  - specialize (IH ltac:(done)). cbn [partition_lines]. cbn [partition_lines] in IH. rewrite IH.
    unfold line. simpl. by rewrite !StrFacts.app_assoc.
Qed.

Lemma entry_lines_text b e :
  e_partitions e ≠ [] → entry_lines b e = entry_text e +:+ (if b then "" else newline).
Proof.
  intros Hp. unfold entry_lines, entry_text, optional_line, line.
  rewrite partition_lines_join by done.
  generalize dependent (e_partitions e). intros ps Hp.
  destruct (decide (e_header e = "")), (decide (e_scheme e = "")); cbn [app];
    rewrite !join_cons_ne by done; by rewrite ?StrFacts.app_assoc.
Qed.

Lemma list_lines_join idx es :
  es ≠ [] → Forall (λ e, e_partitions e ≠ []) es →
  list_lines idx es =
    (if decide (0 < idx) then newline else "") +:+ Str.join (newline +:+ newline) (entry_text <$> es).
Proof.
  intros Hne Hf. revert idx. induction Hf as [|e es He Hf IH]; intros idx; [done|].
  cbn [list_lines]. rewrite entry_lines_text by done. destruct es as [|e' es].
  - simpl. destruct (decide _); simpl; by rewrite !StrFacts.app_nil_r.
  - rewrite (IH ltac:(done) (S idx)). rewrite bool_decide_eq_false_2 by done.
    rewrite (decide_True (P := 0 < S idx)) by lia. rewrite fmap_cons. cbn [Str.join]. unfold line.
    destruct (decide _); simpl; by rewrite ?StrFacts.app_assoc.
Qed.

(** The listing is the texts of the entries that have partitions, in their
    order, separated by one empty line and without a line break at the end. *)
Lemma list_display_join entries :
  list_display entries =
    Str.join (newline +:+ newline) (entry_text <$> filter (λ e, e_partitions e ≠ []) entries).
Proof.
  unfold list_display.
  assert (List.filter shown entries = filter (λ e, e_partitions e ≠ []) entries) as ->.
  { induction entries as [|e es IH]; [done|]. simpl. unfold shown at 1.
    destruct (decide (e_partitions e = [])) as [He|He].
    - rewrite bool_decide_eq_true_2 by done. rewrite filter_cons_False by auto. exact IH.
    - rewrite bool_decide_eq_false_2 by done. rewrite filter_cons_True by done. simpl. by rewrite IH. }
  destruct (decide (filter (λ e, e_partitions e ≠ []) entries = [])) as [->|Hne]; [done|].
  rewrite list_lines_join; [done|done|]. apply Forall_forall. intros e He.
  by apply list_elem_of_filter in He as [? _].
Qed.

(** *** Truncation *)
Lemma trunc_with_ellipsis_spec s n :
  3 ≤ n →
  match trunc_with_ellipsis s n with
  | Ok r => (String.length s ≤ n ∧ r = s) ∨
      (n < String.length s ∧ String.length r = n ∧ r = Str.take (n - 3) s +:+ "..." ∧
       is_char_boundary (n - 3) s = true)
  | Err _ => False
  | Panic => n < String.length s ∧ is_char_boundary (n - 3) s = false
  end.
Proof.
  intros Hn. unfold trunc_with_ellipsis. destruct (decide _); [|left; split; [lia|done]].
  rewrite decide_False by lia. destruct (is_char_boundary _ _) eqn:Eb; [|done].
  right. split_and!; [done| |done..]. rewrite StrFacts.length_app, StrFacts.length_take. simpl. lia.
Qed.

(** A character of three bytes: most of the scripts of Asia. *)
Definition Char3 : Type := ascii * ascii * ascii.
Definition char3_ok (c : Char3) : bool := negb (is_cont c.1.1) && is_cont c.1.2 && is_cont c.2.
Definition encode3 (cs : list Char3) : string :=
  foldr (λ c s, String c.1.1 (String c.1.2 (String c.2 s))) "" cs.

Lemma encode3_length cs : String.length (encode3 cs) = 3 * length cs.
Proof. induction cs as [|c cs IH]; simpl; [done|]. rewrite IH. lia. Qed.

Lemma encode3_third cs k c : cs !! k = Some c → String.get (3 * k + 2) (encode3 cs) = Some c.2.
Proof.
  revert k; induction cs as [|d cs IH]; intros [|k] Hk; simplify_eq/=; [done|].
  replace (k + S (k + S (k + 0)) + 2) with (S (S (3 * k + 2))) by lia. simpl. by apply IH.
Qed.

(** A label of eight or more characters of three bytes each cannot be shown:
    it is cut after 20 bytes, within a character, and the listing panics. *)
Theorem long_label_panics cs :
  8 ≤ length cs → Forall (λ c, char3_ok c = true) cs → trunc_with_ellipsis (encode3 cs) 23 = Panic.
Proof.
  intros Hlen Hok. unfold trunc_with_ellipsis.
  rewrite decide_True by (rewrite encode3_length; lia). rewrite decide_False by lia.
  destruct (lookup_lt_is_Some_2 cs 6 ltac:(lia)) as [c Hc].
  assert (is_char_boundary (23 - 3) (encode3 cs) = false) as ->; [|done].
  unfold is_char_boundary. rewrite decide_False by lia.
  change (23 - 3) with (3 * 6 + 2). rewrite (encode3_third _ _ _ Hc).
  eapply Forall_lookup_1 in Hok; [|exact Hc]. unfold char3_ok in Hok. by destruct (is_cont c.2), (is_cont c.1.2), (is_cont c.1.1).
Qed.

(** Text of one-byte characters is always cut between characters. *)
Lemma ascii_boundary s i :
  Str.forallb (λ c, negb (is_cont c)) s = true → i ≤ String.length s → is_char_boundary i s = true.
Proof.
  unfold is_char_boundary. intros Hs Hi. destruct (decide (i = 0)); [done|].
  assert (match String.get i s with Some c => negb (is_cont c) = true | None => i = String.length s end) as Hg.
  { clear n. revert i Hi; induction s as [|c s IH]; intros [|i] Hi; simpl in *; [done|lia| |].
    - by apply andb_true_iff in Hs as [-> _].
    - apply andb_true_iff in Hs as [_ Hs]. specialize (IH Hs i ltac:(lia)).
      destruct (String.get i s); [done|lia]. }
  destruct (String.get i s); [done|]. by apply bool_decide_eq_true.
Qed.

(** ** Witnesses *)
Module Witness.
(** The character U+30C7. *)
Definition de : Char3 := (ascii_of_N 227, ascii_of_N 131, ascii_of_N 135).
Example long_label_panics_witness : trunc_with_ellipsis (encode3 (replicate 8 de)) 23 = Panic.
Proof.
  apply (long_label_panics (replicate 8 de)); [vm_compute; repeat constructor|].
  apply Forall_replicate. vm_compute. reflexivity.
Defined.

Example sizes :
  (format_partition_size <$> [0; 999; 1000; 1500; 149950000; 500107862016]%N) =
    ["0.0 B"; "999.0 B"; "1.0 KB"; "1.5 KB"; "149.9 MB"; "500.1 GB"].
Proof. vm_compute. reflexivity. Qed.

Example row :
  format_partition_row 1 "ext4" "data" "1.5 GB" "sda1" =
    "   1:                       ext4 data                    1.5 GB     sda1".
Proof. vm_compute. reflexivity. Qed.
End Witness.
