(* ===== verification/Lsblk.v ===== *)
(** * Volumes from [lsblk] ([diskutil/mod.rs] [LvSize], [LsBlkDevice], [VolumeMap])

    The listing runs [lsblk] in a VM to see what is inside of encrypted disks,
    RAID members and physical volumes.  This file models the sizes it prints,
    the tree of block devices, and how logical volumes, RAID volumes and the
    contents of encrypted devices are collected from the tree and shown. *)
From S2P Require Import Prelude Common Paths LvIdent ListFmt.
From Stdlib Require Import Ascii Floats.SpecFloat.

(** ** Maps in insertion order ([indexmap]) *)
Section IndexMap.
Context {K V : Type} (eqb : K → K → bool).

(** The value under a key is changed in place; a new key goes to the end.  The
    key that was inserted first is kept. *)
Fixpoint im_alter (f : option V → V) (k : K) (m : list (K * V)) : list (K * V) :=
  match m with
  | [] => [(k, f None)]
  | (k', v) :: m => if eqb k' k then (k', f (Some v)) :: m else (k', v) :: im_alter f k m
  end.

(** [insert] *)
Definition im_insert (k : K) (v : V) : list (K * V) → list (K * V) := im_alter (λ _, v) k.

(** [get] *)
Fixpoint im_get (k : K) (m : list (K * V)) : option V :=
  match m with
  | [] => None
  | (k', v) :: m => if eqb k' k then Some v else im_get k m
  end.
End IndexMap.

Definition string_eqb (s t : string) : bool := bool_decide (s = t).

(** ** Sizes *)
Fixpoint all_cont (s : string) : bool :=
  match s with "" => true | String c s => is_cont c && all_cont s end.

(** A text without its last character, and this character. *)
Fixpoint split_last_char (s : string) : option (string * string) :=
  match s with
  | "" => None
  | String c s' =>
      if all_cont s' then Some ("", s)
      else '(l, ch) ← split_last_char s'; Some (String c l, ch)
  end.

(** The number and the unit. *)
Definition lv_size_split_val_and_units (size : string) : string * string :=
  match split_last_char size with
  | None => (size, "")
  | Some (size_val, size_last_char) =>
      if Str.forallb Str.is_digit size_last_char then (size, "") else (size_val, size_last_char)
  end.

(** *** [str::parse::<f64>] *)
Fixpoint take_digits (s : string) : string * string :=
  match s with
  | String c s' => if Str.is_digit c then let '(d, r) := take_digits s' in (String c d, r) else ("", s)
  | "" => ("", "")
  end.
Definition take_sign (s : string) : bool * string :=
  match s with
  | String c s' =>
      if bool_decide (c = "-"%char) then (true, s')
      else if bool_decide (c = "+"%char) then (false, s') else (false, s)
  | "" => (false, s)
  end.
Definition digits_value (s : string) : N := default 0%N (Str.parse_digits s).

Definition lower (c : ascii) : ascii :=
  if Str.is_upper c then ascii_of_N (N_of_ascii c + 32) else c.

(** The exponent, when the rest is one: [None] for anything else. *)
Definition parse_exponent (s : string) : option Z :=
  match s with
  | "" => Some 0%Z
  | String c s =>
      if bool_decide (lower c = "e"%char) then
        let '(neg, s) := take_sign s in
        let '(d, r) := take_digits s in
        if Str.is_empty d || negb (Str.is_empty r) then None
        else Some (if neg : bool then (- Z.of_N (digits_value d))%Z else Z.of_N (digits_value d))
      else None
  end.

(** [digits * 10 ^ e] *)
Definition decimal (neg : bool) (digits : N) (e : Z) : spec_float :=
  if (0 <=? e)%Z then f64.ratio neg (digits * 10 ^ Z.to_N e) 1
  else f64.ratio neg digits (10 ^ Z.to_N (- e)).

Definition parse_f64 (s : string) : option spec_float :=
  let '(neg, s) := take_sign s in
  let word := Str.map lower s in
  if bool_decide (word = "inf" ∨ word = "infinity") then Some (S754_infinity neg)
  else if bool_decide (word = "nan") then Some S754_nan
  else
    let '(int, s) := take_digits s in
    let '(frac, s) :=
      match s with
      | String c s' => if bool_decide (c = "."%char) then take_digits s' else ("", s)
      | "" => ("", s)
      end in
    if Str.is_empty int && Str.is_empty frac then None
    else
      e ← parse_exponent s;
      Some (decimal neg (digits_value (int +:+ frac)) (e - Z.of_nat (String.length frac))).

(** *** Decimal units of a binary size *)
(** [x] with [k] decimals. *)
Definition decimals (x : N) (k : N) : spec_float := f64.ratio false x (10 ^ k).

Definition unit_factor (unit_prefix : string) : option spec_float :=
  if decide (unit_prefix = "K") then Some (decimals 1024 3)
  else if decide (unit_prefix = "M") then Some (decimals 1048576 6)
  else if decide (unit_prefix = "G") then Some (decimals 1073741824 9)
  else if decide (unit_prefix = "T") then Some (decimals 1099511627776 12)
  else if decide (unit_prefix = "P") then Some (decimals 1125899906842624 15)
  else if decide (unit_prefix = "E") then Some (decimals 1152921504606847 15)
  else None.

Definition format_lv_size (size : string) : string :=
  let '(size_val, unit_prefix) := lv_size_split_val_and_units size in
  let size_val := default (S754_zero false) (parse_f64 size_val) in
  let size_val := match unit_factor unit_prefix with
                  | Some f => f64.mul size_val f
                  | None => size_val
                  end in
  f64.show1 size_val +:+ " " +:+ unit_prefix +:+ "B".

(** Multiplication on [u64]. *)
Definition mul_u64 (a b : N) : outcome N := if decide (a * b ≤ u64_max)%N then Ok (a * b)%N else Panic.
Definition add_u64 (a b : N) : outcome N := if decide (a + b ≤ u64_max)%N then Ok (a + b)%N else Panic.

(** How often the code multiplies by 1024. *)
Definition unit_power (unit_prefix : string) : nat :=
  if decide (unit_prefix = "K") then 1 else if decide (unit_prefix = "M") then 2
  else if decide (unit_prefix = "G") then 3 else if decide (unit_prefix = "T") then 4
  else if decide (unit_prefix = "P") then 5 else if decide (unit_prefix = "E") then 6 else 0.

Definition parse_lv_size (size : string) : outcome N :=
  let '(size_val, unit_prefix) := lv_size_split_val_and_units size in
  let size_integer :=
    f64.to_u64 (f64.mul (default (S754_zero false) (parse_f64 size_val)) (f64.of_Z 10)) in
  size_bytes ← foldM (λ n _, mul_u64 n 1024) size_integer (seq 0 (unit_power unit_prefix));
  Ok (size_bytes / 10)%N.

(** [Display for LvSize]: the loop over the prefixes, on tenths. *)
Fixpoint lv_scale (prefixes : list string) (size_integer size_rem : N) : string * N * N :=
  match prefixes with
  | [] => ("", size_integer, size_rem)
  | p :: prefixes =>
      if decide (size_integer < 1000)%N then (p, size_integer, size_rem)
      else lv_scale prefixes (size_integer / 1000) (size_integer mod 1000)
  end.

Definition LvSize_display (size : N) : outcome string :=
  size_integer ← mul_u64 size 10;
  let '(unit_prefix, size_integer, size_rem) :=
    lv_scale [""; "K"; "M"; "G"; "T"; "P"; "E"] size_integer 0 in
  let size := f64.add (f64.div (f64.of_N size_integer) (f64.of_Z 10))
                      (f64.div (f64.of_N size_rem) (f64.of_Z 10000)) in
  Ok (f64.show1 size +:+ " " +:+ unit_prefix +:+ "B").

(** ** Block devices *)
Inductive LsBlkDevice := mkBlk {
  b_name : string; b_path : string; b_size : string; b_fstype : option string;
  b_fsver : option string; b_pttype : option string; b_label : option string;
  b_uuid : option string; b_fsavail : option string; b_fsuse_percent : option string;
  b_mountpoints : list (option string); b_children : option (list LsBlkDevice) }.

(** [PartialEq for LsBlkDevice]: the UUIDs of the contents. *)
Definition blk_eqb (a b : LsBlkDevice) : bool := bool_decide (b_uuid a = b_uuid b).

Inductive BlkDevKind := Simple | LVM | LUKS | RAID | BitLocker.
#[global] Instance BlkDevKind_eq_dec : EqDecision BlkDevKind.
Proof. solve_decision. Defined.

Definition from_fstype (fstype : option string) : BlkDevKind :=
  match fstype with
  | Some t =>
      if decide (t = "LVM2_member") then LVM else if decide (t = "crypto_LUKS") then LUKS
      else if decide (t = "linux_raid_member") then RAID
      else if decide (t = "BitLocker") then BitLocker else Simple
  | None => Simple
  end.
Definition kind_of (b : LsBlkDevice) : BlkDevKind := from_fstype (b_fstype b).
Definition children_of (b : LsBlkDevice) : list LsBlkDevice := default [] (b_children b).

(** ** [VolumeMap] *)
Record VgEntry := mkVg {
  vg_size : N; vg_dev_idents : list string; vg_lvs : list (LsBlkDevice * list string);
  vg_encrypted : bool }.
Definition VgEntry_default : VgEntry := mkVg 0 [] [] false.

Definition LsBlkDevice_default : LsBlkDevice :=
  mkBlk "" "" "" None None None None None None None [] None.
Record RaidEntry := mkRaid { r_dev_idents : list string; r_logical_vol : LsBlkDevice }.
Definition RaidEntry_default : RaidEntry := mkRaid [] LsBlkDevice_default.

Record VolumeMap := mkVolMap {
  vol_groups : list (string * VgEntry);
  simple_enc_devs : list (string * LsBlkDevice);
  raid_volumes : list (string * RaidEntry) }.
Definition VolumeMap_new : VolumeMap := mkVolMap [] [] [].

(** A logical volume of a group, the [j]-th child of its physical volume. *)
Definition add_lv (dev_ident : string) (dev_encrypted : bool) (size : N) (j : nat)
    (child : LsBlkDevice) (o : option VgEntry) : VgEntry :=
  let e := default VgEntry_default o in
  mkVg size (vg_dev_idents e ++ (if decide (j = 0) then [dev_ident] else []))
    (im_alter blk_eqb (λ d, default [] d ++ [dev_ident]) child (vg_lvs e)) dev_encrypted.

Definition vg_entry (vol_map : VolumeMap) (vg : string) : VgEntry :=
  default VgEntry_default (im_get string_eqb vg (vol_groups vol_map)).

Definition collect_lv (vol_map : VolumeMap) (dev_ident : string) (dev_encrypted : bool)
    (blkdev : LsBlkDevice) (j : nat) (child : LsBlkDevice) : outcome VolumeMap :=
  match from_str (b_name child) with
  | Ok lv_ident =>
      let old := vg_size (vg_entry vol_map (vg_name lv_ident)) in
      size ← (if decide (j = 0) then
                match parse_lv_size (b_size blkdev) with
                | Ok n => add_u64 old n
                | Err _ => Ok old
                | Panic => Panic
                end
              else Ok old);
      Ok (mkVolMap (im_alter string_eqb (add_lv dev_ident dev_encrypted size j child)
                      (vg_name lv_ident) (vol_groups vol_map))
            (simple_enc_devs vol_map) (raid_volumes vol_map))
  | Err _ => Ok vol_map
  | Panic => Panic
  end.

(** A child of a device of a kind. *)
Definition collect_child (vol_map : VolumeMap) (dev_ident : string) (dev_encrypted : bool)
    (blkdev : LsBlkDevice) (kind : BlkDevKind) (j : nat) (child : LsBlkDevice) : outcome VolumeMap :=
  if decide (kind_of child = Simple) then
    match kind with
    | LUKS | BitLocker =>
        Ok (mkVolMap (vol_groups vol_map)
              (im_insert string_eqb dev_ident child (simple_enc_devs vol_map)) (raid_volumes vol_map))
    | RAID =>
        Ok (mkVolMap (vol_groups vol_map) (simple_enc_devs vol_map)
              (im_alter string_eqb
                 (λ o, mkRaid (r_dev_idents (default RaidEntry_default o) ++ [dev_ident]) child)
                 (b_name child) (raid_volumes vol_map)))
    | LVM => collect_lv vol_map dev_ident dev_encrypted blkdev j child
    | Simple => Ok vol_map
    end
  else Ok vol_map.

(** [iterate_children]: each child, and what is below it. *)
Fixpoint iterate_children (dev_ident : string) (dev_encrypted : bool) (vol_map : VolumeMap)
    (blkdev : LsBlkDevice) : outcome VolumeMap :=
  match blkdev with
  | mkBlk _ _ _ _ _ _ _ _ _ _ _ children =>
      let kind := kind_of blkdev in
      let below := dev_encrypted || bool_decide (kind = LUKS) in
      match children with
      | Some children =>
          (fix go (j : nat) (vol_map : VolumeMap) (children : list LsBlkDevice) : outcome VolumeMap :=
             match children with
             | [] => Ok vol_map
             | child :: children =>
                 vol_map ← collect_child vol_map dev_ident dev_encrypted blkdev kind j child;
                 vol_map ← iterate_children dev_ident below vol_map child;
                 go (S j) vol_map children
             end) 0 vol_map children
      | None => Ok vol_map
      end
  end.

(** One device with its identifier. *)
Definition add_device (vol_map : VolumeMap) (d : LsBlkDevice * string) : outcome VolumeMap :=
  iterate_children d.2 (bool_decide (kind_of d.1 = LUKS)) vol_map d.1.

Definition from_lsblk (blockdevices : list LsBlkDevice) (pv_dev_idents : list string) :
    outcome VolumeMap :=
  foldM add_device VolumeMap_new (zip blockdevices pv_dev_idents).

(** ** Rows of the volumes *)
(** White space of Unicode, in UTF-8. *)
Definition bytes (l : list N) : string := foldr (λ n s, String (ascii_of_N n) s) "" l.
Definition white_space : list string :=
  (λ n, bytes [n]) <$> [9; 10; 11; 12; 13; 32]%N.
Definition white_space_wide : list string :=
  [bytes [194; 133]; bytes [194; 160]; bytes [225; 154; 128]; bytes [226; 128; 168];
   bytes [226; 128; 169]; bytes [226; 128; 175]; bytes [226; 129; 159]; bytes [227; 128; 128]]%N ++
  ((λ n, bytes [226; 128; n]) <$> [128; 129; 130; 131; 132; 133; 134; 135; 136; 137; 138])%N.

(** The bytes of the white space character at the head of a text, or 0. *)
Definition space_len (s : string) : nat :=
  match List.find (λ w, Str.starts_with w s) (white_space ++ white_space_wide) with
  | Some w => String.length w
  | None => 0
  end.

(** [s.split_whitespace().last()]: [last] is the last word so far, [cur] the
    one that is read, [skip] counts the bytes of a white space character. *)
Fixpoint last_word (skip : nat) (last : option string) (cur : string) (s : string) : option string :=
  match s with
  | "" => if decide (cur = "") then last else Some cur
  | String c s' =>
      match skip with
      | S skip => last_word skip last cur s'
      | O =>
          match space_len s with
          | O => last_word 0 last (cur +:+ String c "") s'
          | S skip => last_word skip (if decide (cur = "") then last else Some cur) "" s'
          end
      end
  end.

Definition raid_entry (r : RaidEntry) : Entry :=
  let dev_ident := Str.join ":" (r_dev_idents r) in
  push_partition (entry_with_header ("raid:" +:+ dev_ident +:+ " (volume):"))
    (format_partition_row 0 (default "" (b_fstype (r_logical_vol r)))
       (default "" (b_label (r_logical_vol r))) (format_lv_size (b_size (r_logical_vol r))) dev_ident).

(** The rows of the logical volumes; [unwrap] of the name. *)
Definition lv_row (entry : Entry) (jlv : nat * (LsBlkDevice * list string)) : outcome Entry :=
  let '(j, (child, devs)) := jlv in
  match from_str (b_name child) with
  | Ok lv_ident =>
      Ok (push_partition entry
            (format_partition_row (j + 1) (default "" (b_fstype child)) (default "" (b_label child))
               (format_lv_size (b_size child))
               (vg_name lv_ident +:+ ":" +:+ Str.join ":" devs +:+ ":" +:+ lv_name lv_ident)))
  | _ => Panic
  end.

Fixpoint stores (label : string) (dev_idents : list string) : string :=
  match dev_idents with
  | [] => ""
  | dev_ident :: dev_idents =>
      newline +:+ pad_right 32 "" +:+ " " +:+ label +:+ " " +:+ dev_ident +:+
      stores "              " dev_idents
  end.

Definition vg_scheme (vg : string) (size : string) (dev_idents : list string) : string :=
  "   0:                LVM2_scheme                        +" +:+ pad_right 10 size +:+ " " +:+ vg +:+
  stores "Physical Store" dev_idents.

Definition indexed {A} (l : list A) : list (nat * A) := imap (λ i x, (i, x)) l.

Definition vg_entries (entries : list Entry) (g : string * VgEntry) : outcome (list Entry) :=
  let '(vg, e) := g in
  entry ← foldM lv_row (entry_with_header ("lvm:" +:+ vg +:+ " (volume group):")) (indexed (vg_lvs e));
  if decide (e_partitions entry = []) then Ok entries
  else
    size ← LvSize_display (vg_size e);
    Ok (entries ++ [set_scheme entry (vg_scheme vg size (vg_dev_idents e))]).

(** A row of an encrypted device is given the type and label of what is in it. *)
Definition extend_part (enc : list (string * LsBlkDevice)) (part : string) (enc_type : string) : string :=
  if Str.contains enc_type part then
    match last_word 0 None "" part with
    | Some dev_ident =>
        match im_get string_eqb dev_ident enc with
        | Some enc_dev =>
            match b_fstype enc_dev with
            | Some fstype =>
                let enc_fs_type := enc_type +:+ ": " +:+ fstype in
                replace (pad_left 27 enc_fs_type +:+ " " +:+ pad_right 23 "")
                  (pad_left 27 enc_fs_type +:+ " " +:+ pad_right 23 (default "" (b_label enc_dev)))
                  (replace (pad_left 27 enc_type) (pad_left 27 enc_fs_type) part)
            | None => part
            end
        | None => part
        end
    | None => part
    end
  else part.

Definition extend_parts (enc : list (string * LsBlkDevice)) (e : Entry) : Entry :=
  mkEntry (e_disk e) (e_header e) (e_scheme e)
    ((λ part, foldl (extend_part enc) part ["crypto_LUKS"; "BitLocker"]) <$> e_partitions e).

Definition build_entries (vol_map : VolumeMap) (disk_entries : list Entry) : outcome (list Entry) :=
  let disk_entries := disk_entries ++ ((λ r : string * RaidEntry, raid_entry r.2) <$> raid_volumes vol_map) in
  disk_entries ← foldM vg_entries disk_entries (vol_groups vol_map);
  Ok (map (extend_parts (simple_enc_devs vol_map)) disk_entries).

(** ** What the tree says, and what is collected

    A visit is a child that the traversal comes to, with its parent and the
    identifier of the device it is found on. *)
Record Visit := mkVisit {
  v_ident : string; v_enc : bool; v_parent : LsBlkDevice; v_pos : nat; v_child : LsBlkDevice }.

Fixpoint visits (dev_ident : string) (dev_encrypted : bool) (blkdev : LsBlkDevice) : list Visit :=
  match blkdev with
  | mkBlk _ _ _ _ _ _ _ _ _ _ _ children =>
      let below := dev_encrypted || bool_decide (kind_of blkdev = LUKS) in
      match children with
      | Some children =>
          (fix go (j : nat) (children : list LsBlkDevice) : list Visit :=
             match children with
             | [] => []
             | child :: children =>
                 mkVisit dev_ident dev_encrypted blkdev j child :: visits dev_ident below child ++
                 go (S j) children
             end) 0 children
      | None => []
      end
  end.

Definition collect (vol_map : VolumeMap) (v : Visit) : outcome VolumeMap :=
  collect_child vol_map (v_ident v) (v_enc v) (v_parent v) (kind_of (v_parent v)) (v_pos v) (v_child v).

Lemma collect_visit vm i e p j c :
  collect vm (mkVisit i e p j c) = collect_child vm i e p (kind_of p) j c.
Proof. done. Qed.

Lemma iterate_visits blkdev : ∀ dev_ident dev_encrypted vol_map,
  iterate_children dev_ident dev_encrypted vol_map blkdev =
  foldM collect vol_map (visits dev_ident dev_encrypted blkdev).
Proof.
  revert blkdev. fix IH 1. intros blkdev dev_ident dev_encrypted vol_map.
  destruct blkdev as [n p s ft fv pt l u fa fu mp [children|]]; [|done].
  cbn [iterate_children visits]. set (blkdev := mkBlk n p s ft fv pt l u fa fu mp (Some children)).
  generalize 0. clearbody blkdev. revert vol_map.
  induction children as [|child children IHc]; intros vol_map j; [done|].
  cbn [foldM]. rewrite collect_visit.
  destruct (collect_child _ _ _ _ _ _ _) as [vm| |]; [|done..]. cbn [mbind outcome_bind].
  rewrite foldM_app, IH. destruct (foldM collect vm (visits _ _ child)) as [vm'| |]; [|done..].
  cbn [mbind outcome_bind]. apply IHc.
Qed.

Definition device_visits (d : LsBlkDevice * string) : list Visit :=
  visits d.2 (bool_decide (kind_of d.1 = LUKS)) d.1.
Definition all_visits (blockdevices : list LsBlkDevice) (idents : list string) : list Visit :=
  flat_map device_visits (zip blockdevices idents).

Lemma from_lsblk_visits bs ids :
  from_lsblk bs ids = foldM collect VolumeMap_new (all_visits bs ids).
Proof.
  unfold from_lsblk, all_visits. generalize VolumeMap_new.
  induction (zip bs ids) as [|d l IH]; intros vm; [done|].
  cbn [foldM flat_map]. rewrite foldM_app.
  assert (add_device vm d = foldM collect vm (device_visits d)) as -> by apply iterate_visits.
  destruct (foldM collect vm (device_visits d)); simpl; auto.
Qed.

(** ** Insertion-ordered maps *)
Section im_facts.
Context {K V : Type} (eqb : K → K → bool).
Context (eqb_sym : ∀ a b, eqb a b = eqb b a) (eqb_trans : ∀ a b c, eqb a b = true → eqb b c = eqb a c).

Lemma im_get_alter (f : option V → V) k k' m :
  im_get eqb k' (im_alter eqb f k m) =
    if eqb k k' then Some (f (im_get eqb k m)) else im_get eqb k' m.
Proof.
  induction m as [|[k1 v] m IH]; simpl; [done|].
  destruct (eqb k1 k) eqn:E1; simpl.
  - rewrite (eqb_trans k1 k k' E1). by destruct (eqb k1 k').
  - destruct (eqb k1 k') eqn:E2; [|done].
    destruct (eqb k k') eqn:E3; [|done].
    rewrite eqb_sym in E3. pose proof (eqb_trans k1 k' k E2). congruence.
Qed.
End im_facts.

Lemma string_eqb_sym a b : string_eqb a b = string_eqb b a.
Proof. unfold string_eqb. apply bool_decide_ext. naive_solver. Qed.
Lemma string_eqb_trans a b c : string_eqb a b = true → string_eqb b c = string_eqb a c.
Proof. unfold string_eqb. by intros ->%bool_decide_eq_true. Qed.
Lemma blk_eqb_sym a b : blk_eqb a b = blk_eqb b a.
Proof. unfold blk_eqb. apply bool_decide_ext. naive_solver. Qed.
Lemma blk_eqb_trans a b c : blk_eqb a b = true → blk_eqb b c = blk_eqb a c.
Proof. unfold blk_eqb. by intros ->%bool_decide_eq_true. Qed.

(** ** What is collected *)
(** The group of the logical volume that a visit adds. *)
Definition lv_group (v : Visit) : option string :=
  if decide (kind_of (v_child v) = Simple ∧ kind_of (v_parent v) = LVM) then
    match from_str (b_name (v_child v)) with Ok id => Some (vg_name id) | _ => None end
  else None.

(** The visit adds a volume with the UUID of [b] to the group. *)
Definition adds_lv (vg : string) (b : LsBlkDevice) (v : Visit) : bool :=
  bool_decide (lv_group v = Some vg) && blk_eqb (v_child v) b.

(** The visit adds a member to a RAID volume. *)
Definition adds_raid (name : string) (v : Visit) : bool :=
  bool_decide (kind_of (v_child v) = Simple ∧ kind_of (v_parent v) = RAID ∧ b_name (v_child v) = name).

(** The visit finds what is in an encrypted device. *)
Definition adds_enc (ident : string) (v : Visit) : bool :=
  bool_decide (kind_of (v_child v) = Simple ∧ v_ident v = ident ∧
               (kind_of (v_parent v) = LUKS ∨ kind_of (v_parent v) = BitLocker)).

Definition idents_of (p : Visit → bool) (vs : list Visit) : list string := v_ident <$> List.filter p vs.

Definition lv_devices (m : VolumeMap) (vg : string) (b : LsBlkDevice) : list string :=
  default [] (im_get blk_eqb b (vg_lvs (vg_entry m vg))).
Definition raid_members (m : VolumeMap) (name : string) : list string :=
  r_dev_idents (default RaidEntry_default (im_get string_eqb name (raid_volumes m))).
Definition enc_content (m : VolumeMap) (ident : string) : option LsBlkDevice :=
  im_get string_eqb ident (simple_enc_devs m).

(** The contents of a map are those of a list of visits. *)
Definition contents (m : VolumeMap) (vs : list Visit) : Prop :=
  (∀ vg b, lv_devices m vg b = idents_of (adds_lv vg b) vs) ∧
  (∀ vg, vg_dev_idents (vg_entry m vg) =
     idents_of (λ v, bool_decide (lv_group v = Some vg) && bool_decide (v_pos v = 0)) vs) ∧
  (∀ name, raid_members m name = idents_of (adds_raid name) vs) ∧
  (∀ ident, enc_content m ident = v_child <$> last (List.filter (adds_enc ident) vs)).

Lemma idents_of_snoc p vs v :
  idents_of p (vs ++ [v]) = idents_of p vs ++ (if p v then [v_ident v] else []).
Proof.
  unfold idents_of. rewrite List.filter_app, fmap_app. f_equal. simpl. by destruct (p v).
Qed.

Lemma last_filter_snoc {A} (p : A → bool) vs v :
  last (List.filter p (vs ++ [v])) = if p v then Some v else last (List.filter p vs).
Proof.
  rewrite List.filter_app. simpl. destruct (p v); [by rewrite last_snoc|by rewrite app_nil_r].
Qed.

(** A group after a volume was added to one. *)
Lemma vg_entry_alter m vg vg' f encs raids :
  vg_entry (mkVolMap (im_alter string_eqb f vg (vol_groups m)) encs raids) vg' =
    if string_eqb vg vg' then f (im_get string_eqb vg (vol_groups m)) else vg_entry m vg'.
Proof.
  unfold vg_entry. simpl.
  rewrite im_get_alter by (eauto using string_eqb_sym, string_eqb_trans). by destruct (string_eqb vg vg').
Qed.

Lemma im_get_eqb {V} b c (m : list (LsBlkDevice * V)) :
  blk_eqb b c = true → im_get blk_eqb b m = im_get blk_eqb c m.
Proof.
  unfold blk_eqb. intros E%bool_decide_eq_true.
  induction m as [|[k v] m IH]; simpl; [done|]. by rewrite IH, E.
Qed.

(** A visit that adds no volume of a group, and so on. *)
Lemma adds_lv_None vg b v : lv_group v = None → adds_lv vg b v = false.
Proof. unfold adds_lv. by intros ->. Qed.

(** Nothing is added when the child is not a plain one or its parent is. *)
Lemma contents_skip m vs v :
  contents m vs →
  lv_group v = None → (∀ name, adds_raid name v = false) → (∀ ident, adds_enc ident v = false) →
  contents m (vs ++ [v]).
Proof.
  intros (Hlv & Hdev & Hraid & Henc) Hg Hr He. split_and!.
  - intros vg b. by rewrite idents_of_snoc, Hlv, adds_lv_None, app_nil_r.
  - intros vg. rewrite idents_of_snoc, Hdev, Hg. simpl. by rewrite app_nil_r.
  - intros name. by rewrite idents_of_snoc, Hraid, Hr, app_nil_r.
  - intros ident. by rewrite last_filter_snoc, He, Henc.
Qed.

Lemma lv_group_None v :
  ¬ (kind_of (v_child v) = Simple ∧ kind_of (v_parent v) = LVM) → lv_group v = None.
Proof. intros Hn. unfold lv_group. by rewrite decide_False. Qed.

Lemma adds_raid_false name v : kind_of (v_parent v) ≠ RAID → adds_raid name v = false.
Proof. intros Hn. apply bool_decide_eq_false. tauto. Qed.

Lemma adds_enc_false ident v :
  kind_of (v_parent v) ≠ LUKS → kind_of (v_parent v) ≠ BitLocker → adds_enc ident v = false.
Proof. intros H1 H2. apply bool_decide_eq_false. tauto. Qed.

Lemma collect_lv_contents m vs v id m' :
  contents m vs → kind_of (v_child v) = Simple → kind_of (v_parent v) = LVM →
  from_str (b_name (v_child v)) = Ok id →
  collect_lv m (v_ident v) (v_enc v) (v_parent v) (v_pos v) (v_child v) = Ok m' →
  contents m' (vs ++ [v]).
Proof.
  intros (Hlv & Hdev & Hraid & Henc) Hc Hp Hid. unfold collect_lv. rewrite Hid. cbv zeta. intros Hm.
  inv_ok. assert (lv_group v = Some (vg_name id)) as Hg.
  { unfold lv_group. by rewrite decide_True, Hid. }
  split_and!.
  - intros vg b. rewrite idents_of_snoc, <-Hlv. unfold lv_devices. rewrite vg_entry_alter.
    unfold adds_lv. rewrite Hg. unfold string_eqb.
    destruct (decide (vg_name id = vg)) as [<-|Hne].
    + rewrite !bool_decide_eq_true_2 by done. unfold add_lv. simpl.
      rewrite im_get_alter by (eauto using blk_eqb_sym, blk_eqb_trans). unfold vg_entry.
      destruct (blk_eqb (v_child v) b) eqn:Eb; simpl; [|by rewrite app_nil_r].
      by rewrite (im_get_eqb _ _ _ Eb).
    + rewrite !bool_decide_eq_false_2 by (intros [=]; done). simpl. by rewrite app_nil_r.
  - intros vg. rewrite idents_of_snoc, <-Hdev, vg_entry_alter, Hg. unfold string_eqb.
    destruct (decide (vg_name id = vg)) as [<-|Hne].
    + rewrite !bool_decide_eq_true_2 by done. unfold add_lv, vg_entry. simpl. f_equal.
      by destruct (decide (v_pos v = 0)); [rewrite bool_decide_eq_true_2|rewrite bool_decide_eq_false_2].
    + rewrite !bool_decide_eq_false_2 by (intros [=]; done). simpl. by rewrite app_nil_r.
  - intros name. rewrite idents_of_snoc, adds_raid_false, app_nil_r by congruence. apply Hraid.
  - intros ident. rewrite last_filter_snoc, adds_enc_false by congruence. apply Henc.
Qed.

Lemma collect_enc_contents m vs v :
  contents m vs → kind_of (v_child v) = Simple →
  kind_of (v_parent v) = LUKS ∨ kind_of (v_parent v) = BitLocker →
  contents (mkVolMap (vol_groups m) (im_insert string_eqb (v_ident v) (v_child v) (simple_enc_devs m))
              (raid_volumes m)) (vs ++ [v]).
Proof.
  intros (Hlv & Hdev & Hraid & Henc) Hc Hp.
  assert (lv_group v = None) as Hg by (apply lv_group_None; intuition congruence). split_and!.
  - intros vg b. rewrite idents_of_snoc, adds_lv_None, app_nil_r by done. apply Hlv.
  - intros vg. rewrite idents_of_snoc, Hg. simpl. rewrite app_nil_r. apply Hdev.
  - intros name. rewrite idents_of_snoc, adds_raid_false, app_nil_r by intuition congruence. apply Hraid.
  - intros ident. rewrite last_filter_snoc. unfold enc_content, im_insert. simpl.
    rewrite im_get_alter by (eauto using string_eqb_sym, string_eqb_trans).
    unfold adds_enc, string_eqb. destruct (decide (v_ident v = ident)) as [<-|Hne].
    + by rewrite !bool_decide_eq_true_2 by auto.
    + rewrite !bool_decide_eq_false_2 by tauto. apply Henc.
Qed.

Lemma collect_raid_contents m vs v :
  contents m vs → kind_of (v_child v) = Simple → kind_of (v_parent v) = RAID →
  contents (mkVolMap (vol_groups m) (simple_enc_devs m)
              (im_alter string_eqb
                 (λ o, mkRaid (r_dev_idents (default RaidEntry_default o) ++ [v_ident v]) (v_child v))
                 (b_name (v_child v)) (raid_volumes m))) (vs ++ [v]).
Proof.
  intros (Hlv & Hdev & Hraid & Henc) Hc Hp.
  assert (lv_group v = None) as Hg by (apply lv_group_None; intuition congruence). split_and!.
  - intros vg b. rewrite idents_of_snoc, adds_lv_None, app_nil_r by done. apply Hlv.
  - intros vg. rewrite idents_of_snoc, Hg. simpl. rewrite app_nil_r. apply Hdev.
  - intros name. rewrite idents_of_snoc, <-Hraid. unfold raid_members. simpl.
    rewrite im_get_alter by (eauto using string_eqb_sym, string_eqb_trans).
    unfold adds_raid, string_eqb. destruct (decide (b_name (v_child v) = name)) as [<-|Hne].
    + by rewrite !bool_decide_eq_true_2 by auto.
    + rewrite !bool_decide_eq_false_2 by tauto. by rewrite app_nil_r.
  - intros ident. rewrite last_filter_snoc, adds_enc_false by congruence. apply Henc.
Qed.

Lemma collect_contents m vs v m' :
  contents m vs → collect m v = Ok m' → contents m' (vs ++ [v]).
Proof.
  intros Hm. unfold collect, collect_child.
  destruct (decide (kind_of (v_child v) = Simple)) as [Hc|Hc].
  - destruct (kind_of (v_parent v)) eqn:Hp.
    + intros [= <-]. apply contents_skip; [done|apply lv_group_None; rewrite Hp; naive_solver| |]; intros.
      * apply adds_raid_false. congruence.
      * apply adds_enc_false; congruence.
    + destruct (from_str (b_name (v_child v))) as [id| |] eqn:Hid.
      * intros. by eapply collect_lv_contents.
      * unfold collect_lv. rewrite Hid. intros [= <-].
        apply contents_skip; [done| | |]; intros.
        -- unfold lv_group. by rewrite decide_True, Hid.
        -- apply adds_raid_false. congruence.
        -- apply adds_enc_false; congruence.
      * unfold collect_lv. by rewrite Hid.
    + intros [= <-]. apply collect_enc_contents; auto.
    + intros [= <-]. by apply collect_raid_contents.
    + intros [= <-]. apply collect_enc_contents; auto.
  - intros [= <-]. apply contents_skip; [done|apply lv_group_None; tauto| |]; intros;
      apply bool_decide_eq_false; tauto.
Qed.


(** ** The rows can be built *)
Lemma im_alter_elem {K V} (eqb : K → K → bool) f k (m : list (K * V)) k' v' :
  (k', v') ∈ im_alter eqb f k m →
  (k', v') ∈ m ∨ (k' = k ∧ v' = f None) ∨ (∃ v, (k', v) ∈ m ∧ eqb k' k = true ∧ v' = f (Some v)).
Proof.
  induction m as [|[k1 v1] m IH]; simpl.
  - intros [= -> ->]%list_elem_of_singleton. auto.
  - destruct (eqb k1 k) eqn:E.
    + intros [[= -> ->]|Hin]%elem_of_cons; [|left; set_solver].
      right; right. exists v1. split_and!; [set_solver|done..].
    + intros [[= -> ->]|Hin]%elem_of_cons; [left; set_solver|].
      destruct (IH Hin) as [?|[?|(v & ? & ?)]]; [left; set_solver|auto|].
      right; right. exists v. split; [set_solver|done].
Qed.

(** The volumes of a group have names of the group, and devices. *)
Definition lvs_wf (vg : string) (e : VgEntry) : Prop :=
  ∀ c devs, (c, devs) ∈ vg_lvs e →
    devs ≠ [] ∧ ∃ id, from_str (b_name c) = Ok id ∧ vg_name id = vg.
Definition map_wf (m : VolumeMap) : Prop :=
  (∀ vg e, (vg, e) ∈ vol_groups m → lvs_wf vg e) ∧
  (∀ name r, (name, r) ∈ raid_volumes m → r_dev_idents r ≠ []).

Lemma add_lv_wf vg ident enc size j c id o :
  from_str (b_name c) = Ok id → vg_name id = vg → (∀ e, o = Some e → lvs_wf vg e) →
  lvs_wf vg (add_lv ident enc size j c o).
Proof.
  intros Hid Hvg Ho c' devs Hin. unfold add_lv in Hin. simpl in Hin.
  assert (lvs_wf vg (default VgEntry_default o)) as He.
  { destruct o as [e|]; [by apply Ho|]. intros ? ? Hx. simpl in Hx. set_solver. }
  apply im_alter_elem in Hin as [Hin|[[-> ->]|(d & Hin & _ & ->)]]; [by apply He| |].
  - split; [done|eauto].
  - split; [by destruct d|]. by apply He in Hin as [_ ?].
Qed.

Lemma collect_wf m v m' : map_wf m → collect m v = Ok m' → map_wf m'.
Proof.
  intros [Hg Hr]. unfold collect, collect_child. destruct (decide _); [|by intros [= <-]].
  destruct (kind_of (v_parent v)); [by intros [= <-]| |by intros [= <-]| |by intros [= <-]].
  - unfold collect_lv. destruct (from_str _) as [id| |] eqn:Hid; [|by intros [= <-]|done].
    cbv zeta. intros Hm. inv_ok. split; [|done]. simpl. intros vg ve Hin.
    apply im_alter_elem in Hin as [Hin|[[-> ->]|(e0 & Hin & E & ->)]]; [by apply Hg| |].
    + by eapply add_lv_wf.
    + apply bool_decide_eq_true in E as ->. eapply add_lv_wf; [done..|]. intros e1 [= <-]. by apply Hg.
  - intros [= <-]. split; [done|]. simpl. intros name r Hin.
    apply im_alter_elem in Hin as [Hin|[[-> ->]|(r0 & Hin & _ & ->)]]; [by eapply Hr|done|].
    simpl. by destruct (r_dev_idents r0).
Qed.

Lemma from_lsblk_wf bs ids m : from_lsblk bs ids = Ok m → map_wf m.
Proof.
  rewrite from_lsblk_visits. apply foldM_invariant.
  - intros s v s' _. apply collect_wf.
  - split; simpl; set_solver.
Qed.

Lemma foldM_total {A S} (f : S → A → outcome S) s xs :
  (∀ s x, x ∈ xs → is_ok (f s x) = true) → is_ok (foldM f s xs) = true.
Proof.
  revert s; induction xs as [|x xs IH]; intros s Hf; [done|]. simpl.
  pose proof (Hf s x ltac:(set_solver)). destruct (f s x); [|done..]. simpl. apply IH. set_solver.
Qed.

(** The rows of the volumes can always be built: the names of the volumes
    in the map parse ([unwrap]), and only a group of more than 1.8 EB would
    overflow. *)
Theorem build_entries_total bs ids m entries :
  from_lsblk bs ids = Ok m →
  (∀ vg e, (vg, e) ∈ vol_groups m → vg_size e * 10 ≤ u64_max)%N →
  is_ok (build_entries m entries) = true.
Proof.
  intros [Hg _]%from_lsblk_wf Hs. unfold build_entries.
  assert (is_ok (foldM vg_entries (entries ++ ((λ r : string * RaidEntry, raid_entry r.2) <$> raid_volumes m))
    (vol_groups m)) = true) as Hok; [|by destruct (foldM vg_entries _ _)].
  apply foldM_total. intros es [vg e] Hin. unfold vg_entries.
  assert (is_ok (foldM lv_row (entry_with_header ("lvm:" +:+ vg +:+ " (volume group):"))
    (indexed (vg_lvs e))) = true) as Hrow.
  { apply foldM_total. intros s [j [c devs]] Hj. unfold indexed in Hj.
    apply elem_of_lookup_imap in Hj as (i & [c' d'] & [= -> -> ->] & Hl).
    apply list_elem_of_lookup_2, (Hg _ _ Hin) in Hl as (_ & id & Hid & _). simpl. by rewrite Hid. }
  destruct (foldM lv_row _ _); [|done..]. simpl. destruct (decide _); [done|].
  unfold LvSize_display, mul_u64. rewrite decide_True by (by eapply Hs). simpl.
  by repeat case_match.
Qed.

(** Logical volumes without a file system have no UUID and are taken for
    the same volume: of two on one device only the first is listed, and under an
    identifier that names the device twice. *)
Lemma unformatted_volumes_merge pv a b ida idb ident m :
  kind_of pv = LVM → b_children pv = Some [a; b] →
  kind_of a = Simple → kind_of b = Simple → b_uuid a = None → b_uuid b = None →
  b_children a = None → b_children b = None →
  from_str (b_name a) = Ok ida → from_str (b_name b) = Ok idb → vg_name ida = vg_name idb →
  from_lsblk [pv] [ident] = Ok m →
  vg_lvs (vg_entry m (vg_name ida)) = [(a, [ident; ident])].
Proof.
  intros Hpv Hch Ha Hb Hua Hub Hca Hcb Hida Hidb Hvg.
  rewrite from_lsblk_visits. unfold all_visits. simpl. rewrite app_nil_r. unfold device_visits.
  assert (∀ e, visits ident e pv = [mkVisit ident e pv 0 a; mkVisit ident e pv 1 b]) as ->.
  { intros e. destruct pv, a, b. simpl in *. by subst. }
  cbn [foldM]. rewrite !collect_visit.
  unfold collect_child. rewrite decide_True by done. rewrite Hpv. unfold collect_lv. rewrite Hida.
  cbv zeta. intros Hm. inv_ok.
  rewrite collect_visit in Hx0. unfold collect_child in Hx0. rewrite decide_True, Hpv in Hx0 by done.
  unfold collect_lv in Hx0. rewrite Hidb in Hx0. cbv zeta in Hx0. inv_ok.
  assert (string_eqb (vg_name ida) (vg_name ida) = true) as He by by apply bool_decide_eq_true.
  rewrite <-Hvg, He. unfold vg_entry. simpl. rewrite He. simpl.
  unfold blk_eqb. by rewrite bool_decide_eq_true_2 by congruence.
Qed.

(** ** Witnesses *)
Module Witness.
Definition volume (name size : string) (fstype uuid : option string) : LsBlkDevice :=
  mkBlk name ("/dev/mapper/" +:+ name) size fstype None None None uuid None None [] None.
Definition physical_volume (name : string) (volumes : list LsBlkDevice) : LsBlkDevice :=
  mkBlk name ("/dev/" +:+ name) "35G" (Some "LVM2_member") None None None (Some "pv") None None []
    (Some volumes).
Definition encrypted (name : string) (content : LsBlkDevice) : LsBlkDevice :=
  mkBlk name ("/dev/" +:+ name) "1G" (Some "crypto_LUKS") None None None (Some "luks") None None []
    (Some [content]).

Definition root : LsBlkDevice := volume "vg1-root" "2G" (Some "ext4") (Some "1").
Definition home : LsBlkDevice := volume "vg1-home" "8G" (Some "xfs") (Some "2").
Definition devices : list LsBlkDevice :=
  [physical_volume "vda" [root; home]; physical_volume "vdb" [home];
   encrypted "vdc" (volume "luks0" "1G" (Some "btrfs") (Some "3"))].
Definition idents : list string := ["disk7s1"; "disk8s1"; "disk9s2"].
Definition volume_map : VolumeMap :=
  match from_lsblk devices idents with Ok m => m | _ => VolumeMap_new end.


Example build_entries_total_witness :
  from_lsblk devices idents = Ok volume_map ∧ is_ok (build_entries volume_map []) = true.
Proof.
  split; [vm_compute; reflexivity|].
  apply (build_entries_total devices idents volume_map []); [vm_compute; reflexivity|].
  intros vg e Hin%list_elem_of_In. vm_compute in Hin. destruct Hin as [[= <- <-]|[]].
  vm_compute. discriminate.
Defined.

Definition raw_a : LsBlkDevice := volume "vg1-a" "2G" None None.
Definition raw_b : LsBlkDevice := volume "vg1-b" "1G" None None.
Definition raw_map : VolumeMap :=
  match from_lsblk [physical_volume "vda" [raw_a; raw_b]] ["disk7s1"] with
  | Ok m => m | _ => VolumeMap_new end.

Example unformatted_volumes_merge_witness :
  vg_lvs (vg_entry raw_map "vg1") = [(raw_a, ["disk7s1"; "disk7s1"])].
Proof.
  apply (unformatted_volumes_merge (physical_volume "vda" [raw_a; raw_b]) raw_a raw_b
           {| vg_name := "vg1"; lv_name := "a" |} {| vg_name := "vg1"; lv_name := "b" |} "disk7s1" raw_map);
    vm_compute; reflexivity.
Defined.

(** A listing as in the documentation. *)
Example listing :
  (m ← from_lsblk devices idents;
   rows ← build_entries m
     [push_partition (entry_with_header "/dev/disk9 (external, physical):")
        (format_partition_row 2 "crypto_LUKS" "" "1.1 GB" "disk9s2")];
   Ok (list_display rows)) =
  Ok (Str.join newline
    ["/dev/disk9 (external, physical):";
     "   #:                       TYPE NAME                    SIZE       IDENTIFIER";
     "   2:         crypto_LUKS: btrfs                         1.1 GB     disk9s2";
     "";
     "lvm:vg1 (volume group):";
     "   #:                       TYPE NAME                    SIZE       IDENTIFIER";
     "   0:                LVM2_scheme                        +75.2 GB    vg1";
     "                                 Physical Store disk7s1";
     "                                                disk8s1";
     "   1:                       ext4                         2.1 GB     vg1:disk7s1:root";
     "   2:                        xfs                         8.6 GB     vg1:disk7s1:disk8s1:home"]).
Proof. vm_compute. reflexivity. Qed.

(** A group of 150 GB is shown in terabytes, with one digit. *)
Example coarse_group_size : LvSize_display 150000000000 = Ok "0.2 TB".
Proof. vm_compute. reflexivity. Qed.

(** A group whose first volume is encrypted is shown without stores and size. *)
Example encrypted_first_volume :
  let m := from_lsblk [physical_volume "vda" [encrypted "vg1-a" root; home]] ["disk7s1"] in
  (m ← m; Ok (vg_size (vg_entry m "vg1"), vg_dev_idents (vg_entry m "vg1"))) = Ok (0%N, []).
Proof. vm_compute. reflexivity. Qed.
End Witness.
