(* ===== verification/Volumes.v ===== *)
(** * The disk listing ([diskutil/mod.rs] [list_partitions], [PvCollector],
      [render_plain_block_tree], [get_lsblk_info]; [diskutil/linux.rs])

    From the devices and images to the rows of the listing: what is shown of
    each, which of them are inspected in a VM, and what the VM is told. *)
From S2P Require Import Prelude Common Paths Settings DevInfo Instance Setup LvIdent ListFmt Lsblk.
From Stdlib Require Import Ascii.

(** ** Types shown *)
Record Labels := { part_types : list string; fs_types : list string }.

Definition concat_str_arrays (arr1 arr2 arr3 : list string) : list string := arr1 ++ arr2 ++ arr3.

Definition LINUX_PART_TYPES : list string :=
  ["Linux Filesystem"; "Linux LVM"; "Linux_LVM"; "Linux_RAID"; "Linux"; "ZFS"; "0xE8";
   "CA7D7CCB-63ED-4C53-861C-1742536059CC"].
Definition LINUX_FS_TYPES : list string :=
  ["bcachefs"; "btrfs"; "erofs"; "ext2"; "ext3"; "ext4"; "f2fs"; "squashfs"; "xfs"; "zfs";
   "crypto_LUKS"; "linux_raid_member"; "LVM2_member"; "zfs_member"].
Definition WINDOWS_PART_TYPES : list string :=
  ["Microsoft Basic Data"; "Windows_NTFS"; "Windows_FAT_32"].
Definition BSD_PART_TYPES : list string :=
  ["FreeBSD UFS"; "516E7CBA-6ECF-11D6-8FF8-00022D09712B"].
Definition BSD_FS_TYPES : list string := ["ufs"; "zfs"].

Definition ALL_PART_TYPES : list string :=
  concat_str_arrays LINUX_PART_TYPES WINDOWS_PART_TYPES BSD_PART_TYPES.
Definition ALL_FS_TYPES : list string :=
  concat_str_arrays LINUX_FS_TYPES WINDOWS_FS_TYPES BSD_FS_TYPES.

Definition LINUX_LABELS : Labels := {| part_types := LINUX_PART_TYPES; fs_types := LINUX_FS_TYPES |}.
Definition WINDOWS_LABELS : Labels :=
  {| part_types := WINDOWS_PART_TYPES; fs_types := WINDOWS_FS_TYPES |}.
Definition ALL_LABELS : Labels := {| part_types := ALL_PART_TYPES; fs_types := ALL_FS_TYPES |}.

Definition shows (filter : Labels) (fs_type : string) : bool := bool_decide (fs_type ∈ fs_types filter).

(** ** [PvCollector] *)
Record PvCollector := mkPv {
  dev_infos : list DevInfo; dev_idents : list string; enc_partitions : list string;
  pv_assemble_raid : bool; decrypt_all : bool; has_enc_filter : bool }.

Definition PvCollector_new (enc_partitions : option (list string)) : PvCollector :=
  let decrypt_all := match enc_partitions with
                     | Some (p :: _) => bool_decide (p = "all")
                     | _ => false
                     end in
  mkPv [] [] [] false decrypt_all (bool_decide (is_Some enc_partitions)).

(** The kinds ([is_enc], [is_raid], [is_lvm]) and the collector after. *)
Definition try_collect (pv : PvCollector) (dev_info : DevInfo) (dev_ident disk_path fs_type : string) :
    (bool * bool * bool) * PvCollector :=
  let is_enc := is_encrypted_fs fs_type in
  let is_raid := bool_decide (fs_type = "linux_raid_member") in
  let is_lvm := bool_decide (fs_type = "LVM2_member") in
  let pv := if is_raid
            then mkPv (dev_infos pv) (dev_idents pv) (enc_partitions pv) true (decrypt_all pv) (has_enc_filter pv)
            else pv in
  let pv := if is_lvm || is_raid || (has_enc_filter pv && is_enc)
            then mkPv (dev_infos pv ++ [dev_info]) (dev_idents pv ++ [dev_ident])
                   (enc_partitions pv ++ if decrypt_all pv && is_enc then [disk_path] else [])
                   (pv_assemble_raid pv) (decrypt_all pv) (has_enc_filter pv)
            else pv in
  ((is_enc, is_raid, is_lvm), pv).

(** [if let (Some(pv), Some(dev_info)) = ..] *)
Definition collect_opt (pv : option PvCollector) (dev_info : option DevInfo)
    (dev_ident disk_path fs_type : string) : option PvCollector :=
  match pv, dev_info with
  | Some pv, Some d => Some (try_collect pv d dev_ident disk_path fs_type).2
  | _, _ => pv
  end.

(** ** A block device and its partitions *)
Record PlainPartition := {
  pp_number : nat; pp_fs_type : string; pp_label : string; pp_size : string;
  pp_dev_info : option DevInfo; pp_disk_path : string }.
Record PlainBlockDevice := {
  pb_title : string; pb_ident : string; pb_size_prefix : ascii; pb_size : string;
  pb_pt_type : option string; pb_fs_type : option string; pb_label : option string;
  pb_dev_info : option DevInfo; pb_disk_path : string; pb_partitions : list PlainPartition }.

Definition LABEL_LEN : nat := 23.

Definition partition_step (block : PlainBlockDevice) (filter : Labels)
    (acc : Entry * option PvCollector) (partition : PlainPartition) :
    outcome (Entry * option PvCollector) :=
  let '(entry, pv) := acc in
  if negb (shows filter (pp_fs_type partition)) then Ok acc
  else
    let pv := collect_opt pv (pp_dev_info partition) (pb_ident block) (pp_disk_path partition)
                (pp_fs_type partition) in
    truncated_label ← trunc_with_ellipsis (pp_label partition) LABEL_LEN;
    let ident := pb_ident block +:+ "@s" +:+ Str.of_nat (pp_number partition) in
    Ok (push_partition entry
          (format_partition_row (pp_number partition) (pp_fs_type partition) truncated_label
             (pp_size partition) ident), pv).

Definition render_plain_block_tree (block : PlainBlockDevice) (filter : Labels)
    (pv : option PvCollector) : outcome (Entry * option PvCollector) :=
  let entry := entry_with_header (pb_title block) in
  match pb_pt_type block with
  | Some pt_type =>
      let entry := set_scheme entry
        (format_prefixed_row 0 (normalize_pt_type pt_type) "" (pb_size_prefix block)
           (pb_size block) (pb_ident block)) in
      foldM (partition_step block filter) (entry, pv) (pb_partitions block)
  | None =>
      let fs_type := default "" (pb_fs_type block) in
      if shows filter fs_type then
        let pv := collect_opt pv (pb_dev_info block) (pb_ident block) (pb_disk_path block) fs_type in
        truncated_label ← trunc_with_ellipsis (default "" (pb_label block)) LABEL_LEN;
        Ok (push_partition entry
              (format_prefixed_row 0 fs_type truncated_label (pb_size_prefix block)
                 (pb_size block) (pb_ident block)), pv)
      else Ok (entry, pv)
  end.

Definition opt_size (n : option N) : string := default "" (format_partition_size <$> n).

(** *** Raw images *)
Definition raw_partition (path : string) (i : nat) (dev_info : DevInfo) : PlainPartition := {|
  pp_number := i + 1; pp_fs_type := default "" (DevInfo.fs_type dev_info);
  pp_label := default "" (dev_label dev_info); pp_size := opt_size (size_bytes dev_info);
  pp_dev_info := Some dev_info; pp_disk_path := path |}.

(** [&probe_devs[0]] *)
Definition raw_image_plain_block (path image_name : string) (probe_devs : list DevInfo) :
    outcome PlainBlockDevice :=
  match probe_devs with
  | [] => Panic
  | whole :: rest =>
      Ok {| pb_title := path +:+ " (disk image):"; pb_ident := image_name; pb_size_prefix := "+"%char;
            pb_size := opt_size (size_bytes whole); pb_pt_type := pt_type whole;
            pb_fs_type := DevInfo.fs_type whole; pb_label := dev_label whole;
            pb_dev_info := Some whole; pb_disk_path := path;
            pb_partitions := imap (raw_partition path) rest |}
  end.

Definition render_raw_image_entry (path image_name : string) (probe_devs : list DevInfo)
    (filter : Labels) (pv : PvCollector) : outcome (Entry * option PvCollector) :=
  block ← raw_image_plain_block path image_name probe_devs;
  render_plain_block_tree block filter (Some pv).

(** *** Qcow2 images *)
Record Qcow2ListImage := { q_dev_info : DevInfo; q_path : string; q_image_name : string }.

Definition usize_max : N := u64_max.
Definition partition_number (parent child : LsBlkDevice) : option nat :=
  suffix ← Str.strip_prefix (b_name parent) (b_name child);
  N.to_nat <$> Str.parse_uint usize_max (default suffix (Str.strip_prefix "p" suffix)).

Definition qcow2_partition (blkdev : LsBlkDevice) (i : nat) (child : LsBlkDevice) : PlainPartition := {|
  pp_number := default (i + 1) (partition_number blkdev child);
  pp_fs_type := default "" (b_fstype child); pp_label := default "" (b_label child);
  pp_size := format_lv_size (b_size child); pp_dev_info := None; pp_disk_path := "" |}.

Definition qcow2_image_plain_block (image : Qcow2ListImage) (blkdev : LsBlkDevice) : PlainBlockDevice := {|
  pb_title := q_path image +:+ " (disk image):"; pb_ident := q_image_name image;
  pb_size_prefix := "+"%char; pb_size := format_lv_size (b_size blkdev);
  pb_pt_type := b_pttype blkdev; pb_fs_type := b_fstype blkdev; pb_label := b_label blkdev;
  pb_dev_info := None; pb_disk_path := "";
  pb_partitions := imap (qcow2_partition blkdev) (children_of blkdev) |}.

(** The images are the leading devices; fewer devices are an error message and
    the entries of those that are there. *)
Definition render_qcow2_image_entries (blockdevices : list LsBlkDevice) (images : list Qcow2ListImage)
    (filter : Labels) (disk_entries : list Entry) : outcome (list Entry) :=
  foldM (λ es ib, '(entry, _) ← render_plain_block_tree (qcow2_image_plain_block ib.1 ib.2) filter None;
                  Ok (es ++ [entry]))
    disk_entries (zip images (take (length images) blockdevices)).

(** ** The inspection in a VM *)
Definition nth_letter (i : nat) : option ascii := letters !! i.

(** The device in the VM of a partition and its type. *)
Definition virt_disk_to_decrypt (dev_info : list DevInfo) (partition : string) :
    outcome (string * string) :=
  match list_find (λ di, dev_path di = partition) dev_info with
  | Some (idx, di) =>
      letter ← ok_or "block device index out of range" (nth_letter idx);
      fs_type ← ok_or "missing fs_type info" (DevInfo.fs_type di);
      Ok ("/dev/vd" +:+ String letter "", fs_type)
  | None => Err ("Partition " +:+ partition +:+ " not found")
  end.

Definition decrypt_command (i : nat) (vdev_path fs_type : string) : string :=
  if decide (fs_type = "crypto_LUKS") then
    "cryptsetup open " +:+ vdev_path +:+ " luks" +:+ Str.of_nat i +:+ "; "
  else if decide (fs_type = "BitLocker") then
    "cryptsetup bitlkOpen " +:+ vdev_path +:+ " btlk" +:+ Str.of_nat i +:+ "; "
  else "".

Definition decrypt_script (dev_info : list DevInfo) (partitions : option (list string)) : outcome string :=
  match partitions with
  | None => Ok ""
  | Some partitions =>
      foldM (λ script ip, '(vdev_path, fs_type) ← virt_disk_to_decrypt dev_info ip.2;
                          Ok (script +:+ decrypt_command ip.1 vdev_path fs_type))
        "" (indexed partitions)
  end.

Definition lsblk_script (decrypt : string) (assemble_raid : bool) : string :=
  "mount -t tmpfs tmpfs /tmp && mount -t tmpfs tmpfs /run && " +:+ decrypt +:+
  (if assemble_raid then "/sbin/mdadm --assemble --scan 2>/dev/null; " else "") +:+
  "/sbin/vgchange -ay >/dev/null; /bin/lsblk -O --json".

(** The prompts, each with how often its answer is written. *)
Definition passphrase_prompts (mode : PassphrasePromptConfig) (partitions : list string) :
    list (option string * nat) :=
  match mode with
  | AskForEach => (λ part, (Some part, 1)) <$> partitions
  | OneForAll => [(None, length partitions)]
  end.

Section prompts.
(** [rpassword::prompt_password] with its text. *)
Context (prompt_password : string → outcome string).

Definition read_passphrase (partition : option string) : outcome string :=
  with_context "Failed to read passphrase"
    (prompt_password match partition with
                     | Some part => "Enter passphrase for " +:+ part +:+ ": "
                     | None => "Enter passphrase: "
                     end).

(** The lines written to the standard input of the VM. *)
Definition write_passphrases (prompts : list (option string * nat)) : outcome (list string) :=
  foldM (λ written p, passphrase ← read_passphrase p.1; Ok (written ++ replicate p.2 passphrase))
    [] prompts.
End prompts.

(** What the VM is started with: the disks, read-only, and the command. *)
Record VmCommand := {
  vc_devices : list DevInfo; vc_opts : VMOpts; vc_args : list string;
  vc_prompts : option (list (option string * nat)) }.
Record VmOutput := { vo_status : Z; vo_stdout : string }.

Section lsblk.
Context (run_vmcommand_short : VmCommand → outcome VmOutput).
Context (from_json : string → outcome (list LsBlkDevice)).

Definition get_lsblk_info (config : Config) (dev_info : list DevInfo)
    (enc_partitions : option (list string)) (assemble_raid : bool) : outcome (list LsBlkDevice) :=
  decrypt ← decrypt_script dev_info enc_partitions;
  out ← with_context "Failed to run command in microVM"
          (run_vmcommand_short
             {| vc_devices := dev_info;
                vc_opts := mkVMOpts true 0 None (negb (rw_rootfs config)) false;
                vc_args := ["/bin/busybox"; "sh"; "-c"; lsblk_script decrypt assemble_raid];
                vc_prompts := passphrase_prompts (cfg_passphrase_config config) <$> enc_partitions |});
  if decide (vo_status out ≠ 0)%Z then Err "lsblk command failed"
  else with_context "failed to parse lsblk command output" (from_json (vo_stdout out)).
End lsblk.

(** [MountPoint::display] *)
Fixpoint trim_end_slashes (s : string) : string :=
  match s with
  | "" => ""
  | String c s' =>
      let t := trim_end_slashes s' in
      if Str.is_empty t && bool_decide (c = "/"%char) then "" else String c t
  end.

(** ** Linux: sysfs ([diskutil/linux.rs]) *)
Section sysfs.
(** The contents of a file and the names in a directory. *)
Context (read_to_string : string → option string) (read_dir : string → option (list string)).

Definition loop_backing_file (disk_name : string) : option string :=
  s ← read_to_string ("/sys/block/" +:+ disk_name +:+ "/loop/backing_file");
  let trimmed := Str.trim s in
  if decide (trimmed = "") then None else Some trimmed.

Definition is_alphabetic (c : ascii) : bool := Str.is_upper c || Str.is_lower c.

Definition is_supported_disk_name (name : string) : bool :=
  if Str.starts_with "sd" name || Str.starts_with "vd" name || Str.starts_with "xvd" name ||
     Str.starts_with "hd" name then
    match String.get (if Str.starts_with "xvd" name then 3 else 2) name with
    | Some c => is_alphabetic c
    | None => false
    end
  else if Str.starts_with "nvme" name then Str.contains "n" name && negb (Str.contains "p" name)
  else if Str.starts_with "mmcblk" name then negb (Str.contains "p" name)
  else
    match Str.strip_prefix "loop" name with
    | Some rest =>
        negb (Str.is_empty rest) && Str.forallb Str.is_digit rest &&
        bool_decide (is_Some (loop_backing_file name))
    | None => false
    end.

Definition enumerate_physical_disks : list string :=
  match read_dir "/sys/block" with
  | Some entries => merge_sort str_le (List.filter is_supported_disk_name entries)
  | None => []
  end.

Definition read_sectors (path : string) : option N :=
  s ← read_to_string path; Str.parse_uint u64_max (Str.trim s).

(** The multiplication is on [u64]. *)
Definition sectors_size (sectors : option N) : outcome (option N) :=
  match sectors with
  | Some sectors => n ← mul_u64 sectors 512; Ok (Some n)
  | None => Ok None
  end.
Definition read_disk_size (disk_name : string) : outcome (option N) :=
  sectors_size (read_sectors ("/sys/block/" +:+ disk_name +:+ "/size")).
Definition read_part_size (disk_name part_name : string) : outcome (option N) :=
  sectors_size (read_sectors ("/sys/block/" +:+ disk_name +:+ "/" +:+ part_name +:+ "/size")).

Definition is_removable (disk_name : string) : bool :=
  match read_to_string ("/sys/block/" +:+ disk_name +:+ "/removable") with
  | Some s => bool_decide (Str.trim s = "1")
  | None => false
  end.

(** The partitions by number (a stable sort). *)
Definition num_le (a b : N * string) : Prop := (a.1 ≤ b.1)%N.
#[local] Instance num_le_dec : RelDecision num_le.
Proof. intros a b. unfold num_le. apply _. Defined.

Fixpoint insert_by_num (x : N * string) (l : list (N * string)) : list (N * string) :=
  match l with
  | [] => [x]
  | y :: l' => if decide (num_le x y) then x :: l else y :: insert_by_num x l'
  end.

Definition list_partition_names_sysfs (disk_name : string) : list string :=
  let dir := "/sys/block/" +:+ disk_name in
  match read_dir dir with
  | None => []
  | Some entries =>
      let parts := omap (λ name, num ← read_sectors (dir +:+ "/" +:+ name +:+ "/partition");
                                 Some (num, name)) entries in
      (foldr insert_by_num [] parts).*2
  end.

Context `{Blkid} (get_info : string → DiskInfo) (open_file : string → outcome unit).

Definition is_loop (disk_name : string) : bool := Str.starts_with "loop" disk_name.

Definition header_tag (disk_name : string) : string :=
  if is_loop disk_name then "disk image"
  else (if is_removable disk_name then "external" else "internal") +:+ ", physical".

(** A partition of a disk with a partition table. *)
Definition probed_row (disk_name : string) (filter : Labels) (acc : Entry * PvCollector)
    (ip : nat * string) : outcome (Entry * PvCollector) :=
  let '(entry, pv) := acc in
  let '(i, part_name) := ip in
  let part_path := "/dev/" +:+ part_name in
  let probed := DevInfo.pv get_info part_path false in
  match probed with
  | Panic => Panic
  | _ =>
      let part_info := ok probed in
      let fs_type := default "" (p ← part_info; DevInfo.fs_type p) in
      if negb (Str.is_empty fs_type) && negb (shows filter fs_type) then Ok acc
      else
        let pv := match part_info with
                  | Some dev_info => (try_collect pv dev_info part_name part_path fs_type).2
                  | None => pv
                  end in
        truncated_label ← trunc_with_ellipsis (default "" (p ← part_info; dev_label p)) LABEL_LEN;
        part_size ← read_part_size disk_name part_name;
        Ok (push_partition entry
              (format_partition_row (i + 1) fs_type truncated_label (opt_size part_size) part_name), pv)
  end.

(** A partition of a disk that cannot be probed. *)
Definition unprobed_row (disk_name : string) (entry : Entry) (ip : nat * string) : outcome Entry :=
  part_size ← read_part_size disk_name ip.2;
  Ok (push_partition entry (format_partition_row (ip.1 + 1) "" "" (opt_size part_size) ip.2)).

Definition process_block_device (disk_path : string) (filter : Labels) (pv : PvCollector) :
    outcome (option Entry * PvCollector) :=
  match path.file_name disk_path with
  | None => Ok (None, pv)
  | Some disk_name =>
      let entry := entry_with_header (disk_path +:+ " (" +:+ header_tag disk_name +:+ "):") in
      let size_prefix := if is_loop disk_name then "+"%char else "*"%char in
      let probed := probe_image open_file disk_path in
      match probed with
      | Panic => Panic
      | _ =>
          let whole := probe ← ok probed; head probe in
          whole_size ← match (w ← whole; size_bytes w) with
                       | Some n => Ok (Some n)
                       | None => read_disk_size disk_name
                       end;
          let size_str := opt_size whole_size in
          match (w ← whole; pt_type w), (w ← whole; DevInfo.fs_type w) with
          | Some pt, _ =>
              let entry := set_scheme entry
                (format_prefixed_row 0 (normalize_pt_type pt) "" size_prefix size_str disk_name) in
              '(entry, pv) ← foldM (probed_row disk_name filter) (entry, pv)
                               (indexed (list_partition_names_sysfs disk_name));
              Ok (Some entry, pv)
          | None, Some fs_type =>
              if negb (shows filter fs_type) then Ok (None, pv)
              else
                let pv := match whole with
                          | Some w => (try_collect pv w disk_name disk_path fs_type).2
                          | None => pv
                          end in
                truncated_label ← trunc_with_ellipsis (default "" (w ← whole; dev_label w)) LABEL_LEN;
                Ok (Some (push_partition entry
                      (format_prefixed_row 0 fs_type truncated_label size_prefix size_str disk_name)), pv)
          | None, None =>
              let part_names := list_partition_names_sysfs disk_name in
              if decide (part_names = []) then Ok (None, pv)
              else
                let entry := set_scheme entry
                  (format_prefixed_row 0 "" "" size_prefix size_str disk_name) in
                entry ← foldM (unprobed_row disk_name) entry (indexed part_names);
                Ok (Some entry, pv)
          end
      end
  end.

(** ** [list_partitions] *)
(** Whether a path names an existing regular file, the inspection VM, and, for
    macOS, what [diskutil] reports for one or all disks. *)
Context (is_file : string → bool).
Context (lsblk_info : Config → list DevInfo → option (list string) → bool → outcome (list LsBlkDevice)).
Context (diskutil : option string → Labels → PvCollector → list Entry →
                    outcome (PvCollector * list Entry)).

Record Listing := mkListing {
  ls_entries : list Entry; ls_pv : PvCollector; ls_qcow2 : list Qcow2ListImage }.

Definition device_iter (os : TargetOS) (disks : option (list string)) : list (option string) :=
  match disks, os with
  | None, MacOS => [None]
  | None, LinuxHost => (λ n, Some ("/dev/" +:+ n)) <$> enumerate_physical_disks
  | Some slice, _ => Some <$> slice
  end.

Definition process_image (filter : Labels) (l : Listing) (path : string) : outcome Listing :=
  let image_name := default path (path.file_name path) in
  if bool_decide (from_path path = Qcow2) then
    d ← unprobed_image path None;
    Ok (mkListing (ls_entries l) (ls_pv l)
          (ls_qcow2 l ++ [{| q_dev_info := d; q_path := path; q_image_name := image_name |}]))
  else
    probe_devs ← probe_image open_file path;
    if decide (probe_devs = []) then Ok l
    else
      '(entry, pv) ← render_raw_image_entry path image_name probe_devs filter (ls_pv l);
      Ok (mkListing (ls_entries l ++ [entry]) (default (ls_pv l) pv) (ls_qcow2 l)).

Definition process_disk (os : TargetOS) (filter : Labels) (l : Listing) (disk : option string) :
    outcome Listing :=
  match disk with
  | Some path =>
      if is_file path then process_image filter l path
      else
        match os with
        | LinuxHost =>
            '(entry, pv) ← process_block_device path filter (ls_pv l);
            Ok (mkListing (ls_entries l ++ option_list entry) pv (ls_qcow2 l))
        | MacOS =>
            '(pv, es) ← diskutil disk filter (ls_pv l) (ls_entries l);
            Ok (mkListing es pv (ls_qcow2 l))
        end
  | None =>
      match os with
      | LinuxHost => Ok l
      | MacOS =>
          '(pv, es) ← diskutil disk filter (ls_pv l) (ls_entries l);
          Ok (mkListing es pv (ls_qcow2 l))
      end
  end.

(** The devices of the inspection VM: qcow2 images, then what was collected. *)
Definition guest_dev_infos (l : Listing) : list DevInfo :=
  (q_dev_info <$> ls_qcow2 l) ++ dev_infos (ls_pv l).
Definition guest_dev_idents (l : Listing) : list string :=
  (q_image_name <$> ls_qcow2 l) ++ dev_idents (ls_pv l).

Definition guest_enc_partitions (l : Listing) (given : option (list string)) : option (list string) :=
  if decide (dev_infos (ls_pv l) = []) then None
  else if decrypt_all (ls_pv l) then Some (enc_partitions (ls_pv l))
  else given.

(** Rows of the inspection, when it works; otherwise a message. *)
Definition inspect (config : Config) (given : option (list string)) (filter : Labels) (l : Listing) :
    outcome (list Entry) :=
  if decide (ls_qcow2 l = [] ∧ dev_infos (ls_pv l) = []) then Ok (ls_entries l)
  else
    match lsblk_info config (guest_dev_infos l) (guest_enc_partitions l given) (pv_assemble_raid (ls_pv l)) with
    | Ok lsblk =>
        es ← render_qcow2_image_entries lsblk (ls_qcow2 l) filter (ls_entries l);
        vol_map ← from_lsblk lsblk (guest_dev_idents l);
        build_entries vol_map es
    | Err _ => Ok (ls_entries l)
    | Panic => Panic
    end.

Definition list_partitions (os : TargetOS) (config : Config) (disks given : option (list string))
    (filter : Labels) : outcome (list Entry) :=
  l ← foldM (process_disk os filter) (mkListing [] (PvCollector_new given) []) (device_iter os disks);
  inspect config given filter l.
End sysfs.

(** ** The collected devices *)
Definition pv_kind (fs_type : string) : bool :=
  bool_decide (fs_type = "LVM2_member" ∨ fs_type = "linux_raid_member").

Definition type_of (d : DevInfo) : string := default "" (DevInfo.fs_type d).

(** Devices and identifiers go together; the devices are members of volumes, or
    encrypted when decryption was asked for; RAID is assembled when one of them
    is a member; ["all"] stands for the encrypted ones. *)
Definition pv_inv (pv : PvCollector) : Prop :=
  length (dev_infos pv) = length (dev_idents pv) ∧
  Forall (λ d, pv_kind (type_of d) || (has_enc_filter pv && is_encrypted_fs (type_of d)) = true)
    (dev_infos pv) ∧
  (pv_assemble_raid pv = true ↔ ∃ d, d ∈ dev_infos pv ∧ type_of d = "linux_raid_member") ∧
  enc_partitions pv =
    if decrypt_all pv then dev_path <$> List.filter (λ d, is_encrypted_fs (type_of d)) (dev_infos pv) else [].

Lemma PvCollector_new_inv given : pv_inv (PvCollector_new given).
Proof.
  split_and!; simpl; [done|constructor| |by destruct given as [[|??]|]; simpl; try case_bool_decide].
  split; [done|]. intros (d & Hd & _). set_solver.
Qed.

(** [List.filter] at the end of a list. *)
Lemma filter_snoc {A} (p : A → bool) l x : List.filter p (l ++ [x]) = List.filter p l ++ if p x then [x] else [].
Proof. rewrite List.filter_app. simpl. by destruct (p x). Qed.

(** The collector keeps the invariant when it is told the type and the path of
    the device. *)
Lemma try_collect_inv pv d ident fs :
  pv_inv pv → type_of d = fs → pv_inv (try_collect pv d ident (dev_path d) fs).2.
Proof.
  intros (Hl & Hk & Hr & He) <-. unfold try_collect. simpl.
  destruct (bool_decide (type_of d = "linux_raid_member")) eqn:Er; simpl.
  - apply bool_decide_eq_true in Er. rewrite orb_true_r. simpl.
    assert (is_encrypted_fs (type_of d) = false) as Hne by by rewrite Er.
    split_and!; simpl.
    + rewrite !length_app. simpl. lia.
    + apply Forall_app. split; [done|]. constructor; [|done]. unfold pv_kind.
      by rewrite bool_decide_eq_true_2 by auto.
    + split; [|done]. intros _. exists d. split; [set_solver|done].
    + rewrite filter_snoc, Hne, andb_false_r, !app_nil_r. exact He.
  - apply bool_decide_eq_false in Er. rewrite orb_false_r.
    assert (∀ x, x ∈ dev_infos pv ++ [d] ∧ type_of x = "linux_raid_member" ↔
                 x ∈ dev_infos pv ∧ type_of x = "linux_raid_member") as Hx.
    { intros x. rewrite elem_of_app, list_elem_of_singleton. naive_solver. }
    destruct (bool_decide (type_of d = "LVM2_member") || (has_enc_filter pv && is_encrypted_fs (type_of d))) eqn:Ec;
      simpl; [|by split_and!].
    split_and!; simpl.
    + rewrite !length_app. simpl. lia.
    + apply Forall_app. split; [done|]. constructor; [|done]. unfold pv_kind.
      apply orb_true_iff in Ec as [Ec|Ec]; [|by rewrite Ec, orb_true_r].
      apply bool_decide_eq_true in Ec. by rewrite bool_decide_eq_true_2 by auto.
    + rewrite Hr. split; intros (x & Hx'); exists x; by apply Hx.
    + rewrite filter_snoc, He. destruct (decrypt_all pv); simpl; [|done].
      rewrite fmap_app. by destruct (is_encrypted_fs (type_of d)).
Qed.

(** A block whose parts tell their own type and path. *)
Definition block_wf (b : PlainBlockDevice) : Prop :=
  (∀ d, pb_dev_info b = Some d → type_of d = default "" (pb_fs_type b) ∧ dev_path d = pb_disk_path b) ∧
  (∀ p d, p ∈ pb_partitions b → pp_dev_info p = Some d →
     type_of d = pp_fs_type p ∧ dev_path d = pp_disk_path p).

Lemma collect_opt_keeps pv d ident path fs :
  pv_inv pv → (∀ d', d = Some d' → type_of d' = fs ∧ dev_path d' = path) →
  ∃ pv', collect_opt (Some pv) d ident path fs = Some pv' ∧ pv_inv pv'.
Proof.
  intros Hp Hd. destruct d as [d|]; simpl; [|eauto]. eexists; split; [done|].
  destruct (Hd d eq_refl) as [<- <-]. by apply try_collect_inv.
Qed.

Lemma render_inv b filter pv e pv' :
  block_wf b → pv_inv pv → render_plain_block_tree b filter (Some pv) = Ok (e, pv') →
  ∃ p, pv' = Some p ∧ pv_inv p.
Proof.
  intros [Hb Hps] Hp. unfold render_plain_block_tree. destruct (pb_pt_type b) as [pt|].
  - intros Hf. apply (foldM_invariant (partition_step b filter) (λ acc, ∃ p, acc.2 = Some p ∧ pv_inv p))
      in Hf; [done| |eauto].
    intros [en o] pp [en' o'] Hin (p & Ho & Hpi). simpl in Ho. subst o. unfold partition_step.
    destruct (negb _); [intros [= <- <-]; eauto|].
    destruct (collect_opt_keeps p (pp_dev_info pp) (pb_ident b) (pp_disk_path pp) (pp_fs_type pp))
      as (p' & Hp' & Hinv); [done|by intros; apply Hps|].
    rewrite Hp'. intros Hm. inv_ok. eauto.
  - destruct (shows _ _); [|intros Hm; inv_ok; eauto].
    destruct (collect_opt_keeps pv (pb_dev_info b) (pb_ident b) (pb_disk_path b) (default "" (pb_fs_type b)))
      as (p' & Hp' & Hinv); [done|by intros; apply Hb|].
    rewrite Hp'. intros Hm. inv_ok. eauto.
Qed.

(** *** Where the devices come from *)
Lemma insert_by_num_elem x l y : y ∈ insert_by_num x l → y = x ∨ y ∈ l.
Proof. induction l as [|z l IH]; simpl; [set_solver|]. destruct (decide _); set_solver. Qed.

Section collected.
Context (read_to_string : string → option string) (read_dir : string → option (list string)).
Context `{Blkid} (get_info : string → DiskInfo) (open_file : string → outcome unit).

Lemma pv_path path d : DevInfo.pv get_info path false = Ok d → dev_path d = (device_paths path).1.
Proof.
  unfold DevInfo.pv. destruct (decide (path = "")); [done|].
  destruct (device_paths path) as [p rp]. intros Hd. inv_ok. done.
Qed.

Lemma probe_partitions_path path fmt i parts ds :
  probe_partitions path fmt i parts = Ok ds → ∀ d, d ∈ ds → dev_path d = path.
Proof.
  revert i ds; induction parts as [|p parts IH]; intros i ds Hp; simpl in Hp; inv_ok; [set_solver|].
  intros d [->|Hin]%elem_of_cons; [|by eapply IH].
  unfold probe_partition in Hx. by inv_ok.
Qed.

Lemma probe_image_path path ds : probe_image open_file path = Ok ds → ∀ d, d ∈ ds → dev_path d = path.
Proof.
  unfold probe_image. destruct (decide (path = "")); [done|]. intros Hp. inv_ok. cbv zeta in Hp.
  destruct (get_partitions _) as [[parts|e|]|e|]; inv_ok;
    (intros d [->|Hin]%elem_of_cons; [done|]); try set_solver.
  by eapply probe_partitions_path.
Qed.

Lemma raw_image_block_wf path name ds b :
  (∀ d, d ∈ ds → dev_path d = path) → raw_image_plain_block path name ds = Ok b → block_wf b.
Proof.
  intros Hd. unfold raw_image_plain_block. destruct ds as [|w rest]; [done|]. intros [= <-].
  split; simpl.
  - intros d [= <-]. split; [done|]. apply Hd. set_solver.
  - intros p d (i & x & -> & Hx)%elem_of_lookup_imap. simpl. intros [= <-].
    split; [done|]. apply Hd. apply elem_of_cons. right. by eapply list_elem_of_lookup_2.
Qed.

(** No name of the kernel is one that macOS gives a second name to. *)
Context (plain_names : ∀ dir names n, read_dir dir = Some names → n ∈ names →
  device_paths ("/dev/" +:+ n) = ("/dev/" +:+ n, "/dev/" +:+ n)).

Lemma partition_names_plain disk n :
  n ∈ list_partition_names_sysfs read_to_string read_dir disk →
  device_paths ("/dev/" +:+ n) = ("/dev/" +:+ n, "/dev/" +:+ n).
Proof.
  unfold list_partition_names_sysfs. cbv zeta. destruct (read_dir _) as [names|] eqn:Ed; [|set_solver].
  set (parts := omap _ names). intros Hn.
  assert (∀ x : N * string, x ∈ parts → x.2 ∈ names) as Hparts.
  { intros x (name & Hin & Hx)%list_elem_of_omap. apply bind_Some in Hx as (k & _ & [= <-]). done. }
  apply list_elem_of_fmap in Hn as ([k n'] & -> & Hin). simpl.
  apply (plain_names _ _ _ Ed). change n' with (k, n').2. apply Hparts.
  clear -Hin. induction parts as [|p parts IH]; simpl in *; [set_solver|].
  apply insert_by_num_elem in Hin as [->|Hin]; set_solver.
Qed.

Lemma probed_row_inv disk filter e pv i n e' pv' :
  n ∈ list_partition_names_sysfs read_to_string read_dir disk → pv_inv pv →
  probed_row read_to_string get_info disk filter (e, pv) (i, n) = Ok (e', pv') → pv_inv pv'.
Proof.
  intros Hn Hp. apply partition_names_plain in Hn. unfold probed_row.
  destruct (DevInfo.pv get_info ("/dev/" +:+ n) false) as [d|m|] eqn:Ed; [| |done].
  - apply pv_path in Ed. rewrite Hn in Ed. simpl in Ed.
    destruct (_ && _); [intros Hm; by inv_ok|]. intros Hm. inv_ok. simpl. rewrite <-Ed.
    by apply try_collect_inv.
  - destruct (_ && _); [intros Hm; by inv_ok|]. intros Hm. by inv_ok.
Qed.

Lemma process_block_device_inv path filter pv o pv' :
  pv_inv pv →
  process_block_device read_to_string read_dir get_info open_file path filter pv = Ok (o, pv') →
  pv_inv pv'.
Proof.
  intros Hp. unfold process_block_device. destruct (path.file_name path) as [name|]; [|intros Hm; by inv_ok].
  destruct (probe_image open_file path) as [ds|m|] eqn:Ei; [| |done]; cbv zeta; intros Hm; inv_ok.
  - assert (∀ w, head ds = Some w → dev_path w = path) as Hw.
    { intros w Hw. eapply probe_image_path; [exact Ei|]. destruct ds; simplify_eq/=. set_solver. }
    simpl in Hm. destruct (head ds) as [w|] eqn:Ew; simpl in Hm.
    + destruct (pt_type w) as [pt|]; [|destruct (DevInfo.fs_type w) as [t|] eqn:Et].
      * apply outcome_bind_Ok in Hm as ([e1 pv1] & Hf & Hm). inv_ok.
        eapply (foldM_invariant _ (λ acc : Entry * PvCollector, pv_inv acc.2)) in Hf; [exact Hf| |exact Hp].
        intros [e0 pv0] [i n] [e2 pv2] Hin Hp0. unfold indexed in Hin.
        apply elem_of_lookup_imap in Hin as (j & n' & [= -> ->] & Hl).
        apply probed_row_inv; [|done]. by eapply list_elem_of_lookup_2.
      * destruct (negb _); [by inv_ok|]. inv_ok. simpl. rewrite <-(Hw w eq_refl).
        apply try_collect_inv; [done|]. unfold type_of. by rewrite Et.
      * destruct (decide _); by inv_ok.
    + destruct (decide _); by inv_ok.
  - simpl in Hm. destruct (decide _); by inv_ok.
Qed.

Context (is_file : string → bool).
Context (diskutil : option string → Labels → PvCollector → list Entry → outcome (PvCollector * list Entry)).
Abbreviation process_disk_on := (process_disk read_to_string read_dir get_info open_file is_file diskutil).

(** A report of [diskutil] that keeps the invariant of the collector. *)
Definition diskutil_keeps (filter : Labels) : Prop :=
  ∀ disk pv es pv' es', pv_inv pv → diskutil disk filter pv es = Ok (pv', es') → pv_inv pv'.

Lemma process_disk_inv os filter l disk l' :
  (os = MacOS → diskutil_keeps filter) →
  pv_inv (ls_pv l) → process_disk_on os filter l disk = Ok l' → pv_inv (ls_pv l').
Proof.
  intros Hdu Hp.
  assert (∀ d, os = MacOS →
    ('(pv, es) ← diskutil d filter (ls_pv l) (ls_entries l); Ok (mkListing es pv (ls_qcow2 l))) = Ok l' →
    pv_inv (ls_pv l')) as Hmac.
  { intros d Hos Hm. apply outcome_bind_Ok in Hm as ([pv' es] & Hd & Hm). inv_ok. by eapply Hdu. }
  unfold process_disk. destruct disk as [path|]; [|destruct os; [by apply Hmac|by intros [= <-]]].
  destruct (is_file path).
  - unfold process_image. destruct (bool_decide _); intros Hm; inv_ok; [done|].
    destruct (decide _); [by inv_ok|]. apply outcome_bind_Ok in Hm as ([e o] & Hr & Hm). inv_ok.
    unfold render_raw_image_entry in Hr. apply outcome_bind_Ok in Hr as (b & Hb & Hr).
    eapply render_inv in Hr as (p & -> & Hpi); [done| |done].
    eapply raw_image_block_wf; [|exact Hb]. by eapply probe_image_path.
  - destruct os; [by apply Hmac|].
    intros Hm. apply outcome_bind_Ok in Hm as ([o pv'] & Hb & Hm). inv_ok.
    by eapply process_block_device_inv.
Qed.

(** Once all disks and images of a listing are looked at, each device for the
    inspection VM goes with its identifier, and the collector has its invariant. *)
Lemma listing_collects os filter given devices l :
  (os = MacOS → diskutil_keeps filter) →
  foldM (process_disk_on os filter) (mkListing [] (PvCollector_new given) []) devices = Ok l →
  pv_inv (ls_pv l) ∧ length (guest_dev_infos l) = length (guest_dev_idents l).
Proof.
  intros Hdu Hf. assert (pv_inv (ls_pv l)) as Hp.
  { apply (foldM_invariant (process_disk_on os filter) (λ l, pv_inv (ls_pv l))) in Hf; [done| |apply PvCollector_new_inv].
    intros l1 d l2 _. by apply process_disk_inv. }
  split; [done|]. unfold guest_dev_infos, guest_dev_idents. rewrite !length_app, !length_fmap.
  destruct Hp as [-> _]. done.
Qed.
End collected.

(** ** Decryption in the inspection VM *)
(** The command for a device at a position. *)
Definition command_at (infos : list DevInfo) (i : nat) (k : nat) : string :=
  match infos !! k, nth_letter k with
  | Some d, Some letter => decrypt_command i ("/dev/vd" +:+ String letter "") (type_of d)
  | _, _ => ""
  end.

Lemma virt_disk_at infos k d :
  NoDup (dev_path <$> infos) → k < 26 → infos !! k = Some d → is_Some (DevInfo.fs_type d) →
  ∃ letter, nth_letter k = Some letter ∧
    virt_disk_to_decrypt infos (dev_path d) = Ok ("/dev/vd" +:+ String letter "", type_of d).
Proof.
  intros Hnd Hk Hd [t Ht]. destruct (lookup_lt_is_Some_2 letters k) as [c Hc]; [done|].
  exists c. split; [done|]. unfold virt_disk_to_decrypt.
  assert (list_find (λ di, dev_path di = dev_path d) infos = Some (k, d)) as ->.
  { apply list_find_Some. split_and!; [done..|]. intros j y Hj Hlt He.
    assert (j = k); [|lia]. eapply (NoDup_lookup (dev_path <$> infos)); [done| |];
      rewrite list_lookup_fmap; [by rewrite Hj|]. rewrite Hd. simpl. by rewrite He. }
  unfold nth_letter. rewrite Hc. simpl. unfold type_of. by rewrite Ht.
Qed.

Lemma decrypt_script_positions infos ks paths :
  NoDup (dev_path <$> infos) → length infos ≤ 26 →
  Forall2 (λ k p, ∃ d, infos !! k = Some d ∧ dev_path d = p ∧ is_Some (DevInfo.fs_type d)) ks paths →
  decrypt_script infos (Some paths) = Ok (foldr (λ s t, s +:+ t) "" (imap (command_at infos) ks)).
Proof.
  intros Hnd Hlen Hf. unfold decrypt_script, indexed.
  assert (∀ script n, foldM (λ script ip, '(vdev_path, fs_type) ← virt_disk_to_decrypt infos ip.2;
                          Ok (script +:+ decrypt_command ip.1 vdev_path fs_type))
            script (imap (λ i x, (n + i, x)) paths) =
          Ok (script +:+ foldr (λ s t, s +:+ t) "" (imap (λ i k, command_at infos (n + i) k) ks))) as Hgen;
    [|exact (Hgen "" 0)].
  induction Hf as [|k p ks paths (d & Hd & <- & Hs) Hf IH]; intros script n; simpl.
  - by rewrite StrFacts.app_nil_r.
  - destruct (virt_disk_at infos k d) as (c & Hc & ->); [done| |done..|].
    { apply lookup_lt_Some in Hd. lia. }
    cbn [mbind outcome_bind fst snd].
    rewrite (imap_ext _ (λ i x, (S n + i, x))) by (intros; simpl; f_equal; lia).
    rewrite IH. f_equal. rewrite StrFacts.app_assoc. f_equal.
    rewrite Nat.add_0_r. unfold command_at at 2. rewrite Hd, Hc. f_equal.
    f_equal. apply imap_ext. intros. simpl. f_equal. lia.
Qed.

(** The positions of the encrypted devices. *)
Definition encrypted_at (infos : list DevInfo) : list nat :=
  List.filter (λ k, match infos !! k with Some d => is_encrypted_fs (type_of d) | None => false end)
    (seq 0 (length infos)).

Lemma encrypted_positions infos :
  Forall2 (λ k p, ∃ d, infos !! k = Some d ∧ dev_path d = p ∧ is_Some (DevInfo.fs_type d))
    (encrypted_at infos) (dev_path <$> List.filter (λ d, is_encrypted_fs (type_of d)) infos).
Proof.
  unfold encrypted_at.
  assert (∀ pre post, infos = pre ++ post →
    Forall2 (λ k p, ∃ d, infos !! k = Some d ∧ dev_path d = p ∧ is_Some (DevInfo.fs_type d))
      (List.filter (λ k, match infos !! k with Some d => is_encrypted_fs (type_of d) | None => false end)
         (seq (length pre) (length post)))
      (dev_path <$> List.filter (λ d, is_encrypted_fs (type_of d)) post)) as Hgen;
    [|exact (Hgen [] infos eq_refl)].
  intros pre post; revert pre; induction post as [|d post IH]; intros pre Hi; [constructor|].
  assert (infos !! length pre = Some d) as Hd by (rewrite Hi; by apply list_lookup_middle).
  specialize (IH (pre ++ [d])). rewrite length_app, Nat.add_1_r, <-app_assoc in IH. specialize (IH Hi).
  cbn [seq List.filter length]. rewrite Hd.
  destruct (is_encrypted_fs (type_of d)) eqn:Ee; [|exact IH].
  rewrite fmap_cons. constructor; [|exact IH]. exists d. split_and!; [done..|].
  unfold type_of in Ee. by destruct (DevInfo.fs_type d).
Qed.

(** For ["all"] the inspection VM opens each collected encrypted device once,
    at the position it is attached at, and no other device, provided that the
    devices are distinct and there are letters for all. *)
Lemma all_opens_encrypted pv :
  pv_inv pv → decrypt_all pv = true → NoDup (dev_path <$> dev_infos pv) →
  length (dev_infos pv) ≤ 26 →
  decrypt_script (dev_infos pv) (Some (enc_partitions pv)) =
    Ok (foldr (λ s t, s +:+ t) "" (imap (command_at (dev_infos pv)) (encrypted_at (dev_infos pv)))).
Proof.
  intros (_ & _ & _ & He) Hall Hnd Hlen. rewrite He, Hall.
  apply decrypt_script_positions; [done..|]. apply encrypted_positions.
Qed.

(** Two partitions of one raw image have the path of the image: both are opened
    as the whole disk at the first position. *)
Lemma image_partitions_one_device infos k d d' :
  infos !! 0 = Some d → infos !! k = Some d' → dev_path d' = dev_path d →
  is_Some (DevInfo.fs_type d) →
  virt_disk_to_decrypt infos (dev_path d') = Ok ("/dev/vda", type_of d).
Proof.
  intros Hd Hd' He [t Ht]. unfold virt_disk_to_decrypt.
  assert (list_find (λ di, dev_path di = dev_path d') infos = Some (0, d)) as ->.
  { apply list_find_Some. split_and!; [done..|]. intros; lia. }
  simpl. unfold type_of. by rewrite Ht.
Qed.

(** ** Passphrases *)
(** As many lines are written as there are partitions, whichever way they are
    asked for. *)
Lemma passphrases_written prompt mode parts written :
  write_passphrases prompt (passphrase_prompts mode parts) = Ok written →
  length written = length parts.
Proof.
  unfold write_passphrases. destruct mode; simpl.
  - assert (∀ acc, foldM (λ written p, passphrase ← read_passphrase prompt p.1;
        Ok (written ++ replicate p.2 passphrase)) acc ((λ part, (Some part, 1)) <$> parts) = Ok written →
      length written = length acc + length parts) as Hgen; [|by intros ->%Hgen].
    induction parts as [|p parts IH]; intros acc; simpl; [intros [= ->]; lia|].
    intros Hm. inv_ok. apply IH in Hm. rewrite length_app in Hm. simpl in Hm. lia.
  - intros Hm. inv_ok. by rewrite length_replicate.
Qed.

(** ** Rows *)
(** The rows are those of the partitions with a type that is shown. *)
Definition shown_partitions (filter : Labels) (ps : list PlainPartition) : list PlainPartition :=
  List.filter (λ p, shows filter (pp_fs_type p)) ps.

Definition row_of (ident : string) (p : PlainPartition) : outcome string :=
  label ← trunc_with_ellipsis (pp_label p) LABEL_LEN;
  Ok (format_partition_row (pp_number p) (pp_fs_type p) label (pp_size p)
        (ident +:+ "@s" +:+ Str.of_nat (pp_number p))).

Lemma trunc_not_Err s n e : trunc_with_ellipsis s n ≠ Err e.
Proof. unfold trunc_with_ellipsis. by repeat case_decide; try case_match. Qed.

Lemma partition_step_shown block filter e pv p :
  shows filter (pp_fs_type p) = true →
  ∃ pv', partition_step block filter (e, pv) p =
    (row ← row_of (pb_ident block) p; Ok (push_partition e row, pv')).
Proof.
  intros Hs. unfold partition_step, row_of. rewrite Hs. cbv zeta.
  eexists. by destruct (trunc_with_ellipsis _ _).
Qed.

(** A disk with a partition table is shown with one row for each partition
    of a type that is shown, in order; when the label of one of them is eight or
    more characters of three bytes each, such as Japanese, the listing panics. *)
Lemma partition_rows block filter pv pt :
  pb_pt_type block = Some pt →
  (∀ e pv', render_plain_block_tree block filter pv = Ok (e, pv') →
     Forall2 (λ p row, row_of (pb_ident block) p = Ok row)
       (shown_partitions filter (pb_partitions block)) (e_partitions e)) ∧
  (∀ p cs, p ∈ shown_partitions filter (pb_partitions block) →
     pp_label p = encode3 cs → 8 ≤ length cs → Forall (λ c, char3_ok c = true) cs →
     render_plain_block_tree block filter pv = Panic).
Proof.
  intros Hpt. unfold render_plain_block_tree. rewrite Hpt. cbv zeta.
  set (e0 := set_scheme _ _). assert (e_partitions e0 = []) as He0 by done. clearbody e0. split.
  - intros e pv' Hf. change (e_partitions e) with (e_partitions (e, pv').1).
    assert (∀ ps acc acc' done, foldM (partition_step block filter) acc ps = Ok acc' →
      Forall2 (λ p row, row_of (pb_ident block) p = Ok row) done (e_partitions acc.1) →
      Forall2 (λ p row, row_of (pb_ident block) p = Ok row) (done ++ shown_partitions filter ps)
        (e_partitions acc'.1)) as Hgen.
    { induction ps as [|p ps IH]; intros [en o] acc' dn; cbn [foldM].
      - intros [= <-] Hd. by rewrite app_nil_r.
      - intros (acc1 & Hs & Hf')%outcome_bind_Ok Hd. unfold shown_partitions. cbn [List.filter].
        destruct (shows filter (pp_fs_type p)) eqn:Esh.
        + destruct (partition_step_shown block filter en o p Esh) as (o' & Hp). rewrite Hp in Hs.
          inv_ok. replace (dn ++ p :: _) with ((dn ++ [p]) ++ shown_partitions filter ps)
            by by rewrite <-app_assoc.
          eapply IH; [exact Hf'|]. simpl. apply Forall2_app; [done|]. by repeat constructor.
        + unfold partition_step in Hs. rewrite Esh in Hs. injection Hs as <-. by eapply IH. }
    eapply (Hgen _ _ _ []); [exact Hf|]. simpl. by rewrite He0.
  - intros p cs Hp Hlab Hlen Hok. clear He0.
    apply list_elem_of_In, filter_In in Hp as [Hin%list_elem_of_In Hsh].
    revert e0 pv. induction (pb_partitions block) as [|q ps IH]; intros e0 pv; [set_solver|].
    cbn [foldM]. apply elem_of_cons in Hin as [<-|Hin].
    + destruct (partition_step_shown block filter e0 pv p Hsh) as (pv1 & ->).
      unfold row_of. by rewrite Hlab, long_label_panics.
    + destruct (partition_step block filter (e0, pv) q) as [[e1 pv1]|m|] eqn:Eq; [by apply IH| |done].
      exfalso. unfold partition_step in Eq. destruct (negb _); [done|].
      destruct (trunc_with_ellipsis (pp_label q) LABEL_LEN) eqn:Et; try done. by eapply trunc_not_Err.
Qed.

(** ** Witnesses *)
Module Witness.
(** A disk with an encrypted partition and a physical volume. *)
#[local] Instance blkid : Blkid := {
  Probe := string; Partition := unit;
  new_from_filename p := Ok p; enable_superblocks p _ := Ok p; enable_partitions p _ := Ok p;
  set_superblock_flags p _ := Ok p; do_safeprobe p := Ok p;
  lookup_value p key :=
    if decide (key = "PTTYPE" ∧ p = "/dev/sda") then Ok "gpt"
    else if decide (key = "TYPE" ∧ p = "/dev/sda1") then Ok "crypto_LUKS"
    else if decide (key = "TYPE" ∧ p = "/dev/sda2") then Ok "LVM2_member"
    else Err "no value";
  get_size _ := 2000000%Z; get_partitions _ := Err "none"; get_start _ := 0%Z; get_part_size _ := 0%Z;
  probe_new := Ok ""; set_device p _ _ _ := p; enable_superblocks' p _ := p;
  set_superblock_flags' p _ := p; do_safeprobe' p := p;
}.
Definition files : list (string * string) :=
  [("/sys/block/sda/sda1/partition", "1"); ("/sys/block/sda/sda2/partition", "2");
   ("/sys/block/sda/sda1/size", "1000"); ("/sys/block/sda/sda2/size", "2000")].
Definition read_to_string (path : string) : option string := im_get string_eqb path files.
Definition read_dir (path : string) : option (list string) :=
  if decide (path = "/sys/block") then Some ["sda"; "loop0"]
  else if decide (path = "/sys/block/sda") then Some ["sda2"; "sda1"; "queue"]
  else None.
Definition get_info (_ : string) : DiskInfo := DiskInfo_default.
Definition open_file (_ : string) : outcome unit := Ok tt.
Definition is_file (_ : string) : bool := false.
Definition diskutil (_ : option string) (_ : Labels) (pv : PvCollector) (es : list Entry) :
  outcome (PvCollector * list Entry) := Ok (pv, es).
Definition step := process_disk read_to_string read_dir get_info open_file is_file diskutil LinuxHost.
Definition start : Listing := mkListing [] (PvCollector_new (Some ["all"])) [].
Definition collected : Listing :=
  match foldM (step ALL_LABELS) start [Some "/dev/sda"] with Ok l => l | _ => start end.

Lemma plain_names dir names n : read_dir dir = Some names → n ∈ names →
  device_paths ("/dev/" +:+ n) = ("/dev/" +:+ n, "/dev/" +:+ n).
Proof.
  unfold read_dir. intros Hd Hn.
  destruct (decide _); [|destruct (decide _); [|done]]; simplify_eq; apply list_elem_of_In in Hn;
    repeat destruct Hn as [<-|Hn]; try done; vm_compute; reflexivity.
Qed.

(** The text of this listing. *)
Example listing_text :
  list_display (ls_entries collected) = Str.join newline
    ["/dev/sda (internal, physical):";
     "   #:                       TYPE NAME                    SIZE       IDENTIFIER";
     "   0:      GUID_partition_scheme                        *2.0 MB     sda";
     "   1:                crypto_LUKS                         512.0 KB   sda1";
     "   2:                LVM2_member                         1.0 MB     sda2"].
Proof. vm_compute. reflexivity. Qed.

Definition device (path type : string) : DevInfo := set_fs_type
  {| dev_path := path; dev_rpath := path; is_image := false; block_size := None; dev_label := None;
     DevInfo.fs_type := None; uuid := None; pt_type := None; vm_path := "/dev/vda"; vm_part_idx := None;
     dev_fs_driver := None; da_info := DiskInfo_default; size_bytes := None; disk_format := Raw;
     metadata_probed := true |} type.
Definition three : PvCollector :=
  mkPv [device "/dev/sda1" "crypto_LUKS"; device "/dev/sdb1" "LVM2_member"; device "/dev/sdc1" "BitLocker"]
    ["sda1"; "sdb1"; "sdc1"] ["/dev/sda1"; "/dev/sdc1"] false true true.

Example all_opens_encrypted_witness :
  decrypt_script (dev_infos three) (Some (enc_partitions three)) =
    Ok (foldr (λ s t, s +:+ t) "" (imap (command_at (dev_infos three)) (encrypted_at (dev_infos three)))) ∧
  foldr (λ s t, s +:+ t) "" (imap (command_at (dev_infos three)) (encrypted_at (dev_infos three))) =
    "cryptsetup open /dev/vda luks0; cryptsetup bitlkOpen /dev/vdc btlk1; ".
Proof.
  split; [|vm_compute; reflexivity].
  apply (all_opens_encrypted three).
  - split_and!; [reflexivity|repeat constructor| |reflexivity].
    split; [intros [=]|]. intros (d & Hd & Ht). apply list_elem_of_In in Hd.
    repeat destruct Hd as [<-|Hd]; [vm_compute in Ht; discriminate..|destruct Hd].
  - reflexivity.
  - apply (bool_decide_unpack _). vm_compute. reflexivity.
  - vm_compute. repeat constructor.
Defined.

Definition labelled (n : nat) (fs label : string) : PlainPartition := {|
  pp_number := n; pp_fs_type := fs; pp_label := label; pp_size := "1.0 GB"; pp_dev_info := None;
  pp_disk_path := "" |}.
Definition block (label : string) : PlainBlockDevice := {|
  pb_title := "a.img (disk image):"; pb_ident := "a.img"; pb_size_prefix := "+"%char; pb_size := "2.0 GB";
  pb_pt_type := Some "gpt"; pb_fs_type := None; pb_label := None; pb_dev_info := None; pb_disk_path := "a.img";
  pb_partitions := [labelled 1 "vfat" "EFI"; labelled 2 "ntfs" label] |}.
Definition japanese : string := encode3 (replicate 8 ListFmt.Witness.de).

Example partition_rows_witness :
  shown_partitions ALL_LABELS (pb_partitions (block japanese)) = [labelled 2 "ntfs" japanese] ∧
  render_plain_block_tree (block japanese) ALL_LABELS None = Panic.
Proof.
  split; [vm_compute; reflexivity|].
  eapply (proj2 (partition_rows (block japanese) ALL_LABELS None "gpt" eq_refl)
            (labelled 2 "ntfs" japanese) (replicate 8 ListFmt.Witness.de)).
  - apply list_elem_of_In. vm_compute. left. reflexivity.
  - reflexivity.
  - vm_compute. repeat constructor.
  - apply Forall_replicate. vm_compute. reflexivity.
Defined.
End Witness.
