(* ===== verification/Darwin.v ===== *)
(** * The listing on macOS ([diskutil/darwin.rs]: [process_disk_via_diskutil] and
      what it reads)

    [diskutil list] is run twice, for its property list and for its text; the
    rows of the text that name a partition to show are amended with what libblkid
    finds. The commands and the regular expressions are third-party. *)
From S2P Require Import Prelude Common Paths Settings DevInfo ListFmt Lsblk Volumes.
From Stdlib Require Import Ascii.

(** ** The property list *)
Record Partition := mkPartition { p_content : option string; p_device_identifier : string }.
Record Disk := mkDisk {
  d_content : option string; d_device_identifier : string; d_partitions : option (list Partition) }.
Record Plist := mkPlist { all_disks_and_partitions : list Disk; error_message : option string }.

Definition disks_without_partition_table (plist : Plist) : list string :=
  omap (λ disk,
    if bool_decide (d_partitions disk = None ∧ d_content disk = Some "") then Some (d_device_identifier disk) else None)
    (all_disks_and_partitions plist).

Definition has_part_type (part_types : list string) (p : Partition) : bool :=
  existsb (λ fs_type, bool_decide (p_content p = Some fs_type)) part_types.
Definition partitions_with_part_type (plist : Plist) (part_types : list string) : list string :=
  disk ← all_disks_and_partitions plist;
  partitions ← option_list (d_partitions disk);
  p_device_identifier <$> List.filter (has_part_type part_types) partitions.

(** ** Rows of text *)
Definition BLANK_LABEL : string := Str.repeat " " 23.

(** [augment_line] *)
Definition augment_line (line part_type : string) (dev_info : option DevInfo) (fs_type : string) : outcome string :=
  label ← trunc_with_ellipsis (default BLANK_LABEL (d ← dev_info; dev_label d)) 23;
  let part_type_width := 27 `max` (String.length part_type + 1) in
  let width_diff := part_type_width - 27 in
  let line := replace (pad_left part_type_width part_type) (pad_left 27 fs_type +:+ pad_right width_diff "") line in
  Ok (replace (pad_left 27 fs_type +:+ " " +:+ pad_right 23 "") (pad_left 27 fs_type +:+ " " +:+ pad_right 23 label) line).

(** The columns of a row stay where they are: a row that is amended has as many
    characters as before. *)
Lemma char_count_app s t : char_count (s +:+ t) = char_count s + char_count t.
Proof.
  induction s as [|c s IH]; [done|]. change (String c s +:+ t) with (String c (s +:+ t)).
  cbn [char_count]. rewrite IH. lia.
Qed.

Lemma char_count_spaces n : char_count (Str.repeat " " n) = n.
Proof. induction n as [|n IH]; [done|]. cbn [Str.repeat char_count]. by rewrite IH. Qed.

Lemma char_count_length s : char_count s ≤ String.length s.
Proof. induction s as [|c s IH]; simpl; [lia|]. destruct (is_cont c); lia. Qed.

Lemma char_count_space s : char_count (String " " s) = S (char_count s).
Proof. done. Qed.

(** The characters of padded texts put together. *)
Ltac count_chars :=
  unfold pad_left, pad_right in *;
  repeat rewrite ?char_count_space, ?char_count_app, ?char_count_spaces in *;
  change (char_count "") with 0 in *; lia.

Lemma char_count_replace pat rep s :
  pat ≠ "" → char_count pat = char_count rep → char_count (replace pat rep s) = char_count s.
Proof.
  intros Hp Hc. unfold replace. remember (String.length s) as n eqn:Hn.
  revert s Hn. induction n as [n IH] using lt_wf_ind. intros [|c s] ->; [done|].
  cbn [replace_go]. destruct (Str.starts_with pat (String c s)) eqn:Hs.
  - apply StrFacts.starts_with_spec in Hs as (r & Hr). destruct pat as [|a pat]; [done|].
    change (String a pat +:+ r) with (String a (pat +:+ r)) in Hr. injection Hr as -> ->.
    cbn [String.length]. rewrite Nat.sub_1_r. cbn [Nat.pred]. rewrite replace_go_skip, char_count_app, <-Hc.
    change (String a (pat +:+ r)) with (String a pat +:+ r).
    rewrite (IH (String.length r)); [by rewrite char_count_app| |done].
    cbn. rewrite StrFacts.length_app. lia.
  - cbn [char_count]. f_equal. apply (IH (String.length s)); [cbn; lia|done].
Qed.

Lemma augment_keeps_columns line part_type dev_info fs_type row :
  char_count fs_type ≤ 27 → augment_line line part_type dev_info fs_type = Ok row → char_count row = char_count line.
Proof.
  intros Hf. unfold augment_line. intros (label & Hl & Hm)%outcome_bind_Ok. cbv zeta in Hm. inv_ok.
  assert (char_count label ≤ 23) as Hlab.
  { pose proof (trunc_with_ellipsis_spec (default BLANK_LABEL (d ← dev_info; dev_label d)) 23) as Hspec.
    rewrite Hl in Hspec. pose proof (char_count_length label). destruct Hspec as [[? ->]|(? & ? & _)]; lia. }
  pose proof (char_count_length part_type).
  rewrite !char_count_replace; [done|..].
  - intros He%(f_equal char_count). count_chars.
  - count_chars.
  - intros He%(f_equal char_count). count_chars.
  - count_chars.
Qed.

(** The regular expressions: a numbered row, and the first of the types that is
    found in a row, as a text without special characters each. *)
Class Regex := {
  is_numbered : string → bool;
  find_part_type : list string → string → option string;
}.
Class RegexLaws `{Regex} := find_part_type_in : ∀ types line t, find_part_type types line = Some t → t ∈ types.

Section diskutil.
Context `{Regex} `{Blkid} (get_info : string → DiskInfo).
(** [diskutil list -plist]: what it prints as a property list, and whether it
    succeeds; [diskutil list]: its text when it succeeds. *)
Context (diskutil_plist : option string → outcome Plist * bool) (diskutil_text : option string → option string).

Definition diskutil_list_from_plist (disk : option string) : outcome Plist :=
  let '(parsed, success) := diskutil_plist disk in
  plist ← with_context "Failed to parse plist" parsed;
  if success : bool then Ok plist else Err (default "diskutil command failed" (error_message plist)).

(** The entries, of which the last one is current when this call has made it. *)
Record State := mkState { s_entries : list Entry; s_current : bool; s_pv : PvCollector }.

(** [current_entry.as_mut().map(f)] *)
Definition on_current (f : Entry → Entry) (s : State) : State :=
  mkState (if s_current s
           then match last (s_entries s) with Some e => removelast (s_entries s) ++ [f e] | None => s_entries s end
           else s_entries s)
    (s_current s) (s_pv s).
Definition set_pv (pv : PvCollector) (s : State) : State := mkState (s_entries s) (s_current s) pv.

Definition push_header (l : string) (e : Entry) : Entry := mkEntry (e_disk e) (e_header e +:+ l) (e_scheme e) (e_partitions e).
Definition push_scheme (l : string) (e : Entry) : Entry := mkEntry (e_disk e) (e_header e) (e_scheme e +:+ l) (e_partitions e).

Definition probed (dev_ident : string) : outcome (option DevInfo) :=
  match DevInfo.pv get_info ("/dev/" +:+ dev_ident) false with
  | Ok d => Ok (Some d)
  | Err _ => Ok None
  | Panic => Panic
  end.

(** A row whose type is one to show. *)
Definition partition_row (selected : list string) (s : State) (line dev_ident part_type : string) : outcome State :=
  if negb (bool_decide (dev_ident ∈ selected)) then Ok s
  else
    dev_info ← probed dev_ident;
    match dev_info with
    | Some d =>
        let fs_type := default part_type (DevInfo.fs_type d) in
        let pv := (try_collect (s_pv s) d dev_ident ("/dev/" +:+ dev_ident) fs_type).2 in
        line ← augment_line line part_type (Some d) fs_type;
        Ok (on_current (λ e, push_partition e line) (set_pv pv s))
    | None => Ok (on_current (λ e, push_partition e line) s)
    end.

(** The row of a disk without a partition table. *)
Definition whole_disk_row (filter : Labels) (s : State) (line dev_ident : string) : outcome State :=
  dev_info ← probed dev_ident;
  let fs_type := default "Unknown" (d ← dev_info; DevInfo.fs_type d) in
  if negb (bool_decide (fs_type = "Unknown")) && negb (shows filter fs_type) then Ok s
  else
    let pv := match dev_info with
              | Some d => (try_collect (s_pv s) d dev_ident ("/dev/" +:+ dev_ident) fs_type).2
              | None => s_pv s
              end in
    line ← augment_line line "" dev_info fs_type;
    Ok (on_current (λ e, push_partition e line) (set_pv pv s)).

Definition process_line (plist : Plist) (filter : Labels) (s : State) (line : string) : outcome State :=
  if Str.starts_with "/dev/disk" line then Ok (mkState (s_entries s ++ [Entry_new line]) true (s_pv s))
  else if Str.starts_with "#:" (Str.trim_start line) then Ok (on_current (push_header line) s)
  else if is_numbered line then
    match last_word 0 None "" line with
    | None => Ok s
    | Some dev_ident =>
        match find_part_type (part_types filter) line with
        | Some part_type => partition_row (partitions_with_part_type plist (part_types filter)) s line dev_ident part_type
        | None =>
            if Str.starts_with "0:" (Str.trim_start line) then
              if bool_decide (dev_ident ∈ disks_without_partition_table plist)
              then whole_disk_row filter s line dev_ident
              else Ok (on_current (push_scheme line) s)
            else Ok s
        end
    end
  else Ok s.

Definition process_disk_via_diskutil (disk : option string) (filter : Labels) (pv : PvCollector) (disk_entries : list Entry) :
    outcome (PvCollector * list Entry) :=
  plist_out ← diskutil_list_from_plist disk;
  stdout ← ok_or "diskutil command failed" (diskutil_text disk);
  s ← foldM (process_line plist_out filter) (mkState disk_entries false pv) (Str.lines stdout);
  Ok (s_pv s, s_entries s).

(** ** What a row does to the entries and to the collector *)
(** The entries of this call follow those given; one of them is current. *)
Definition appended (es : list Entry) (s : State) : Prop :=
  ∃ new, s_entries s = es ++ new ∧ (s_current s = true → new ≠ []).

Lemma on_current_appended es f s : appended es s → appended es (on_current f s).
Proof.
  intros (new & He & Hc). unfold appended, on_current. simpl. destruct (s_current s); [|by exists new].
  destruct new as [|e new _] using rev_ind; [by destruct Hc|].
  rewrite He, app_assoc, last_snoc, removelast_last, <-app_assoc.
  exists (new ++ [f e]). split; [done|]. by destruct new.
Qed.

Lemma set_pv_appended es pv s : appended es s → appended es (set_pv pv s).
Proof. done. Qed.

(** A type that nothing is collected for. *)
Definition not_collected (t : string) : bool := negb (pv_kind t) && negb (is_encrypted_fs t).

Lemma try_collect_not_collected pv d ident path t :
  not_collected t = true → (try_collect pv d ident path t).2 = pv.
Proof.
  unfold not_collected, try_collect, pv_kind.
  intros [[Hl Hr]%negb_true_iff%bool_decide_eq_false%Decidable.not_or ->%negb_true_iff]%andb_true_iff.
  rewrite !bool_decide_eq_false_2, andb_false_r by done. done.
Qed.

(** None of the types of partitions that are shown is the name of a file system
    that is collected. *)
Definition plain_part_types (filter : Labels) : bool := forallb not_collected (part_types filter).

Lemma shown_plain filter : filter ∈ [ALL_LABELS; LINUX_LABELS; WINDOWS_LABELS] → plain_part_types filter = true.
Proof.
  assert (forallb plain_part_types [ALL_LABELS; LINUX_LABELS; WINDOWS_LABELS] = true) as Ha by (vm_compute; reflexivity).
  rewrite forallb_forall in Ha. intros Hf. by apply Ha, list_elem_of_In.
Qed.

Lemma device_paths_disk ident :
  Str.starts_with "disk" ident = true → (device_paths ("/dev/" +:+ ident)).1 = "/dev/" +:+ ident.
Proof.
  intros Hs. unfold device_paths.
  assert (Str.starts_with BUF_PREFIX ("/dev/" +:+ ident) = true) as ->; [|done].
  unfold Str.starts_with in *. exact Hs.
Qed.

Lemma probed_path ident d :
  Str.starts_with "disk" ident = true → probed ident = Ok (Some d) → dev_path d = "/dev/" +:+ ident.
Proof.
  intros Hs. unfold probed. destruct (DevInfo.pv _ _ _) as [d'|e|] eqn:Ed; [|done..].
  intros [= ->]. apply pv_path in Ed. by rewrite Ed, device_paths_disk.
Qed.

Lemma probed_collect pv ident d t :
  Str.starts_with "disk" ident = true → probed ident = Ok (Some d) → not_collected t = true → pv_inv pv →
  pv_inv (try_collect pv d ident ("/dev/" +:+ ident) (default t (DevInfo.fs_type d))).2.
Proof.
  intros Hs Hd Ht Hp. apply probed_path in Hd; [|done]. rewrite <-Hd. destruct (DevInfo.fs_type d) as [fs|] eqn:Ef.
  - apply try_collect_inv; [done|]. unfold type_of. by rewrite Ef.
  - by rewrite try_collect_not_collected.
Qed.

(** Identifiers in the property list are names of disks. *)
Definition names_disk (i : string) : Prop := Str.starts_with "disk" i = true.
Definition plist_ok (p : Plist) : Prop :=
  Forall (λ d, names_disk (d_device_identifier d) ∧
               Forall (λ q, names_disk (p_device_identifier q)) (default [] (d_partitions d)))
    (all_disks_and_partitions p).

Lemma without_partition_table_ok p i : plist_ok p → i ∈ disks_without_partition_table p → names_disk i.
Proof.
  unfold plist_ok. rewrite Forall_forall. intros Hp (d & Hd & Hi)%list_elem_of_omap.
  case_bool_decide; simplify_eq. by apply Hp.
Qed.

Lemma partitions_ok p types i : plist_ok p → i ∈ partitions_with_part_type p types → names_disk i.
Proof.
  unfold plist_ok, partitions_with_part_type. rewrite Forall_forall. intros Hp (d & Hi & Hd)%list_elem_of_bind.
  apply list_elem_of_bind in Hi as (ps & (q & -> & Hq)%list_elem_of_fmap & Hps).
  apply list_elem_of_In, filter_In in Hq as [Hq%list_elem_of_In _].
  destruct (Hp d Hd) as [_ Hf]. destruct (d_partitions d) as [ps'|]; simpl in *; [|set_solver].
  apply list_elem_of_singleton in Hps as ->. rewrite Forall_forall in Hf. by apply Hf.
Qed.

Definition row_inv (es : list Entry) (s : State) : Prop := appended es s ∧ pv_inv (s_pv s).

Lemma partition_row_inv selected es s line ident t s' :
  (∀ i, i ∈ selected → names_disk i) → not_collected t = true → row_inv es s →
  partition_row selected s line ident t = Ok s' → row_inv es s'.
Proof.
  intros Hsel Ht [Ha Hp]. unfold partition_row. case_bool_decide as Hi; simpl; [|by intros [= <-]].
  destruct (probed ident) as [[d|]|e|] eqn:Ed; simpl; intros Hm; inv_ok;
    (split; [by apply on_current_appended|]); [|done].
  simpl. apply probed_collect; [by apply Hsel|done..].
Qed.

Lemma whole_disk_row_inv filter es s line ident s' :
  names_disk ident → row_inv es s → whole_disk_row filter s line ident = Ok s' → row_inv es s'.
Proof.
  intros Hi [Ha Hp]. unfold whole_disk_row.
  destruct (probed ident) as [o|e|] eqn:Ed; simpl; [|done..].
  destruct (_ && _); [by intros [= <-]|]. intros Hm. inv_ok.
  split; [by apply on_current_appended|]. destruct o as [d|]; simpl; [|done].
  by apply probed_collect.
Qed.

Lemma process_line_inv `{!RegexLaws} plist filter es s line s' :
  plist_ok plist → plain_part_types filter = true → row_inv es s →
  process_line plist filter s line = Ok s' → row_inv es s'.
Proof.
  intros Hpl Hf [Ha Hp]. unfold process_line.
  destruct (Str.starts_with "/dev/disk" line).
  { intros [= <-]. split; [|done]. destruct Ha as (new & He & _). exists (new ++ [Entry_new line]). simpl.
    rewrite He, app_assoc. split; [done|]. by destruct new. }
  destruct (Str.starts_with "#:" _); [intros [= <-]; split; [by apply on_current_appended|done]|].
  destruct (is_numbered line); [|by intros [= <-]].
  destruct (last_word 0 None "" line) as [ident|]; [|by intros [= <-]].
  destruct (find_part_type _ line) as [t|] eqn:Et.
  - apply partition_row_inv; [intros i; by apply partitions_ok| |done].
    apply find_part_type_in in Et. unfold plain_part_types in Hf. rewrite forallb_forall in Hf.
    by apply Hf, list_elem_of_In.
  - destruct (Str.starts_with "0:" _); [|by intros [= <-]].
    case_bool_decide as Hi.
    + apply whole_disk_row_inv; [by eapply without_partition_table_ok|done].
    + intros [= <-]. split; [by apply on_current_appended|done].
Qed.

(** What [diskutil] prints is about disks. *)
Context `{!RegexLaws}
  (plists_ok : ∀ disk p, diskutil_plist disk = (Ok p, true) → plist_ok p).

(** The rows of a call are added after the entries that are there, and the
    collector keeps its invariant. *)
Lemma process_disk_via_diskutil_inv filter disk pv es pv' es' :
  plain_part_types filter = true → pv_inv pv →
  process_disk_via_diskutil disk filter pv es = Ok (pv', es') → pv_inv pv' ∧ ∃ new, es' = es ++ new.
Proof.
  intros Hf Hp. unfold process_disk_via_diskutil. intros (p & Hpl & Hm)%outcome_bind_Ok.
  apply outcome_bind_Ok in Hm as (out & _ & Hm). apply outcome_bind_Ok in Hm as (s & Hs & Hm). inv_ok.
  assert (plist_ok p) as Hok.
  { unfold diskutil_list_from_plist in Hpl. destruct (diskutil_plist disk) as [parsed success] eqn:Ed.
    destruct parsed as [q|e|]; simpl in Hpl; [|done..]. destruct success; [|done]. simplify_eq. by eapply plists_ok. }
  apply (foldM_invariant _ (row_inv es)) in Hs as [(new & -> & _) ?]; [by eauto| |].
  - intros s1 l s2 _. by apply process_line_inv.
  - split; [|done]. exists []. by rewrite app_nil_r.
Qed.

(** *** The listing on both systems *)
Context (read_to_string : string → option string) (read_dir : string → option (list string)).
Context (open_file : string → outcome unit) (is_file : string → bool).
Context (plain_names : ∀ dir names n, read_dir dir = Some names → n ∈ names →
  device_paths ("/dev/" +:+ n) = ("/dev/" +:+ n, "/dev/" +:+ n)).

End diskutil.

(** ** Witnesses *)
Module Witness.
(** A disk with an encrypted partition and a physical volume. *)
#[local] Instance blkid : Blkid := {
  Probe := string; Partition := unit;
  new_from_filename p := Ok p; enable_superblocks p _ := Ok p; enable_partitions p _ := Ok p;
  set_superblock_flags p _ := Ok p; do_safeprobe p := Ok p;
  lookup_value p key :=
    if decide (key = "TYPE" ∧ p = "/dev/disk4s1") then Ok "crypto_LUKS"
    else if decide (key = "LABEL" ∧ p = "/dev/disk4s2") then Ok "group"
    else if decide (key = "TYPE" ∧ p = "/dev/disk4s2") then Ok "LVM2_member"
    else Err "no value";
  get_size _ := 2000000%Z; get_partitions _ := Err "none"; get_start _ := 0%Z; get_part_size _ := 0%Z;
  probe_new := Ok ""; set_device p _ _ _ := p; enable_superblocks' p _ := p;
  set_superblock_flags' p _ := p; do_safeprobe' p := p;
}.

(** [^\s+\d+:], and the first position where one of the types is found. *)
Fixpoint skip_digits (s : string) : string :=
  match s with String c s' => if Str.is_digit c then skip_digits s' else s | "" => "" end.
Fixpoint find_first (types : list string) (line : string) : option string :=
  match find (λ t, Str.starts_with t line) types with
  | Some t => Some t
  | None => match line with "" => None | String _ l => find_first types l end
  end.
#[local] Instance regex : Regex := {
  is_numbered line :=
    match line, Str.trim_start line with
    | String b _, String c _ =>
        Str.is_space b && Str.is_digit c && Str.starts_with ":" (skip_digits (Str.trim_start line))
    | _, _ => false
    end;
  find_part_type := find_first;
}.
#[local] Instance regex_laws : RegexLaws.
Proof.
  intros types line t. change (find_part_type types line) with (find_first types line).
  induction line as [|c line IH]; cbn [find_first];
    destruct (find _ types) eqn:Ef; try done; intros [= <-]; apply find_some in Ef as [? _]; by apply list_elem_of_In.
Qed.

Definition text : string := Str.join newline
  ["/dev/disk4 (external, physical):";
   "   #:                       TYPE NAME                    SIZE       IDENTIFIER";
   "   0:      GUID_partition_scheme                        *15.5 GB    disk4";
   "   1:           Linux Filesystem                         5.5 GB     disk4s1";
   "   2:                  Linux LVM                         9.9 GB     disk4s2";
   "   3:       Microsoft Basic Data Linux                   0.1 GB     disk4s3"; ""].
Definition plist : Plist :=
  {| all_disks_and_partitions :=
       [{| d_content := Some "GUID_partition_scheme"; d_device_identifier := "disk4";
           d_partitions := Some [{| p_content := Some "Linux Filesystem"; p_device_identifier := "disk4s1" |};
                                 {| p_content := Some "Linux LVM"; p_device_identifier := "disk4s2" |};
                                 {| p_content := Some "Microsoft Basic Data"; p_device_identifier := "disk4s3" |}] |}];
     error_message := None |}.
Definition diskutil_plist (_ : option string) : outcome Plist * bool := (Ok plist, true).
Definition diskutil_text (_ : option string) : option string := Some text.
Definition get_info (_ : string) : DiskInfo := DiskInfo_default.

Lemma plists_ok disk p : diskutil_plist disk = (Ok p, true) → plist_ok p.
Proof. intros [= <-]. repeat constructor. Qed.

Abbreviation step := (process_disk (λ _, None) (λ _, None) get_info (λ _, Ok tt) (λ _, false)
  (process_disk_via_diskutil get_info diskutil_plist diskutil_text) MacOS LINUX_LABELS).
Definition collected : Listing :=
  match foldM step (mkListing [] (PvCollector_new (Some ["all"])) []) [None] with
  | Ok l => l
  | _ => mkListing [] (PvCollector_new None) []
  end.
Lemma collected_eq : foldM step (mkListing [] (PvCollector_new (Some ["all"])) []) [None] = Ok collected.
Proof. vm_compute. reflexivity. Qed.


(** The text of this listing: a row found by its name only is left out. *)
Example diskutil_listing_text :
  list_display (ls_entries collected) = Str.join newline
    ["/dev/disk4 (external, physical):";
     "   #:                       TYPE NAME                    SIZE       IDENTIFIER";
     "   0:      GUID_partition_scheme                        *15.5 GB    disk4";
     "   1:                crypto_LUKS                         5.5 GB     disk4s1";
     "   2:                LVM2_member group                   9.9 GB     disk4s2"].
Proof. vm_compute. reflexivity. Qed.
End Witness.
