(* ===== verification/Events.v ===== *)
(** * Waiting for a share to be mounted and unmounted ([EventSession] of
      [diskutil/linux.rs] and of [diskutil/darwin.rs]), and what is known of a
      disk ([get_info])

    On Linux the mount table is polled; on macOS Disk Arbitration calls back for
    each disk that appears or disappears. *)
From S2P Require Import Prelude Common Paths Fsutil DevInfo Volumes.

(** ** Linux *)
Section polling.
(** In round [n]: is a signal there, what is in the mount table when it can be
    read, and which time (ms) does the clock show. *)
Context (signalled : nat → bool) (mounts : nat → option (list MountEntry)) (now : nat → N).

(** A loop that looks once per round; [None] when the fuel is used up. *)
Fixpoint poll {R} (look : nat → option R) (fuel n : nat) : option R :=
  match fuel with
  | O => None
  | S fuel => match look n with Some r => Some r | None => poll look fuel (S n) end
  end.

Definition find_mount_point_in_proc_mounts (n : nat) (nfs_from : string) : option string :=
  table ← mounts n; fs_file <$> List.find (λ e, bool_decide (fs_spec e = nfs_from)) table.

Definition is_mounted_at (n : nat) (mount_point : string) : bool :=
  match mounts n with
  | Some table => existsb (λ e, bool_decide (fs_file e = mount_point)) table
  | None => false
  end.

(** One round of [wait_for_mount]: the result when it is the last. *)
Definition mount_round (target : string) (deadline : N) (n : nat) : option (option string) :=
  if signalled n then Some None
  else match find_mount_point_in_proc_mounts n target with
       | Some mp => Some (Some mp)
       | None => if (deadline <? now n)%N then Some None else None
       end.

Definition WAIT_MS : N := 10000.
Definition ROUND_MS : N := 200.

(** The loop is entered at the time [start]. *)
Definition wait_for_mount (fuel : nat) (start : N) (nfs_path : string) : option (option string) :=
  poll (mount_round nfs_path (start + WAIT_MS)) fuel 0.

Definition unmount_round (mount_point : string) (n : nat) : option unit :=
  if signalled n then Some tt else if negb (is_mounted_at n mount_point) then Some tt else None.

Definition wait_for_unmount (fuel : nat) (mount_point : string) : option unit :=
  poll (unmount_round mount_point) fuel 0.

(** *** The first round with a result is the last *)
Definition first_round {R} (look : nat → option R) (n : nat) (r : R) : Prop :=
  look n = Some r ∧ ∀ k, k < n → look k = None.

Lemma poll_sound {R} (look : nat → option R) fuel m r :
  poll look fuel m = Some r →
  ∃ n, m ≤ n < m + fuel ∧ look n = Some r ∧ ∀ k, m ≤ k < n → look k = None.
Proof.
  revert m; induction fuel as [|fuel IH]; intros m; [done|]. cbn [poll].
  destruct (look m) as [r'|] eqn:El.
  - intros [= ->]. exists m. split_and!; [lia..|done|]. intros; lia.
  - intros (n & Hn & Hr & Hq)%IH. exists n. split_and!; [lia..|done|].
    intros k Hk. destruct (decide (k = m)) as [->|]; [done|]. apply Hq. lia.
Qed.

Lemma poll_ends {R} (look : nat → option R) fuel m n :
  m ≤ n < m + fuel → is_Some (look n) → is_Some (poll look fuel m).
Proof.
  revert m; induction fuel as [|fuel IH]; intros m Hm Hn; [lia|]. cbn [poll].
  destruct (look m) as [r|] eqn:El; [done|]. apply IH; [|done].
  destruct (decide (n = m)) as [->|]; [|lia]. rewrite El in Hn. by destruct Hn.
Qed.

(** A loop with enough fuel gives what the first round with a result gives. *)
Lemma poll_first {R} (look : nat → option R) fuel n :
  n < fuel → is_Some (look n) → ∃ m r, m ≤ n ∧ poll look fuel 0 = Some r ∧ first_round look m r.
Proof.
  intros Hn Hl. destruct (poll_ends look fuel 0 n) as [r Hr]; [lia|done|].
  destruct (poll_sound look fuel 0 r Hr) as (m & _ & Hm & Hq). exists m, r.
  split; [|split; [done|]].
  - destruct (decide (m ≤ n)) as [|Hgt]; [done|]. rewrite Hq in Hl by lia. by destruct Hl.
  - split; [done|]. intros k Hk. apply Hq. lia.
Qed.

(** [thread::sleep] sleeps at least as long as it is told. *)
Context (sleeps : ∀ n, (now n + ROUND_MS ≤ now (S n))%N).

Lemma elapsed n : (now 0%nat + ROUND_MS * N.of_nat n ≤ now n)%N.
Proof. induction n as [|n IH]; [lia|]. pose proof (sleeps n). lia. Qed.

Definition MOUNT_ROUNDS : nat := 52.

(** Waiting for a mount always ends: after at most 52 looks at the mount table,
    with the first of a signal, the mount point of the share, and the end of the
    ten seconds; a mount point that is returned was in the table with the path of
    the share, and no look before it found one. *)
Lemma wait_for_mount_ends start nfs_path :
  (start ≤ now 0)%N →
  ∃ n r, n < MOUNT_ROUNDS ∧ wait_for_mount MOUNT_ROUNDS start nfs_path = Some r ∧
    (∀ k, k < n → signalled k = false ∧ find_mount_point_in_proc_mounts k nfs_path = None ∧ (now k ≤ start + WAIT_MS)%N) ∧
    match r with
    | Some mp => signalled n = false ∧
        ∃ table e, mounts n = Some table ∧ e ∈ table ∧ fs_spec e = nfs_path ∧ fs_file e = mp
    | None => signalled n = true ∨ (start + WAIT_MS < now n)%N
    end.
Proof.
  intros Hs. unfold wait_for_mount.
  destruct (poll_first (mount_round nfs_path (start + WAIT_MS)) MOUNT_ROUNDS 51) as (n & r & Hn & Hr & Hl & Hq).
  { unfold MOUNT_ROUNDS. lia. }
  { unfold mount_round. destruct (signalled 51); [eauto|]. destruct (find_mount_point_in_proc_mounts 51 nfs_path); [eauto|].
    pose proof (elapsed 51) as He. unfold ROUND_MS, WAIT_MS in *. rewrite (proj2 (N.ltb_lt _ _)) by lia. eauto. }
  exists n, r. split_and!; [unfold MOUNT_ROUNDS; lia|done| |].
  - intros k Hk. specialize (Hq k Hk). unfold mount_round in Hq. destruct (signalled k); [done|].
    destruct (find_mount_point_in_proc_mounts k nfs_path); [done|]. destruct (N.ltb_spec (start + WAIT_MS) (now k)); done.
  - unfold mount_round, find_mount_point_in_proc_mounts in Hl. destruct (signalled n); [simplify_eq; auto|].
    destruct (mounts n) as [table|]; simpl in Hl.
    + destruct (List.find _ table) as [e|] eqn:Ef; simpl in Hl.
      * simplify_eq. apply find_some in Ef as [Hin ?%bool_decide_eq_true]. split; [done|].
        exists table, e. split_and!; [done| |done..]. by apply list_elem_of_In.
      * destruct (N.ltb_spec (start + WAIT_MS) (now n)); simplify_eq. auto.
    + destruct (N.ltb_spec (start + WAIT_MS) (now n)); simplify_eq. auto.
Qed.

Lemma not_mounted_at n mp table :
  mounts n = Some table → is_mounted_at n mp = false → mp ∉ fs_file <$> table.
Proof.
  unfold is_mounted_at. intros -> Hn (e & -> & He)%list_elem_of_fmap.
  assert (existsb (λ e', bool_decide (fs_file e' = fs_file e)) table = true) as Ht; [|congruence].
  apply existsb_exists. exists e. split; [by apply list_elem_of_In|]. by rewrite bool_decide_eq_true_2.
Qed.

(** The wait for the end of a mount is over at the first round with a signal, or
    without the mount point in the table. *)
Lemma wait_for_unmount_first fuel mp n :
  n < fuel → signalled n = true ∨ is_mounted_at n mp = false →
  ∃ m, m ≤ n ∧ wait_for_unmount fuel mp = Some tt ∧
    (signalled m = true ∨ is_mounted_at m mp = false) ∧
    ∀ k, k < m → signalled k = false ∧ is_mounted_at k mp = true.
Proof.
  intros Hn Hl. destruct (poll_first (unmount_round mp) fuel n) as (m & [] & Hm & Hr & Hf & Hq); [done| |].
  { unfold unmount_round. destruct Hl as [-> | ->]; [eauto|]. destruct (signalled n); eauto. }
  exists m. split_and!; [done..| |].
  - unfold unmount_round in Hf. destruct (signalled m); [auto|]. destruct (is_mounted_at m mp); [done|auto].
  - intros k Hk. specialize (Hq k Hk). unfold unmount_round in Hq.
    destruct (signalled k), (is_mounted_at k mp); done.
Qed.

(** A mount table that cannot be read counts as one without the share: the wait is
    over, although nothing was unmounted. *)
Lemma unreadable_table_ends fuel mp :
  signalled 0 = false → mounts 0 = None → 0 < fuel → wait_for_unmount fuel mp = Some tt.
Proof.
  intros Hs Hm Hf. destruct fuel; [lia|]. unfold wait_for_unmount. cbn [poll]. unfold unmount_round, is_mounted_at.
  by rewrite Hs, Hm.
Qed.
End polling.

(** ** macOS *)
(** What Disk Arbitration describes of a disk. *)
Record DiskDescription := { volume_url : option string; volume_kind : option string }.

Section callbacks.
(** The [url] crate: the path of a URL; and [statfs]. *)
Context (url_path : string → option string) (statfs : string → outcome MountEntry).

Definition volume_path (descr : DiskDescription) : option string := url ← volume_url descr; url_path url.

(** The callbacks tell whether they stop the run loop; that for a mount keeps the
    mount point. *)
Definition disk_mount_event (nfs_path : string) (real_mount_point : option string) (descr : DiskDescription) :
    option string * bool :=
  match volume_path descr, volume_kind descr with
  | Some volume_path, Some volume_kind =>
      if bool_decide (volume_kind = "nfs") then
        match mounted_from statfs volume_path with
        | Ok dev_path => if path.eqb dev_path nfs_path then (Some volume_path, true) else (real_mount_point, false)
        | _ => (real_mount_point, false)
        end
      else (real_mount_point, false)
  | _, _ => (real_mount_point, false)
  end.

Definition disk_unmount_event (mount_point : string) (descr : DiskDescription) : bool :=
  match volume_path descr, volume_kind descr with
  | Some volume_path, Some volume_kind => bool_decide (volume_kind = "nfs") && bool_decide (volume_path = mount_point)
  | _, _ => false
  end.

(** The disks that are called back for until the run loop returns, whether it is
    a callback or a signal that stops it. *)
Definition wait_for_mount_events (nfs_path : string) (delivered : list DiskDescription) : option string :=
  foldl (λ real descr, (disk_mount_event nfs_path real descr).1) None delivered.

(** A disk is the share when the volume at its path comes from the share. *)
Definition is_share (nfs_path : string) (descr : DiskDescription) (mp : string) : Prop :=
  volume_path descr = Some mp ∧ volume_kind descr = Some "nfs" ∧
  ∃ e, statfs mp = Ok e ∧ path.eqb mp (fs_file e) = true ∧ path.eqb (fs_spec e) nfs_path = true.

Lemma disk_mount_event_spec nfs_path real descr :
  (∃ mp, is_share nfs_path descr mp ∧ disk_mount_event nfs_path real descr = (Some mp, true)) ∨
  ((∀ mp, ¬ is_share nfs_path descr mp) ∧ disk_mount_event nfs_path real descr = (real, false)).
Proof.
  unfold disk_mount_event, is_share, mounted_from.
  destruct (volume_path descr) as [mp|] eqn:Ep; [|right; split; [by intros ? [? _]|done]].
  destruct (volume_kind descr) as [kind|] eqn:Ek; [|right; split; [by intros ? (_ & ? & _)|done]].
  case_bool_decide as Hk; [subst kind|right; split; [intros ? (_ & ? & _); congruence|done]].
  destruct (statfs mp) as [e|m|] eqn:Es; cbn [mbind outcome_bind];
    [|right; split; [intros ? (? & _ & ? & ? & _); congruence|done]..].
  destruct (path.eqb mp (fs_file e)) eqn:Ef;
    [|right; split; [intros ? (? & _ & ? & ? & ? & _); congruence|done]].
  destruct (path.eqb (fs_spec e) nfs_path) eqn:En;
    [|right; split; [intros ? (? & _ & ? & ? & _ & ?); congruence|done]].
  left. exists mp. by eauto 10.
Qed.

(** The mount point is that of the last disk that is the share; there is none
    when no disk was. *)
Lemma wait_for_mount_events_spec nfs_path delivered :
  match wait_for_mount_events nfs_path delivered with
  | Some mp => ∃ before descr after, delivered = before ++ descr :: after ∧ is_share nfs_path descr mp ∧
      Forall (λ d, ∀ mp, ¬ is_share nfs_path d mp) after
  | None => Forall (λ d, ∀ mp, ¬ is_share nfs_path d mp) delivered
  end.
Proof.
  unfold wait_for_mount_events. induction delivered as [|d ds IH] using rev_ind; [constructor|].
  rewrite foldl_app. cbn [foldl].
  destruct (disk_mount_event_spec nfs_path (foldl (λ real descr, (disk_mount_event nfs_path real descr).1) None ds) d)
    as [(mp & Hs & ->)|(Hn & ->)]; cbn [fst].
  - exists ds, d, []. by split_and!.
  - destruct (foldl _ None ds) as [mp|].
    + destruct IH as (b & d' & a & -> & Hs & Ha). exists b, d', (a ++ [d]).
      split_and!; [by rewrite <-app_assoc|done|]. apply Forall_app. by repeat constructor.
    + apply Forall_app. by repeat constructor.
Qed.

(** Only the end of a network volume at the mount point stops the wait for the
    unmount. *)
Lemma disk_unmount_event_spec mount_point descr :
  disk_unmount_event mount_point descr = true ↔
  volume_path descr = Some mount_point ∧ volume_kind descr = Some "nfs".
Proof.
  unfold disk_unmount_event. destruct (volume_path descr), (volume_kind descr); [|naive_solver..].
  rewrite andb_true_iff, !bool_decide_eq_true. naive_solver.
Qed.

(** The path of a URL is percent-encoded: when nothing is mounted at the encoded
    text, the share is not recognised and the run loop goes on. *)
Lemma encoded_path_ignored nfs_path real descr encoded m :
  volume_path descr = Some encoded → statfs encoded = Err m →
  disk_mount_event nfs_path real descr = (real, false).
Proof.
  intros Hp Hs. destruct (disk_mount_event_spec nfs_path real descr)
    as [(mp & (Hp' & _ & e & He & _) & _)|[_ Hd]]; [congruence|exact Hd].
Qed.
End callbacks.

(** ** [get_info] *)
(** On Linux the attribute [ro] of the block device; on macOS what Disk
    Arbitration says, if it describes the disk. *)
Definition get_info (read_to_string : string → option string) (dev_path : string) : DiskInfo :=
  let name := default "" (path.file_name dev_path) in
  match read_to_string ("/sys/class/block/" +:+ name +:+ "/ro") with
  | Some s => {| info_writable := bool_decide (Str.trim s = "0") |}
  | None => {| info_writable := true |}
  end.

Definition macos_get_info (media_writable : option (option (option bool))) : DiskInfo :=
  {| info_writable := match media_writable with Some (Some (Some b)) => b | _ => true end |}.

(** A device whose attribute cannot be read counts as writable. *)
Lemma unreadable_writable read dev :
  (∀ p, read p = None) → get_info read dev = DiskInfo_default.
Proof. intros Hn. unfold get_info. by rewrite Hn. Qed.

(** ** Witnesses *)
Module Witness.
(** The share appears in the table at the third look. *)
Definition table (n : nat) : option (list MountEntry) :=
  if decide (n < 2) then Some [{| fs_spec := "/dev/sda1"; fs_file := "/" |}]
  else Some [{| fs_spec := "/dev/sda1"; fs_file := "/" |}; {| fs_spec := "192.168.127.2:/mnt/data"; fs_file := "/mnt/data" |}].
Abbreviation clock := (λ n, 5000 + ROUND_MS * N.of_nat n)%N.

Lemma clock_sleeps n : (clock n + ROUND_MS ≤ clock (S n))%N.
Proof. unfold ROUND_MS. lia. Qed.

Example wait_for_mount_ends_witness :
  wait_for_mount (λ _, false) table clock MOUNT_ROUNDS 5000 "192.168.127.2:/mnt/data" = Some (Some "/mnt/data") ∧
  ∃ n r, n < MOUNT_ROUNDS ∧
    wait_for_mount (λ _, false) table clock MOUNT_ROUNDS 5000 "192.168.127.2:/mnt/data" = Some r ∧
    (∀ k, k < n → (λ _ : nat, false) k = false ∧
       find_mount_point_in_proc_mounts table k "192.168.127.2:/mnt/data" = None ∧ (clock k ≤ 5000 + WAIT_MS)%N) ∧
    match r with
    | Some mp => (λ _ : nat, false) n = false ∧
        ∃ t e, table n = Some t ∧ e ∈ t ∧ fs_spec e = "192.168.127.2:/mnt/data" ∧ fs_file e = mp
    | None => (λ _ : nat, false) n = true ∨ (5000 + WAIT_MS < clock n)%N
    end.
Proof.
  split; [vm_compute; reflexivity|].
  apply (wait_for_mount_ends (λ _, false) table clock clock_sleeps 5000 "192.168.127.2:/mnt/data").
  unfold ROUND_MS. lia.
Defined.

(** Without the share in the table the wait takes ten seconds. *)
Example never_mounted :
  wait_for_mount (λ _, false) table clock MOUNT_ROUNDS 5000 "192.168.127.2:/mnt/other" = Some None.
Proof. vm_compute. reflexivity. Qed.

(** A mount point with a space, as [url] reports it. *)
Definition spaced : DiskDescription :=
  {| volume_url := Some "file:///Volumes/My%20Disk/"; volume_kind := Some "nfs" |}.
Definition mounted (p : string) : outcome MountEntry :=
  if path.eqb p "/Volumes/My Disk" then Ok {| fs_spec := "127.0.0.1:/mnt/d"; fs_file := "/Volumes/My Disk" |}
  else Err "No such file or directory".
Example spaced_ignored :
  disk_mount_event (Str.strip_prefix "file://") mounted "127.0.0.1:/mnt/d" None spaced = (None, false).
Proof. vm_compute. reflexivity. Qed.
End Witness.
