(* ===== verification/Rpcbind.v ===== *)
(** * The port mapper ([rpcbind/])

    Registration of the NFS services of a VM with the host's rpcbind, the list
    of registered services, and their restoration at the end of a session
    ([cmd_mount.rs] [setup_rpcbind_services]).  The service itself is the class
    [PortMapper], with the behaviour of RFC 1833 as its laws. *)
From Stdlib Require Import Ascii.
From S2P Require Import Prelude Common Settings Session.

(** ** Data *)
Record SockAddr := mkSockAddr { sock_ip : IpAddr; sock_port : N }.

Record Entry := mkEntry {
  prog : N; vers : N; netid : string; addr : SockAddr; owner : string }.

(** A node of the list that the C library returns; a null pointer is [None]. *)
Record Rpcb := mkRpcb {
  r_prog : N; r_vers : N; r_netid : option string; r_addr : option string;
  r_owner : option string }.

Inductive RpcStatus := Success | Failure (msg : option string).

(** The C library and the service: of a netid, whether it is configured; of a
    program, its name; setting, unsetting (for every netid) and listing, by a
    user. *)
Class PortMapper := {
  pm : Type;
  getnetconfigent : string → bool;
  getrpcbynumber : N → option string;
  rpcb_set : string → pm → N → N → string → SockAddr → bool * pm;
  rpcb_unset : string → pm → N → N → pm;
  (** [rpcb_getmaps] on Linux; the call on macOS can fail. *)
  rpcb_getmaps : pm → list Rpcb;
  rpcb_dump : pm → option RpcStatus * list Rpcb;
}.

(** ** Addresses *)
Section address.
(** [IpAddr::from_str] *)
Context (parse_ip : string → option IpAddr).

(** [acc * 256 + octet] on [u16]. *)
Definition add_octet (acc : N) (octet : string) : outcome N :=
  let v := default 0%N (Str.parse_uint u16_max octet) in
  if decide (acc * 256 + v ≤ u16_max)%N then Ok (acc * 256 + v)%N else Panic.

Definition second_last_dot (addr : string) : nat :=
  default 0 (pos ← Str.rfind "." addr; Str.rfind "." (Str.take pos addr)).

Definition parse_rpcb_addr (addr : string) : outcome SockAddr :=
  let second_last_dot := second_last_dot addr in
  port ← foldM add_octet 0%N (Str.split "." (Str.drop second_last_dot addr));
  let ip := default (V4 0) (parse_ip (Str.take second_last_dot addr)) in
  Ok (mkSockAddr ip port).

(** ** The list of services *)
(** [CStr::to_string_lossy] *)
Context (lossy : string → string).

Definition cstr (p : option string) : string :=
  match p with None => "" | Some s => lossy s end.

Definition collect_node (res : list Entry) (map : Rpcb) : outcome (list Entry) :=
  let netid := cstr (r_netid map) in
  if Str.starts_with "tcp" netid || Str.starts_with "udp" netid then
    addr ← parse_rpcb_addr (cstr (r_addr map));
    Ok (res ++ [mkEntry (r_prog map) (r_vers map) netid addr (cstr (r_owner map))])
  else Ok res.

Definition collect_rpcblist_entries (head : list Rpcb) : outcome (list Entry) :=
  foldM collect_node [] head.

Context `{PortMapper}.

Definition handle_rpc_error (prog vers : N) (nettype : string) (stat : RpcStatus) : outcome unit :=
  match stat with
  | Success => Ok tt
  | Failure msg =>
      let svc := default "-" (lossy <$> getrpcbynumber prog) in
      let svc_str := svc +:+ "/v" +:+ Str.of_N vers +:+ "/" +:+ nettype in
      match msg with
      | Some m => Err (svc_str +:+ " RPC call failed: " +:+ m)
      | None => Err (svc_str +:+ " RPC call failed")
      end
  end.

Definition RPCPROG_RPCB : N := 100000.
Definition RPCBVERS4 : N := 4.

Definition linux_list (s : pm) : outcome (list Entry) :=
  if getnetconfigent "tcp" then collect_rpcblist_entries (rpcb_getmaps s)
  else Err "getnetconfigent(tcp) returned null".

(** [None]: no client could be created. *)
Definition macos_list (s : pm) : outcome (list Entry) :=
  match rpcb_dump s with
  | (None, _) => Err "Error creating RPC client"
  | (Some stat, head) =>
      _ ← handle_rpc_error RPCPROG_RPCB RPCBVERS4 "tcp" stat;
      collect_rpcblist_entries head
  end.

Definition list_services (os : TargetOS) (s : pm) : outcome (list Entry) :=
  match os with LinuxHost => linux_list s | MacOS => macos_list s end.

(** ** Setting entries *)
(** The user who calls comes first.  [CString::new] refuses a null byte. *)
Definition status_of_bool (ok : bool) : RpcStatus := if ok then Success else Failure None.

(** [{:?}] of a netid, which holds nothing to escape. *)
Definition quoted (s : string) : string := String "034" s +:+ String "034" "".

Definition rpcb_set_entry (os : TargetOS) (who : string) (s : pm) (e : Entry) : outcome unit * pm :=
  if Str.has_nul (netid e) then (Panic, s)
  else if (match os with LinuxHost => negb (getnetconfigent (netid e)) | MacOS => false end) then
    (Err ("getnetconfigent returned null for netid " +:+ quoted (netid e)), s)
  else
    let '(ok, s) := rpcb_set who s (prog e) (vers e) (netid e) (addr e) in
    (handle_rpc_error (prog e) (vers e) (netid e) (status_of_bool ok), s).

Fixpoint rpcb_set_entries (os : TargetOS) (who : string) (s : pm) (entries : list Entry) :
    outcome unit * pm :=
  match entries with
  | [] => (Ok tt, s)
  | e :: entries =>
      match rpcb_set_entry os who s e with
      | (Ok _, s) => rpcb_set_entries os who s entries
      | r => r
      end
  end.

(** The versions that are unset, for all transports. *)
Definition unset_versions : list (N * N) :=
  [(RPCPROG_NFS, 3); (RPCPROG_NFS, 4); (RPCPROG_MNT, 1); (RPCPROG_MNT, 2); (RPCPROG_MNT, 3);
   (RPCPROG_STAT, 1)]%N.

Definition unregister (who : string) (s : pm) : pm :=
  foldl (λ s pv, rpcb_unset who s pv.1 pv.2) s unset_versions.

(** ** [register] *)
Definition NFS_PORT : N := 2049.
Definition MOUNT_PORT : N := 32767.
Definition STAT_PORT : N := 32765.

Definition ip_props : list (string * IpAddr) := [(""%string, V4 0); ("6"%string, V6 0)].
Definition progs : list (N * N * list N) :=
  [(RPCPROG_NFS, NFS_PORT, [3; 4]); (RPCPROG_MNT, MOUNT_PORT, [1; 2; 3]);
   (RPCPROG_STAT, STAT_PORT, [1])]%N.

(** The entries in the order of the nested loops. *)
Definition register_entries : list Entry :=
  '(prog, port, versions) ← progs;
  proto ← ["udp"; "tcp"]%string;
  '(ip_suffix, ip_any_addr) ← ip_props;
  vers ← versions;
  if decide (prog = RPCPROG_NFS ∧ vers = 4%N ∧ proto = "udp"%string) then []
  else [mkEntry prog vers (proto +:+ ip_suffix) (mkSockAddr ip_any_addr port) ""].

(** A failure of one entry is tolerated; a panic is not. *)
Definition register_step (os : TargetOS) (who : string) (st : outcome bool * pm) (e : Entry) :
    outcome bool * pm :=
  match st with
  | (Ok nfs_ok, s) =>
      match rpcb_set_entry os who s e with
      | (Ok _, s) => (Ok (nfs_ok || bool_decide (prog e = RPCPROG_NFS)), s)
      | (Err _, s) => (Ok nfs_ok, s)
      | (Panic, s) => (Panic, s)
      end
  | _ => st
  end.

Definition register (os : TargetOS) (who : string) (s : pm) : outcome unit * pm :=
  match foldl (register_step os who) (Ok false, s) register_entries with
  | (Ok true, s) => (Ok tt, s)
  | (Ok false, s) => (Err "failed to register any NFS entry with rpcbind", s)
  | (Err m, s) => (Err m, s)
  | (Panic, s) => (Panic, s)
  end.

(** ** A session *)
Definition is_nfs_service (e : Entry) : bool :=
  bool_decide (prog e = RPCPROG_MNT ∨ prog e = RPCPROG_NFS ∨ prog e = RPCPROG_STAT).

Definition services_to_restore (os : TargetOS) (s : pm) : outcome (list Entry) :=
  List.filter is_nfs_service <$> list_services os s.

(** The deferred action; its own failure is ignored. *)
Definition restore (os : TargetOS) (who : string) (services_to_restore : list Entry) (s : pm) : pm :=
  (rpcb_set_entries os who (unregister who s) services_to_restore).2.
End address.

(** ** Addresses of services *)
(** The universal address of RFC 5665. *)
Definition uaddr (show_ip : IpAddr → string) (a : SockAddr) : string :=
  show_ip (sock_ip a) +:+ "." +:+ Str.of_N (sock_port a / 256) +:+ "." +:+
    Str.of_N (sock_port a mod 256).

Lemma of_N_lacks_dot n : StrFacts.lacks "." (Str.of_N n) = true.
Proof.
  apply (StrFacts.forallb_impl Str.is_digit); [|apply StrFacts.digits_of_N].
  intros c Hc. apply bool_decide_eq_true. intros ->. vm_compute in Hc. done.
Qed.

Lemma second_last_dot_uaddr t m n :
  second_last_dot (t +:+ "." +:+ Str.of_N m +:+ "." +:+ Str.of_N n) = String.length t.
Proof.
  assert (Hdot : ∀ a k, Str.rfind "." (a +:+ "." +:+ Str.of_N k) = Some (String.length a)).
  { intros a k. apply StrFacts.rfind_app; [done|].
    by eapply StrFacts.rfind_lacks; [done|apply of_N_lacks_dot]. }
  unfold second_last_dot.
  replace (t +:+ "." +:+ Str.of_N m +:+ "." +:+ Str.of_N n)
    with ((t +:+ "." +:+ Str.of_N m) +:+ "." +:+ Str.of_N n) by by rewrite !StrFacts.app_assoc.
  rewrite Hdot. cbn [mbind option_bind]. by rewrite StrFacts.take_app, Hdot.
Qed.

Lemma split_of_N n : Str.split "." (Str.of_N n) = [Str.of_N n].
Proof. apply StrFacts.split_lacks, of_N_lacks_dot. Qed.

Lemma split_dots m n :
  Str.split "." ("." +:+ Str.of_N m +:+ "." +:+ Str.of_N n) = [""; Str.of_N m; Str.of_N n].
Proof.
  change ("." +:+ Str.of_N m +:+ "." +:+ Str.of_N n)
    with ("" +:+ String "." (Str.of_N m +:+ String "." (Str.of_N n))).
  by rewrite !StrFacts.split_app_sep, !split_of_N.
Qed.

Lemma add_octet_of_N acc v :
  (acc * 256 + v ≤ u16_max)%N → add_octet acc (Str.of_N v) = Ok (acc * 256 + v)%N.
Proof.
  intros Hv. unfold add_octet. rewrite StrFacts.parse_uint_of_N by lia.
  cbn [default from_option id]. by rewrite decide_True.
Qed.

Lemma parse_uaddr parse_ip show_ip a :
  parse_ip (show_ip (sock_ip a)) = Some (sock_ip a) → (sock_port a ≤ u16_max)%N →
  parse_rpcb_addr parse_ip (uaddr show_ip a) = Ok a.
Proof.
  intros Hip Hp. destruct a as [ip port]; cbn [sock_ip sock_port] in *.
  unfold parse_rpcb_addr, uaddr. cbn [sock_ip sock_port].
  rewrite second_last_dot_uaddr, StrFacts.drop_app, StrFacts.take_app, Hip.
  rewrite split_dots. cbn [foldM].
  assert (Hb : (port / 256 ≤ 255 ∧ port mod 256 ≤ 255)%N).
  { pose proof (N.mod_lt port 256). split; [|lia].
    apply N.lt_succ_r, N.Div0.div_lt_upper_bound. unfold u16_max in Hp. lia. }
  assert (E : (port / 256 * 256 + port mod 256 = port)%N).
  { rewrite (N.mul_comm _ 256). symmetry. apply N.div_mod. lia. }
  change (add_octet 0 "") with (Ok 0%N). cbn [mbind outcome_bind].
  rewrite add_octet_of_N by (unfold u16_max; lia). cbn [mbind outcome_bind].
  rewrite add_octet_of_N by lia. cbn [mbind outcome_bind default].
  by rewrite N.mul_0_l, N.add_0_l, E.
Qed.

(** ** What the service promises *)
Abbreviation Key := (N * N * string)%type.
Definition key_of (e : Entry) : Key := (prog e, vers e, netid e).

Definition node_of (kb : Key * (string * string)) : Rpcb :=
  mkRpcb kb.1.1.1 kb.1.1.2 (Some kb.1.2) (Some kb.2.1) (Some kb.2.2).

(** [bound]: the universal address and the owner for each program, version and
    netid; [owner_name]: the owner recorded for a user; [may_unset]: whose
    entries a user may remove.  Setting a free entry succeeds, setting a bound
    one succeeds only for its address and changes nothing. *)
Class PortMapperLaws `{PortMapper} (show_ip : IpAddr → string) := {
  bound : pm → gmap Key (string * string);
  owner_name : string → string;
  may_unset : string → string → bool;
  may_unset_own who : may_unset who (owner_name who) = true;
  rpcb_set_free who s p v n a :
    bound s !! (p, v, n) = None → ∃ s', rpcb_set who s p v n a = (true, s') ∧
      bound s' = <[(p, v, n) := (uaddr show_ip a, owner_name who)]> (bound s);
  rpcb_set_bound who s p v n a b :
    bound s !! (p, v, n) = Some b → ∃ s',
      rpcb_set who s p v n a = (bool_decide (b.1 = uaddr show_ip a), s') ∧ bound s' = bound s;
  rpcb_unset_bound who s p v k :
    bound (rpcb_unset who s p v) !! k =
      b ← bound s !! k;
      if decide (k.1 = (p, v) ∧ may_unset who b.2 = true) then None else Some b;
  rpcb_getmaps_bound s :
    ∃ kbs, kbs ≡ₚ map_to_list (bound s) ∧ rpcb_getmaps s = node_of <$> kbs;
  rpcb_dump_getmaps s : rpcb_dump s = (Some Success, rpcb_getmaps s);
}.

Section restored.
Context `{PortMapperLaws} (parse_ip : string → option IpAddr) (lossy : string → string)
  (os : TargetOS).

(** The address under a key. *)
Definition bound_addr (s : pm) (k : Key) : option string := fst <$> bound s !! k.

Lemma bound_set who s e (k : Key) :
  bound (rpcb_set_entry lossy os who s e).2 !! k = bound s !! k ∨
  (k = key_of e ∧ bound s !! k = None ∧
   bound (rpcb_set_entry lossy os who s e).2 !! k = Some (uaddr show_ip (addr e), owner_name who)).
Proof.
  unfold rpcb_set_entry. destruct (Str.has_nul _); [by left|].
  destruct (match os with LinuxHost => _ | MacOS => _ end); [by left|].
  destruct (bound s !! key_of e) as [b|] eqn:Eb.
  - destruct (rpcb_set_bound who s (prog e) (vers e) (netid e) (addr e) b Eb) as (s' & -> & Hs).
    left. cbn [snd]. by rewrite Hs.
  - destruct (rpcb_set_free who s (prog e) (vers e) (netid e) (addr e) Eb) as (s' & -> & Hs).
    cbn [snd]. rewrite Hs. fold (key_of e).
    destruct (decide (k = key_of e)) as [->|Hne].
    + right. by rewrite Eb, lookup_insert_eq.
    + left. by rewrite lookup_insert_ne.
Qed.

Lemma rpcb_unset_Some who s p v k b :
  bound (rpcb_unset who s p v) !! k = Some b →
  bound s !! k = Some b ∧ ¬ (k.1 = (p, v) ∧ may_unset who b.2 = true).
Proof.
  rewrite rpcb_unset_bound. intros (b' & Hb & Hd)%bind_Some.
  case_decide; simplify_eq; done.
Qed.

Lemma unset_all_Some who s l k b :
  bound (foldl (λ s pv, rpcb_unset who s pv.1 pv.2) s l) !! k = Some b →
  bound s !! k = Some b ∧ (k.1 ∈ l → may_unset who b.2 ≠ true).
Proof.
  revert s; induction l as [|[p v] l IH]; intros s; cbn [foldl fst snd].
  - intros Hb. split; [done|]. by intros ?%not_elem_of_nil.
  - intros [[Hb Hn]%rpcb_unset_Some Hl]%IH. split; [done|].
    intros [Heq|Hin]%elem_of_cons; [naive_solver|by apply Hl].
Qed.

(** What is still there after [unregister] was there before, and the user may
    not remove it. *)
Lemma unregister_Some who s (k : Key) b :
  bound (unregister who s) !! k = Some b →
  bound s !! k = Some b ∧ (k.1 ∈ unset_versions → may_unset who b.2 ≠ true).
Proof. apply unset_all_Some. Qed.

Lemma unset_all_other who s l k :
  k.1 ∉ l → bound (foldl (λ s pv, rpcb_unset who s pv.1 pv.2) s l) !! k = bound s !! k.
Proof.
  revert s; induction l as [|[p v] l IH]; intros s Hk; [done|]; cbn [foldl fst snd].
  apply not_elem_of_cons in Hk as [Hne Hk]. rewrite IH, rpcb_unset_bound by done.
  destruct (bound s !! k); [|done]. cbn [mbind option_bind]. rewrite decide_False; naive_solver.
Qed.

(** *** The services as they are listed *)
Definition listed (netid : string) : bool :=
  Str.starts_with "tcp" netid || Str.starts_with "udp" netid.

(** A registration with a configured netid and an address as RFC 5665 has it. *)
Definition well_formed (kb : Key * (string * string)) : Prop :=
  lossy kb.1.2 = kb.1.2 ∧
  (listed kb.1.2 = true →
   Str.has_nul kb.1.2 = false ∧ getnetconfigent kb.1.2 = true ∧
   ∃ a, kb.2.1 = uaddr show_ip a ∧ lossy kb.2.1 = kb.2.1 ∧
     parse_ip (show_ip (sock_ip a)) = Some (sock_ip a) ∧ (sock_port a ≤ u16_max)%N).

(** An entry for a registration. *)
Definition entry_for (kb : Key * (string * string)) (e : Entry) : Prop :=
  key_of e = kb.1 ∧ uaddr show_ip (addr e) = kb.2.1 ∧ listed (netid e) = true ∧
  Str.has_nul (netid e) = false ∧ getnetconfigent (netid e) = true.

Lemma collect_node_of res kb :
  well_formed kb →
  (listed kb.1.2 = false ∧ collect_node parse_ip lossy res (node_of kb) = Ok res) ∨
  ∃ e, entry_for kb e ∧ collect_node parse_ip lossy res (node_of kb) = Ok (res ++ [e]).
Proof.
  destruct kb as [[[p v] n] [a o]]. intros [Hn Hl]; cbn in Hn, Hl.
  unfold collect_node; cbn [node_of r_prog r_vers r_netid r_addr r_owner fst snd cstr].
  rewrite Hn. fold (listed n). destruct (listed n) eqn:El; [|by left].
  destruct Hl as (Hnul & Hconf & sa & -> & Ha & Hip & Hport); [done|].
  right. rewrite Ha, parse_uaddr by done. cbn [mbind outcome_bind].
  eexists. split; [|done]. by repeat split.
Qed.

Lemma collect_nodes kbs res :
  Forall well_formed kbs →
  ∃ l, foldM (collect_node parse_ip lossy) res (node_of <$> kbs) = Ok (res ++ l) ∧
    (∀ e, e ∈ l → ∃ kb, kb ∈ kbs ∧ entry_for kb e) ∧
    (∀ kb : Key * (string * string), kb ∈ kbs → listed kb.1.2 = true → ∃ e, e ∈ l ∧ entry_for kb e).
Proof.
  intros Hwf; revert res; induction Hwf as [|kb kbs Hkb _ IH]; intros res.
  { exists []. rewrite app_nil_r. split_and!; [done| |]; intros ? ?%not_elem_of_nil; done. }
  cbn [fmap list_fmap foldM].
  destruct (collect_node_of res kb Hkb) as [[Hu ->]|(e & He & ->)]; cbn [mbind outcome_bind].
  - destruct (IH res) as (l & -> & Hl1 & Hl2). exists l. split_and!; [done| |].
    + intros e (kb' & Hin & ?)%Hl1. exists kb'. by rewrite elem_of_cons; eauto.
    + intros kb' [->|Hin]%elem_of_cons ?; [congruence|eauto].
  - destruct (IH (res ++ [e])) as (l & -> & Hl1 & Hl2). exists (e :: l). split_and!.
    + by rewrite <-app_assoc.
    + intros e' [->|(kb' & Hin & ?)%Hl1]%elem_of_cons; eexists; by rewrite elem_of_cons; eauto.
    + intros kb' [->|Hin]%elem_of_cons ?; [exists e; by rewrite elem_of_cons; eauto|].
      destruct (Hl2 kb' Hin) as (e' & ? & ?); [done|]. exists e'. by rewrite elem_of_cons; eauto.
Qed.

Definition registrations_wf (s : pm) : Prop :=
  ∀ k b, bound s !! k = Some b → well_formed (k, b).

Lemma list_services_spec s :
  registrations_wf s → getnetconfigent "tcp" = true →
  ∃ l, list_services parse_ip lossy os s = Ok l ∧
    (∀ e, e ∈ l → ∃ b, bound s !! key_of e = Some b ∧ entry_for (key_of e, b) e) ∧
    (∀ (k : Key) b, bound s !! k = Some b → listed k.2 = true → ∃ e, e ∈ l ∧ key_of e = k).
Proof.
  intros Hwf Hconf.
  destruct (rpcb_getmaps_bound s) as (kbs & Hperm & Hmaps).
  destruct (collect_nodes kbs []) as (l & Hl & Hl1 & Hl2).
  { rewrite Hperm. apply Forall_forall. intros [k b] ?%elem_of_map_to_list. by apply Hwf. }
  exists l. split_and!.
  - destruct os; unfold list_services, macos_list, linux_list, collect_rpcblist_entries.
    + rewrite rpcb_dump_getmaps. cbn [handle_rpc_error mbind outcome_bind]. by rewrite Hmaps.
    + by rewrite Hconf, Hmaps.
  - intros e ([k b] & Hin & He)%Hl1. pose proof He as (Hk & _). cbn in Hk. subst k.
    rewrite Hperm in Hin. apply elem_of_map_to_list in Hin. eauto.
  - intros k b Hb Hk. destruct (Hl2 (k, b)) as (e & ? & He); [|done|].
    { rewrite Hperm. by apply elem_of_map_to_list. }
    exists e. split; [done|]. by destruct He as [-> _].
Qed.
(** *** A session *)
(** Where the session can stand when it ends: it has not begun, or it has
    removed the services and registered some of its own. *)
Inductive taken_over (who_unset who_register : string) (s : pm) : pm → Prop :=
| Untouched : taken_over who_unset who_register s s
| Registered n : taken_over who_unset who_register s
    (foldl (register_step lossy os who_register) (Ok false, unregister who_unset s)
       (take n register_entries)).2.

(** Compared with [s0], services are missing or belong to the user. *)
Definition changed_by (who : string) (s0 s : pm) : Prop :=
  ∀ k : Key, bound s !! k = bound s0 !! k ∨
    (k.1 ∈ unset_versions ∧
     (bound s !! k = None ∨ ∃ a, bound s !! k = Some (a, owner_name who))).

Lemma changed_by_unregister who who' s : changed_by who s (unregister who' s).
Proof.
  intros k. destruct (decide (k.1 ∈ unset_versions)) as [Hin|Hout].
  - destruct (bound (unregister who' s) !! k) as [b|] eqn:Eb; [|by eauto].
    apply unregister_Some in Eb as [-> _]. by left.
  - left. by apply unset_all_other.
Qed.

Lemma register_step_state who st e :
  (register_step lossy os who st e).2 = st.2 ∨
  (register_step lossy os who st e).2 = (rpcb_set_entry lossy os who st.2 e).2.
Proof.
  destruct st as [[b|m|] s]; cbn; [|by left..].
  destruct (rpcb_set_entry lossy os who s e) as [[]]; by right.
Qed.

Lemma register_entries_versions : Forall (λ e, (prog e, vers e) ∈ unset_versions) register_entries.
Proof. apply (bool_decide_unpack _). vm_compute. done. Qed.

Lemma changed_by_register who s0 st es :
  Forall (λ e, (prog e, vers e) ∈ unset_versions) es → changed_by who s0 st.2 →
  changed_by who s0 (foldl (register_step lossy os who) st es).2.
Proof.
  intros Hes; revert st; induction Hes as [|e es He _ IH]; intros st Hst; [done|].
  cbn [foldl]. apply IH. destruct (register_step_state who st e) as [-> | ->]; [done|].
  intros k. destruct (bound_set who st.2 e k) as [-> | (-> & _ & ->)]; [apply Hst|].
  right. cbn [key_of fst]. eauto.
Qed.

Lemma changed_by_taken_over who_unset who s t :
  taken_over who_unset who s t → changed_by who s t.
Proof.
  intros [|n]; [by left|]. apply changed_by_register.
  - apply Forall_take, register_entries_versions.
  - apply changed_by_unregister.
Qed.

(** After [unregister] nothing is left that was not there at first. *)
Definition removed_from (s0 s : pm) : Prop :=
  ∀ k : Key, bound s !! k = bound s0 !! k ∨ (k.1 ∈ unset_versions ∧ bound s !! k = None).

Lemma removed_from_unregister who' who s0 s :
  changed_by who s0 s → may_unset who' (owner_name who) = true →
  removed_from s0 (unregister who' s).
Proof.
  intros Hs Hmay k. destruct (decide (k.1 ∈ unset_versions)) as [Hin|Hout].
  - destruct (bound (unregister who' s) !! k) as [b|] eqn:Eb; [|by right].
    apply unregister_Some in Eb as [Eb Hb]. left.
    destruct (Hs k) as [<-|[_ [|[a Ha]]]]; [done|congruence|].
    rewrite Eb in Ha; simplify_eq. by destruct (Hb Hin).
  - left. unfold unregister. rewrite unset_all_other by done. destruct (Hs k) as [?|[? _]]; done.
Qed.

(** Setting again what was there succeeds. *)
Lemma set_entry_again who s0 s e b :
  bound s0 !! key_of e = Some b → entry_for (key_of e, b) e →
  bound_addr s (key_of e) = None ∨ bound_addr s (key_of e) = Some b.1 →
  (rpcb_set_entry lossy os who s e).1 = Ok tt ∧
  bound_addr (rpcb_set_entry lossy os who s e).2 (key_of e) = Some b.1.
Proof.
  intros Hb (_ & Ha & _ & Hnul & Hconf) Hs. cbn in Ha.
  unfold rpcb_set_entry. rewrite Hnul, Hconf.
  assert (match os with LinuxHost => negb true | MacOS => false end = false) as -> by by destruct os.
  unfold bound_addr in *. destruct (bound s !! key_of e) as [b'|] eqn:Eb.
  - destruct (rpcb_set_bound who s (prog e) (vers e) (netid e) (addr e) b' Eb) as (s' & -> & Hs').
    cbn [fmap option_fmap option_map] in Hs. destruct Hs as [|Hs]; [done|]. simplify_eq.
    rewrite Hs, Ha, bool_decide_eq_true_2 by done. cbn [fst snd]. by rewrite Hs', Eb; cbn; rewrite Hs.
  - destruct (rpcb_set_free who s (prog e) (vers e) (netid e) (addr e) Eb) as (s' & -> & Hs').
    cbn [fst snd]. rewrite Hs'. fold (key_of e). rewrite lookup_insert_eq. cbn. by rewrite Ha.
Qed.

Definition restored_to (s0 s : pm) : Prop :=
  ∀ k : Key, bound_addr s k = bound_addr s0 k ∨ (k.1 ∈ unset_versions ∧ bound_addr s k = None).

Lemma set_entries_again who s0 es s :
  (∀ e, e ∈ es → ∃ b, bound s0 !! key_of e = Some b ∧ entry_for (key_of e, b) e) →
  restored_to s0 s →
  let r := rpcb_set_entries lossy os who s es in
  r.1 = Ok tt ∧ restored_to s0 r.2 ∧
  (∀ k : Key, bound_addr s k = bound_addr s0 k → bound_addr r.2 k = bound_addr s0 k) ∧
  ∀ e, e ∈ es → bound_addr r.2 (key_of e) = bound_addr s0 (key_of e).
Proof.
  revert s; induction es as [|e es IH]; intros s Hes Hs; cbn [rpcb_set_entries].
  { split_and!; [done..|]. by intros e ?%not_elem_of_nil. }
  destruct (Hes e) as (b & Hb & He); [by left|].
  assert (Hb' : bound_addr s0 (key_of e) = Some b.1) by (unfold bound_addr; by rewrite Hb).
  destruct (set_entry_again who s0 s e b Hb He) as [Hok Ha].
  { destruct (Hs (key_of e)) as [-> | [_ ->]]; eauto. }
  assert (Hkeep : ∀ k : Key, bound_addr (rpcb_set_entry lossy os who s e).2 k = bound_addr s k ∨
    bound_addr (rpcb_set_entry lossy os who s e).2 k = bound_addr s0 k).
  { intros k. destruct (bound_set who s e k) as [Hk|(-> & _)].
    - left. unfold bound_addr. by rewrite Hk.
    - right. by rewrite Ha, Hb'. }
  destruct (rpcb_set_entry lossy os who s e) as [r s'] eqn:Er; cbn [fst snd] in *. subst r.
  destruct (IH s') as (Hr & Hr1 & Hr2 & Hr3).
  { intros e' ?. apply Hes. by right. }
  { intros k. destruct (Hkeep k) as [-> | ->]; [apply Hs|by left]. }
  split_and!; [done|done| |].
  - intros k Hk. apply Hr2. destruct (Hkeep k) as [-> | ->]; done.
  - intros e' [->|?]%elem_of_cons; [|by apply Hr3]. apply Hr2. by rewrite Ha, Hb'.
Qed.

(** C29: Wherever a session that has taken over the port mapper ends, its clean-up
    restores every registration over TCP and UDP that was there before with its
    address, and leaves nothing behind: provided that the user who cleans up may
    remove what the user who registered owns. *)
Theorem services_restored s0 services t who_unset who_register who :
  registrations_wf s0 → services_to_restore parse_ip lossy os s0 = Ok services →
  getnetconfigent "tcp" = true →
  taken_over who_unset who_register s0 t → may_unset who (owner_name who_register) = true →
  let s := restore lossy os who services t in
  (∀ k : Key, listed k.2 = true ∨ k.1 ∉ unset_versions → bound_addr s k = bound_addr s0 k) ∧
  (∀ k : Key, bound s0 !! k = None → bound s !! k = None).
Proof.
  intros Hwf Hsv Hconf Ht Hmay. cbv zeta.
  destruct (list_services_spec s0 Hwf Hconf) as (l & Hl & Hl1 & Hl2).
  unfold services_to_restore in Hsv. rewrite Hl in Hsv.
  assert (services = List.filter is_nfs_service l) as -> by (by injection Hsv).
  assert (Hrem : removed_from s0 (unregister who t)).
  { eapply removed_from_unregister; [by eapply changed_by_taken_over|done]. }
  destruct (set_entries_again who s0 (List.filter is_nfs_service l) (unregister who t))
    as (_ & Hto & Hsame & Hset).
  { intros e He. apply Hl1. by apply list_elem_of_In, filter_In in He as [?%list_elem_of_In _]. }
  { intros k. unfold bound_addr. destruct (Hrem k) as [-> | [? ->]]; eauto. }
  unfold restore. split.
  - intros k Hk. destruct (Hto k) as [?|[Hin Hn]]; [done|].
    destruct (bound s0 !! k) as [b|] eqn:Eb; [|unfold bound_addr in *; by rewrite Eb].
    destruct Hk as [Hk|]; [|done]. destruct (Hl2 k b Eb Hk) as (e & He & <-). apply Hset.
    apply list_elem_of_In, filter_In. split; [by apply list_elem_of_In|].
    apply bool_decide_eq_true. cbn in Hin. revert Hin. unfold unset_versions.
    rewrite !elem_of_cons, elem_of_nil. naive_solver.
  - intros k Hk. destruct (Hto k) as [Hs|[_ Hs]]; unfold bound_addr in Hs.
    + rewrite Hk in Hs. by apply fmap_None in Hs.
    + by apply fmap_None in Hs.
Qed.

(** What is registered at a key is not replaced by a registration. *)
Lemma register_keeps who st es (k : Key) b :
  bound st.2 !! k = Some b → bound (foldl (register_step lossy os who) st es).2 !! k = Some b.
Proof.
  revert st; induction es as [|e es IH]; intros st Hb; [done|]; cbn [foldl]. apply IH.
  destruct (register_step_state who st e) as [-> | ->]; [done|].
  destruct (bound_set who st.2 e k) as [-> | (_ & Hn & _)]; congruence.
Qed.

Lemma register_step_Ok who b s e :
  Str.has_nul (netid e) = false →
  ∃ b', register_step lossy os who (Ok b, s) e = (Ok b', (rpcb_set_entry lossy os who s e).2).
Proof.
  intros Hnul. unfold register_step, rpcb_set_entry. rewrite Hnul.
  destruct (match os with LinuxHost => _ | MacOS => _ end); [by eexists|].
  destruct (rpcb_set _ _ _ _ _ _) as [[] ?]; cbn [status_of_bool handle_rpc_error]; by eexists.
Qed.

Lemma register_all_bind who b s es e :
  Forall (λ e, Str.has_nul (netid e) = false) es → NoDup (key_of <$> es) → e ∈ es →
  getnetconfigent (netid e) = true →
  let s' := (foldl (register_step lossy os who) (Ok b, s) es).2 in
  match bound s !! key_of e with
  | Some x => bound s' !! key_of e = Some x
  | None => bound s' !! key_of e = Some (uaddr show_ip (addr e), owner_name who)
  end.
Proof.
  cbv zeta. destruct (bound s !! key_of e) as [x|] eqn:Ex; [by intros; apply register_keeps|].
  intros Hnul Hnd Hin Hconf. revert b s Ex.
  induction Hnul as [|e' es Hn _ IH]; intros b s Ex; [by apply not_elem_of_nil in Hin|].
  cbn [foldl]. destruct (register_step_Ok who b s e' Hn) as (b' & ->).
  cbn [fmap list_fmap] in Hnd. apply NoDup_cons in Hnd as [Hne Hnd].
  apply elem_of_cons in Hin as [<-|Hin].
  - apply register_keeps. cbn [snd]. unfold rpcb_set_entry. rewrite Hn, Hconf.
    assert (match os with LinuxHost => negb true | MacOS => false end = false) as -> by by destruct os.
    destruct (rpcb_set_free who s (prog e) (vers e) (netid e) (addr e) Ex) as (s' & -> & Hs').
    cbn [snd]. rewrite Hs'. apply lookup_insert_eq.
  - apply IH; [done..|].
    destruct (bound_set who s e' (key_of e)) as [-> | (Heq & _)]; [done|].
    destruct Hne. rewrite <-Heq. by apply list_elem_of_fmap_2.
Qed.

(** The services of the VM are registered at its ports wherever the port mapper
    has no entry of someone else. *)
Lemma register_registers who s e :
  e ∈ register_entries → getnetconfigent (netid e) = true → bound s !! key_of e = None →
  bound_addr (register lossy os who s).2 (key_of e) = Some (uaddr show_ip (addr e)).
Proof.
  intros Hin Hconf Hfree. unfold bound_addr.
  assert (Hall : bound (foldl (register_step lossy os who) (Ok false, s) register_entries).2
    !! key_of e = Some (uaddr show_ip (addr e), owner_name who)).
  { assert (Hnul : Forall (λ e, Str.has_nul (netid e) = false) register_entries)
      by (apply (bool_decide_unpack _); vm_compute; done).
    assert (Hnd : NoDup (key_of <$> register_entries))
      by (apply (bool_decide_unpack _); vm_compute; done).
    pose proof (register_all_bind who false s _ e Hnul Hnd Hin Hconf) as Hb.
    cbv zeta in Hb. by rewrite Hfree in Hb. }
  unfold register. destruct (foldl _ _ _) as [[[]|m|] s'']; cbn [snd] in *; by rewrite Hall.
Qed.

(** A registration for another transport is lost, when the user may remove it. *)
Lemma other_transport_lost s0 services t who_unset who_register who (k : Key) b :
  registrations_wf s0 → services_to_restore parse_ip lossy os s0 = Ok services →
  getnetconfigent "tcp" = true → taken_over who_unset who_register s0 t →
  may_unset who (owner_name who_register) = true →
  bound s0 !! k = Some b → k.1 ∈ unset_versions → listed k.2 = false →
  may_unset who b.2 = true →
  bound (restore lossy os who services t) !! k = None.
Proof.
  intros Hwf Hsv Hconf Ht Hmay Hb Hin Hl Hmayb.
  destruct (list_services_spec s0 Hwf Hconf) as (l & El & Hl1 & _).
  unfold services_to_restore in Hsv. rewrite El in Hsv. injection Hsv as <-.
  assert (Hgone : bound (unregister who t) !! k = None).
  { destruct (bound (unregister who t) !! k) as [b'|] eqn:Eb; [|done].
    apply unregister_Some in Eb as [Eb Hn]. destruct (Hn Hin).
    destruct (changed_by_taken_over _ _ _ _ Ht k) as [E|[_ [E|[a E]]]];
      rewrite E in Eb; [rewrite Hb in Eb|done|]; by simplify_eq. }
  unfold restore. revert Hgone. generalize (unregister who t); intros s Hs.
  assert (Hes : ∀ e, e ∈ List.filter is_nfs_service l → listed (netid e) = true).
  { intros e He. apply list_elem_of_In, filter_In in He as [He%list_elem_of_In _].
    destruct (Hl1 e He) as (b' & _ & _ & _ & ? & _). done. }
  revert s Hs; induction (List.filter is_nfs_service l) as [|e es IH]; intros s Hs; [done|].
  cbn [rpcb_set_entries]. destruct (rpcb_set_entry lossy os who s e) as [r s'] eqn:Er.
  assert (Hs' : bound s' !! k = None).
  { change s' with (r, s').2. rewrite <-Er.
    destruct (bound_set who s e k) as [-> | (Heq & _)]; [done|].
    subst k. cbn in Hl. rewrite Hes in Hl by by left. done. }
  destruct r; [apply IH; [|done]|done..]. intros ? ?; apply Hes. by right.
Qed.
End restored.

(** ** A session with rpcbind *)
Module Witness.
Definition show_ip (ip : IpAddr) : string := match ip with V4 _ => "0.0.0.0" | V6 _ => "::" end.
Definition parse_ip (s : string) : option IpAddr :=
  if decide (s = "0.0.0.0") then Some (V4 0) else if decide (s = "::") then Some (V6 0) else None.

(** A user may remove what is his, root everything. *)
Definition removes (who p v : _) (kb : Key * (string * string)) : bool :=
  bool_decide (kb.1.1 = (p, v)) && (bool_decide (who = kb.2.2) || bool_decide (who = "root")).

#[local] Instance rpcbind : PortMapper := {|
  pm := gmap Key (string * string);
  getnetconfigent n := bool_decide (n ∈ ["tcp"; "udp"; "tcp6"; "udp6"; "local"]);
  getrpcbynumber _ := None;
  rpcb_set who s p v n a :=
    match s !! (p, v, n) with
    | Some b => (bool_decide (b.1 = uaddr show_ip a), s)
    | None => (true, <[(p, v, n) := (uaddr show_ip a, who)]> s)
    end;
  rpcb_unset who s p v := filter (λ kb, removes who p v kb = false) s;
  rpcb_getmaps s := node_of <$> map_to_list s;
  rpcb_dump s := (Some Success, node_of <$> map_to_list s);
|}.

#[local] Instance rpcbind_laws : PortMapperLaws show_ip.
Proof.
  refine {| bound := λ s : pm, s; owner_name := id;
            may_unset who o := bool_decide (who = o) || bool_decide (who = "root") |}.
  - intros who. by rewrite bool_decide_eq_true_2.
  - intros who s p v n a Hn. eexists. split; [|done]. cbn [rpcb_set rpcbind]. by rewrite Hn.
  - intros who s p v n a b Hb. exists s. split; [|done]. cbn [rpcb_set rpcbind]. by rewrite Hb.
  - intros who s p v k. cbn. rewrite map_lookup_filter.
    match goal with |- (?o ≫= _) = (?o' ≫= _) => change o' with o; destruct o as [b|] end;
      [|done]. cbn [mbind option_bind].
    destruct (removes who p v (k, b)) eqn:Er.
    + rewrite option_guard_False by done. cbn [mbind option_bind].
      apply andb_true_iff in Er as [Ek%bool_decide_eq_true Em]. by rewrite decide_True.
    + rewrite option_guard_True by done. cbn [mbind option_bind]. rewrite decide_False; [done|].
      intros [Ek Em]. apply not_true_iff_false in Er. apply Er.
      apply andb_true_iff. split; [by apply bool_decide_eq_true|done].
  - intros s. by exists (map_to_list s).
  - done.
Defined.

(** A host with statd and an NFS server of its own. *)
Definition host : pm := list_to_map
  [((RPCPROG_STAT, 1, "udp"), ("0.0.0.0.3.127", "root"));
   ((RPCPROG_NFS, 3, "tcp6"), ("::.8.1", "me"));
   ((RPCPROG_NFS, 3, "local"), ("/run/nfs.sock", "me"));
   ((100021, 4, "tcp"), ("0.0.0.0.4.1", "root"))]%N.
Definition services : list Entry :=
  default [] (ok (Rpcbind.services_to_restore parse_ip id MacOS host)).
Definition registered : pm := (register id MacOS "me" (unregister "root" host)).2.

Definition addr_at (s : gmap Key (string * string)) (k : Key) : option string := fst <$> s !! k.

Example vm_services_registered :
  addr_at registered (RPCPROG_NFS, 3%N, "tcp6") = Some "::.8.1" ∧
  addr_at registered (RPCPROG_MNT, 1%N, "tcp") = Some "0.0.0.0.127.255" ∧
  addr_at registered (RPCPROG_STAT, 1%N, "udp") = Some "0.0.0.0.127.253" ∧
  addr_at registered (RPCPROG_NFS, 3%N, "local") = None.
Proof. vm_compute. done. Qed.

Lemma host_wf : registrations_wf parse_ip id host.
Proof.
  intros k b Hb. apply (elem_of_map_to_list host) in Hb. revert k b Hb.
  assert (Hall : Forall (λ kb, well_formed (show_ip := show_ip) parse_ip id kb) (map_to_list host)).
  { assert (map_to_list host =
      ltac:(let l := eval vm_compute in (map_to_list host) in exact l)) as -> by (vm_compute; done).
    assert (Hw : ∀ kb : Key * (string * string),
      (listed kb.1.2 = true → Str.has_nul kb.1.2 = false ∧ getnetconfigent kb.1.2 = true ∧
         ∃ a, kb.2.1 = uaddr show_ip a ∧ parse_ip (show_ip (sock_ip a)) = Some (sock_ip a) ∧
           (sock_port a ≤ u16_max)%N) → well_formed (show_ip := show_ip) parse_ip id kb).
    { intros kb Hk. split; [done|]. intros (? & ? & a & ? & ? & ?)%Hk. by repeat (eexists || split). }
    repeat apply Forall_cons_2; [..|apply Forall_nil_2]; apply Hw; cbn [fst snd]; intros Hl;
      (split; [vm_compute; done|split; [vm_compute; done|]]).
    all: try (by vm_compute in Hl).
    all: first [ exists (mkSockAddr (V4 0) 895); by vm_compute
               | exists (mkSockAddr (V4 0) 1025); by vm_compute
               | exists (mkSockAddr (V6 0) 2049); by vm_compute ]. }
  intros k b Hb. by rewrite Forall_forall in Hall; apply Hall.
Qed.

Example services_restored_witness :
  let s := restore id MacOS "me" services registered in
  (∀ k : Key, listed k.2 = true ∨ k.1 ∉ unset_versions → bound_addr s k = bound_addr host k) ∧
  (∀ k : Key, bound host !! k = None → bound s !! k = None).
Proof.
  refine (services_restored parse_ip id MacOS host services registered "root" "me" "me"
    host_wf _ _ _ _).
  - vm_compute. reflexivity.
  - vm_compute. reflexivity.
  - exact (Registered id MacOS "root" "me" host 24).
  - vm_compute. reflexivity.
Defined.
End Witness.
