(* ===== verification/PubSub.v ===== *)
(** * Publish and subscribe ([pubsub.rs])

    The hub as a transition system: every operation holds the mutex of the
    subscriber map once, so it is one step, but for [subscribe], which takes its
    id before it inserts the sender, and the drop of a subscription, which first
    unsubscribes and then drops the receiver.  Steps of any number of threads
    interleave.  The log of all published messages is kept beside the state. *)
From S2P Require Import Prelude.

Section pubsub.
Context {T : Type}.

(** ** Channels *)
(** An unbounded channel of [mpsc]: what was sent and not yet received, whether
    the receiver is still there; [received] records what was received. *)
Record Channel := mkChannel { queue : list T; rx_alive : bool; received : list T }.
Definition channel : Channel := mkChannel [] true [].

(** [Sender::send]: fails when the receiver is gone. *)
Definition send (c : Channel) (msg : T) : option Channel :=
  if rx_alive c then Some (mkChannel (queue c ++ [msg]) true (received c)) else None.

(** ** The hub *)
(** A subscriber's sender is named by its channel.  [entering] are the calls of
    [subscribe] between their two steps: the id and the channel. *)
Record Hub := mkHub {
  subscribers : gmap N nat;
  next_id : N;
  channels : list Channel;
  entering : list (N * nat);
  published : list T;
}.
Definition new : Hub := mkHub ∅ 0 [] [] [].

Definition set_channel (h : Hub) (c : nat) (ch : Channel) : Hub :=
  mkHub (subscribers h) (next_id h) (<[c := ch]> (channels h)) (entering h) (published h).

Definition set_subscribers (h : Hub) (m : gmap N nat) : Hub :=
  mkHub m (next_id h) (channels h) (entering h) (published h).

(** [mpsc::channel] and [fetch_add], which wraps around. *)
Definition subscribe_start (h : Hub) : Hub :=
  mkHub (subscribers h) ((next_id h + 1) mod 2 ^ 64) (channels h ++ [channel])
    (entering h ++ [(next_id h, length (channels h))]) (published h).

(** The insertion of the [i]-th call under way. *)
Definition subscribe_insert (h : Hub) (i : nat) : option Hub :=
  match entering h !! i with
  | Some (id, c) =>
      Some (mkHub (<[id := c]> (subscribers h)) (next_id h) (channels h)
              (delete i (entering h)) (published h))
  | None => None
  end.

(** [retain] visits every subscriber once. *)
Definition retained (h : Hub) : gmap N nat :=
  filter (λ p, (rx_alive <$> channels h !! p.2) = Some true) (subscribers h).

Definition deliver (h : Hub) (msg : T) (c : nat) (ch : Channel) : Channel :=
  if bool_decide (map_Exists (λ _ c', c' = c) (subscribers h)) then default ch (send ch msg) else ch.

Definition publish (h : Hub) (msg : T) : Hub :=
  mkHub (retained h) (next_id h) (imap (deliver h msg) (channels h)) (entering h)
    (published h ++ [msg]).

Definition unsubscribe (h : Hub) (id : N) : Hub := set_subscribers h (delete id (subscribers h)).

Definition subscriber_count (h : Hub) : nat := size (subscribers h).

(** [recv] on a channel: a message, the end when no sender is left, or it
    blocks ([None]); nobody receives from a receiver that is gone. *)
Inductive Received := Msg (t : T) | Disconnected.

Definition has_sender (h : Hub) (c : nat) : bool :=
  bool_decide (map_Exists (λ _ c', c' = c) (subscribers h)) ||
  existsb (λ p, bool_decide (p.2 = c)) (entering h).

Definition recv (h : Hub) (c : nat) : option (Received * Hub) :=
  match channels h !! c with
  | Some (mkChannel (t :: q) true r) => Some (Msg t, set_channel h c (mkChannel q true (r ++ [t])))
  | Some (mkChannel [] true _) => if has_sender h c then None else Some (Disconnected, h)
  | _ => None
  end.

(** [Receiver]'s drop. *)
Definition drop_receiver (h : Hub) (c : nat) : Hub :=
  match channels h !! c with
  | Some ch => set_channel h c (mkChannel (queue ch) false (received ch))
  | None => h
  end.

(** ** Subscriptions *)
(** [Subscription]: its id, which [unsubscribe] takes, and its receiver. *)
Record Subscription := mkSubscription { sub_id : option N; rx : nat }.

Definition sub_unsubscribe (h : Hub) (s : Subscription) : Hub * Subscription :=
  match sub_id s with
  | Some id => (unsubscribe h id, mkSubscription None (rx s))
  | None => (h, s)
  end.

(** [Iterator::next] *)
Definition next (h : Hub) (s : Subscription) : option (option T * Hub) :=
  match recv h (rx s) with
  | Some (Msg t, h) => Some (Some t, h)
  | Some (Disconnected, h) => Some (None, h)
  | None => None
  end.

(** ** Interleavings *)
Inductive Op :=
| OSubscribe | OInsert (i : nat) | OPublish (t : T) | OUnsubscribe (id : N)
| ORecv (c : nat) | ODropReceiver (c : nat).

Definition exec (h : Hub) (o : Op) : option Hub :=
  match o with
  | OSubscribe => Some (subscribe_start h)
  | OInsert i => subscribe_insert h i
  | OPublish t => Some (publish h t)
  | OUnsubscribe id => Some (unsubscribe h id)
  | ORecv c => snd <$> recv h c
  | ODropReceiver c => Some (drop_receiver h c)
  end.

Fixpoint run (h : Hub) (os : list Op) : option Hub :=
  match os with
  | [] => Some h
  | o :: os => h ← exec h o; run h os
  end.

(** ** What subscribers get *)
Definition history (ch : Channel) : list T := received ch ++ queue ch.

(** What the operations publish, and how often they subscribe. *)
Definition message (o : Op) : list T := match o with OPublish t => [t] | _ => [] end.
Definition messages (os : list Op) : list T := os ≫= message.
Definition is_subscribe (o : Op) : bool := match o with OSubscribe => true | _ => false end.
Definition subscriptions (os : list Op) : nat := length (List.filter is_subscribe os).

(** Ids and channels count the calls of [subscribe]. *)
Record hub_inv (h : Hub) : Prop := {
  inv_next : next_id h = N.of_nat (length (channels h));
  inv_subs id c : subscribers h !! id = Some c → id = N.of_nat c ∧ c < length (channels h);
  inv_entering id c : (id, c) ∈ entering h →
    id = N.of_nat c ∧ c < length (channels h) ∧ subscribers h !! id = None;
  inv_nodup : NoDup (entering h);
}.

Lemma new_inv : hub_inv new.
Proof. split; [done|done|by intros ?? ?%not_elem_of_nil|constructor]. Qed.

Lemma subscribe_start_inv h :
  (N.of_nat (length (channels h)) + 1 < 2 ^ 64)%N → hub_inv h → hub_inv (subscribe_start h).
Proof.
  intros Hn [Hnext Hs He Hd]. split; unfold subscribe_start; cbn [next_id subscribers entering channels].
  - rewrite Hnext, N.mod_small, length_app by done. cbn [length]. lia.
  - intros id c Hc. rewrite length_app. apply Hs in Hc as [-> ?]. cbn [length]. lia.
  - intros id c. rewrite length_app, elem_of_app, list_elem_of_singleton. cbn [length].
    intros [(? & ? & ?)%He | [= -> ->]]; [split_and!; [done|lia|done]|].
    split_and!; [done|lia|]. destruct (subscribers h !! next_id h) as [c|] eqn:Ec; [|done].
    apply Hs in Ec. lia.
  - apply NoDup_app. split_and!; [done| |by apply NoDup_singleton].
    intros [id c] Hin Heq%list_elem_of_singleton. simplify_eq. apply He in Hin. lia.
Qed.

Lemma subscribe_insert_inv h h' i : hub_inv h → subscribe_insert h i = Some h' → hub_inv h'.
Proof.
  intros [Hnext Hs He Hd]. unfold subscribe_insert.
  destruct (entering h !! i) as [[id c]|] eqn:Ei; [|done]. intros [= <-].
  assert (Hi : (id, c) ∈ entering h) by by eapply list_elem_of_lookup_2.
  assert (Hperm : entering h ≡ₚ (id, c) :: delete i (entering h)) by by apply delete_Permutation.
  rewrite Hperm in Hd. apply NoDup_cons in Hd as [Hout Hd].
  split; cbn [next_id subscribers entering channels]; [done| | |done].
  - intros id' c'. destruct (decide (id' = id)) as [->|Hne].
    + rewrite lookup_insert_eq. intros [= <-]. naive_solver.
    + rewrite lookup_insert_ne by done. apply Hs.
  - intros id' c' Hin. assert (Hin' : (id', c') ∈ entering h) by (rewrite Hperm; by right).
    destruct (He _ _ Hin') as (-> & ? & Hn). split_and!; [done..|].
    rewrite lookup_insert_ne; [done|]. intros ->. apply Hout.
    destruct (He _ _ Hi) as (? & _). by replace c with c' by lia.
Qed.

Lemma set_subscribers_inv h m : m ⊆ subscribers h → hub_inv h → hub_inv (set_subscribers h m).
Proof.
  intros Hm [Hnext Hs He Hd]. split; cbn [next_id subscribers entering channels set_subscribers]; [done| | |done].
  - intros id c Hc. eapply Hs, lookup_weaken; done.
  - intros id c (? & ? & ?)%He. split_and!; [done..|]. by eapply lookup_weaken_None.
Qed.

Lemma channels_inv h chs ps :
  length chs = length (channels h) → hub_inv h →
  hub_inv (mkHub (subscribers h) (next_id h) chs (entering h) ps).
Proof. intros Hl [Hnext Hs He Hd]. split; cbn; by rewrite ?Hl. Qed.

Lemma exec_inv h o h' :
  (N.of_nat (length (channels h)) + 1 < 2 ^ 64)%N → hub_inv h → exec h o = Some h' → hub_inv h'.
Proof.
  intros Hn Hh. destruct o as [|i|t|id|c|c]; cbn [exec].
  - intros [= <-]. by apply subscribe_start_inv.
  - by apply subscribe_insert_inv.
  - intros [= <-]. apply (channels_inv (set_subscribers h (retained h))); [apply length_imap|].
    apply set_subscribers_inv; [|done]. apply map_filter_subseteq.
  - intros [= <-]. apply set_subscribers_inv; [|done]. apply delete_subseteq.
  - intros (r & Hr & ->)%fmap_Some. unfold recv in Hr. repeat case_match; simplify_eq; cbn [snd].
    + done.
    + apply (channels_inv h); [apply length_insert|done].
  - intros [= <-]. unfold drop_receiver. destruct (channels h !! c); [|done].
    apply (channels_inv h); [apply length_insert|done].
Qed.

Lemma exec_channels h o h' :
  exec h o = Some h' →
  length (channels h') = length (channels h) + (if is_subscribe o then 1 else 0).
Proof.
  destruct o as [|i|t|id|c|c]; cbn [exec is_subscribe].
  - intros [= <-]. cbn [subscribe_start channels]. by rewrite length_app.
  - unfold subscribe_insert. destruct (entering h !! i) as [[]|]; [|done]. intros [= <-]; cbn; lia.
  - intros [= <-]. cbn [publish channels]. rewrite length_imap. lia.
  - intros [= <-]. cbn; lia.
  - intros (r & Hr & ->)%fmap_Some. unfold recv in Hr. repeat case_match; simplify_eq;
      cbn [snd set_channel channels]; rewrite ?length_insert; lia.
  - intros [= <-]. unfold drop_receiver. destruct (channels h !! c); [|lia].
    cbn [set_channel channels]. rewrite length_insert. lia.
Qed.

Lemma run_channels os h h' :
  run h os = Some h' → length (channels h') = length (channels h) + subscriptions os.
Proof.
  revert h; induction os as [|o os IH]; intros h; cbn [run]; [intros [= <-]; cbn; lia|].
  intros (h1 & Hh%exec_channels & ->%IH)%bind_Some. unfold subscriptions; cbn [List.filter].
  destruct (is_subscribe o); cbn [length]; lia.
Qed.

Lemma run_inv os h h' :
  (N.of_nat (length (channels h) + subscriptions os) + 1 < 2 ^ 64)%N → hub_inv h →
  run h os = Some h' → hub_inv h'.
Proof.
  revert h; induction os as [|o os IH]; intros h Hn Hh; cbn [run].
  - by intros [= <-].
  - intros (h1 & H1 & H2)%bind_Some. unfold subscriptions in Hn; cbn [List.filter] in Hn.
    pose proof (exec_channels _ _ _ H1) as Hc.
    apply (IH h1); [|eapply exec_inv; [|done|done]|done]; unfold subscriptions;
      destruct (is_subscribe o); cbn [length] in Hn; lia.
Qed.

(** The operations that end neither the subscription [id] nor its receiver [c]. *)
Definition keeps (id : N) (c : nat) (o : Op) : Prop :=
  match o with OUnsubscribe id' => id' ≠ id | ODropReceiver c' => c' ≠ c | _ => True end.

(** A channel that is subscribed and listened to, and what it has got so far. *)
Definition listening (h : Hub) (id : N) (c : nat) (got : list T) : Prop :=
  subscribers h !! id = Some c ∧
  ∃ ch, channels h !! c = Some ch ∧ rx_alive ch = true ∧ history ch = got.

Lemma recv_history h c r h' c' ch :
  recv h c = Some (r, h') → channels h !! c' = Some ch →
  ∃ ch', channels h' !! c' = Some ch' ∧ rx_alive ch' = rx_alive ch ∧ history ch' = history ch.
Proof.
  unfold recv. intros Hr Hc. repeat case_match; simplify_eq; [by eauto|].
  cbn [set_channel channels]. destruct (decide (c' = c)) as [->|Hne].
  - simplify_eq. rewrite list_lookup_insert_eq by by eapply lookup_lt_Some.
    eexists; split_and!; [done..|]. unfold history; cbn. by rewrite <-app_assoc.
  - rewrite list_lookup_insert_ne by done. by eauto.
Qed.

Lemma recv_subscribers h c r h' :
  recv h c = Some (r, h') → subscribers h' = subscribers h ∧ entering h' = entering h.
Proof. unfold recv. intros Hr. by repeat case_match; simplify_eq. Qed.

Lemma exec_listening h o h' id c got :
  hub_inv h → listening h id c got → keeps id c o → exec h o = Some h' →
  listening h' id c (got ++ message o).
Proof.
  intros Hh (Hid & ch & Hc & Ha & <-) Hk.
  assert (Hlt : c < length (channels h)) by by eapply lookup_lt_Some.
  destruct o as [|i|t|id'|c'|c']; cbn [exec message]; rewrite ?app_nil_r.
  - intros [= <-]. split; [done|]. exists ch. cbn [subscribe_start channels].
    by rewrite lookup_app_l.
  - unfold subscribe_insert. destruct (entering h !! i) as [[id' c']|] eqn:Ei; [|done].
    intros [= <-]. split; [|by exists ch]. cbn [subscribers].
    apply list_elem_of_lookup_2, (inv_entering _ Hh) in Ei as (_ & _ & Hn).
    rewrite lookup_insert_ne; [done|]. intros ->. congruence.
  - intros [= <-]. split; cbn [publish subscribers channels].
    + unfold retained. apply map_lookup_filter_Some. cbn [fst snd]. by rewrite Hc; cbn; rewrite Ha.
    + exists (mkChannel (queue ch ++ [t]) true (received ch)). split_and!; [|done|].
      * rewrite list_lookup_imap, Hc. cbn. f_equal. unfold deliver.
        rewrite bool_decide_eq_true_2 by by exists id, c. unfold send. by rewrite Ha.
      * unfold history; cbn. by rewrite app_assoc.
  - intros [= <-]. split; [|by exists ch]. cbn [keeps] in Hk.
    cbn [unsubscribe set_subscribers subscribers]. by rewrite lookup_delete_ne.
  - intros ([r h1] & Hr & ->)%fmap_Some. cbn [snd].
    destruct (recv_history _ _ _ _ _ _ Hr Hc) as (ch' & ? & Ha' & ?).
    destruct (recv_subscribers _ _ _ _ Hr) as [Hs _]. split; [by rewrite Hs|].
    exists ch'. split_and!; [done|congruence|done].
  - intros [= <-]. cbn [keeps] in Hk. unfold drop_receiver.
    destruct (channels h !! c') as [ch'|]; [|by split; [|exists ch]].
    split; [done|]. exists ch. cbn [set_channel channels]. by rewrite list_lookup_insert_ne.
Qed.

Lemma run_listening os h h' id c got :
  (N.of_nat (length (channels h) + subscriptions os) + 1 < 2 ^ 64)%N →
  hub_inv h → listening h id c got → Forall (keeps id c) os → run h os = Some h' →
  listening h' id c (got ++ messages os).
Proof.
  revert h got; induction os as [|o os IH]; intros h got Hn Hh Hl Hk; cbn [run].
  - intros [= <-]. unfold messages. cbn [mbind list_bind]. by rewrite app_nil_r.
  - intros (h1 & H1 & H2)%bind_Some. inversion_clear Hk as [|? ? Hk1 Hk2].
    unfold subscriptions in Hn; cbn [List.filter] in Hn.
    pose proof (exec_channels _ _ _ H1) as Hc.
    change (messages (o :: os)) with (message o ++ messages os). rewrite app_assoc.
    apply (IH h1); [| |by eapply exec_listening|done|done];
      [|eapply exec_inv; [|done|done]]; unfold subscriptions;
      destruct (is_subscribe o); cbn [length] in Hn; lia.
Qed.

(** Neither subscribed nor about to be. *)
Lemma has_sender_false h c :
  has_sender h c = false ↔
  (∀ id, subscribers h !! id ≠ Some c) ∧ ∀ id, (id, c) ∉ entering h.
Proof.
  unfold has_sender. rewrite orb_false_iff, bool_decide_eq_false, <-not_true_iff_false, existsb_exists.
  split.
  - intros [Hs He]. split.
    + intros id Hid. apply Hs. by exists id, c.
    + intros id Hin. apply He. exists (id, c). split; [by apply list_elem_of_In|].
      by apply bool_decide_eq_true.
  - intros [Hs He]. split.
    + intros (id & c' & Hid & ->). by eapply Hs.
    + intros ([id c'] & Hin%list_elem_of_In & Hc%bool_decide_eq_true). cbn in Hc; subst. by eapply He.
Qed.

Lemma exec_silent h o h' c ch :
  has_sender h c = false → channels h !! c = Some ch → exec h o = Some h' →
  has_sender h' c = false ∧ ∃ ch', channels h' !! c = Some ch' ∧ history ch' = history ch.
Proof.
  rewrite !has_sender_false. intros [Hs He] Hc.
  assert (Hlt : c < length (channels h)) by by eapply lookup_lt_Some.
  destruct o as [|i|t|id'|c'|c']; cbn [exec].
  - intros [= <-]. cbn [subscribe_start subscribers entering channels]. split_and!; [done| |].
    + intros id. rewrite elem_of_app, list_elem_of_singleton. intros [Hin|[= _ ->]]; [by eapply He|lia].
    + exists ch. by rewrite lookup_app_l.
  - unfold subscribe_insert. destruct (entering h !! i) as [[id' c']|] eqn:Ei; [|done].
    intros [= <-]. cbn [subscribers entering channels].
    assert (c' ≠ c) by (intros ->; by eapply He, list_elem_of_lookup_2).
    split_and!; [| |by exists ch].
    + intros id. destruct (decide (id = id')) as [->|]; [rewrite lookup_insert_eq; congruence|].
      rewrite lookup_insert_ne; done.
    + intros id Hin. eapply He. rewrite (delete_Permutation _ _ _ Ei). by right.
  - intros [= <-]. cbn [publish subscribers entering channels]. split_and!; [|done|].
    + intros id [Hid _]%map_lookup_filter_Some. by eapply Hs.
    + exists ch. rewrite list_lookup_imap, Hc. split; [|done]. cbn. f_equal. unfold deliver.
      rewrite bool_decide_eq_false_2; [done|]. intros (id & c' & Hid & ->). by eapply Hs.
  - intros [= <-]. cbn. split_and!; [|done|by exists ch].
    intros id [_ Hid]%lookup_delete_Some. by eapply Hs.
  - intros ([r h1] & Hr & ->)%fmap_Some. cbn [snd].
    destruct (recv_history _ _ _ _ _ _ Hr Hc) as (ch' & ? & _ & ?).
    destruct (recv_subscribers _ _ _ _ Hr) as [-> ->]. split; [done|by exists ch'].
  - intros [= <-]. unfold drop_receiver. destruct (channels h !! c') as [ch'|] eqn:E; [|by eauto].
    cbn [set_channel subscribers entering channels]. split; [done|].
    destruct (decide (c' = c)) as [->|]; [|by exists ch; rewrite list_lookup_insert_ne].
    simplify_eq. rewrite list_lookup_insert_eq by done. by eexists.
Qed.

Lemma run_silent os h h' c ch :
  has_sender h c = false → channels h !! c = Some ch → run h os = Some h' →
  ∃ ch', channels h' !! c = Some ch' ∧ history ch' = history ch.
Proof.
  revert h ch; induction os as [|o os IH]; intros h ch Hs Hc; cbn [run].
  - intros [= <-]. by exists ch.
  - intros (h1 & H1 & H2)%bind_Some.
    destruct (exec_silent _ _ _ _ _ Hs Hc H1) as (Hs' & ch1 & Hc1 & <-). by apply (IH h1).
Qed.


(** [recv] ends only when everything sent has been received. *)
Lemma recv_disconnected h c h' :
  recv h c = Some (Disconnected, h') →
  ∃ ch, channels h !! c = Some ch ∧ queue ch = [] ∧ has_sender h c = false.
Proof. unfold recv. intros Hr. repeat case_match; simplify_eq. by eexists. Qed.
End pubsub.
Arguments Hub : clear implicits.
Arguments Op : clear implicits.
Arguments Channel : clear implicits.

(** ** Two subscribers *)
Module Witness.
(** The first subscribes, gets 1 and 2, and unsubscribes; the second, 2 and 3. *)
Definition first_part : list (Op nat) := [OSubscribe; OInsert 0; OSubscribe; OPublish 1; OInsert 0].
Definition second_part : list (Op nat) := [OPublish 2; ORecv 0; OUnsubscribe 0; OPublish 3; ORecv 1].
Definition hub1 : Hub nat := default new (run new first_part).
Definition hub2 : Hub nat := default new (run hub1 second_part).

Example received_in_order :
  (history <$> channels hub1, history <$> channels hub2) = ([[1]; []], [[1; 2]; [2; 3]]).
Proof. vm_compute. reflexivity. Qed.

End Witness.
