(* ===== verification/Effects.v ===== *)
(** * Computations with a state

    The monad of the files that model calls to the outside: a computation reads
    and changes a state and ends with an [outcome]; what was done before an
    error stays done. [within R Q] says that a run that returns is a step of [R]
    and one that fails a step of [Q]; it is closed under the combinators, so that
    a component only proves it for its primitives. *)
From S2P Require Import Prelude.

Definition M (S A : Type) : Type := S → outcome A * S.

#[global] Instance M_ret {S} : MRet (M S) := λ A a s, (Ok a, s).
#[global] Instance M_bind {S} : MBind (M S) := λ A B f m s,
  match m s with
  | (Ok a, s) => f a s
  | (Err e, s) => (Err e, s)
  | (Panic, s) => (Panic, s)
  end.

Section combinators.
Context {S : Type}.

Definition lift {A} (o : outcome A) : M S A := λ s, (o, s).
Definition gets {A} (f : S → A) : M S A := λ s, (Ok (f s), s).
Definition m_context {A} (msg : string) (m : M S A) : M S A :=
  λ s, let '(r, s) := m s in (with_context msg r, s).
(** What happens at the end of a scope, whatever its result. *)
Definition finally {A} (m : M S A) (cleanup : M S unit) : M S A :=
  λ s, let '(r, s) := m s in (r, (cleanup s).2).
(** [_ = m] and [if let Err(_) = m { log }]: a panic is not caught. *)
Definition m_ignore {A} (m : M S A) : M S unit :=
  λ s, match m s with (Panic, s) => (Panic, s) | (_, s) => (Ok tt, s) end.

(** [for x in xs { f(x)? }] *)
Fixpoint m_for {A} (f : A → M S unit) (xs : list A) : M S unit :=
  match xs with
  | [] => mret tt
  | x :: xs => f x;; m_for f xs
  end.

Lemma bind_Ok_inv {A B} (m : M S A) (f : A → M S B) s b s' :
  (m ≫= f) s = (Ok b, s') → ∃ a s1, m s = (Ok a, s1) ∧ f a s1 = (Ok b, s').
Proof. unfold mbind, M_bind. destruct (m s) as [[a|e|] s1]; [eauto|done..]. Qed.

Lemma bind_run {A B} (m : M S A) (f : A → M S B) s a s' : m s = (Ok a, s') → (m ≫= f) s = f a s'.
Proof. unfold mbind, M_bind. by intros ->. Qed.

Lemma m_context_Ok_inv {A} msg (m : M S A) s a s' :
  m_context msg m s = (Ok a, s') → m s = (Ok a, s').
Proof.
  unfold m_context. destruct (m s) as [r s1]. intros [= Hr <-].
  apply with_context_Ok in Hr. by subst r.
Qed.

Lemma m_context_state {A} msg (m : M S A) s : (m_context msg m s).2 = (m s).2.
Proof. unfold m_context. by destruct (m s). Qed.

Lemma m_context_Ok {A} msg (m : M S A) s a s' :
  m s = (Ok a, s') → m_context msg m s = (Ok a, s').
Proof. unfold m_context. by intros ->. Qed.

Lemma finally_Ok_inv {A} (m : M S A) c s a s' :
  finally m c s = (Ok a, s') → ∃ s1, m s = (Ok a, s1) ∧ s' = (c s1).2.
Proof. unfold finally. destruct (m s) as [r s1]. intros [= -> <-]. eauto. Qed.

(** ** Steps *)
Definition within {A} (R Q : relation S) (m : M S A) : Prop :=
  ∀ s, match m s with (Ok _, s') => R s s' | (_, s') => Q s s' end.

(** Runs that return are steps of [R], runs that fail are steps of [Q], which
    a step of [R] may precede. *)
Class Steps (R Q : relation S) := {
  steps_refl s : R s s;
  steps_then s1 s2 s3 : R s1 s2 → R s2 s3 → R s1 s3;
  steps_sub s s' : R s s' → Q s s';
  steps_trans s1 s2 s3 : R s1 s2 → Q s2 s3 → Q s1 s3;
}.

#[export] Instance steps_same R `{!PreOrder R} : Steps R R.
Proof. split; [done|intros ???; apply transitivity|done|intros ???; apply transitivity]. Qed.

Context {R Q : relation S} `{!Steps R Q}.

Lemma within_ret {A} (a : A) : within R Q (mret a).
Proof. intros s. apply steps_refl. Qed.
Lemma within_lift {A} (o : outcome A) : within R Q (lift o).
Proof. intros s. unfold lift. destruct o; [|apply steps_sub..]; apply steps_refl. Qed.
Lemma within_gets {A} (f : S → A) : within R Q (gets f).
Proof. intros s. apply steps_refl. Qed.
Lemma within_bind {A B} (m : M S A) (f : A → M S B) :
  within R Q m → (∀ a, within R Q (f a)) → within R Q (m ≫= f).
Proof.
  intros Hm Hf s. specialize (Hm s). unfold mbind, M_bind.
  destruct (m s) as [[a|e|] s1]; [|done..]. specialize (Hf a s1).
  destruct (f a s1) as [[b|e|] s2]; [by eapply steps_then|by eapply steps_trans..].
Qed.
(** With what is known of the value. *)
Lemma within_bind_when {A B} (P : A → Prop) (m : M S A) (f : A → M S B) :
  (∀ s a s', m s = (Ok a, s') → P a) → within R Q m → (∀ a, P a → within R Q (f a)) →
  within R Q (m ≫= f).
Proof.
  intros HP Hm Hf s. specialize (HP s). specialize (Hm s). unfold mbind, M_bind.
  destruct (m s) as [[a|e|] s1]; [|done..]. specialize (Hf a (HP _ _ eq_refl) s1).
  destruct (f a s1) as [[b|e|] s2]; [by eapply steps_then|by eapply steps_trans..].
Qed.
Lemma within_context {A} msg (m : M S A) : within R Q m → within R Q (m_context msg m).
Proof. intros Hm s. specialize (Hm s). unfold m_context. by destruct (m s) as [[a|e|] s1]. Qed.
Lemma within_for {A} (f : A → M S unit) xs : (∀ x, x ∈ xs → within R Q (f x)) → within R Q (m_for f xs).
Proof.
  intros Hf. induction xs as [|x xs IH]; cbn [m_for]; [apply within_ret|].
  apply within_bind; [apply Hf; set_solver|]. intros _. apply IH. set_solver.
Qed.
Lemma within_if {A} (b : bool) (m1 m2 : M S A) :
  within R Q m1 → within R Q m2 → within R Q (if b then m1 else m2).
Proof. by destruct b. Qed.
(** What fails is undone by nobody: an error that is ignored has to be a step too. *)
Lemma within_ignore {A} (m : M S A) : within R R m → within R Q (m_ignore m).
Proof.
  intros Hm s. specialize (Hm s). unfold m_ignore.
  destruct (m s) as [[a|e|] s1]; [done|done|by apply steps_sub].
Qed.
(** A clean-up that changes nothing that [R] and [Q] look at. *)
Lemma within_finally {A} (m : M S A) c :
  (∀ s s', R s s' → R s (c s').2) → (∀ s s', Q s s' → Q s (c s').2) →
  within R Q m → within R Q (finally m c).
Proof.
  intros HR HQ Hm s. specialize (Hm s). unfold finally. destruct (m s) as [[a|e|] s1]; auto.
Qed.
End combinators.

Lemma within_Ok {S A} (R Q : relation S) (m : M S A) s a s' :
  within R Q m → m s = (Ok a, s') → R s s'.
Proof. intros Hm Hs. specialize (Hm s). by rewrite Hs in Hm. Qed.

Lemma within_state {S A} (R : relation S) (m : M S A) s : within R R m → R s (m s).2.
Proof. intros Hm. specialize (Hm s). by destruct (m s) as [[a|e|] s1]. Qed.

Create HintDb within.
#[export] Hint Resolve within_ret within_lift within_gets within_context within_ignore : within.

(** One combinator at a time; what is left are the primitives. *)
Ltac within_step :=
  match goal with
  | |- within _ _ (mret _) => apply within_ret
  | |- within _ _ (lift _) => apply within_lift
  | |- within _ _ (gets _) => apply within_gets
  | |- within _ _ (m_context _ _) => apply within_context
  | |- within _ _ (m_ignore _) => apply within_ignore
  | |- within _ _ (m_for _ _) => apply within_for; intros
  | |- within _ _ (if _ then _ else _) => apply within_if
  | |- within _ _ (_ ≫= _) => apply within_bind; [|intros]
  | |- within _ _ (match ?x with _ => _ end) => destruct x
  | |- _ => solve [eauto with within]
  end.
Ltac within_solve := repeat within_step.

(** Split every computation that is known to return. *)
Ltac inv_m :=
  repeat match goal with
  | H : (_ ≫= _) _ = (Ok _, _) |- _ =>
      let a := fresh "a" in let st := fresh "st" in let H1 := fresh "H" in
      apply bind_Ok_inv in H as (a & st & H1 & H)
  | H : m_context _ _ _ = (Ok _, _) |- _ => apply m_context_Ok_inv in H
  | H : lift _ _ = (Ok _, _) |- _ => unfold lift in H; simplify_eq
  | H : gets _ _ = (Ok _, _) |- _ => unfold gets in H; simplify_eq
  | H : mret _ _ = (Ok _, _) |- _ => unfold mret, M_ret in H; simplify_eq
  end.
