(* ===== verification/GuestInit.v ===== *)
(** * The start of the agent in its VM ([vmproxy/src/main.rs] [run] up to the
      control server, [init_network], [exec_shell], the overlays)

    The commands that the agent gives to its system before anything is mounted,
    over the computations of [Effects]: temporary file systems and overlays, the
    name server, the interface, the ports it asks the host to forward, the
    listener. The network is composed with the host's start of it
    ([VmNetwork]). The result is the one that [Agent] starts from. *)
From S2P Require Import Prelude Common Settings Ipnet NetPick VmNetwork VmDisk CmdLine Effects.
From Stdlib Require Import Ascii.

(** ** Addresses as text ([Ipv4Addr::from_str]) *)
(** Up to three digits without a leading zero. *)
Definition parse_octet (s : string) : option N :=
  n ← Str.parse_digits s;
  if decide (String.length s ≤ 3 ∧ (n ≤ u8_max)%N ∧ Str.of_N n = s) then Some n else None.

Definition parse_v4 (s : string) : option N :=
  match mapM parse_octet (Str.split "." s) with
  | Some [a; b; c; d] => Some (ipv4 a b c d)
  | _ => None
  end.

(** ** The commands and their answers *)
Inductive SysCall :=
  | Script (code : string)                  (* [/bin/sh -c], waited for *)
  | CreateDirAll (dir : string)
  | WriteFile (path content : string)
  | OpenAppend (path : string)
  | AppendFile (path content : string)
  | Expose (local remote : string)          (* a request to the gateway *)
  | ListenVsock (port : N)
  | ListenTcp (addr : string)
  | Exec (argv : list string).              (* in the place of this process *)
#[global] Instance Call_eq_dec : EqDecision SysCall.
Proof. solve_decision. Defined.

Record System := {
  sys_guest : OSType;
  sys_script : string → outcome bool;       (* has it run, and did it succeed *)
  sys_do : SysCall → outcome unit;
}.

Definition lf : string := String "010" "".
Definition tab : string := String "009" "".

Section guest.
Context `{Ipnet} (sys : System).
(** The order of a [HashSet]. *)
Context (iter_set : gset string → list string).

#[local] Abbreviation M := (M (list SysCall)).

Definition call (c : SysCall) : M unit := λ s, (sys_do sys c, s ++ [c]).
Definition script (code : string) : M bool := λ s, (sys_script sys code, s ++ [Script code]).

(** ** File systems *)
Definition tmpfs_dirs : list string :=
  match sys_guest sys with
  | Linux => ["/.config"; "/.cache"; "/mnt"; "/tmp"; "/run"; "/var/lib/nfs"; "/etc/lvm/archive"; "/etc/lvm/backup"]
  | FreeBSD => ["/mnt"; "/tmp"]
  end.

Definition mount_tmpfs (paths : list string) : M unit :=
  m_for (λ path,
    success ← m_context ("Failed to mount tmpfs on " +:+ path) (script ("mount -t tmpfs tmpfs " +:+ path));
    if (success : bool) then mret tt else lift (Err ("Failed to mount tmpfs on " +:+ path))) paths.

Definition nfs_dirs : list string := ["/var/lib/nfs/rpc_pipefs"; "/var/lib/nfs/sm"].

Definition overlay_script (dir : string) : string :=
  "mount -t tmpfs tmpfs /overlay/" +:+ dir +:+ " && mount -t unionfs /overlay/" +:+ dir +:+ " /" +:+ dir.
Definition setup_fs_overlay (dir : string) : M unit :=
  success ← m_context ("Failed to setup overlay for " +:+ dir) (script (overlay_script dir));
  if (success : bool) then mret tt else lift (Err ("Failed to setup overlay for " +:+ dir)).
Definition setup_writable_dirs_for_nfsd : M unit := m_for setup_fs_overlay ["etc"; "var"].

(** ** The network *)
(** [{:?}] of a [PortDef]. *)
Definition port_def (local remote : string) : string :=
  let q := String (Ascii.ascii_of_nat 34) "" in
  "PortDef { local: " +:+ q +:+ local +:+ q +:+ ", remote: " +:+ q +:+ remote +:+ q +:+ " }".
Definition expose_port (local remote : string) : M unit :=
  m_context ("Failed to expose port: " +:+ port_def local remote) (call (Expose local remote)).

Definition hosts_entries (vm_gateway_ip vm_ip : N) : string :=
  lf +:+ show_v4 vm_gateway_ip +:+ tab +:+ "anylinuxfs-host" +:+ lf +:+
  show_v4 vm_ip +:+ tab +:+ "anylinuxfs-guest" +:+ lf.
Definition add_network_hosts (vm_gateway_ip vm_ip : N) : M unit :=
  m_context "Failed to open /etc/hosts" (call (OpenAppend "/etc/hosts"));;
  m_context "Failed to append anylinuxfs hosts entries" (call (AppendFile "/etc/hosts" (hosts_entries vm_gateway_ip vm_ip))).

Definition resolv_conf : string :=
  match sys_guest sys with Linux => "/tmp/resolv.conf" | FreeBSD => "/etc/resolv.conf" end.

Definition interface_script (vm_ip net_prefix_len vm_gateway_ip : N) : string :=
  match sys_guest sys with
  | Linux =>
      "ip addr add " +:+ show_v4 vm_ip +:+ "/" +:+ Str.of_N net_prefix_len +:+
      " dev eth0 && ip link set eth0 up && ip route add default via " +:+ show_v4 vm_gateway_ip +:+ " dev eth0"
  | FreeBSD =>
      "ifconfig vtnet0 inet " +:+ show_v4 vm_ip +:+ "/" +:+ Str.of_N net_prefix_len +:+
      " && route add default " +:+ show_v4 vm_gateway_ip +:+ " && ifconfig lo0 up"
  end.

(** A host of the network, or the constant, which is parsed in both cases. *)
Definition address (native_network : option Ipv4Net) (i : nat) (default_ip msg : string) : outcome N :=
  d ← ok_or msg (parse_v4 default_ip);
  Ok (default d (net ← native_network; hosts net !! i)).

Definition bind_ports (addr : string) : list (string * string) :=
  [(addr +:+ ":2049", VM_IP +:+ ":2049");
   (addr +:+ ":32765", VM_IP +:+ ":32765");
   (addr +:+ ":32767", VM_IP +:+ ":32767")].

Definition expose_all (bind_addrs : list string) (host_rpcbind : bool) : M unit :=
  (if host_rpcbind then mret tt else expose_port ":111" (VM_IP +:+ ":111"));;
  m_for (λ addr, m_for (λ '(local, remote), expose_port local remote) (bind_ports addr))
    (iter_set (list_to_set bind_addrs)).

Definition is_tsi (dns_server : option string) : bool :=
  match sys_guest sys with Linux => bool_decide (is_Some dns_server) | FreeBSD => false end.

(** The exit status of the script is not looked at. *)
Definition configure_interface (native_network : option Ipv4Net) (vm_gateway_ip : N) : M unit :=
  vm_ip ← lift (address native_network 1 VM_IP "Failed to parse VM_IP");
  (match sys_guest sys with Linux => mret tt | FreeBSD => add_network_hosts vm_gateway_ip vm_ip end);;
  m_context "Failed to configure network interface"
    (script (interface_script vm_ip (default 24%N (prefix_len <$> native_network)) vm_gateway_ip));;
  mret tt.

Definition init_network (bind_addrs : list string) (host_rpcbind : bool) (native_network : option Ipv4Net)
    (dns_server : option string) : M unit :=
  vm_gateway_ip ← lift (address native_network 0 VM_GATEWAY_IP "Failed to parse VM_GATEWAY_IP");
  m_context ("Failed to write " +:+ resolv_conf)
    (call (WriteFile resolv_conf ("nameserver " +:+ default (show_v4 vm_gateway_ip) dns_server +:+ lf)));;
  (if is_tsi dns_server then mret tt else configure_interface native_network vm_gateway_ip);;
  match native_network with
  | Some _ => mret tt
  | None => expose_all bind_addrs host_rpcbind
  end.

(** ** [run] up to the control server *)
Definition shell_argv (cmd : option string) : list string :=
  match cmd with
  | Some cmd => ["/bin/sh"; "-c"; cmd]
  | None => match sys_guest sys with Linux => ["/bin/bash"; "-l"] | FreeBSD => ["/start-shell.sh"] end
  end.
(** It returns only when it fails: [Ok] is the process that became the shell. *)
Definition exec_shell (cmd : option string) : M unit :=
  m_context "Failed to exec shell" (call (Exec (shell_argv cmd))).

Definition listener : SysCall :=
  match sys_guest sys with
  | Linux => ListenVsock VM_CTRL_VSOCK_PORT
  | FreeBSD => ListenTcp ("0.0.0.0:" +:+ Str.of_N VM_CTRL_PORT)
  end.

Definition prepare_system : M unit :=
  mount_tmpfs tmpfs_dirs;;
  match sys_guest sys with
  | Linux => m_for (λ dir, m_context ("Failed to create directory '" +:+ dir +:+ "'") (call (CreateDirAll dir))) nfs_dirs
  | FreeBSD => m_context "Failed to setup writable dirs for nfsd" setup_writable_dirs_for_nfsd
  end.

(** [ipnet]'s parser of the option [--native-network]. *)
Context (net_from_str : string → outcome Ipv4Net).
Definition network_arg (s : option string) : outcome (option Ipv4Net) :=
  match s with Some s => n ← net_from_str s; Ok (Some n) | None => Ok None end.

Definition native_network_of (cmd : SubCmd) : option string :=
  match cmd with Mount cli => a_native_network cli | Shell args => sa_native_network args end.

(** The arguments of a mount that goes on, or the shell. *)
Definition start (cmd : SubCmd) : M (option MountArgs) :=
  net ← lift (network_arg (native_network_of cmd));
  prepare_system;;
  match cmd with
  | Shell args =>
      m_context "Failed to initialize network" (init_network [] true net (sa_dns_server args));;
      exec_shell (sa_command args);;
      mret None
  | Mount cli =>
      m_context "Failed to initialize network" (init_network (a_bind_addrs cli) (a_host_rpcbind cli) net None);;
      call listener;;
      mret (Some cli)
  end.
End guest.

(** ** Addresses printed and read back *)
Lemma octet_bound (a : N) : (a < 2 ^ 32)%N → Forall (λ o, (o ≤ u8_max)%N) (octets a).
Proof.
  intros Ha. pose proof (N.Div0.div_lt_upper_bound a (2 ^ 24) 256 Ha) as H1.
  assert (∀ x, (x mod 256 ≤ u8_max)%N) as Hm by (intros x; pose proof (N.mod_lt x 256 ltac:(done)); unfold u8_max; lia).
  unfold octets. repeat constructor; [unfold u8_max; lia|apply Hm..].
Qed.

Lemma parse_octet_of_N n : (n ≤ u8_max)%N → parse_octet (Str.of_N n) = Some n.
Proof.
  intros Hn. unfold parse_octet. rewrite StrFacts.parse_digits_of_N. cbn [mbind option_bind].
  rewrite decide_True; [done|]. split_and!; [|done|done].
  assert (Forall (λ n, String.length (Str.of_N n) ≤ 3) (N.of_nat <$> seq 0 256)) as Hall.
  { apply (bool_decide_unpack _). vm_compute. reflexivity. }
  rewrite Forall_forall in Hall. apply Hall, list_elem_of_fmap. exists (N.to_nat n).
  split; [lia|]. apply elem_of_seq. unfold u8_max in Hn. lia.
Qed.

Lemma of_N_no_dot n : StrFacts.lacks "." (Str.of_N n) = true.
Proof.
  eapply StrFacts.forallb_impl; [|apply StrFacts.digits_of_N]. intros c Hc. apply bool_decide_eq_true.
  by intros ->.
Qed.

Lemma octets_ipv4 a : (a < 2 ^ 32)%N → 
  ipv4 (a / 2 ^ 24) (a / 2 ^ 16 mod 256) (a / 2 ^ 8 mod 256) (a mod 256) = a.
Proof.
  intros Ha. unfold ipv4. change (2 ^ 24)%N with (2 ^ 8 * (2 ^ 8 * 2 ^ 8))%N. change (2 ^ 16)%N with (2 ^ 8 * 2 ^ 8)%N.
  rewrite <-!N.Div0.div_div. change (2 ^ 8)%N with 256%N.
  pose proof (N.div_mod a 256 ltac:(done)). pose proof (N.div_mod (a / 256) 256 ltac:(done)).
  pose proof (N.div_mod (a / 256 / 256) 256 ltac:(done)). lia.
Qed.

Lemma parse_v4_show a : (a < 2 ^ 32)%N → parse_v4 (show_v4 a) = Some a.
Proof.
  intros Ha. unfold parse_v4, show_v4. change "." with (String "."%char "").
  rewrite StrFacts.split_join; [|done|].
  - assert (mapM parse_octet (Str.of_N <$> octets a) = Some (octets a)) as ->; [|cbn; f_equal; by apply octets_ipv4].
    apply mapM_Some. pose proof (octet_bound a Ha) as Hf. generalize dependent (octets a).
    intros l Hl. induction Hl as [|o l Ho _ IH]; constructor; [by apply parse_octet_of_N|done].
  - apply Forall_fmap, Forall_true. intros. apply of_N_no_dot.
Qed.

(** ** What the commands are *)
Section facts.
Context `{IpnetLaws} (sys : System) (iter_set : gset string → list string).
Context (iter_set_perm : ∀ X, iter_set X ≡ₚ elements X).

Lemma call_Ok c s a s' : call sys c s = (Ok a, s') → s' = s ++ [c].
Proof. unfold call. by intros [= _ <-]. Qed.
Lemma script_Ok c s a s' : script sys c s = (Ok a, s') → s' = s ++ [Script c].
Proof. unfold script. by intros [= _ <-]. Qed.

Lemma expose_port_Ok local remote s a s' :
  expose_port sys local remote s = (Ok a, s') → s' = s ++ [Expose local remote].
Proof. unfold expose_port. intros Hr. inv_m. by eapply call_Ok. Qed.

Lemma m_for_calls {A} (f : A → M (list SysCall) unit) (g : A → list SysCall) xs s a s' :
  (∀ x s a s', f x s = (Ok a, s') → s' = s ++ g x) → m_for f xs s = (Ok a, s') → s' = s ++ (xs ≫= g).
Proof.
  intros Hf. revert s. induction xs as [|x xs IH]; intros s Hr; cbn [m_for] in Hr.
  - inv_m. by rewrite app_nil_r.
  - apply bind_Ok_inv in Hr as (b & s1 & Hx & Hr). apply Hf in Hx as ->. apply IH in Hr as ->.
    by rewrite bind_cons, app_assoc.
Qed.

(** The ports that are asked for. *)
Definition asked (bind_addrs : list string) (host_rpcbind : bool) : list (string * string) :=
  (if host_rpcbind then [] else [(":111", VM_IP +:+ ":111")]) ++ (iter_set (list_to_set bind_addrs) ≫= bind_ports).
Definition requests (ports : list (string * string)) : list SysCall := (λ p, Expose p.1 p.2) <$> ports.

Lemma requests_bind {A} (g : A → list (string * string)) xs : requests (xs ≫= g) = xs ≫= (λ x, requests (g x)).
Proof. unfold requests. induction xs as [|x xs IH]; [done|]. by rewrite !bind_cons, fmap_app, IH. Qed.

Lemma expose_all_Ok bind_addrs host_rpcbind s a s' :
  expose_all sys iter_set bind_addrs host_rpcbind s = (Ok a, s') →
  s' = s ++ requests (asked bind_addrs host_rpcbind).
Proof.
  unfold expose_all, asked. intros (b & s1 & H1 & Hr)%bind_Ok_inv. unfold requests at 1. rewrite fmap_app.
  fold (requests (iter_set (list_to_set bind_addrs) ≫= bind_ports)). rewrite requests_bind.
  eapply (m_for_calls _ (λ addr, requests (bind_ports addr))) in Hr as ->.
  - destruct host_rpcbind; inv_m; [done|]. apply expose_port_Ok in H1 as ->. by rewrite <-app_assoc.
  - intros addr s2 c s3 Hr'. unfold requests. eapply (m_for_calls _ (λ p, [Expose p.1 p.2])) in Hr' as ->.
    + done.
    + intros [local remote] ???. apply expose_port_Ok.
Qed.

(** The commands for the interface. *)
Definition hosts_calls (vm_gateway_ip vm_ip : N) : list SysCall :=
  match sys_guest sys with
  | Linux => []
  | FreeBSD => [OpenAppend "/etc/hosts"; AppendFile "/etc/hosts" (hosts_entries vm_gateway_ip vm_ip)]
  end.
Definition interface_calls (vm_gateway_ip vm_ip net_prefix_len : N) : list SysCall :=
  WriteFile (resolv_conf sys) ("nameserver " +:+ show_v4 vm_gateway_ip +:+ lf) ::
  hosts_calls vm_gateway_ip vm_ip ++ [Script (interface_script sys vm_ip net_prefix_len vm_gateway_ip)].

Lemma address_host n i x d msg : hosts n !! i = Some x → is_Some (parse_v4 d) → address (Some n) i d msg = Ok x.
Proof. intros Hx [a Ha]. unfold address. rewrite Ha. cbn. by rewrite Hx. Qed.
Lemma address_default i a d msg : parse_v4 d = Some a → address None i d msg = Ok a.
Proof. unfold address. by intros ->. Qed.

Lemma is_tsi_None : is_tsi sys None = false.
Proof. unfold is_tsi. by destruct (sys_guest sys). Qed.

Lemma init_network_calls bind_addrs host_rpcbind net gw ip s a s' :
  address net 0 VM_GATEWAY_IP "Failed to parse VM_GATEWAY_IP" = Ok gw →
  address net 1 VM_IP "Failed to parse VM_IP" = Ok ip →
  init_network sys iter_set bind_addrs host_rpcbind net None s = (Ok a, s') →
  s' = s ++ interface_calls gw ip (default 24%N (prefix_len <$> net)) ++
       match net with Some _ => [] | None => requests (asked bind_addrs host_rpcbind) end.
Proof.
  intros Hgw Hip Hr. unfold init_network in Hr. rewrite is_tsi_None, Hgw in Hr.
  apply bind_Ok_inv in Hr as (g & s0 & [= <- <-] & Hr). apply bind_Ok_inv in Hr as (b & s1 & H1%m_context_Ok_inv%call_Ok & Hr).
  apply bind_Ok_inv in Hr as (c & s2 & Hi & Hr). unfold configure_interface in Hi. rewrite Hip in Hi.
  apply bind_Ok_inv in Hi as (i & s3 & [= <- <-] & Hi). apply bind_Ok_inv in Hi as (d & s4 & Hh & Hi).
  apply bind_Ok_inv in Hi as (d' & s5 & ->%m_context_Ok_inv%script_Ok & [= _ <-]).
  assert (s4 = s1 ++ hosts_calls gw ip) as ->.
  { unfold hosts_calls. destruct (sys_guest sys); inv_m; [by rewrite app_nil_r|].
    unfold add_network_hosts in Hh. apply bind_Ok_inv in Hh as (? & ? & ->%m_context_Ok_inv%call_Ok & ->%m_context_Ok_inv%call_Ok).
    by rewrite <-app_assoc. }
  subst s1. cbn [default].
  unfold interface_calls. destruct net as [n|]; inv_m.
  - rewrite app_nil_r, <-!app_assoc. cbn [app]. by rewrite <-?app_assoc.
  - apply expose_all_Ok in Hr as ->. rewrite <-!app_assoc. cbn [app]. by rewrite <-?app_assoc.
Qed.

(** ** Before the network *)
Definition prepared : list SysCall :=
  ((λ path, Script ("mount -t tmpfs tmpfs " +:+ path)) <$> tmpfs_dirs sys) ++
  match sys_guest sys with
  | Linux => CreateDirAll <$> nfs_dirs
  | FreeBSD => (λ dir, Script (overlay_script dir)) <$> ["etc"; "var"]
  end.

Lemma checked_script_Ok msg msg' code s a s' :
  (success ← m_context msg (script sys code); if (success : bool) then mret tt else lift (Err msg')) s = (Ok a, s') →
  s' = s ++ [Script code].
Proof.
  intros (ok & s1 & ->%m_context_Ok_inv%script_Ok & Hr)%bind_Ok_inv. destruct ok; by inv_m.
Qed.

Lemma prepare_system_Ok s a s' : prepare_system sys s = (Ok a, s') → s' = s ++ prepared.
Proof.
  unfold prepare_system, prepared. intros (b & s1 & H1 & Hr)%bind_Ok_inv.
  eapply (m_for_calls _ (λ path, [Script ("mount -t tmpfs tmpfs " +:+ path)])) in H1 as ->;
    [|intros ????; apply checked_script_Ok].
  rewrite app_assoc. destruct (sys_guest sys).
  - eapply (m_for_calls _ (λ dir, [CreateDirAll dir])) in Hr as ->; [by cbn|].
    intros dir s2 c s3 Hc. by apply m_context_Ok_inv, call_Ok in Hc.
  - apply m_context_Ok_inv in Hr. eapply (m_for_calls _ (λ dir, [Script (overlay_script dir)])) in Hr as ->; [by cbn|].
    intros dir s2 c s3 Hc. by apply checked_script_Ok in Hc.
Qed.

(** ** The network of the VM *)
Context (net_to_string : Ipv4Net → string) (net_from_str : string → outcome Ipv4Net).

(** C12: With [vmnet-helper] the two ends agree: a host that started the helper for a
    network and an agent that is started with this network on its command line
    give the VM the address under which the session looks for it and reaches its
    server, the last that the helper gives away, with the address of the helper as
    gateway and name server; both are in the network, they differ, and no port is
    forwarded. *)
Theorem network_agrees show_v6 fuel config e ifaces svc args cli s r s' :
  (∀ n, net_wf n → net_from_str (net_to_string n) = Ok n) →
  se_interfaces e = Ok ifaces →
  (∀ iface ip, iface ∈ ifaces → if_ip iface = Some (V4 ip) → ip < 2 ^ 32)%N →
  net_wf (prefs_vmnet_pool (preferences config)) →
  (∀ j, se_rng e j < candidate_count VMNET_PREFIX_LEN (prefs_vmnet_pool (preferences config)))%N →
  start_vmnet_helper show_v6 fuel config e = Some (Ok (svc, args)) →
  a_native_network cli = net_to_string <$> vm_native_cidr svc →
  start sys iter_set net_from_str (Mount cli) s = (Ok r, s') →
  ∃ n gw ip, vm_native_cidr svc = Some n ∧ in_net gw n ∧ in_net ip n ∧ gw ≠ ip ∧
    va_start_address args = gw ∧ va_end_address args = ip ∧
    vm_native_ip svc = Some ip ∧ vm_host_ip svc = IPv4 (show_v4 ip) ∧ parse_v4 (show_v4 ip) = Some ip ∧
    s' = s ++ prepared ++ interface_calls gw ip VMNET_PREFIX_LEN ++ [listener sys].
Proof.
  intros Hlaw Hi Hips Hpool Hrng Hs Hcli Hst.
  destruct (vmnet_service_addresses _ _ _ _ _ _ _ Hi Hips Hpool Hrng Hs)
    as (n & known & _ & _ & Hn & Hp & Hc & Hip & Hh & Hgw & He & _).
  pose proof (hosts_30 n Hn Hp) as Hhosts. exists n, (net_network n + 1)%N, (net_network n + 2)%N.
  pose proof (in_net_network n) as Hnet%in_net_bounds.
  assert (block (prefix_len n) = 4%N) as Hb by (rewrite Hp; reflexivity).
  assert (net_network n + 4 ≤ 2 ^ 32)%N as Hmax.
  { unfold net_network. rewrite Hb. destruct Hn as [Ha _].
    pose proof (N.Div0.div_lt_upper_bound (net_addr n) 4 (2 ^ 30) Ha). lia. }
  rewrite !in_net_bounds, Hb. split_and!; try done; try lia.
  - apply parse_v4_show. lia.
  - unfold start in Hst. cbn [native_network_of] in Hst. rewrite Hcli, Hc in Hst. cbn [network_arg fmap option_fmap option_map] in Hst.
    rewrite Hlaw in Hst by done. apply bind_Ok_inv in Hst as (net & s0 & [= <- <-] & Hst).
    apply bind_Ok_inv in Hst as (b & s1 & ->%prepare_system_Ok & Hst).
    apply bind_Ok_inv in Hst as (c & s2 & Hin%m_context_Ok_inv & Hst).
    apply bind_Ok_inv in Hst as (d & s3 & ->%call_Ok & [= _ <-]).
    eapply init_network_calls in Hin as ->; [|apply address_host; [by rewrite Hhosts|eexists; reflexivity]..].
    cbn [default fmap option_fmap option_map]. rewrite Hp, app_nil_r, <-!app_assoc. done.
Qed.

(** ** The ports *)
Lemma sep_inj c a p a' p' :
  StrFacts.lacks c p = true → StrFacts.lacks c p' = true → a +:+ String c p = a' +:+ String c p' → a = a' ∧ p = p'.
Proof.
  intros Hp Hp'. revert a'. induction a as [|x a IH]; intros [|x' a']; cbn.
  - by intros [= ->].
  - intros [= <- ->]. apply StrFacts.lacks_app in Hp as [_ Hp]. by apply StrFacts.lacks_cons in Hp as [? _].
  - intros [= -> <-]. apply StrFacts.lacks_app in Hp' as [_ Hp']. by apply StrFacts.lacks_cons in Hp' as [? _].
  - intros [= -> Heq]. by destruct (IH a' Heq) as [-> ->].
Qed.

Definition local_port (addr : string) (port : N) : string := addr +:+ String ":" (Str.of_N port).

Lemma of_N_no_colon n : StrFacts.lacks ":" (Str.of_N n) = true.
Proof.
  eapply StrFacts.forallb_impl; [|apply StrFacts.digits_of_N]. intros c Hc. apply bool_decide_eq_true.
  by intros ->.
Qed.

Lemma local_port_inj a p a' p' : local_port a p = local_port a' p' → a = a' ∧ p = p'.
Proof.
  intros [-> Hp]%sep_inj; [|apply of_N_no_colon..]. by apply StrFacts.of_N_inj in Hp.
Qed.

Lemma bind_ports_spec addr :
  bind_ports addr = (λ port, (local_port addr port, local_port VM_IP port)) <$> GVPROXY_FORWARDED_PORTS.
Proof. reflexivity. Qed.

Lemma elem_of_asked bind_addrs rpcbind local remote :
  (local, remote) ∈ asked bind_addrs rpcbind ↔
  (rpcbind = false ∧ local = ":111" ∧ remote = local_port VM_IP 111) ∨
  ∃ addr port, addr ∈ bind_addrs ∧ port ∈ GVPROXY_FORWARDED_PORTS ∧
    local = local_port addr port ∧ remote = local_port VM_IP port.
Proof.
  unfold asked. rewrite elem_of_app. f_equiv.
  - destruct rpcbind; [rewrite elem_of_nil; naive_solver|]. rewrite list_elem_of_singleton.
    split; [by intros [= -> ->]|by intros (_ & -> & ->)].
  - rewrite list_elem_of_bind. setoid_rewrite bind_ports_spec. setoid_rewrite list_elem_of_fmap.
    setoid_rewrite (iter_set_perm (list_to_set bind_addrs)). setoid_rewrite elem_of_elements.
    setoid_rewrite elem_of_list_to_set. split.
    + intros (addr & (port & [= -> ->] & Hp) & Ha). by exists addr, port.
    + intros (addr & port & Ha & Hp & -> & ->). exists addr. split; [|done]. by exists port.
Qed.

Lemma asked_locals_nodup bind_addrs rpcbind : "" ∉ bind_addrs → NoDup (asked bind_addrs rpcbind).*1.
Proof.
  intros Hne. assert ((asked bind_addrs rpcbind).*1 =
    (if rpcbind then [] else [local_port "" 111]) ++
    (iter_set (list_to_set bind_addrs) ≫= λ addr, local_port addr <$> GVPROXY_FORWARDED_PORTS)) as ->.
  { unfold asked. rewrite fmap_app. f_equal; [by destruct rpcbind|].
    induction (iter_set _) as [|a l IH]; [done|]. by rewrite !bind_cons, fmap_app, IH. }
  apply NoDup_app. split_and!.
  - destruct rpcbind; [constructor|apply NoDup_singleton].
  - intros x Hx. destruct rpcbind; [by apply elem_of_nil in Hx|]. apply list_elem_of_singleton in Hx as ->.
    rewrite list_elem_of_bind. intros (addr & (port & [<- _]%local_port_inj & _)%list_elem_of_fmap & Ha).
    rewrite iter_set_perm in Ha. by apply Hne, (elem_of_list_to_set (C := gset string)), elem_of_elements.
  - apply NoDup_bind.
    + intros a a' x _ _ (p & -> & _)%list_elem_of_fmap (p' & [-> _]%local_port_inj & _)%list_elem_of_fmap; done.
    + intros a _. apply NoDup_fmap_2; [intros p p' Hl; by apply local_port_inj in Hl as [_ ?]|].
      apply (bool_decide_unpack _). vm_compute. reflexivity.
    + rewrite iter_set_perm. apply NoDup_elements.
Qed.

(** C13: With [gvproxy] the agent configures the address that the requests name, and
    asks the gateway, before it listens, for exactly the ports of the NFS server at
    every address it was given, each once however often the address occurs, and for
    the port mapper unless the one of the host is used. *)
Theorem ports_forwarded cli s r s' :
  a_native_network cli = None → "" ∉ a_bind_addrs cli →
  start sys iter_set net_from_str (Mount cli) s = (Ok r, s') →
  ∃ ports, s' = s ++ prepared ++ interface_calls (ipv4 192 168 127 1) (ipv4 192 168 127 2) 24 ++
                  requests ports ++ [listener sys] ∧
    parse_v4 VM_IP = Some (ipv4 192 168 127 2) ∧ NoDup ports.*1 ∧
    ∀ local remote, (local, remote) ∈ ports ↔
      (a_host_rpcbind cli = false ∧ local = ":111" ∧ remote = local_port VM_IP 111) ∨
      ∃ addr port, addr ∈ a_bind_addrs cli ∧ port ∈ GVPROXY_FORWARDED_PORTS ∧
        local = local_port addr port ∧ remote = local_port VM_IP port.
Proof.
  intros Hcli Hne Hst. exists (asked (a_bind_addrs cli) (a_host_rpcbind cli)).
  split; [|split_and!; [reflexivity|by apply asked_locals_nodup|intros; apply elem_of_asked]].
  unfold start in Hst. cbn [native_network_of] in Hst. rewrite Hcli in Hst. cbn [network_arg] in Hst.
  apply bind_Ok_inv in Hst as (net & s0 & [= <- <-] & Hst).
  apply bind_Ok_inv in Hst as (b & s1 & ->%prepare_system_Ok & Hst).
  apply bind_Ok_inv in Hst as (c & s2 & Hin%m_context_Ok_inv & Hst).
  apply bind_Ok_inv in Hst as (d & s3 & ->%call_Ok & [= _ <-]).
  eapply init_network_calls in Hin as ->; [|by apply address_default..].
  cbn [default fmap option_fmap option_map]. rewrite <-!app_assoc. done.
Qed.

(** ** The shell *)
(** No port is asked for in a step. *)
Definition no_request (s s' : list SysCall) : Prop := ∀ local remote, Expose local remote ∈ s' → Expose local remote ∈ s.
#[local] Instance no_request_preorder : PreOrder no_request.
Proof. split; [by intros s ???|]. intros s1 s2 s3 H1 H2 local remote ?. by apply H1, H2. Qed.

Lemma call_no_request c : (∀ local remote, c ≠ Expose local remote) → within no_request no_request (call sys c).
Proof.
  intros Hc s. unfold call. destruct (sys_do sys c); intros local remote [?|He]%elem_of_app; try done;
    apply list_elem_of_singleton in He; by destruct (Hc local remote).
Qed.
Lemma script_no_request code : within no_request no_request (script sys code).
Proof.
  intros s. unfold script. destruct (sys_script sys code); intros local remote [?|He]%elem_of_app; try done;
    by apply list_elem_of_singleton in He.
Qed.

Lemma expose_nothing : expose_all sys iter_set [] true = (mret tt;; mret tt).
Proof.
  unfold expose_all. replace (iter_set (list_to_set [])) with (@nil string); [done|].
  pose proof (iter_set_perm ∅) as Hp. rewrite elements_empty in Hp. symmetry in Hp. by apply Permutation_nil in Hp.
Qed.

(** A shell forwards no port, in whatever network it runs and however it ends. *)
Lemma shell_forwards_nothing args s local remote :
  Expose local remote ∈ (start sys iter_set net_from_str (Shell args) s).2 → Expose local remote ∈ s.
Proof.
  revert local remote. apply (within_state no_request).
  assert (∀ c, (∀ local remote, c ≠ Expose local remote) → within no_request no_request (call sys c)) as Hc
    by apply call_no_request.
  assert (∀ code, within no_request no_request (script sys code)) as Hs by apply script_no_request.
  unfold start, prepare_system, init_network. rewrite expose_nothing.
  unfold mount_tmpfs, setup_writable_dirs_for_nfsd, setup_fs_overlay, configure_interface, add_network_hosts, exec_shell.
  repeat first [apply Hs | apply Hc; done | within_step].
Qed.

(** On a Linux guest a name server on the command line leaves the interface alone:
    the only command is the one that writes the name server. *)
Lemma tsi_only_resolves dns s r s' :
  sys_guest sys = Linux → init_network sys iter_set [] true None (Some dns) s = (Ok r, s') →
  s' = s ++ [WriteFile "/tmp/resolv.conf" ("nameserver " +:+ dns +:+ lf)].
Proof.
  intros Hg Hr. unfold init_network in Hr. rewrite expose_nothing in Hr. unfold is_tsi, resolv_conf in Hr. rewrite Hg in Hr.
  cbn [default] in Hr. apply bind_Ok_inv in Hr as (gw & s0 & Hgw & Hr). apply bind_Ok_inv in Hr as (b & s1 & Hw & Hr).
  unfold lift in Hgw. injection Hgw as _ <-. apply m_context_Ok_inv, call_Ok in Hw as ->.
  rewrite bool_decide_true in Hr by eauto. by injection Hr as _ <-.
Qed.

(** The interface may fail to be configured unnoticed: the agent only wants the
    script to run, and goes on to listen whatever its status. *)
Lemma interface_failure_ignored bind_addrs rpcbind n s :
  (∀ c, sys_do sys c = Ok tt) → (∀ code, sys_script sys code = Ok false) →
  (init_network sys iter_set bind_addrs rpcbind (Some n) None s).1 = Ok tt.
Proof.
  intros Hd Hs. assert (∀ c s, call sys c s = (Ok tt, s ++ [c])) as Hc by (intros; unfold call; by rewrite Hd).
  assert (∀ c s, script sys c s = (Ok false, s ++ [Script c])) as Hsc by (intros; unfold script; by rewrite Hs).
  assert (∀ i d msg, is_Some (parse_v4 d) → ∃ a, address (Some n) i d msg = Ok a) as Ha.
  { intros i d msg [a Ha]. unfold address. rewrite Ha. eexists; reflexivity. }
  unfold init_network. rewrite is_tsi_None.
  destruct (Ha 0 VM_GATEWAY_IP "Failed to parse VM_GATEWAY_IP") as [gw Hgw]; [eexists; reflexivity|].
  destruct (Ha 1 VM_IP "Failed to parse VM_IP") as [ip Hip]; [eexists; reflexivity|].
  rewrite (bind_run _ _ s gw s) by (unfold lift; by rewrite Hgw).
  erewrite bind_run by apply m_context_Ok, Hc.
  assert (∀ s, ∃ s', configure_interface sys (Some n) gw s = (Ok tt, s')) as Hrun.
  { intros s1. unfold configure_interface. erewrite bind_run by (unfold lift; rewrite Hip; reflexivity).
    destruct (sys_guest sys).
    - rewrite (bind_run (mret tt) _ _ tt _ eq_refl). erewrite bind_run by apply m_context_Ok, Hsc. by eexists.
    - unfold add_network_hosts. erewrite bind_run by (erewrite bind_run by apply m_context_Ok, Hc; apply m_context_Ok, Hc).
      erewrite bind_run by apply m_context_Ok, Hsc. by eexists. }
  edestruct Hrun as [s' Hs']. by erewrite bind_run by apply Hs'.
Qed.
End facts.

(** ** A start *)
Module Witness.
Import Ipnet.Concrete.

Definition linux : System := {| sys_guest := Linux; sys_script := λ _, Ok true; sys_do := λ _, Ok tt |}.
Definition net_to_string (n : Ipv4Net) : string := show_v4 (net_addr n) +:+ String "/" (Str.of_N (prefix_len n)).
Definition net_from_str (s : string) : outcome Ipv4Net :=
  match Str.split_once "/" s with
  | Some (a, p) =>
      match parse_v4 a, Str.parse_uint 32 p with
      | Some a, Some p => Ok (mkIpv4Net a p)
      | _, _ => Err "invalid IP network syntax"
      end
  | None => Err "invalid IP network syntax"
  end.

Lemma net_read n : net_wf n → net_from_str (net_to_string n) = Ok n.
Proof.
  intros [Ha Hp]. unfold net_from_str, net_to_string.
  rewrite (proj2 (StrFacts.split_once_Some "/" _ (show_v4 (net_addr n)) (Str.of_N (prefix_len n)))).
  - rewrite parse_v4_show, StrFacts.parse_uint_of_N by done. by destruct n.
  - split; [|done]. unfold show_v4.
    assert (Forall (λ w, StrFacts.lacks "/" w = true) (Str.of_N <$> octets (net_addr n))) as Hf.
    { apply Forall_fmap, Forall_true. intros o. eapply StrFacts.forallb_impl; [|apply StrFacts.digits_of_N].
      intros c Hc. apply bool_decide_eq_true. by intros ->. }
    induction Hf as [|w ws Hw Hf IH]; [done|]. destruct ws as [|w' ws]; [done|].
    cbn [Str.join]. rewrite !StrFacts.lacks_app. by split_and!.
Qed.

Definition cli (addrs : list string) (net : option string) : MountArgs := {|
  a_disk_path := "/dev/vda"; a_mount_name := "disk"; a_custom_mount_point := false; a_fs_type := Some "auto";
  a_fs_driver := None; a_mount_options := None; a_decrypt := None; a_assemble_raid := false;
  a_metadata_probed := false; a_action := None; a_key_file := None; a_nfs_export_opts := None;
  a_ignore_permissions := false; a_bind_addrs := addrs; a_multi_device := false; a_reuse_passphrase := false;
  a_host_rpcbind := false; a_native_network := net; a_verbose := false |}.

Definition run (addrs : list string) (net : option string) : outcome (option MountArgs) * list SysCall :=
  start linux elements net_from_str (Mount (cli addrs net)) [].

Lemma native_run : run [] (Some "172.27.1.4/30") =
  (Ok (Some (cli [] (Some "172.27.1.4/30"))), (run [] (Some "172.27.1.4/30")).2).
Proof. vm_compute. reflexivity. Qed.

Example network_agrees_witness :
  start_vmnet_helper VmNetwork.Witness.show_v6 5 VmNetwork.Witness.config VmNetwork.Witness.env =
    Some (Ok (VmNetwork.Witness.service, VmNetwork.Witness.args)) ∧
  ∃ n gw ip, vm_native_cidr VmNetwork.Witness.service = Some n ∧ in_net gw n ∧ in_net ip n ∧ gw ≠ ip ∧
    va_start_address VmNetwork.Witness.args = gw ∧ va_end_address VmNetwork.Witness.args = ip ∧
    vm_native_ip VmNetwork.Witness.service = Some ip ∧ vm_host_ip VmNetwork.Witness.service = IPv4 (show_v4 ip) ∧
    parse_v4 (show_v4 ip) = Some ip ∧
    (run [] (Some "172.27.1.4/30")).2 =
      [] ++ prepared linux ++ interface_calls linux gw ip VMNET_PREFIX_LEN ++ [listener linux].
Proof.
  split; [vm_compute; reflexivity|].
  refine (network_agrees linux elements net_to_string net_from_str VmNetwork.Witness.show_v6 5
    VmNetwork.Witness.config VmNetwork.Witness.env VmNetwork.Witness.ifaces VmNetwork.Witness.service
    VmNetwork.Witness.args (cli [] (Some "172.27.1.4/30")) [] _ _ net_read _ _ _ _ _ _ native_run).
  - reflexivity.
  - intros iface ip Hin Hip. apply list_elem_of_In in Hin as [<-|[<-|[]]];
      injection Hip as <-; vm_compute; reflexivity.
  - split; [vm_compute; reflexivity|vm_compute; discriminate].
  - intros j. vm_compute. reflexivity.
  - vm_compute; reflexivity.
  - vm_compute; reflexivity.
Defined.

(** An address that is given twice. *)
Definition addrs : list string := ["127.0.0.1"; "0.0.0.0"; "127.0.0.1"].
Lemma shared_run : run addrs None = (Ok (Some (cli addrs None)), (run addrs None).2).
Proof. vm_compute. reflexivity. Qed.

Example ports_forwarded_witness :
  "" ∉ addrs ∧
  ∃ ports, (run addrs None).2 =
      [] ++ prepared linux ++ interface_calls linux (ipv4 192 168 127 1) (ipv4 192 168 127 2) 24 ++
      requests ports ++ [listener linux] ∧
    parse_v4 VM_IP = Some (ipv4 192 168 127 2) ∧ NoDup ports.*1 ∧
    ∀ local remote, (local, remote) ∈ ports ↔
      (false = false ∧ local = ":111" ∧ remote = local_port VM_IP 111) ∨
      ∃ addr port, addr ∈ addrs ∧ port ∈ GVPROXY_FORWARDED_PORTS ∧
        local = local_port addr port ∧ remote = local_port VM_IP port.
Proof.
  assert ("" ∉ addrs) as Hne by (apply (bool_decide_unpack _); vm_compute; reflexivity).
  split; [exact Hne|].
  exact (ports_forwarded linux elements (λ X, Permutation_refl (elements X)) net_from_str (cli addrs None) [] _ _
           eq_refl Hne shared_run).
Defined.

Example requests_once : length (requests (asked elements addrs false)) = 7.
Proof. vm_compute. reflexivity. Qed.
End Witness.
