(* ===== verification/HostFiles.v ===== *)
(** * Files on the host ([fsutil.rs] [wait_for_file]; [utils.rs]
      [LockFile::new]; [privilege.rs] [chown_tree_to_invoker])

    Waiting for a file, opening or creating the lock file, and giving a tree of
    files to the user behind [sudo], over the computations of [Effects]. *)
From S2P Require Import Prelude Effects.

(** ** [wait_for_file] *)
Section wait.
(** The [i]th round: whether the file is there, and the milliseconds elapsed. *)
Context (file : string) (rounds : nat → bool * N).

Definition wait_timeout : N := 5000.

Fixpoint file_rounds (fuel : nat) (i : nat) : option (outcome unit) :=
  match fuel with
  | O => None
  | S fuel =>
      let '(there, elapsed) := rounds i in
      if there then Some (Ok tt)
      else if bool_decide (wait_timeout < elapsed)%N then Some (Err ("Timeout waiting for file creation: " +:+ file))
      else file_rounds fuel (S i)
  end.

(** Each round sleeps for 100 ms. *)
Definition wait_for_file : option (outcome unit) := file_rounds (N.to_nat (wait_timeout / 100) + 2) 0.

Lemma file_rounds_spec fuel i :
  (∃ j, i ≤ j < i + fuel ∧ (wait_timeout < (rounds j).2)%N) →
  ∃ k, i ≤ k < i + fuel ∧ (∀ j, i ≤ j < k → (rounds j).1 = false ∧ ((rounds j).2 ≤ wait_timeout)%N) ∧
    if (rounds k).1 then file_rounds fuel i = Some (Ok tt)
    else (wait_timeout < (rounds k).2)%N ∧ file_rounds fuel i = Some (Err ("Timeout waiting for file creation: " +:+ file)).
Proof.
  revert i; induction fuel as [|fuel IH]; intros i (j & Hj & Hlate); [lia|]. cbn [file_rounds].
  destruct (rounds i) as [there elapsed] eqn:Hi.
  destruct there; [|case_bool_decide as Hel].
  - exists i. rewrite Hi. split_and!; [lia|lia|intros; lia|done].
  - exists i. rewrite Hi. split_and!; [lia|lia|intros; lia|]. by split.
  - destruct (IH (S i)) as (k & Hk & Hbefore & Hr).
    { exists j. split; [|done]. assert (j ≠ i); [|lia]. intros ->. rewrite Hi in Hlate. done. }
    exists k. split_and!; [lia|lia| |exact Hr]. intros l Hl. destruct (decide (l = i)) as [->|]; [|apply Hbefore; lia].
    rewrite Hi. cbn. split; [done|]. lia.
Qed.

(** The wait ends when the clock goes on with the sleeps: it returns at the first
    round in which the file is there, if no earlier round is past the time. *)
Lemma wait_for_file_ends :
  (∀ i, (100 * N.of_nat i ≤ (rounds i).2)%N) →
  ∃ k, k ≤ 51 ∧ (∀ j, j < k → (rounds j).1 = false ∧ ((rounds j).2 ≤ wait_timeout)%N) ∧
    if (rounds k).1 then wait_for_file = Some (Ok tt)
    else wait_for_file = Some (Err ("Timeout waiting for file creation: " +:+ file)).
Proof.
  intros Hclock. destruct (file_rounds_spec (N.to_nat (wait_timeout / 100) + 2) 0) as (k & Hk & Hb & Hr).
  { exists 51. split; [vm_compute; lia|]. specialize (Hclock 51). unfold wait_timeout. lia. }
  change (0 + (N.to_nat (wait_timeout / 100) + 2)) with 52 in Hk.
  exists k. split_and!; [lia|intros; apply Hb; lia|]. unfold wait_for_file. destruct (rounds k) as [[] ?]; [done|by destruct Hr].
Qed.
End wait.

(** A file that is there after three sleeps. *)
Definition sample_rounds (i : nat) : bool * N := (bool_decide (i = 3), (100 * N.of_nat i)%N).
Example wait_for_file_ends_witness :
  ∃ k, k ≤ 51 ∧ (∀ j, j < k → (sample_rounds j).1 = false ∧ ((sample_rounds j).2 ≤ wait_timeout)%N) ∧
    if (sample_rounds k).1 then wait_for_file "/tmp/s" sample_rounds = Some (Ok tt)
    else wait_for_file "/tmp/s" sample_rounds = Some (Err ("Timeout waiting for file creation: " +:+ "/tmp/s")).
Proof. apply (wait_for_file_ends "/tmp/s" sample_rounds). intros i. simpl. lia. Defined.

(** ** [LockFile::new] *)
(** The plain open, and the steps that follow when there is no file. *)
Inductive OpenResult := Opened | NotFound | OpenError (e : string).
Inductive LockCall := OpenExisting | CreateLock | SetMode666.

Definition lock_file_new (opened : OpenResult) (result : LockCall → outcome unit) : M (list LockCall) unit :=
  let step c : M (list LockCall) unit := λ s, (result c, s ++ [c]) in
  (λ s, (Ok tt, s ++ [OpenExisting]));;
  match opened with
  | Opened => mret tt
  | NotFound =>
      m_context "Failed to create lock file" (step CreateLock);;
      m_context "Failed to set file lock permissions" (step SetMode666)
  | OpenError e => m_context "Failed to open lock file" (lift (Err e))
  end.

(** A file that is there is opened as it is, whoever owns it; one that is created
    is open to all users before it is used. *)
Lemma lock_file_shared opened result s u s' :
  lock_file_new opened result s = (Ok u, s') →
  opened = Opened ∧ s' = s ++ [OpenExisting] ∨
  opened = NotFound ∧ s' = s ++ [OpenExisting; CreateLock; SetMode666] ∧ result SetMode666 = Ok tt.
Proof.
  unfold lock_file_new. intros (a & s1 & [= _ <-] & Hr)%bind_Ok_inv. destruct opened; [left|right|].
  - unfold mret, M_ret in Hr. by injection Hr as _ <-.
  - apply bind_Ok_inv in Hr as (b & s2 & H1%m_context_Ok_inv & H2%m_context_Ok_inv). injection H1 as _ <-.
    injection H2 as H2 <-. destruct u. by rewrite <-!app_assoc.
  - done.
Qed.

(** ** [chown_tree_to_invoker] *)
(** A file with what is at its path; the entries of a directory in the order of
    reading, [None] for one that cannot be read. *)
Inductive Tree :=
  | TFile (path : string)
  | TLink (path target : string)      (* the file that the link leads to *)
  | TDir (path : string) (entries : option (list (option Tree))).

Section chown.
(** chown(2) of the file at a path, links followed; symlink_metadata. *)
Context (chown : string → outcome unit) (metadata : string → outcome unit).

Definition tree_path (t : Tree) : string := match t with TFile p | TLink p _ | TDir p _ => p end.
(** The file that chown changes. *)
Definition owned (t : Tree) : string := match t with TFile p | TDir p _ => p | TLink _ target => target end.

(** The state: the files that were given away. *)
Fixpoint chown_tree_to_invoker (t : Tree) : M (list string) unit :=
  m_context ("chown " +:+ tree_path t) (λ s, match chown (owned t) with Ok _ => (Ok tt, s ++ [owned t]) | r => (r, s) end);;
  lift (metadata (tree_path t));;
  match t with
  | TDir p entries =>
      let fix each (es : list (option Tree)) : M (list string) unit :=
        match es with
        | [] => mret tt
        | None :: _ => lift (Err "read_dir entry")
        | Some t :: es => chown_tree_to_invoker t;; each es
        end in
      match entries with Some es => each es | None => lift (Err "read_dir") end
  | _ => mret tt
  end.

(** The files of a tree, the directory before what is in it. *)
Fixpoint owned_files (t : Tree) : list string :=
  owned t ::
  match t with
  | TDir _ (Some es) =>
      let fix all (es : list (option Tree)) : list string :=
        match es with
        | [] => []
        | Some t :: es => owned_files t ++ all es
        | None :: es => all es
        end in all es
  | _ => []
  end.

(** A call that succeeds has given away every file of the tree, and the calls are
    in this order however it ends. *)
Lemma chown_tree_all t s u s' :
  chown_tree_to_invoker t s = (Ok u, s') → s' = s ++ owned_files t.
Proof.
  revert t s u s'. fix IH 1. intros t s u s'.
  assert (∀ p s2 r s3, (λ s, match chown p with Ok _ => (Ok tt, s ++ [p]) | r => (r, s) end) s2 = (Ok r, s3) → s3 = s2 ++ [p]) as Hone.
  { intros p s2 r s3. destruct (chown p); [|done..]. by intros [= _ <-]. }
  destruct t as [p|p target|p [es|]]; cbn [chown_tree_to_invoker owned_files owned];
    intros (a & s1 & H1%m_context_Ok_inv%Hone & Hr)%bind_Ok_inv;
    apply bind_Ok_inv in Hr as (b & s2 & H2 & Hr); unfold lift in H2; injection H2 as _ <-;
    try (unfold mret, M_ret in Hr; injection Hr as _ <-; exact H1).
  subst s1. change (p :: ?l) with ([p] ++ l). rewrite app_assoc. revert Hr. generalize (s ++ [p]). intros s1 Hr.
  revert s1 Hr. induction es as [|[t|] es IHes]; intros s1 Hr.
  - unfold mret, M_ret in Hr. injection Hr as _ <-. by rewrite app_nil_r.
  - apply bind_Ok_inv in Hr as (c & s3 & Ht & Hr). apply IH in Ht as ->. apply IHes in Hr as ->. by rewrite <-app_assoc.
  - done.
Qed.

(** Links are followed: what a link in the tree leads to is given away as well,
    wherever it is. *)
Lemma link_target_given_away p before l target after s u s' :
  chown_tree_to_invoker (TDir p (Some (before ++ Some (TLink l target) :: after))) s = (Ok u, s') → target ∈ s'.
Proof.
  intros Hr. apply chown_tree_all in Hr as ->. apply elem_of_app. right. cbn [owned_files]. apply elem_of_cons. right.
  induction before as [|[t|] before IH]; cbn [app].
  - by left.
  - apply elem_of_app. by right.
  - exact IH.
Qed.
End chown.

Example link_target_given_away_witness :
  "/etc/shadow" ∈ (chown_tree_to_invoker (λ _, Ok tt) (λ _, Ok tt)
    (TDir "/home/u/.anylinuxfs/freebsd" (Some [Some (TFile "/home/u/.anylinuxfs/freebsd/freebsd.img");
       Some (TLink "/home/u/.anylinuxfs/freebsd/x" "/etc/shadow")])) []).2.
Proof.
  apply (link_target_given_away (λ _, Ok tt) (λ _, Ok tt) "/home/u/.anylinuxfs/freebsd"
    [Some (TFile "/home/u/.anylinuxfs/freebsd/freebsd.img")] "/home/u/.anylinuxfs/freebsd/x" "/etc/shadow" [] [] tt).
  vm_compute. reflexivity.
Defined.
