(* ===== verification/Fds.v ===== *)
(** * Forking with redirected descriptors ([utils.rs] [fork_with_pty_output],
      [fork_with_piped_output], [fork_with_comm_pipe], [redirect_to_null])

    The descriptor table of a process and the system calls on it. A fork is seen
    from one of the two processes at a time: both start with the same table, and
    the answer of [fork] tells which of them it is. *)
From S2P Require Import Prelude Effects.

(** ** Descriptors *)
(** What a descriptor refers to; pipes and terminals by number. *)
Inductive File :=
| PipeRead (id : nat)
| PipeWrite (id : nat)
| PtyMaster (id : nat)
| PtySlave (id : nat)
| DevNull
| OtherFile (id : nat).
#[global] Instance File_eq_dec : EqDecision File.
Proof. solve_decision. Defined.

(** The table, the number of the next pipe or terminal, and of the next call. *)
Record Process := mkProcess { fds : gmap nat File; next_id : nat; calls : nat }.

(** POSIX: the lowest descriptor that is not open. *)
Definition lowest_fd (t : gmap nat File) : nat :=
  default 0 (List.find (λ i, bool_decide (t !! i = None)) (seq 0 (S (size t)))).

Lemma lowest_fd_free t : t !! lowest_fd t = None.
Proof.
  unfold lowest_fd. destruct (List.find _ _) as [i|] eqn:Ef; simpl.
  - apply find_some in Ef as [_ Hf]. by apply bool_decide_eq_true in Hf.
  - exfalso. assert (set_seq 0 (S (size t)) ⊆ dom t) as Hs.
    { intros i Hi%elem_of_set_seq. apply elem_of_dom.
      pose proof (find_none _ _ Ef i) as Hn. destruct (t !! i) as [f|] eqn:Et; [done|].
      exfalso. rewrite in_seq in Hn. cbv beta in Hn. rewrite Et in Hn. by discriminate Hn; lia. }
    apply subseteq_size in Hs. rewrite size_set_seq, size_dom in Hs. lia.
Qed.

Section calls.
(** Which calls fail; a call that fails changes nothing. *)
Context (fails : nat → bool).
Abbreviation P := (M Process).

Definition os_error : string := "os error".

(** One system call on the table. *)
Definition sys {A} (f : Process → option (A * Process)) : P A := λ p,
  let p' := mkProcess (fds p) (next_id p) (S (calls p)) in
  if fails (calls p) then (Err os_error, p')
  else match f p' with Some (a, q) => (Ok a, q) | None => (Err os_error, p') end.

Definition set_fds (t : gmap nat File) (p : Process) : Process := mkProcess t (next_id p) (calls p).

(** Two new descriptors. *)
Definition sys_two (left right : nat → File) : P (nat * nat) := sys (λ p,
  let a := lowest_fd (fds p) in
  let t := <[a := left (next_id p)]> (fds p) in
  let b := lowest_fd t in
  Some ((a, b), mkProcess (<[b := right (next_id p)]> t) (S (next_id p)) (calls p))).

Definition pipe : P (nat * nat) := sys_two PipeRead PipeWrite.
Definition openpty : P (nat * nat) := sys_two PtyMaster PtySlave.
Definition close (fd : nat) : P unit := sys (λ p,
  _ ← fds p !! fd; Some (tt, set_fds (delete fd (fds p)) p)).
Definition dup2 (old new : nat) : P unit := sys (λ p,
  f ← fds p !! old; Some (tt, set_fds (<[new := f]> (fds p)) p)).
Definition open_null : P nat := sys (λ p,
  let a := lowest_fd (fds p) in Some (a, set_fds (<[a := DevNull]> (fds p)) p)).

Definition STDIN_FILENO : nat := 0.
Definition STDOUT_FILENO : nat := 1.
Definition STDERR_FILENO : nat := 2.

(** ** What a fork gives *)
Record CommFd := { fd : nat }.
Record PtyFd := { master_fd : Z }.
Record PipeOutFds := { out_fd : nat; err_fd : nat }.
Record PipeInFd := { in_fd : nat }.

Record ForkOutput (O I C : Type) := mkForkOutput {
  pid : Z; out_fds : O; in_fds : I; ctrl_fds : C; redirect_action : option (P unit) }.
Arguments mkForkOutput {O I C}.
Arguments pid {O I C}.
Arguments out_fds {O I C}.
Arguments in_fds {O I C}.
Arguments ctrl_fds {O I C}.
Arguments redirect_action {O I C}.

(** [redirect]: the action is taken, so a second call does nothing. *)
Definition redirect {O I C} (o : ForkOutput O I C) : P (ForkOutput O I C) :=
  match redirect_action o with
  | Some f => f;; mret (mkForkOutput (pid o) (out_fds o) (in_fds o) (ctrl_fds o) None)
  | None => mret o
  end.

(** ** The forks *)
Inductive OutputAction := RedirectNow | RedirectLater.

(** [pid] is the answer of [fork]. *)
Definition redirect_to_slave (slave_fd : nat) : P unit :=
  m_context "Failed to redirect stdout to pty" (dup2 slave_fd STDOUT_FILENO);;
  m_context "Failed to redirect stderr to pty" (dup2 slave_fd STDERR_FILENO);;
  m_context "Failed to redirect stdin to pty" (dup2 slave_fd STDIN_FILENO);;
  m_context "Failed to close slave end of pty" (close slave_fd).

Definition fork_with_pty_output (pid : Z) (out_action : OutputAction) : P (ForkOutput PtyFd unit unit) :=
  '(master, slave_fd) ← m_context "Failed to create pseudo-terminal" openpty;
  if decide (pid < 0)%Z then lift (Err ("Failed to fork process: " +:+ os_error))
  else if decide (pid = 0%Z) then
    m_context "Failed to close master end of pty" (close master);;
    action ← match out_action with
             | RedirectNow => redirect_to_slave slave_fd;; mret None
             | RedirectLater => mret (Some (redirect_to_slave slave_fd))
             end;
    mret (mkForkOutput pid {| master_fd := -1 |} tt tt action)
  else
    m_context "Failed to close slave end of pty" (close slave_fd);;
    mret (mkForkOutput pid {| master_fd := Z.of_nat master |} tt tt None).

Definition new_pipe : P (nat * nat) := m_context "Failed to create pipe" pipe.

Definition close_read (fd : nat) : P unit := m_context "Failed to close read end of pipe" (close fd).
Definition close_write (fd : nat) : P unit := m_context "Failed to close write end of pipe" (close fd).

(** The redirections of the child; what the parent closes. *)
Definition piped_child (out_r out_w err_r err_w in_r in_w : nat) : P unit :=
  close_write in_w;;
  close_read out_r;;
  close_read err_r;;
  m_context "Failed to redirect stdin" (dup2 in_r STDIN_FILENO);;
  close_read in_r;;
  m_context "Failed to redirect stdout" (dup2 out_w STDOUT_FILENO);;
  m_context "Failed to redirect stderr" (dup2 err_w STDERR_FILENO);;
  close_write out_w;;
  close_write err_w.

Definition piped_parent (out_w err_w in_r : nat) : P unit :=
  close_read in_r;;
  close_write out_w;;
  close_write err_w.

Definition fork_with_piped_output (pid : Z) : P (ForkOutput PipeOutFds PipeInFd unit) :=
  '(child_out_read_fd, child_out_write_fd) ← new_pipe;
  '(child_err_read_fd, child_err_write_fd) ← new_pipe;
  '(child_in_read_fd, child_in_write_fd) ← new_pipe;
  if decide (pid < 0)%Z then lift (Err ("Failed to fork process: " +:+ os_error))
  else
    (if decide (pid = 0%Z) then
       piped_child child_out_read_fd child_out_write_fd child_err_read_fd child_err_write_fd
         child_in_read_fd child_in_write_fd
     else piped_parent child_out_write_fd child_err_write_fd child_in_read_fd);;
    mret (mkForkOutput pid {| out_fd := child_out_read_fd; err_fd := child_err_read_fd |}
            {| in_fd := child_in_write_fd |} tt None).

Definition fork_with_comm_pipe (pid : Z) : P (ForkOutput unit unit CommFd) :=
  '(parent_read_fd, child_write_fd) ← new_pipe;
  if decide (pid < 0)%Z then lift (Err ("Failed to fork process: " +:+ os_error))
  else if decide (pid = 0%Z) then
    close_read parent_read_fd;; mret (mkForkOutput pid tt tt {| fd := child_write_fd |} None)
  else
    close_write child_write_fd;; mret (mkForkOutput pid tt tt {| fd := parent_read_fd |} None).

(** ** Detaching from the console *)
Definition redirect_to_null (fd : nat) : P unit :=
  dev_null_fd ← m_context "Failed to open /dev/null" open_null;
  m_context "Failed to redirect fd to /dev/null" (dup2 dev_null_fd fd);;
  if decide (dev_null_fd = fd) then mret tt
  else m_context "Failed to close /dev/null fd" (close dev_null_fd).

Definition redirect_stdio_to_null : P unit :=
  m_context "Failed to redirect stdin to /dev/null" (redirect_to_null STDIN_FILENO);;
  m_context "Failed to redirect stdout to /dev/null" (redirect_to_null STDOUT_FILENO);;
  m_context "Failed to redirect stderr to /dev/null" (redirect_to_null STDERR_FILENO).

(** *** What the calls do when they succeed *)
Lemma sys_Ok {A} (f : Process → option (A * Process)) p a q :
  sys f p = (Ok a, q) → f (mkProcess (fds p) (next_id p) (S (calls p))) = Some (a, q).
Proof. unfold sys. destruct (fails _); [done|]. destruct (f _) as [[b q']|]; [|done]. by intros [= -> ->]. Qed.

Lemma sys_two_Ok left right p a b q :
  sys_two left right p = (Ok (a, b), q) →
  fds p !! a = None ∧ fds p !! b = None ∧ a ≠ b ∧ next_id q = S (next_id p) ∧
  fds q = <[b := right (next_id p)]> (<[a := left (next_id p)]> (fds p)).
Proof.
  intros [= <- <- <-]%sys_Ok. cbn [fds next_id].
  pose proof (lowest_fd_free (fds p)) as Ha. set (x := lowest_fd (fds p)) in *.
  pose proof (lowest_fd_free (<[x := left (next_id p)]> (fds p))) as Hb.
  apply lookup_insert_None in Hb as [Hb Hne]. by split_and!.
Qed.

Lemma close_Ok fd p u q :
  close fd p = (Ok u, q) → fds q = delete fd (fds p) ∧ next_id q = next_id p.
Proof. intros Hs%sys_Ok. cbn in Hs. destruct (fds p !! fd); simplify_eq/=. done. Qed.

Lemma dup2_Ok old new p u q :
  dup2 old new p = (Ok u, q) → next_id q = next_id p ∧ ∃ f, fds p !! old = Some f ∧ fds q = <[new := f]> (fds p).
Proof. intros Hs%sys_Ok. cbn in Hs. destruct (fds p !! old); simplify_eq/=. eauto. Qed.

Lemma open_null_Ok p a q :
  open_null p = (Ok a, q) → fds p !! a = None ∧ fds q = <[a := DevNull]> (fds p).
Proof. intros [= <- <-]%sys_Ok. split; [apply lowest_fd_free|done]. Qed.
End calls.
Arguments mkForkOutput {O I C}.
Arguments pid {O I C}.
Arguments out_fds {O I C}.
Arguments in_fds {O I C}.
Arguments ctrl_fds {O I C}.
Arguments redirect_action {O I C}.
Arguments redirect {O I C}.

(** The descriptors by what a process has of a fork. *)
Class HasCommFd (T : Type) := comm_fd : T → nat.
Class HasPtyFd (T : Type) := pty_fd : T → Z.
Class HasPipeOutFds (T : Type) := pipe_out_fds : T → PipeOutFds.
Class HasPipeInFd (T : Type) := pipe_in_fd : T → nat.
#[global] Instance CommFd_comm : HasCommFd CommFd := fd.
#[global] Instance PtyFd_pty : HasPtyFd PtyFd := master_fd.
#[global] Instance PipeOutFds_out : HasPipeOutFds PipeOutFds := id.
#[global] Instance PipeInFd_in : HasPipeInFd PipeInFd := in_fd.
#[global] Instance ForkOutput_comm {O I} : HasCommFd (ForkOutput O I CommFd) := λ o, comm_fd (ctrl_fds o).
#[global] Instance ForkOutput_pty {I C} : HasPtyFd (ForkOutput PtyFd I C) := λ o, pty_fd (out_fds o).
#[global] Instance ForkOutput_out {I C} : HasPipeOutFds (ForkOutput PipeOutFds I C) := λ o, pipe_out_fds (out_fds o).
#[global] Instance ForkOutput_in {O C} : HasPipeInFd (ForkOutput O PipeInFd C) := λ o, pipe_in_fd (in_fds o).

(** Split a run of calls that succeeds. *)
Ltac inv_calls :=
  unfold new_pipe, openpty, pipe, close_read, close_write in *;
  repeat first
    [ progress inv_m
    | match goal with
      | H : (let (_, _) := ?a in _) _ = (Ok _, _) |- _ => destruct a
      | H : (if decide ?c then _ else _) _ = (Ok _, _) |- _ => destruct (decide c); [try lia|try lia]
      | H : sys_two _ _ _ _ = (Ok (_, _), _) |- _ => apply sys_two_Ok in H as (? & ? & ? & ? & ?)
      | H : close _ _ _ = (Ok _, _) |- _ => apply close_Ok in H as [? ?]
      | H : dup2 _ _ _ _ = (Ok _, _) |- _ => apply dup2_Ok in H as (? & ? & ? & ?)
      | H : open_null _ _ = (Ok _, _) |- _ => apply open_null_Ok in H as [? ?]
      end ].

(** Rust opens the standard descriptors before [main]. *)
Definition stdio_open (t : gmap nat File) : Prop := Forall (λ k, is_Some (t !! k)) [0; 1; 2].

Lemma not_stdio t k : stdio_open t → t !! k = None → t !! k = None ∧ k ≠ 0 ∧ k ≠ 1 ∧ k ≠ 2.
Proof.
  unfold stdio_open. rewrite !Forall_cons. intros ([? ?] & [? ?] & [? ?] & _) Hk. split_and!; congruence.
Qed.

(** Look up a descriptor whose place in the table is known. *)
Ltac other_fd := solve [assumption | apply not_eq_sym; assumption | discriminate].
Ltac look_up :=
  repeat match goal with
  | H : context [<[_ := _]> _ !! _] |- _ =>
      first [rewrite lookup_insert_eq in H | rewrite lookup_insert_ne in H by other_fd]
  | H : context [delete _ _ !! _] |- _ => rewrite lookup_delete_ne in H by other_fd
  | H : Some _ = Some _ |- _ => injection H as <-
  end.

(** Two tables are the same, descriptor by descriptor. *)
Ltac same_table :=
  apply map_eq; intros ?k; repeat first [rewrite lookup_insert | rewrite lookup_delete]; repeat case_decide; subst; congruence.

(** The ends of three pipes in a table. *)
Definition three_pipes (t t' : gmap nat File) (n out_r out_w err_r err_w in_r in_w : nat) : Prop :=
  NoDup [out_r; out_w; err_r; err_w; in_r; in_w] ∧
  Forall (λ k, t !! k = None) [out_r; out_w; err_r; err_w; in_r; in_w] ∧
  t' = <[in_w := PipeWrite (S (S n))]> (<[in_r := PipeRead (S (S n))]> (
         <[err_w := PipeWrite (S n)]> (<[err_r := PipeRead (S n)]> (
           <[out_w := PipeWrite n]> (<[out_r := PipeRead n]> t))))).

Lemma piped_child_Ok fails n t out_r out_w err_r err_w in_r in_w p u q :
  stdio_open t → three_pipes t (fds p) n out_r out_w err_r err_w in_r in_w →
  piped_child fails out_r out_w err_r err_w in_r in_w p = (Ok u, q) →
  fds q = <[STDERR_FILENO := PipeWrite (S n)]> (<[STDOUT_FILENO := PipeWrite n]>
            (<[STDIN_FILENO := PipeRead (S (S n))]> t)).
Proof.
  intros Ho (Hnd & Hfree & Ht) Hf. pose proof (Forall_impl _ _ _ Hfree (λ k, not_stdio t k Ho)) as Hfr.
  rewrite !NoDup_cons, !not_elem_of_cons in Hnd. rewrite !Forall_cons in Hfr. destruct_and!. clear Hfree.
  unfold piped_child in Hf. inv_calls. unfold STDIN_FILENO, STDOUT_FILENO, STDERR_FILENO in *.
  repeat match goal with H : fds _ = _ |- _ => rewrite H in *; clear H end. look_up.
  same_table.
Qed.

Lemma piped_parent_Ok fails n t out_r out_w err_r err_w in_r in_w p u q :
  three_pipes t (fds p) n out_r out_w err_r err_w in_r in_w →
  piped_parent fails out_w err_w in_r p = (Ok u, q) →
  fds q = <[in_w := PipeWrite (S (S n))]> (<[err_r := PipeRead (S n)]> (<[out_r := PipeRead n]> t)).
Proof.
  intros (Hnd & Hfree & Ht) Hf. rewrite !NoDup_cons, !not_elem_of_cons in Hnd. rewrite !Forall_cons in Hfree.
  destruct_and!. unfold piped_parent in Hf. inv_calls.
  repeat match goal with H : fds _ = _ |- _ => rewrite H in *; clear H end. same_table.
Qed.

(** What a fork with pipes comes to in one of the two processes. *)
Lemma fork_piped_Ok fails pid p o q :
  stdio_open (fds p) → (0 ≤ pid)%Z → fork_with_piped_output fails pid p = (Ok o, q) →
  ∃ out_r out_w err_r err_w in_r in_w,
    three_pipes (fds p) (<[in_w := PipeWrite (S (S (next_id p)))]> (<[in_r := PipeRead (S (S (next_id p)))]> (
         <[err_w := PipeWrite (S (next_id p))]> (<[err_r := PipeRead (S (next_id p))]> (
           <[out_w := PipeWrite (next_id p)]> (<[out_r := PipeRead (next_id p)]> (fds p)))))))
      (next_id p) out_r out_w err_r err_w in_r in_w ∧
    o = mkForkOutput pid {| out_fd := out_r; err_fd := err_r |} {| in_fd := in_w |} tt None ∧
    fds q = if decide (pid = 0%Z) then
      <[STDERR_FILENO := PipeWrite (S (next_id p))]> (<[STDOUT_FILENO := PipeWrite (next_id p)]>
         (<[STDIN_FILENO := PipeRead (S (S (next_id p)))]> (fds p)))
    else <[in_w := PipeWrite (S (S (next_id p)))]> (<[err_r := PipeRead (S (next_id p))]> (
           <[out_r := PipeRead (next_id p)]> (fds p))).
Proof.
  intros Ho Hpid Hf. unfold fork_with_piped_output in Hf.
  apply bind_Ok_inv in Hf as ([out_r out_w] & p1 & H1 & Hf).
  apply bind_Ok_inv in Hf as ([err_r err_w] & p2 & H2 & Hf).
  apply bind_Ok_inv in Hf as ([in_r in_w] & p3 & H3 & Hf).
  apply m_context_Ok_inv, sys_two_Ok in H1 as (Ha1 & Hb1 & Hn1 & Hi1 & Ht1).
  apply m_context_Ok_inv, sys_two_Ok in H2 as (Ha2 & Hb2 & Hn2 & Hi2 & Ht2).
  apply m_context_Ok_inv, sys_two_Ok in H3 as (Ha3 & Hb3 & Hn3 & Hi3 & Ht3).
  rewrite Hi2, Hi1 in Ht3. rewrite Hi1 in Ht2. rewrite Ht2, Ht1 in Ht3. rewrite Ht2, Ht1 in Ha3, Hb3. rewrite Ht1 in Ha2, Hb2.
  repeat match goal with H : <[_ := _]> _ !! _ = None |- _ => apply lookup_insert_None in H as [? ?] end.
  assert (three_pipes (fds p) (fds p3) (next_id p) out_r out_w err_r err_w in_r in_w) as H3p.
  { split_and!; [|by rewrite !Forall_cons|done].
    rewrite !NoDup_cons, !not_elem_of_cons. split_and!; first [done|apply not_elem_of_nil|apply NoDup_nil_2]. }
  exists out_r, out_w, err_r, err_w, in_r, in_w. rewrite <-Ht3. split; [done|].
  destruct (decide (pid < 0)%Z); [lia|].
  apply bind_Ok_inv in Hf as (u & p4 & Hs & Hf). unfold mret, M_ret in Hf. simplify_eq. split; [done|].
  destruct (decide (pid = 0%Z)); [by eapply piped_child_Ok|by eapply piped_parent_Ok].
Qed.

(** C31: Whichever answer each process gets from its calls, when all succeed the standard
    input, output and error of the child are an end each of three new pipes, the
    parent has the other ends at new descriptors, and neither has any other
    descriptor more than before: in particular the parent sees the end of the
    output as soon as the child closes its own. *)
Theorem piped_output_wired fails_c fails_p p pid oc qc op qp :
  stdio_open (fds p) → (0 < pid)%Z →
  fork_with_piped_output fails_c 0 p = (Ok oc, qc) → fork_with_piped_output fails_p pid p = (Ok op, qp) →
  let n := next_id p in
  let out := out_fd (pipe_out_fds op) in let err := err_fd (pipe_out_fds op) in let inp := pipe_in_fd op in
  fds qc = <[STDERR_FILENO := PipeWrite (S n)]> (<[STDOUT_FILENO := PipeWrite n]>
             (<[STDIN_FILENO := PipeRead (S (S n))]> (fds p))) ∧
  fds qp = <[inp := PipeWrite (S (S n))]> (<[err := PipeRead (S n)]> (<[out := PipeRead n]> (fds p))) ∧
  NoDup [out; err; inp] ∧ Forall (λ k, fds p !! k = None) [out; err; inp].
Proof.
  intros Ho Hpid Hc Hp. cbv zeta.
  apply fork_piped_Ok in Hc as (? & ? & ? & ? & ? & ? & _ & _ & ->); [|done..].
  apply fork_piped_Ok in Hp as (out_r & out_w & err_r & err_w & in_r & in_w & (Hnd & Hfr & _) & -> & ->); [|done|lia].
  rewrite decide_True, decide_False by lia. cbn. rewrite !NoDup_cons, !not_elem_of_cons in *. rewrite !Forall_cons in *.
  destruct_and!. split_and!; first [done|apply not_elem_of_nil|apply NoDup_nil_2|constructor].
Qed.

(** A pipe end that the parent reads from is written to by the child only. *)
Lemma only_child_writes fails p pid o q :
  stdio_open (fds p) → (0 < pid)%Z → (∀ k f, fds p !! k = Some f → f ≠ PipeWrite (next_id p) ∧ f ≠ PipeWrite (S (next_id p))) →
  fork_with_piped_output fails pid p = (Ok o, q) →
  ∀ k, fds q !! k ≠ Some (PipeWrite (next_id p)) ∧ fds q !! k ≠ Some (PipeWrite (S (next_id p))).
Proof.
  intros Ho Hpid Hnew Hf k. apply fork_piped_Ok in Hf as (? & ? & ? & ? & ? & ? & _ & _ & ->); [|done|lia].
  rewrite decide_False by lia. rewrite !lookup_insert. repeat case_decide; split; try (intros [=]; lia); intros Hk; by apply Hnew in Hk as [? ?].
Qed.

(** *** The terminal and the pipe of a session *)
Lemma redirect_to_slave_Ok fails p t slave k u q :
  stdio_open t → t !! slave = None → fds p = <[slave := PtySlave k]> t →
  redirect_to_slave fails slave p = (Ok u, q) →
  fds q = <[STDIN_FILENO := PtySlave k]> (<[STDERR_FILENO := PtySlave k]> (<[STDOUT_FILENO := PtySlave k]> t)).
Proof.
  intros Ho Hs Ht Hf. apply not_stdio in Hs; [|done]. destruct_and!. unfold redirect_to_slave in Hf. inv_calls.
  unfold STDIN_FILENO, STDOUT_FILENO, STDERR_FILENO in *.
  repeat match goal with H : fds _ = _ |- _ => rewrite H in *; clear H end. look_up. same_table.
Qed.

(** The child has the terminal as its input, output and errors, at once or as soon
    as it redirects them; the parent has its master end and nothing else. *)
Lemma pty_output_wired fails pid act p o q :
  stdio_open (fds p) → (0 ≤ pid)%Z → fork_with_pty_output fails pid act p = (Ok o, q) →
  if decide (pid = 0%Z) then
    ∀ o' q', match act with RedirectNow => o' = o ∧ q' = q | RedirectLater => redirect o q = (Ok o', q') end →
      redirect_action o' = None ∧
      fds q' = <[STDIN_FILENO := PtySlave (next_id p)]> (<[STDERR_FILENO := PtySlave (next_id p)]>
                 (<[STDOUT_FILENO := PtySlave (next_id p)]> (fds p)))
  else ∃ m, pty_fd o = Z.of_nat m ∧ fds p !! m = None ∧ fds q = <[m := PtyMaster (next_id p)]> (fds p).
Proof.
  intros Ho Hpid Hf. unfold fork_with_pty_output in Hf. apply bind_Ok_inv in Hf as ([m s] & p1 & H1 & Hf).
  apply m_context_Ok_inv, sys_two_Ok in H1 as (Ha & Hb & Hne & _ & Ht). destruct (decide (pid < 0)%Z); [lia|].
  destruct (decide (pid = 0%Z)) as [->|].
  - apply bind_Ok_inv in Hf as (u & p2 & Hm & Hf). apply m_context_Ok_inv, close_Ok in Hm as [Hm _].
    assert (fds p2 = <[s := PtySlave (next_id p)]> (fds p)) as H2.
    { rewrite Hm, Ht. same_table. }
    intros o' q' Hr. destruct act.
    + destruct Hr as [-> ->]. inv_m. split; [done|]. by eapply redirect_to_slave_Ok.
    + inv_m. cbn in Hr. unfold redirect in Hr. cbn [redirect_action] in Hr. inv_m. split; [done|].
      by eapply redirect_to_slave_Ok.
  - inv_m. apply close_Ok in H as [Hq _]. exists m. split_and!; [done..|]. rewrite Hq, Ht. same_table.
Qed.

(** The two ends of one pipe, one for each process. *)
Lemma comm_pipe_wired fails pid p o q :
  (0 ≤ pid)%Z → fork_with_comm_pipe fails pid p = (Ok o, q) →
  fds p !! comm_fd o = None ∧
  fds q = <[comm_fd o := if decide (pid = 0%Z) then PipeWrite (next_id p) else PipeRead (next_id p)]> (fds p).
Proof.
  intros Hpid Hf. unfold fork_with_comm_pipe in Hf. apply bind_Ok_inv in Hf as ([r w] & p1 & H1 & Hf).
  apply m_context_Ok_inv, sys_two_Ok in H1 as (Ha & Hb & Hne & _ & Ht). destruct (decide (pid < 0)%Z); [lia|].
  destruct (decide (pid = 0%Z)); unfold close_read, close_write in Hf; inv_m; apply close_Ok in H as [Hq _]; (split; [done|]);
    rewrite Hq, Ht; cbn; same_table.
Qed.

(** *** Detaching *)
Lemma redirect_to_null_Ok fails k p u q :
  redirect_to_null fails k p = (Ok u, q) → fds q = <[k := DevNull]> (fds p).
Proof.
  intros Hf. unfold redirect_to_null in Hf. inv_calls; repeat match goal with H : fds _ = _ |- _ => rewrite H in *; clear H end;
    look_up; same_table.
Qed.

(** After a session has detached from the console its standard descriptors are the
    null device, whether they were open or not, and the others are as before. *)
Lemma detached fails p u q :
  redirect_stdio_to_null fails p = (Ok u, q) →
  fds q = <[STDERR_FILENO := DevNull]> (<[STDOUT_FILENO := DevNull]> (<[STDIN_FILENO := DevNull]> (fds p))).
Proof.
  intros Hf. unfold redirect_stdio_to_null in Hf. inv_m.
  repeat match goal with H : redirect_to_null _ _ _ = _ |- _ => apply redirect_to_null_Ok in H end. congruence.
Qed.

(** ** Witnesses *)
Module Witness.
Definition start : Process := mkProcess {[ 0 := OtherFile 0; 1 := OtherFile 1; 2 := OtherFile 2; 4 := OtherFile 3 ]} 0 0.
Definition run {A} (m : M Process A) : option A * Process :=
  match m start with (Ok a, q) => (Some a, q) | (_, q) => (None, q) end.
Abbreviation child := (run (fork_with_piped_output (λ _, false) 0)).
Abbreviation parent := (run (fork_with_piped_output (λ _, false) 17)).
Definition outputs : ForkOutput PipeOutFds PipeInFd unit :=
  mkForkOutput 17 {| out_fd := 3; err_fd := 6 |} {| in_fd := 9 |} tt None.
Definition child_outputs : ForkOutput PipeOutFds PipeInFd unit :=
  mkForkOutput 0 {| out_fd := 3; err_fd := 6 |} {| in_fd := 9 |} tt None.

Lemma child_runs : fork_with_piped_output (λ _, false) 0 start = (Ok child_outputs, child.2).
Proof. vm_compute. reflexivity. Qed.
Lemma parent_runs : fork_with_piped_output (λ _, false) 17 start = (Ok outputs, parent.2).
Proof. vm_compute. reflexivity. Qed.

Definition NewFds : Type := list (nat * File).
Definition new_fds (p : Process) : NewFds :=
  omap (λ k, f ← fds p !! k; if decide (fds start !! k = Some f) then None else Some (k, f)) (seq 0 16).

Example piped_output_wired_witness :
  new_fds child.2 = [(0, PipeRead 2); (1, PipeWrite 0); (2, PipeWrite 1)] ∧
  new_fds parent.2 = [(3, PipeRead 0); (6, PipeRead 1); (9, PipeWrite 2)] ∧
  fds child.2 = <[STDERR_FILENO := PipeWrite 1]> (<[STDOUT_FILENO := PipeWrite 0]>
                  (<[STDIN_FILENO := PipeRead 2]> (fds start))) ∧
  fds parent.2 = <[9 := PipeWrite 2]> (<[6 := PipeRead 1]> (<[3 := PipeRead 0]> (fds start))) ∧
  NoDup [3; 6; 9] ∧ Forall (λ k, fds start !! k = None) [3; 6; 9].
Proof.
  split; [vm_compute; reflexivity|]. split; [vm_compute; reflexivity|].
  refine (piped_output_wired (λ _, false) (λ _, false) start 17 child_outputs child.2 outputs parent.2 _ _ child_runs parent_runs).
  - repeat constructor; eexists; reflexivity.
  - reflexivity.
Defined.
End Witness.
