(* ===== verification/ConsoleLog.v ===== *)
(** * Messages on the console and in the log file ([common-utils/src/log.rs];
      [main.rs] [ConsoleLogGuard])

    Every message goes to the log file, and to the console while that is
    enabled. When a mount fails that has hidden its messages, the log file is
    printed from the line on whose number is the number of lines shown so far. *)
From S2P Require Import Prelude.
From Stdlib Require Import Ascii.

Definition HOST_PREFIX : string := "macOS: ".
Definition GUEST_LINUX_PREFIX : string := "Linux: ".
Definition GUEST_BSD_PREFIX : string := "  BSD: ".
Definition EMPTY_PREFIX : string := "".

Inductive Prefix := Host | GuestLinux | GuestBSD.
Definition prefix_text (p : option Prefix) : string :=
  match p with
  | Some Host => HOST_PREFIX
  | Some GuestLinux => GUEST_LINUX_PREFIX
  | Some GuestBSD => GUEST_BSD_PREFIX
  | None => EMPTY_PREFIX
  end.

(** The two streams of the console and what is written to them, in order. *)
Inductive Stream := Stdout | Stderr.
Record Log := mkLog {
  console_log_enabled : bool; printed_lines : nat; log_file : option string; written : list (Stream * string) }.

(** Before [main] does anything. *)
Definition Log_new : Log := mkLog true 0 None [].

(** A second call keeps the file of the first ([OnceLock::get_or_init]); the file
    is empty in either case, unless it was renamed. *)
Definition init_log_file (l : Log) : Log :=
  mkLog (console_log_enabled l) 0 (Some (default "" (log_file l))) (written l).

Definition enable_console_log (l : Log) : Log := mkLog true (printed_lines l) (log_file l) (written l).
Definition disable_console_log (l : Log) : Log := mkLog false (printed_lines l) (log_file l) (written l).

Definition LF : ascii := "010".
Definition CRLF : string := String "013" (String LF "").

(** [println_impl!] and [print_impl!] with the text after formatting; the result,
    which all callers ignore, is left out. *)
Definition println_impl (stream : Stream) (prefix text : string) (l : Log) : Log :=
  let l := if console_log_enabled l
           then mkLog true (S (printed_lines l)) (log_file l) (written l ++ [(stream, prefix +:+ text +:+ CRLF)])
           else l in
  mkLog (console_log_enabled l) (printed_lines l)
    ((λ f, f +:+ (prefix +:+ text) +:+ String LF "") <$> log_file l) (written l).

Definition print_impl (stream : Stream) (prefix text : string) (l : Log) : Log :=
  let l := if console_log_enabled l
           then mkLog true (printed_lines l) (log_file l) (written l ++ [(stream, prefix +:+ text)])
           else l in
  mkLog (console_log_enabled l) (printed_lines l) ((λ f, f +:+ prefix +:+ text) <$> log_file l) (written l).

Definition host_println (text : string) : Log → Log := println_impl Stdout HOST_PREFIX text.
Definition host_eprintln (text : string) : Log → Log := println_impl Stderr HOST_PREFIX text.
Definition guest_println (text : string) : Log → Log := println_impl Stdout GUEST_LINUX_PREFIX text.
Definition guest_print (text : string) : Log → Log := print_impl Stdout GUEST_LINUX_PREFIX text.
Definition prefix_println (prefix : option Prefix) (text : string) : Log → Log :=
  println_impl Stdout (prefix_text prefix) text.
Definition prefix_print (prefix : option Prefix) (text : string) : Log → Log :=
  print_impl Stdout (prefix_text prefix) text.
Definition prefix_eprintln (prefix : option Prefix) (text : string) : Log → Log :=
  println_impl Stderr (prefix_text prefix) text.

(** [ConsoleLogGuard]: whether it is active, and its drop. *)
Definition enable_temporarily (verbose : bool) (l : Log) : bool * Log :=
  (negb verbose, if verbose then l else enable_console_log l).
Definition drop_guard (active : bool) (l : Log) : Log := if active then disable_console_log l else l.

(** [print_log_file]: lines that are not UTF-8 are left out. *)
Section print.
Context (is_utf8 : string → bool).

Definition rest_of_log (l : Log) : list string :=
  match log_file l with
  | Some f => omap (λ il : nat * string, if (il.1 <? printed_lines l) then None else if is_utf8 il.2 then Some il.2 else None)
                (imap pair (Str.lines f))
  | None => []
  end.
Definition print_log_file (l : Log) : Log :=
  mkLog (console_log_enabled l) (printed_lines l) (log_file l)
    (written l ++ ((λ line, (Stdout, line +:+ String LF "")) <$> rest_of_log l)).

(** ** Which lines are printed *)
(** What a process does with the log: messages, and switches of the console. *)
Inductive Op := Say (stream : Stream) (prefix : option Prefix) (text : string) | Console (on : bool).
Definition do_op (l : Log) (o : Op) : Log :=
  match o with
  | Say stream prefix text => println_impl stream (prefix_text prefix) text l
  | Console true => enable_console_log l
  | Console false => disable_console_log l
  end.

(** The messages, and whether the console showed them. *)
Fixpoint messages (on : bool) (ops : list Op) : list (bool * string) :=
  match ops with
  | [] => []
  | Say _ prefix text :: ops => (on, prefix_text prefix +:+ text) :: messages on ops
  | Console on :: ops => messages on ops
  end.

(** A message of one line. *)
Definition one_line (m : string) : Prop :=
  StrFacts.lacks LF m = true ∧ Str.strip_suffix (String "013" "") m = None ∧ is_utf8 m = true.

Definition logged (ms : list (bool * string)) : string := foldr (λ m s, m +:+ String LF s) "" ms.*2.
Definition shown_count (ms : list (bool * string)) : nat := length (List.filter fst ms).

Lemma run_ops on n f ws ops :
  let l := foldl do_op (mkLog on n (Some f) ws) ops in
  log_file l = Some (f +:+ logged (messages on ops)) ∧ printed_lines l = n + shown_count (messages on ops).
Proof.
  revert on n f ws; induction ops as [|[stream prefix text|b] ops IH]; intros on n f ws; cbv zeta; cbn [foldl].
  - cbn [log_file printed_lines messages]. unfold logged, shown_count. split; [cbn [fmap list_fmap foldr]; by rewrite StrFacts.app_nil_r|cbn; lia].
  - cbn [do_op]. unfold println_impl. cbn [log_file printed_lines console_log_enabled]. unfold logged, shown_count.
    cbn [messages].
    destruct on; cbn [log_file printed_lines console_log_enabled written fmap option_fmap option_map];
      match goal with |- context [foldl do_op (mkLog ?o ?k (Some ?g) ?w) ops] => destruct (IH o k g w) as [-> ->] end;
      unfold logged, shown_count; cbn [fmap list_fmap fst snd foldr List.filter length];
      (split; [by rewrite !StrFacts.app_assoc|lia]).
  - destruct b; cbn; apply IH.
Qed.

Lemma skip_lines (ls : list string) n k :
  Forall (λ m, is_utf8 m = true) ls →
  omap (λ il : nat * string, if (il.1 <? n) then None else if is_utf8 il.2 then Some il.2 else None)
    (imap (λ i l, (k + i, l)) ls) = drop (n - k) ls.
Proof.
  intros Hu. set (f := λ il : nat * string, _).
  assert (∀ x xs, omap f (x :: xs) = match f x with Some y => y :: omap f xs | None => omap f xs end) as Hcons by done.
  revert k. induction Hu as [|l ls Hl _ IH]; intros k; [by rewrite drop_nil|].
  cbn [imap]. rewrite (imap_ext _ (λ i l, (S k + i, l))) by (intros; cbn; f_equal; lia).
  rewrite Hcons, IH. unfold f. cbn [fst snd]. rewrite Nat.add_0_r. destruct (Nat.ltb_spec k n).
  - replace (n - k) with (S (n - S k)) by lia. done.
  - rewrite Hl. replace (n - S k) with 0 by lia. replace (n - k) with 0 by lia. by rewrite !drop_0.
Qed.

(** As many lines as were shown are left out, from the beginning of the log. *)
Lemma rest_drops ws ops on :
  Forall one_line (messages on ops).*2 →
  rest_of_log (foldl do_op (mkLog on 0 (Some "") ws) ops) =
    drop (shown_count (messages on ops)) (messages on ops).*2.
Proof.
  intros Hl. unfold rest_of_log. destruct (run_ops on 0 "" ws ops) as [-> ->]. unfold logged.
  change ("" +:+ ?s) with s. rewrite StrFacts.lines_terminated by (eapply Forall_impl; [exact Hl|]; intros m (? & ? & _); done).
  etransitivity; [apply (skip_lines _ _ 0); eapply Forall_impl; [exact Hl|]; by intros m (_ & _ & ?)|].
  by rewrite Nat.sub_0_r.
Qed.

(** When the messages that were shown are the first ones, the console ends up with
    every message: those that were hidden are printed, in order, and nothing else. *)
Lemma hidden_messages_printed ws ops on shown hidden :
  Forall one_line (messages on ops).*2 →
  messages on ops = ((true,.) <$> shown) ++ ((false,.) <$> hidden) →
  written (print_log_file (foldl do_op (mkLog on 0 (Some "") ws) ops)) =
    written (foldl do_op (mkLog on 0 (Some "") ws) ops) ++ ((λ m, (Stdout, m +:+ String LF "")) <$> hidden).
Proof.
  intros Hl Hm. unfold print_log_file. cbn [written]. f_equal. f_equal. rewrite rest_drops by done. rewrite Hm.
  assert (shown_count (((true,.) <$> shown) ++ ((false,.) <$> hidden)) = length shown) as ->.
  { unfold shown_count. rewrite List.filter_app. clear. induction shown as [|m ms IH]; cbn; [|by rewrite <-IH].
    induction hidden; done. }
  rewrite fmap_app, <-!list_fmap_compose. unfold compose. cbn. rewrite !list_fmap_id.
  by rewrite drop_app_length.
Qed.
End print.

(** After the console was on for a while in between, as while an image is
    installed, lines that were shown are printed again and as many that were
    hidden are not printed at all. *)
Example hidden_line_lost :
  written (print_log_file (λ _, true) (foldl do_op (mkLog true 0 (Some "") [])
    [Console false; Say Stdout (Some Host) "root_path: /r"; Console true; Say Stdout (Some Host) "installing";
     Console false; Say Stderr (Some Host) "Error: no space"])) =
  [(Stdout, "macOS: installing" +:+ CRLF);
   (Stdout, "macOS: installing" +:+ String LF ""); (Stdout, "macOS: Error: no space" +:+ String LF "")].
Proof. vm_compute. reflexivity. Qed.

Definition some_ops : list Op :=
  [Say Stdout (Some Host) "mounting"; Console false; Say Stdout (Some GuestLinux) "boot"; Say Stderr (Some Host) "Error: no space"].
Example hidden_messages_printed_witness :
  written (print_log_file (λ _, true) (foldl do_op (mkLog true 0 (Some "") []) some_ops)) =
    written (foldl do_op (mkLog true 0 (Some "") []) some_ops) ++
      ((λ m, (Stdout, m +:+ String LF "")) <$> ["Linux: boot"; "macOS: Error: no space"]).
Proof.
  apply (hidden_messages_printed (λ _, true) [] some_ops true ["macOS: mounting"] ["Linux: boot"; "macOS: Error: no space"]).
  - repeat constructor; vm_compute; reflexivity.
  - reflexivity.
Defined.
