(* ===== verification/Logs.v ===== *)
(** * Log files ([cmd_mount.rs] [collect_files_with_mtime], [cleanup_old_logs],
      [find_latest_log]; [main.rs] [run_log], [run_dmesg])

    Which log files are removed when a mount starts, and what the commands that
    show logs print. *)
From S2P Require Import Prelude Paths Settings Instance.
From stdpp Require Import sorting.
From Stdlib Require Import Ascii.

(** ** The files of a directory *)
(** An entry of the directory: its name, if it is text, and the time of its
    last change, if it can be read. *)
Record Entry := mkEntry { e_name : option string; e_modified : option N }.

Definition matching (dir : string) (predicate : string → bool) (e : Entry) : option (string * N) :=
  name ← e_name e; t ← e_modified e;
  if predicate name then Some (path.join dir name, t) else None.

Definition collect_files_with_mtime (dir : string) (entries : option (list Entry)) (predicate : string → bool) :
    list (string * N) :=
  omap (matching dir predicate) (default [] entries).

(** [sort_by(|a, b| b.1.cmp(&a.1))], a stable sort: the newest first. *)
Fixpoint insert_newest (x : string * N) (l : list (string * N)) : list (string * N) :=
  match l with
  | [] => [x]
  | y :: l => if bool_decide (y.2 ≤ x.2)%N then x :: y :: l else y :: insert_newest x l
  end.
Definition sort_newest (l : list (string * N)) : list (string * N) := foldr insert_newest [] l.

(** ** [cleanup_old_logs] *)
Definition LOG_RETENTION_COUNT : nat := 10.

Definition is_log (fname : string) : bool :=
  (Str.starts_with "anylinuxfs-" fname || Str.starts_with "anylinuxfs." fname) && Str.ends_with ".log" fname.

(** Paths are equal when their components are. *)
Definition log_paths (active_instances : list RuntimeInfo) : gset (list path.component) :=
  list_to_set ((λ rt, path.components (log_file_path (logs (common (mount_config rt))))) <$> active_instances).

(** The files that go with a log. *)
Definition companions (log_dir p : string) : list string :=
  match (fname ← path.file_name p; s ← Str.strip_prefix "anylinuxfs" fname; Str.strip_suffix ".log" s) with
  | Some id_part => [path.join log_dir ("anylinuxfs_kernel" +:+ id_part +:+ ".log");
                     path.join log_dir ("anylinuxfs_nethelper" +:+ id_part +:+ ".log")]
  | None => []
  end.

Definition retention_count (active : gset (list path.component)) : nat := size active `max` (LOG_RETENTION_COUNT - 1).

(** The files that are removed, in order; failures are ignored. *)
Definition cleanup_old_logs (log_dir : string) (entries : option (list Entry))
    (active_instances : list RuntimeInfo) : list string :=
  let active := log_paths active_instances in
  let log_files := sort_newest (collect_files_with_mtime log_dir entries is_log) in
  mbind (λ p, p :: companions log_dir p)
    (List.filter (λ p, negb (bool_decide (path.components p ∈ active))) (drop (retention_count active) log_files).*1).

(** ** [find_latest_log] *)
Definition find_latest_log (log_dir : string) (entries : option (list Entry))
    (pattern_start pattern_end : string) : option string :=
  let log_files := collect_files_with_mtime log_dir entries
    (λ fname, Str.starts_with pattern_start fname && Str.ends_with pattern_end fname) in
  fst <$> head (sort_newest log_files).

(** ** Showing a log *)
(** [read_line] until it returns 0: the last line need not be ended. *)
Fixpoint read_lines (s : string) : list string :=
  match s with
  | "" => []
  | String c s =>
      if decide (c = "010"%char) then String c "" :: read_lines s
      else match read_lines s with
           | l :: ls => if decide (s = "") then [String c ""] else String c l :: ls
           | [] => [String c ""]
           end
  end.
Definition shown (s : string) : list string := Str.trim_end <$> read_lines s.

(** The files of the directory and their contents. *)
Definition run_dmesg (log_dir : string) (entries : option (list Entry)) (exists_ : string → bool)
    (contents : string → outcome string) : outcome (list string) :=
  match find_latest_log log_dir entries "anylinuxfs_kernel-" ".log" with
  | None => Ok []
  | Some p => if exists_ p then shown <$> with_context ("Failed to open " +:+ p) (contents p) else Ok []
  end.

(** With [--follow], what is appended before each event of the watcher; the
    watcher ends with an error. *)
Definition run_log (log_dir : string) (entries : option (list Entry)) (exists_ : string → bool)
    (contents : string → outcome string) (follow : option (outcome (list string))) : outcome (list string) :=
  match find_latest_log log_dir entries "anylinuxfs-" ".log" with
  | None => Ok []
  | Some p =>
      if exists_ p then
        lines ← shown <$> with_context "Failed to open log file" (contents p);
        match follow with
        | None => Ok lines
        | Some watch =>
            appended ← with_context "Failed to watch log file" watch;
            Ok (lines ++ mbind shown appended)
        end
      else Ok []
  end.

(** ** The sort *)
Definition newer_first (x y : string * N) : Prop := (y.2 ≤ x.2)%N.

Lemma insert_newest_perm x l : insert_newest x l ≡ₚ x :: l.
Proof.
  induction l as [|y l IH]; cbn; [done|]. case_bool_decide; [done|]. rewrite IH. apply Permutation_swap.
Qed.
Lemma sort_newest_perm l : sort_newest l ≡ₚ l.
Proof. induction l as [|x l IH]; cbn; [done|]. by rewrite insert_newest_perm, IH. Qed.
Lemma sort_newest_sorted l : StronglySorted newer_first (sort_newest l).
Proof.
  induction l as [|x l IH]; cbn; [constructor|].
  change (foldr insert_newest [] l) with (sort_newest l). revert IH. generalize (sort_newest l) as m. intros m Hm. induction Hm as [|y k Hk IHk Hy]; cbn.
  { by repeat constructor. }
  case_bool_decide as Hxy.
  - constructor; [by constructor|]. constructor; [done|].
    eapply Forall_impl; [exact Hy|]. unfold newer_first. intros z Hz. lia.
  - constructor; [done|]. rewrite insert_newest_perm. constructor; [|done]. unfold newer_first. lia.
Qed.

(** ** What the clean-up removes *)
Section cleanup.
Context (log_dir : string) (entries : list Entry) (active_instances : list RuntimeInfo).
Abbreviation files := (collect_files_with_mtime log_dir (Some entries) is_log).
Abbreviation active := (log_paths active_instances).
Abbreviation k := (retention_count active).
Abbreviation removed := (cleanup_old_logs log_dir (Some entries) active_instances).
(** Names in a directory are distinct and have no separator. *)
Hypothesis names_distinct : NoDup (omap e_name entries).
Hypothesis names_plain : Forall (λ n, StrFacts.lacks "/" n = true) (omap e_name entries).

Lemma log_starts name : is_log name = true → ∃ r, name = "anylinuxfs" +:+ r ∧ ∃ c r', r = String c r' ∧ c ≠ "_"%char.
Proof.
  unfold is_log. intros [Hs _]%andb_true_iff. apply orb_true_iff in Hs.
  destruct Hs as [[r ->]%StrFacts.starts_with_spec|[r ->]%StrFacts.starts_with_spec].
  - exists ("-" +:+ r). split; [done|]. by eexists _, _.
  - exists ("." +:+ r). split; [done|]. by eexists _, _.
Qed.

Lemma log_plain name : is_log name = true → StrFacts.lacks "/" name = true → path.plain name = true.
Proof.
  intros (r & -> & _)%log_starts Hl. apply path.plain_spec. by rewrite Hl.
Qed.

Lemma log_id name : is_log name = true → ∃ id, name = "anylinuxfs" +:+ id +:+ ".log".
Proof.
  intros Hn. pose proof Hn as (r & -> & _)%log_starts. unfold is_log in Hn. apply andb_true_iff in Hn as [_ Hn].
  apply StrFacts.ends_with_spec in Hn as [l Hl].
  assert (Hp : Str.starts_with "anylinuxfs" (l +:+ ".log") = true) by by rewrite <-Hl; apply StrFacts.starts_with_app.
  destruct (decide (String.length l < 10)) as [Hlen|Hlen].
  - exfalso. revert Hp. clear -Hlen. intros Hp.
    destruct l as [|c0 [|c1 [|c2 [|c3 [|c4 [|c5 [|c6 [|c7 [|c8 [|c9 l]]]]]]]]]]; cbn in Hlen; try lia;
      unfold Str.starts_with in Hp; cbn in Hp; repeat case_decide; simplify_eq.
  - exists (Str.drop 10 l). rewrite Hl. rewrite <-(StrFacts.take_drop 10 l) at 1.
    rewrite <-StrFacts.app_assoc. f_equal. f_equal. apply (f_equal (Str.take 10)) in Hl.
    change 10 with (String.length "anylinuxfs") in Hl at 1. rewrite StrFacts.take_app in Hl.
    rewrite Hl. clear -Hlen. revert Hlen. generalize 10 as n. induction l as [|c l IH]; intros [|n] Hn; cbn in *; try done; [lia|].
    f_equal. apply IH. lia.
Qed.

Lemma log_relative name : is_log name = true → path.is_absolute name = false.
Proof. by intros (r & -> & _)%log_starts. Qed.

Lemma log_join_inj name name' :
  path.is_absolute name = false → path.is_absolute name' = false →
  path.join log_dir name = path.join log_dir name' → name = name'.
Proof. intros H1 H2. rewrite !path.join_text by done. by intros Hj%StrFacts.app_inj_l%StrFacts.app_inj_l. Qed.

Lemma companions_eq id :
  is_log ("anylinuxfs" +:+ id +:+ ".log") = true → StrFacts.lacks "/" ("anylinuxfs" +:+ id +:+ ".log") = true →
  companions log_dir (path.join log_dir ("anylinuxfs" +:+ id +:+ ".log")) =
    [path.join log_dir ("anylinuxfs_kernel" +:+ id +:+ ".log");
     path.join log_dir ("anylinuxfs_nethelper" +:+ id +:+ ".log")].
Proof.
  intros Hn Hl. unfold companions. rewrite path.file_name_join by by apply log_plain.
  cbn [mbind option_bind]. rewrite StrFacts.strip_prefix_app. cbn [mbind option_bind].
  by rewrite StrFacts.strip_suffix_app.
Qed.

Lemma matching_Some e x :
  matching log_dir is_log e = Some x →
  ∃ name, e_name e = Some name ∧ x.1 = path.join log_dir name ∧ is_log name = true.
Proof.
  unfold matching. destruct (e_name e) as [name|]; [|done]. destruct (e_modified e) as [t|]; [|done]. cbn.
  destruct (is_log name) eqn:Hn; [|done]. intros [= <-]. by exists name.
Qed.

Lemma elem_of_files x :
  x ∈ files → ∃ name, x.1 = path.join log_dir name ∧ is_log name = true ∧ StrFacts.lacks "/" name = true.
Proof.
  unfold collect_files_with_mtime. cbn [default]. rewrite list_elem_of_omap.
  intros (e & He & (name & Hn & Hx & Hl)%matching_Some). exists name. split_and!; [done..|].
  rewrite Forall_forall in names_plain. apply names_plain, list_elem_of_omap. eauto.
Qed.

Lemma files_distinct : NoDup files.*1.
Proof.
  unfold collect_files_with_mtime. cbn [default]. revert names_distinct. clear.
  induction entries as [|e es IH]; csimpl; intros Hnd; [constructor|].
  destruct (matching log_dir is_log e) as [x|] eqn:Hm.
  - apply matching_Some in Hm as (name & Hn & Hx & Hl). rewrite Hn in Hnd.
    apply NoDup_cons in Hnd as [Hni Hnd]. csimpl. constructor; [|by apply IH].
    rewrite list_elem_of_fmap. intros (y & Hy & (e' & He' & Hm')%list_elem_of_omap).
    apply matching_Some in Hm' as (name' & Hn' & Hy' & Hl').
    rewrite Hx, Hy' in Hy. apply log_join_inj in Hy; [|by apply log_relative..]. subst.
    apply Hni, list_elem_of_omap. eauto.
  - apply IH. destruct (e_name e); [by apply NoDup_cons in Hnd as [_ ?]|done].
Qed.

Abbreviation sorted := (sort_newest files).
Abbreviation old_logs := (List.filter (λ p, negb (bool_decide (path.components p ∈ active))) (drop k sorted).*1).

Lemma elem_of_old p : p ∈ old_logs ↔ p ∈ (drop k sorted).*1 ∧ path.components p ∉ active.
Proof.
  rewrite list_elem_of_In, filter_In, <-list_elem_of_In, negb_true_iff, bool_decide_eq_false. done.
Qed.

(** A log is removed as such only, never as the companion of another one. *)
Lemma removed_log name :
  is_log name = true → (path.join log_dir name ∈ removed ↔ path.join log_dir name ∈ old_logs).
Proof.
  intros Hn. unfold cleanup_old_logs. rewrite list_elem_of_bind. split; [|by intros; eexists; split; [left|]].
  intros (p & [->|Hc]%elem_of_cons & Hp); [done|]. exfalso.
  apply elem_of_old in Hp as [Hp _]. apply list_elem_of_fmap in Hp as (x & -> & Hx).
  assert (x ∈ files) as (name' & Hx' & Hn' & Hl')%elem_of_files.
  { rewrite <-(sort_newest_perm files), <-(take_drop k sorted). set_solver. }
  pose proof (log_id _ Hn') as [id ->]. rewrite Hx', companions_eq in Hc by done.
  pose proof (log_starts _ Hn) as (r & -> & c & r' & -> & Hc').
  rewrite !elem_of_cons in Hc. destruct Hc as [Hc|[Hc|Hc]]; [..|by apply not_elem_of_nil in Hc].
  all: apply log_join_inj in Hc; [|done..]; by injection Hc as -> _.
Qed.

Lemma elem_of_sorted x : x ∈ sorted ↔ x ∈ files.
Proof. by rewrite sort_newest_perm. Qed.

Lemma removed_file x : x ∈ files → (x.1 ∈ removed ↔ x.1 ∈ old_logs).
Proof. intros (name & -> & Hn & _)%elem_of_files. by apply removed_log. Qed.

(** A kept log and an old one are different files. *)
Lemma take_kept x : x ∈ take k sorted → x.1 ∉ removed.
Proof.
  intros Hx. rewrite removed_file, elem_of_old. 2: { apply elem_of_sorted. rewrite <-(take_drop k sorted). set_solver. }
  intros [Hd _]. pose proof files_distinct as Hnd. rewrite <-(sort_newest_perm files), <-(take_drop k sorted), fmap_app in Hnd.
  apply NoDup_app in Hnd as (_ & Hnd & _). eapply Hnd, Hd. by apply list_elem_of_fmap_2.
Qed.

Lemma take_newer x y : x ∈ drop k sorted → y ∈ take k sorted → (x.2 ≤ y.2)%N.
Proof.
  pose proof (sort_newest_sorted files) as Hs. rewrite <-(take_drop k sorted) in Hs.
  revert Hs. generalize (take k sorted) as a, (drop k sorted) as b. intros a b Hs Hx Hy.
  apply (StronglySorted_app_1_elem_of _ _ _ y x Hs Hy Hx).
Qed.

(** The kernel log of an instance goes with its main log. *)
Lemma removed_kernel id :
  is_log ("anylinuxfs" +:+ id +:+ ".log") = true → StrFacts.lacks "/" ("anylinuxfs" +:+ id +:+ ".log") = true →
  path.join log_dir ("anylinuxfs_kernel" +:+ id +:+ ".log") ∈ removed ↔
  path.join log_dir ("anylinuxfs" +:+ id +:+ ".log") ∈ removed.
Proof.
  intros Hn Hl. rewrite (removed_log _ Hn). unfold cleanup_old_logs. rewrite list_elem_of_bind. split.
  - intros (p & Hc & Hp). pose proof Hp as [Hd _]%elem_of_old. apply list_elem_of_fmap in Hd as (x & -> & Hx).
    assert (x ∈ files) as (name' & Hx' & Hn' & Hl')%elem_of_files.
    { apply elem_of_sorted. rewrite <-(take_drop k sorted). set_solver. }
    pose proof (log_id _ Hn') as [id' ->]. rewrite Hx', companions_eq in Hc by done. rewrite Hx' in Hp.
    rewrite !elem_of_cons in Hc. destruct Hc as [Hc|[Hc|[Hc|Hc]]]; [..|by apply not_elem_of_nil in Hc].
    + pose proof (log_starts _ Hn') as (r & Heq & c & r' & -> & Hc'). exfalso. rewrite Heq in Hc.
      apply log_join_inj in Hc; [|done..]. by injection Hc as <- _.
    + apply log_join_inj in Hc; [|done..]. by apply (StrFacts.app_inj_l "anylinuxfs_kernel"), StrFacts.app_inj_r in Hc as ->.
    + by apply log_join_inj in Hc.
  - intros Hp. eexists. split; [|exact Hp]. rewrite companions_eq by done. set_solver.
Qed.

End cleanup.

(** ** Following a log *)
Lemma read_lines_app a b :
  (a = "" ∨ ∃ a', a = a' +:+ String "010" "") → read_lines (a +:+ b) = read_lines a ++ read_lines b.
Proof.
  intros [->|[a' ->]]; [done|]. induction a' as [|c a' IH]; [done|]. cbn.
  destruct (decide (c = "010"%char)); [by rewrite IH|]. rewrite IH.
  destruct (read_lines (a' +:+ String "010" "")) as [|l ls] eqn:E; cbn.
  - destruct a' as [|d a']; cbn in E; [done|]. destruct (decide (d = "010"%char)); [done|].
    destruct (read_lines _); [done|]. by destruct (decide _).
  - by destruct a'.
Qed.

Abbreviation whole_lines := (λ a : string, ∃ a', a = a' +:+ String "010" "").

Lemma shown_pieces pieces :
  Forall whole_lines pieces → mbind shown pieces = shown (foldr String.append "" pieces).
Proof.
  induction 1 as [|a pieces Ha _ IH]; [done|]. cbn [mbind list_bind foldr].
  rewrite IH. unfold shown. rewrite read_lines_app by auto. by rewrite fmap_app.
Qed.

(** What is followed in whole lines is shown as if it had been there before. *)
Lemma followed_lines log_dir entries exists_ contents p s pieces :
  find_latest_log log_dir entries "anylinuxfs-" ".log" = Some p → exists_ p = true → contents p = Ok s →
  Forall whole_lines (s :: pieces) →
  run_log log_dir entries exists_ contents (Some (Ok pieces)) = Ok (shown (foldr String.append "" (s :: pieces))).
Proof.
  intros Hf He Hc Hw. unfold run_log. rewrite Hf, He, Hc. by rewrite <-(shown_pieces _ Hw).
Qed.

(** A line that is written in two pieces is shown as two. *)
Example followed_in_pieces :
  run_log "/l" (Some [mkEntry (Some "anylinuxfs-a.log") (Some 1%N)]) (λ _, true) (λ _, Ok "ab")
    (Some (Ok ["c" +:+ String "010" ""])) = Ok ["ab"; "c"] ∧
  shown ("abc" +:+ String "010" "") = ["abc"].
Proof. done. Qed.

Module Witness.
Definition entries : list Entry :=
  (λ i, mkEntry (Some ("anylinuxfs-" +:+ pretty i +:+ ".log")) (Some (100 - i)%N)) <$> [0; 1; 2; 3; 4; 5; 6; 7; 8; 9]%N.

Lemma names_distinct : NoDup (omap e_name entries).
Proof. apply (bool_decide_unpack _). vm_compute. exact I. Qed.
Lemma names_plain : Forall (λ n, StrFacts.lacks "/" n = true) (omap e_name entries).
Proof. apply (bool_decide_unpack _). vm_compute. exact I. Qed.
Lemma oldest_removed :
  ("/l/anylinuxfs-9.log", 91%N) ∈ collect_files_with_mtime "/l" (Some entries) is_log ∧
  "/l/anylinuxfs-9.log" ∈ cleanup_old_logs "/l" (Some entries) [sample_instance].
Proof. split; apply (bool_decide_unpack _); vm_compute; exact I. Qed.

Abbreviation removed := (cleanup_old_logs "/l" (Some entries) [sample_instance]).
Abbreviation active := (log_paths [sample_instance]).
Abbreviation files := (collect_files_with_mtime "/l" (Some entries) is_log).

End Witness.
