(* ===== verification/Stdin.v ===== *)
(** * The terminal and the forwarding of the standard input ([utils.rs]
      [enable_raw_mode], [disable_raw_mode], [StdinForwarder],
      [echo_child_output])

    While a VM runs, the keys that are pressed, or the lines of a standard input
    that is no terminal, are written to the VM; the terminal is in raw mode for
    that time. *)
From S2P Require Import Prelude Logs ConsoleLog.
From Stdlib Require Import Ascii.

(** ** Raw mode *)
Section raw.
Context {Termios : Type} (cfmakeraw : Termios → Termios).

(** The attributes of the terminal, the original ones once they are stored
    ([OnceLock]), and whether raw mode is on. *)
Record Terminal := mkTerminal {
  attrs : Termios; ORIGINAL_TERMIOS : option Termios; RAW_MODE_ENABLED : bool }.

(** The answers to the calls of one operation. *)
Record Answers := { is_stdin_tty : bool; tcgetattr_ok : bool; tcsetattr_ok : bool }.

Definition enable_raw_mode (a : Answers) (t : Terminal) : outcome unit * Terminal :=
  if RAW_MODE_ENABLED t then (Ok tt, t)
  else if negb (is_stdin_tty a) then (Ok tt, t)
  else if negb (tcgetattr_ok a) then (Err "tcgetattr failed", t)
  else
    let original := Some (default (attrs t) (ORIGINAL_TERMIOS t)) in
    if tcsetattr_ok a then (Ok tt, mkTerminal (cfmakeraw (attrs t)) original true)
    else (Err "tcsetattr failed", mkTerminal (attrs t) original false).

Definition disable_raw_mode (a : Answers) (t : Terminal) : outcome unit * Terminal :=
  if negb (RAW_MODE_ENABLED t) then (Ok tt, t)
  else if negb (is_stdin_tty a) then (Ok tt, mkTerminal (attrs t) (ORIGINAL_TERMIOS t) false)
  else match ORIGINAL_TERMIOS t with
       | Some original =>
           if tcsetattr_ok a then (Ok tt, mkTerminal original (ORIGINAL_TERMIOS t) false)
           else (Err "tcsetattr failed", t)
       | None => (Err "Original terminal attributes not set", t)
       end.

Inductive TerminalOp := EnableRaw (a : Answers) | DisableRaw (a : Answers).
Definition op_answers (o : TerminalOp) : Answers := match o with EnableRaw a | DisableRaw a => a end.
Definition terminal_op (t : Terminal) (o : TerminalOp) : Terminal :=
  match o with EnableRaw a => (enable_raw_mode a t).2 | DisableRaw a => (disable_raw_mode a t).2 end.

(** The mode is what the flag says. *)
Definition terminal_inv (a0 : Termios) (t : Terminal) : Prop :=
  attrs t = (if RAW_MODE_ENABLED t then cfmakeraw a0 else a0) ∧
  (ORIGINAL_TERMIOS t = Some a0 ∨ ORIGINAL_TERMIOS t = None ∧ RAW_MODE_ENABLED t = false).

Lemma terminal_op_inv a0 t o :
  is_stdin_tty (op_answers o) = true → terminal_inv a0 t → terminal_inv a0 (terminal_op t o).
Proof.
  intros Ht [Ha Ho]. destruct o as [a|a]; unfold terminal_op, enable_raw_mode, disable_raw_mode; cbn in Ht; rewrite Ht.
  - destruct (RAW_MODE_ENABLED t) eqn:Er; [by split; cbn; rewrite ?Er|].
    destruct (tcgetattr_ok a); [|by split; cbn; rewrite ?Er].
    assert (default (attrs t) (ORIGINAL_TERMIOS t) = a0) as -> by (by destruct Ho as [->|[-> _]]).
    destruct (tcsetattr_ok a); cbn; (split; cbn; [|auto]); by rewrite Ha.
  - destruct (RAW_MODE_ENABLED t) eqn:Er; [|by split; cbn; rewrite ?Er].
    destruct Ho as [Ho|[_ ?]]; [|done]. rewrite Ho.
    destruct (tcsetattr_ok a); cbn; (split; cbn; [|auto]); [done|by rewrite Er].
Qed.

(** Whichever operations are called in which order and whichever of them fail: as
    long as the standard input is a terminal, its attributes are those it had at
    first whenever raw mode is off, so that a successful [disable_raw_mode] always
    gives them back; and it never finds them missing. *)
Lemma raw_mode_restored a0 ops a r t :
  Forall (λ o, is_stdin_tty (op_answers o) = true) ops → is_stdin_tty a = true →
  disable_raw_mode a (foldl terminal_op (mkTerminal a0 None false) ops) = (r, t) →
  match r with
  | Ok _ => attrs t = a0 ∧ RAW_MODE_ENABLED t = false
  | Err e => e = "tcsetattr failed"
  | Panic => False
  end.
Proof.
  intros Hops Ha.
  assert (terminal_inv a0 (foldl terminal_op (mkTerminal a0 None false) ops)) as [Hat Ho].
  { assert (terminal_inv a0 (mkTerminal a0 None false)) as Hinv by (split; cbn; auto).
    revert Hinv. generalize (mkTerminal a0 None false). induction Hops as [|o ops Ht _ IH]; intros s Hs; [done|].
    cbn [foldl]. apply IH. by apply terminal_op_inv. }
  set (s := foldl _ _ _) in *. unfold disable_raw_mode. rewrite Ha. cbn.
  destruct (RAW_MODE_ENABLED s) eqn:Er; cbn; [|intros [= <- <-]; by split].
  destruct Ho as [->|[_ ?]]; [|done]. destruct (tcsetattr_ok a); intros [= <- <-]; [by split|done].
Qed.
End raw.

(** ** Forwarding *)
(** A key event of the terminal library. *)
Inductive KeyCode := KEnter | KBackspace | KChar (c : string) | KOther.
Record KeyModifiers := { m_shift : bool; m_control : bool; m_other : bool }.
Record KeyEvent := { is_press : bool; code : KeyCode; modifiers : KeyModifiers }.

Definition CTRL_C : string := String "003" "".
Definition CTRL_D : string := String "004" "".
Definition DEL : string := String "127" "".

Definition plain_or_shift (m : KeyModifiers) : bool := negb (m_control m) && negb (m_other m).
Definition only_control (m : KeyModifiers) : bool := m_control m && negb (m_shift m) && negb (m_other m).

(** What is written to the VM for a key. *)
Definition key_bytes (e : KeyEvent) : option string :=
  if negb (is_press e) then None
  else if plain_or_shift (modifiers e) then
    match code e with
    | KEnter => Some (String LF "")
    | KBackspace => Some DEL
    | KChar c => Some c
    | KOther => None
    end
  else if only_control (modifiers e) then
    match code e with
    | KChar c => if decide (c = "c") then Some CTRL_C else if decide (c = "d") then Some CTRL_D else None
    | _ => None
    end
  else None.

(** One round of the loop on a terminal: an event, whose key may be none, or 50 ms
    without one, when it is seen whether the end was asked for. *)
Inductive TtyRound := TtyFailed (e : string) | TtyKey (e : KeyEvent) | TtyOther | TtyIdle (closed : bool).

Section forward.
(** Whether a write to the VM succeeds. *)
Context (write_ok : string → bool).

Definition write_to_pipe (data : string) : outcome unit :=
  if write_ok data then Ok tt else Err "Failed to write to pipe".

(** What was written, and the result when the loop has ended. *)
Fixpoint run_tty_forwarding (rounds : list TtyRound) : list string * option (outcome unit) :=
  match rounds with
  | [] => ([], None)
  | TtyFailed e :: _ => ([], Some (Err e))
  | TtyIdle true :: _ => ([], Some (Ok tt))
  | TtyIdle false :: rounds | TtyOther :: rounds => run_tty_forwarding rounds
  | TtyKey e :: rounds =>
      match key_bytes e with
      | None => run_tty_forwarding rounds
      | Some b =>
          match write_to_pipe b with
          | Ok _ => let '(w, r) := run_tty_forwarding rounds in (b :: w, r)
          | Err m => ([], Some (Err m))
          | Panic => ([], Some Panic)
          end
      end
  end.

(** The thread that reads: its lines, and [None] at the end of the input or at
    the first line that is not UTF-8. *)
Context (is_utf8 : string → bool).
Fixpoint stdin_items (lines : list string) : list (option string) :=
  match lines with
  | [] => [None]
  | l :: lines => if is_utf8 l then Some l :: stdin_items lines else [None]
  end.

(** One round of the loop on another input: whether the end was asked for, and
    otherwise whether an item came within 50 ms; the items in their order. *)
Inductive PipeRound := Closed | Received | TimedOut.
#[global] Instance PipeRound_eq_dec : EqDecision PipeRound.
Proof. solve_decision. Defined.
Fixpoint run_pipe_forwarding (rounds : list PipeRound) (items : list (option string)) :
    list string * option (outcome unit) :=
  match rounds with
  | [] => ([], None)
  | Closed :: _ => ([], Some (Ok tt))
  | TimedOut :: rounds => run_pipe_forwarding rounds items
  | Received :: rounds =>
      match items with
      | [] => ([], Some (Ok tt))
      | item :: items =>
          match write_to_pipe (default CTRL_D item) with
          | Ok _ =>
              match item with
              | Some data => let '(w, r) := run_pipe_forwarding rounds items in (data :: w, r)
              | None => ([CTRL_D], Some (Ok tt))
              end
          | Err m => ([], Some (Err m))
          | Panic => ([], Some Panic)
          end
      end
  end.

(** *** What reaches the VM *)
(** On a terminal: the bytes of the keys, until the end is asked for. *)
Lemma keys_forwarded rounds w r :
  run_tty_forwarding rounds = (w, Some (Ok r)) →
  ∃ before after, rounds = before ++ TtyIdle true :: after ∧
    w = omap (λ x, match x with TtyKey e => key_bytes e | _ => None end) before ∧
    Forall (λ x, x ≠ TtyIdle true ∧ ∀ e, x ≠ TtyFailed e) before.
Proof.
  revert w; induction rounds as [|x rounds IH]; intros w; [done|].
  assert (∀ w, run_tty_forwarding rounds = (w, Some (Ok r)) → x ≠ TtyIdle true → (∀ e, x ≠ TtyFailed e) →
    ∃ before after, x :: rounds = before ++ TtyIdle true :: after ∧
      match x with TtyKey e => match key_bytes e with Some b => b :: w | None => w end | _ => w end =
        omap (λ x, match x with TtyKey e => key_bytes e | _ => None end) before ∧
      Forall (λ x, x ≠ TtyIdle true ∧ ∀ e, x ≠ TtyFailed e) before) as Hgo.
  { intros w' (b & a & -> & -> & Hb)%IH Hi Hf. exists (x :: b), a.
    split_and!; [done| |by constructor]. destruct x; [done| |done..]. csimpl. by destruct (key_bytes e). }
  cbn [run_tty_forwarding]. destruct x as [e|e| |[]].
  - done.
  - destruct (key_bytes e) as [b|] eqn:Eb; [|intros Hr; by eapply Hgo].
    unfold write_to_pipe. destruct (write_ok b); [|done].
    destruct (run_tty_forwarding rounds) as [w' r'] eqn:Er. intros [= <- ->]. by eapply Hgo.
  - intros Hr. by eapply Hgo.
  - intros [= <- _]. exists [], rounds. split_and!; [done..|constructor].
  - intros Hr. by eapply Hgo.
Qed.

(** Another input, all of whose lines are UTF-8, reaches the VM whole, followed by
    the character that ends it, however often the loop waits for a line. *)
Lemma input_forwarded lines rounds :
  (∀ d, write_ok d = true) → Forall (λ l, is_utf8 l = true) lines →
  Forall (λ x, x ≠ Closed) rounds → length lines < length (filter (λ x, x = Received) rounds) →
  run_pipe_forwarding rounds (stdin_items lines) = (lines ++ [CTRL_D], Some (Ok tt)).
Proof.
  intros Hw Hu Hc. revert lines Hu. induction Hc as [|x rounds Hx _ IH]; intros lines Hu; [cbn; lia|].
  destruct x; [done| |].
  - rewrite filter_cons_True by done. cbn [length]. intros Hl. destruct Hu as [|l lines Hl' Hu].
    + cbn. unfold write_to_pipe. by rewrite Hw.
    + cbn [stdin_items]. rewrite Hl'. cbn [run_pipe_forwarding default]. unfold write_to_pipe. cbn. rewrite Hw.
      rewrite IH; [done|done|cbn in Hl; lia].
  - rewrite filter_cons_False by done. intros Hl. cbn [run_pipe_forwarding]. by apply IH.
Qed.

(** A line that is not UTF-8 ends the input for the VM: it and what follows is not
    forwarded, and nothing tells the difference from the end of the input. *)
Lemma input_cut lines l rest :
  Forall (λ l, is_utf8 l = true) lines → is_utf8 l = false → stdin_items (lines ++ l :: rest) = stdin_items lines.
Proof.
  intros Hu Hl. induction Hu as [|l' lines Hl' _ IH]; cbn [app stdin_items]; [by rewrite Hl|]. by rewrite Hl', IH.
Qed.

(** Nothing is written after the end was asked for. *)
Lemma closed_stops rounds items : run_pipe_forwarding (Closed :: rounds) items = ([], Some (Ok tt)).
Proof. done. Qed.
End forward.

(** The lines of an input are the input. *)
Lemma lines_whole s : foldr String.append "" (read_lines s) = s.
Proof.
  induction s as [|c s IH]; [done|]. cbn [read_lines]. destruct (decide _); [cbn [foldr]; by rewrite IH|].
  destruct (read_lines s) as [|l ls] eqn:El; [by rewrite <-IH|].
  destruct (decide (s = "")) as [->|]; [done|]. cbn [foldr] in *. by rewrite <-IH.
Qed.

(** A termination signal is passed on, once, as [^C]. *)
Definition forward_signals (signals : list Z) : list string := match signals with [] => [] | _ :: _ => [CTRL_C] end.

(** [StdinForwarder]: the result of its thread, until it is joined, and the
    requests to end that were sent; [stop], with the answer of
    [disable_raw_mode]. *)
Record StdinForwarder := { thread_hnd : option (outcome unit); close_tx : nat }.
Definition stop (disabled : outcome unit) (f : StdinForwarder) : outcome unit * StdinForwarder :=
  let f := {| thread_hnd := thread_hnd f; close_tx := S (close_tx f) |} in
  match disabled with
  | Ok _ =>
      match thread_hnd f with
      | Some r => (r, {| thread_hnd := None; close_tx := close_tx f |})
      | None => (Ok tt, f)
      end
  | r => (r, f)
  end.

(** The thread is joined at most once: a second [stop] reports nothing of it. *)
Lemma stopped_twice f r1 f1 r2 f2 :
  stop (Ok tt) f = (r1, f1) → stop (Ok tt) f1 = (r2, f2) → r2 = Ok tt ∧ thread_hnd f2 = None.
Proof. unfold stop. destruct f as [[r|] k]; cbn; intros [= <- <-]; cbn; by intros [= <- <-]. Qed.

(** ** The output of a child *)
(** Two threads print a line at a time. *)
Inductive interleaved {A} : list A → list A → list A → Prop :=
| interleaved_nil : interleaved [] [] []
| interleaved_left x l r s : interleaved l r s → interleaved (x :: l) r (x :: s)
| interleaved_right x l r s : interleaved l r s → interleaved l (x :: r) (x :: s).

Definition echo_child_output (prefix : option Prefix) (out err : list string) (ops : list Op) : Prop :=
  interleaved (Say Stderr prefix <$> out) (Say Stdout prefix <$> err) ops.

Definition said (stream : Stream) (ops : list Op) : list string :=
  omap (λ o, match o, stream with
             | Say Stdout _ text, Stdout | Say Stderr _ text, Stderr => Some text
             | _, _ => None
             end) ops.

(** All lines are printed, each stream in its order; but the output of the child is
    printed on the standard error and its errors on the standard output. *)
Lemma child_streams_swapped prefix out err ops :
  echo_child_output prefix out err ops → said Stderr ops = out ∧ said Stdout ops = err.
Proof.
  unfold echo_child_output. remember (Say Stderr prefix <$> out) as l eqn:Hl. remember (Say Stdout prefix <$> err) as r eqn:Hr.
  intros Hi. revert out err Hl Hr. induction Hi as [|x l r s _ IH|x l r s _ IH]; intros out err Hl Hr.
  - destruct out, err; done.
  - destruct out as [|o out]; simplify_eq/=. destruct (IH out err) as [<- <-]; done.
  - destruct err as [|e err]; simplify_eq/=. destruct (IH out err) as [<- <-]; done.
Qed.

(** ** Examples *)
Definition press (c : string) : KeyEvent :=
  {| is_press := true; code := KChar c; modifiers := {| m_shift := false; m_control := false; m_other := false |} |}.
Example typed :
  run_tty_forwarding (λ _, true) [TtyKey (press "p"); TtyIdle false; TtyOther; TtyKey (press "w"); TtyIdle true; TtyKey (press "x")] =
  (["p"; "w"], Some (Ok tt)).
Proof. reflexivity. Qed.

Example piped_with_pauses :
  run_pipe_forwarding (λ _, true) [TimedOut; Received; TimedOut; Received; Received] (stdin_items (λ _, true) (read_lines "secret")) =
  (["secret"; CTRL_D], Some (Ok tt)).
Proof. vm_compute. reflexivity. Qed.
