(* ===== verification/Config.v ===== *)
(** * The configuration of a run ([main.rs] [load_config], [load_mount_config],
      [run_config], [run_upgrade_config]; the commands of [cli.rs])

    What the command line, the host and the preference files give together:
    the paths, identities and choices that all other parts are run with. *)
From S2P Require Import Prelude Common Paths Settings Hostname Privilege Instance Setup Logs.
From Stdlib Require Import Ascii.

(** ** The commands of [cli.rs] *)
Record CommonArgs := mkCommonArgs {
  arg_passphrase_config : option PassphrasePromptConfig;
  arg_zfs_os : option OSType;
  arg_net_helper : option NetHelper;
  arg_vmnet_pool : option Ipv4Net;
  arg_vmnet_offloading : option VmnetOffloading;          (* macOS only *)
}.
Definition CommonArgs_default : CommonArgs := mkCommonArgs None None None None None.

Record DebugArgs := mkDebugArgs { arg_rw_rootfs : bool }.
Definition DebugArgs_default : DebugArgs := mkDebugArgs false.

Record MountCmd := mkMountCmd {
  m_disk_ident : option string;
  m_mount_point : option string;
  m_options : option string;
  m_nfs_options : option (list string);
  m_nfs_export_opts : option string;
  m_ignore_permissions : bool;
  m_remount : bool;
  m_action : option string;
  m_fs_driver : option string;
  m_key_file : option string;
  m_common : CommonArgs;
  m_window : bool;                                        (* macOS only *)
  m_bind_addr : option string;
  m_kernel_page_size : option KernelPage;
  m_debug : DebugArgs;
  m_verbose : bool;
}.
Definition disk_ident (cmd : MountCmd) : string := unwrap_or "" (m_disk_ident cmd).

Record ShellCmd := mkShellCmd {
  sh_command : option string;
  sh_skip_init : bool;
  sh_image : option string;
  sh_disk_ident : option string;
  sh_remount : bool;
  sh_kernel_page_size : option KernelPage;
  sh_no_tsi : bool;
  sh_common : CommonArgs;
  sh_debug : DebugArgs;
}.

(** [From<ShellCmd> for MountCmd] *)
Definition MountCmd_from (shell_cmd : ShellCmd) : MountCmd := {|
  m_disk_ident := sh_disk_ident shell_cmd; m_mount_point := None; m_options := None;
  m_nfs_options := None; m_nfs_export_opts := None; m_ignore_permissions := false;
  m_remount := sh_remount shell_cmd; m_action := None; m_fs_driver := None; m_key_file := None;
  m_common := sh_common shell_cmd; m_window := false; m_bind_addr := None;
  m_kernel_page_size := sh_kernel_page_size shell_cmd; m_debug := sh_debug shell_cmd;
  m_verbose := false |}.

Record ConfigCmd := mkConfigCmd {
  c_log_level : option KrunLogLevel;
  c_num_vcpus : option N;                                 (* u8 *)
  c_ram_size_mib : option N;                              (* u32 *)
  c_common : CommonArgs;
}.
#[global] Instance VmnetOffloading_eq_dec : EqDecision VmnetOffloading.
Proof. solve_decision. Defined.
#[global] Instance KrunLogLevel_eq_dec : EqDecision KrunLogLevel.
Proof. solve_decision. Defined.
#[global] Instance CommonArgs_eq_dec : EqDecision CommonArgs.
Proof. solve_decision. Defined.
#[global] Instance ConfigCmd_eq_dec : EqDecision ConfigCmd.
Proof. solve_decision. Defined.
Definition ConfigCmd_default : ConfigCmd := mkConfigCmd None None None CommonArgs_default.

(** ** The host *)
Record HostEnv := mkHostEnv {
  pid : N;
  creds : Creds;
  get_proc_info : N → option ProcInfo;
  env : gmap string string;
  home_dir_from_uid : N → option string;
  current_exe : outcome string;
  canonicalize : string → outcome string;
  create_dir_all : string → outcome unit;
  is_dir : string → outcome bool;                         (* [fs::metadata] *)
  path_exists : string → bool;
  is_file : string → bool;
  get_if_addrs : outcome (list IpAddr);
  (* the [i]th name that is asked for, of the given length *)
  rand_string : nat → nat → string;
  vmnet_offloading_supported : bool;
  writable : string → bool;
}.

Section load.
Context `{Toml} (to_str_lossy : string → string) (target : TargetOS).
(** [IpAddr::from_str] *)
Context (parse_ip : string → option IpAddr).
Context (h : HostEnv).

Definition log_dir_of (home_dir : string) : string :=
  match target with
  | MacOS => path.join (path.join home_dir "Library") "Logs"
  | LinuxHost => path.join (path.join home_dir ".anylinuxfs") "logs"
  end.

Definition log_paths_of (log_dir log_file_id : string) : LogPaths := {|
  log_file_path := path.join log_dir ("anylinuxfs-" +:+ log_file_id +:+ ".log");
  kernel_log_file_path := path.join log_dir ("anylinuxfs_kernel-" +:+ log_file_id +:+ ".log");
  nethelper_log_path := path.join log_dir ("anylinuxfs_nethelper-" +:+ log_file_id +:+ ".log") |}.

(** [prefix_dir.starts_with("/opt/homebrew")] compares components. *)
Definition global_prefix (prefix_dir : string) : string :=
  if bool_decide (path.components "/opt/homebrew" `prefix_of` path.components prefix_dir)
  then "/opt/homebrew" else prefix_dir.

Definition global_cfg_path (prefix_dir : string) : string :=
  path.join (path.join (global_prefix prefix_dir) "etc")
    match target with MacOS => "anylinuxfs.toml" | LinuxHost => "anylinuxfs-linux.toml" end.
Definition user_cfg_path (home_dir : string) : string :=
  path.join (path.join home_dir ".anylinuxfs") "config.toml".

Definition config_vmnet_offloading_of (preferences : Prefs) : bool :=
  match target with
  | MacOS =>
      match prefs_vmnet_offloading preferences with
      | Auto => vmnet_offloading_supported h
      | Enabled => true
      | Disabled => false
      end
  | LinuxHost => false
  end.

(** Who runs the program, and where it is installed. *)
Record Place := mkPlace { identity : InvokerIdentity; p_home_dir : string; p_exec_path : string; p_prefix_dir : string }.

Definition place : outcome Place :=
  identity ← with_context "Could not determine invoking user"
    (resolve_invoker_identity (get_proc_info h) (pid h) (creds h) (env h));
  home_dir ← ok_or "Failed to resolve invoking user's home directory" (home_dir_from_uid h (uid identity));
  exe ← with_context "Failed to get executable path" (current_exe h);
  exec_path ← with_context "Failed to get resolved exec path" (canonicalize h exe);
  exec_dir ← ok_or "Failed to get executable directory" (path.parent exec_path);
  prefix_dir ← ok_or "Failed to get prefix directory" (path.parent exec_dir);
  Ok (mkPlace identity home_dir exec_path prefix_dir).

Definition sudo_id (f : InvokerIdentity → N) (identity : InvokerIdentity) : option N :=
  if bool_decide (ruid (creds h) = 0%N) then Some (f identity) else None.

Definition config_paths (p : Place) (preferences : Prefs) : ConfigPaths :=
  let libexec_path := path.join (p_prefix_dir p) "libexec" in
  let profile_path := path.join (p_home_dir p) ".anylinuxfs" in
  let linux_base_path := path.join profile_path (effective_base_dir (default_linux_image_source preferences)) in {|
    home_dir := p_home_dir p; profile_path := profile_path; exec_path := p_exec_path p;
    config_file_path := user_cfg_path (p_home_dir p); libexec_path := libexec_path;
    init_rootfs_path := path.join libexec_path "init-rootfs";
    vmproxy_host_path := path.join libexec_path "vmproxy";
    gvproxy_path := path.join libexec_path "gvproxy";
    vmnet_helper_path := path.join libexec_path "vmnet-helper";
    root_path := path.join linux_base_path "rootfs";
    root_ver_file_path := path.join linux_base_path "rootfs.ver" |}.

Definition build_config (p : Place) (common_args : CommonArgs) (debug_args : DebugArgs) (preferences : Prefs) :
    Config := {|
  paths := config_paths p preferences;
  logs := log_paths_of (log_dir_of (p_home_dir p)) (rand_string h 0 8);
  net := {|
    gvproxy_net_sock_path := "/tmp/network-" +:+ rand_string h 1 8 +:+ ".sock";
    vsock_path := "/tmp/anylinuxfs-" +:+ rand_string h 2 8 +:+ "-vsock";
    unixgram_sock_path := "/tmp/vfkit-" +:+ rand_string h 3 8 +:+ ".sock";
    preferred_net_helper := network_helper preferences;
    specified_net_helper := arg_net_helper common_args;
    config_vmnet_offloading := config_vmnet_offloading_of preferences |};
  privilege := {|
    invoker_uid := uid (identity p); invoker_gid := gid (identity p);
    sudo_uid := sudo_id uid (identity p); sudo_gid := sudo_id gid (identity p) |};
  kernel := {| os := Linux; kernel_path := path.join (path.join (p_prefix_dir p) "libexec") "Image" |};
  cfg_passphrase_config := unwrap_or (passphrase_prompt_config preferences) (arg_passphrase_config common_args);
  rw_rootfs := arg_rw_rootfs debug_args;
  cfg_zfs_os := unwrap_or (zfs_os preferences) (arg_zfs_os common_args);
  preferences := preferences |}.

(** The files change when a configuration file of an old format is rewritten. *)
Definition load_config (fs : files) (common_args : CommonArgs) (debug_args : DebugArgs) :
    outcome (files * Config) :=
  p ← place;
  _ ← match target with
      | MacOS => Ok tt
      | LinuxHost => with_context ("Failed to create log directory " +:+ log_dir_of (p_home_dir p))
                       (create_dir_all h (log_dir_of (p_home_dir p)))
      end;
  '(fs, preferences) ← load_preferences to_str_lossy fs (writable h)
                         [global_cfg_path (p_prefix_dir p); user_cfg_path (p_home_dir p)];
  Ok (fs, build_config p common_args debug_args preferences).

(** *** [load_mount_config] *)
Definition noowners (ignore_permissions : bool) (nfs_options : list string) : list string :=
  if ignore_permissions && negb (existsb (λ o, bool_decide (o = "noowners")) nfs_options)
  then nfs_options ++ ["noowners"] else nfs_options.

Definition check_mount_point (p : string) : outcome string :=
  path ← with_context ("Failed to resolve path " +:+ p) (canonicalize h p);
  d ← with_context ("Failed to get metadata for " +:+ path) (is_dir h path);
  if d : bool then Ok path else Err (path +:+ " is not a directory").

Definition UNSPECIFIED : IpAddr := V4 0.
Definition LOCALHOST : IpAddr := V4 (ipv4 127 0 0 1).
Definition V6_LOCALHOST : IpAddr := V6 1.

Definition check_bind_addr (addr : string) : outcome IpAddr :=
  bind_addr ← ok_or ("invalid IP address given: " +:+ addr) (parse_ip addr);
  if bool_decide (bind_addr ∈ [UNSPECIFIED; LOCALHOST; V6_LOCALHOST]) then Ok bind_addr
  else
    match get_if_addrs h with
    | Ok interfaces =>
        if bool_decide (bind_addr ∈ interfaces) then Ok bind_addr
        else Err ("Bind address " +:+ addr +:+ " is not assigned to any interface")
    | _ => Ok bind_addr
    end.

Definition check_action (preferences : Prefs) (action_name : string) : outcome string :=
  match all_custom_actions preferences !! action_name with
  | Some _ => Ok action_name
  | None => Err ("unknown custom action: " +:+ action_name)
  end.

Definition check_key_file (key_path : string) : outcome string :=
  if path_exists h key_path then
    if is_file h key_path then Ok key_path else Err ("Key file path is not a file: " +:+ key_path)
  else Err ("Key file not found: " +:+ key_path).

(** [opt.map(f).transpose()?] *)
Definition transpose {A B} (f : A → outcome B) (o : option A) : outcome (option B) :=
  match o with Some a => b ← f a; Ok (Some b) | None => Ok None end.

Definition load_mount_config (fs : files) (cmd : MountCmd) : outcome (files * MountConfig) :=
  '(fs, common) ← load_config fs (m_common cmd) (m_debug cmd);
  custom_mount_point ← transpose check_mount_point (m_mount_point cmd);
  bind_addr ← transpose check_bind_addr (m_bind_addr cmd);
  custom_action ← transpose (check_action (preferences common)) (m_action cmd);
  key_file ← transpose check_key_file (or (m_key_file cmd) (env h !! "ALFS_KEY_FILE"));
  vm_hostname ← hostname_from_disk_ident (disk_ident cmd);
  Ok (fs, {|
    disk_path := disk_ident cmd; read_only := is_read_only_set (m_options cmd);
    mount_options := m_options cmd;
    nfs_options := noowners (m_ignore_permissions cmd) (unwrap_or [] (m_nfs_options cmd));
    nfs_export_opts := m_nfs_export_opts cmd; ignore_permissions := m_ignore_permissions cmd;
    allow_remount := m_remount cmd; vm_hostname := vm_hostname;
    custom_mount_point := custom_mount_point; fs_driver := m_fs_driver cmd;
    assemble_raid := false; bind_addr := bind_addr; verbose := m_verbose cmd;
    open_finder := m_window cmd; kernel_page_size := m_kernel_page_size cmd; common := common;
    custom_action := custom_action; key_file := key_file |}).

(** ** [run_config] *)
Definition set_sections (c : PrefsObject) (k : KrunConfig) (m : MiscConfig) (n : NetworkPrefs) : PrefsObject := {|
  alpine := alpine c; custom_actions := custom_actions c; images := images c; gvproxy := gvproxy c;
  krun := k; misc := m; network := n; linux := linux c; freebsd := freebsd c;
  log_level_numeric := log_level_numeric c; num_vcpus := num_vcpus c; ram_size_mib := ram_size_mib c |}.

Definition update_krun (cmd : ConfigCmd) (k : KrunConfig) : KrunConfig :=
  let k := match c_log_level cmd with Some l => set_log_level k l | None => k end in {|
    krun_log_level := krun_log_level k;
    krun_vcpus := or (c_num_vcpus cmd) (krun_vcpus k);
    krun_ram := or (c_ram_size_mib cmd) (krun_ram k) |}.
Definition update_misc (cmd : ConfigCmd) (m : MiscConfig) : MiscConfig := {|
  passphrase_config := or (arg_passphrase_config (c_common cmd)) (passphrase_config m);
  misc_zfs_os := or (arg_zfs_os (c_common cmd)) (misc_zfs_os m) |}.
Definition update_network (cmd : ConfigCmd) (n : NetworkPrefs) : NetworkPrefs := {|
  helper := or (arg_net_helper (c_common cmd)) (helper n);
  vmnet_pool := or (arg_vmnet_pool (c_common cmd)) (vmnet_pool n);
  vmnet_offloading :=
    match target with
    | MacOS => or (arg_vmnet_offloading (c_common cmd)) (vmnet_offloading n)
    | LinuxHost => vmnet_offloading n
    end |}.
Definition update_user (cmd : ConfigCmd) (u : PrefsObject) : PrefsObject :=
  set_sections u (update_krun cmd (krun u)) (update_misc cmd (misc u)) (update_network cmd (network u)).

(** The files and what is printed. *)
Definition run_config (fs : files) (cmd : ConfigCmd) : outcome (files * string) :=
  '(fs, config) ← load_config fs (c_common cmd) DebugArgs_default;
  if bool_decide (cmd = ConfigCmd_default) then Ok (fs, PrefsObject_display (merged (preferences config)))
  else
    let user := update_user cmd (preferences config).2 in
    fs ← save_preferences fs (writable h) user (config_file_path (paths config));
    Ok (fs, PrefsObject_display (merged ((preferences config).1, user))).
End load.

(** ** [run_upgrade_config] *)
Record UpgradeConfigCmd := mkUpgradeConfigCmd { input : string; output : option string }.

Section upgrade.
(** The documents of [toml_edit]; the default configuration of the build. *)
Context (doc_parse : string → outcome Table) (doc_print : Table → string).
Context (default_cfg_str : string).
Context (path_exists : string → bool) (writable : string → bool).

Definition write (msg : string) (fs : files) (path contents : string) : outcome files :=
  if writable path then Ok (<[path := contents]> fs) else Err msg.

(** The files, and what is printed. *)
Definition run_upgrade_config (fs : files) (cmd : UpgradeConfigCmd) : outcome (files * string) :=
  target_cfg ← with_context "Failed to parse default config" (doc_parse default_cfg_str);
  if negb (path_exists (input cmd)) then
    fs ← write "Failed to write default config file" fs (unwrap_or (input cmd) (output cmd)) default_cfg_str;
    Ok (fs, "")
  else
    current_cfg_str ← ok_or "Failed to read current config file" (fs !! input cmd);
    current_cfg ← with_context "Failed to parse current config file" (doc_parse current_cfg_str);
    target_cfg ← with_context "Failed to merge config files" (merge_toml_configs target_cfg current_cfg);
    match output cmd with
    | Some output =>
        fs ← write "Failed to write upgraded config file" fs output (doc_print target_cfg);
        Ok (fs, "")
    | None => Ok (fs, doc_print target_cfg)
    end.
End upgrade.

(** ** What is well-formed *)
(** A name that [rand_string] gives: the letters and digits of its alphabet. *)
Definition random_name (id : string) : Prop := id ≠ "" ∧ Str.forallb Str.is_alnum id = true.

(** The three logs of a run: the main one is found by the clean-up, and the
    other two go with it. *)
Definition logs_agree (log_dir : string) (l : LogPaths) : Prop :=
  ∃ name, log_file_path l = path.join log_dir name ∧ is_log name = true ∧
    companions log_dir (log_file_path l) = [kernel_log_file_path l; nethelper_log_path l].

Lemma alnum_lacks sep id :
  Str.is_alnum sep = false → Str.forallb Str.is_alnum id = true → StrFacts.lacks sep id = true.
Proof.
  intros Hs. induction id as [|c id IH]; [done|]. cbn [Str.forallb]. intros [Hc Hid]%andb_true_iff.
  apply StrFacts.lacks_cons. split; [|by apply IH]. congruence.
Qed.

Lemma log_name id : random_name id →
  is_log ("anylinuxfs" +:+ ("-" +:+ id) +:+ ".log") = true ∧
  StrFacts.lacks "/" ("anylinuxfs" +:+ ("-" +:+ id) +:+ ".log") = true.
Proof.
  intros [_ Hid]. pose proof (alnum_lacks "/" id eq_refl Hid) as Hl. split.
  - unfold is_log. apply andb_true_iff. split.
    + apply orb_true_iff. left. apply (StrFacts.starts_with_app "anylinuxfs-").
    + apply StrFacts.ends_with_spec. exists ("anylinuxfs-" +:+ id). by rewrite !StrFacts.app_assoc.
  - rewrite !StrFacts.lacks_app. done.
Qed.

Lemma log_paths_agree log_dir id : random_name id → logs_agree log_dir (log_paths_of log_dir id).
Proof.
  intros [Hn Hl]%log_name. exists ("anylinuxfs" +:+ ("-" +:+ id) +:+ ".log"). split_and!; [done..|].
  apply (companions_eq _ _ Hn Hl).
Qed.

Section well_formed.
Context (target : TargetOS) (h : HostEnv).

Record well_formed (c : MountConfig) : Prop := {
  wf_hostname : vm_hostname c ≠ "" ∧ String.length (vm_hostname c) ≤ 63 ∧ Str.forallb host_char (vm_hostname c) = true;
  wf_read_only : read_only c = is_read_only_set (mount_options c);
  wf_owners : ignore_permissions c = true → "noowners" ∈ nfs_options c;
  wf_mount_point : ∀ p, custom_mount_point c = Some p → is_dir h p = Ok true ∧ ∃ q, canonicalize h q = Ok p;
  wf_bind_addr : ∀ a, bind_addr c = Some a →
    a ∈ [UNSPECIFIED; LOCALHOST; V6_LOCALHOST] ∨ ∀ l, get_if_addrs h = Ok l → a ∈ l;
  wf_action : ∀ name, custom_action c = Some name →
    ∃ action, get_action c = Some action ∧
      Forall (λ d, d ≠ "" ∧ Common.is_absolute d = false) (nfs_export_subdirs action);
  wf_key_file : ∀ k, key_file c = Some k → path_exists h k = true ∧ is_file h k = true;
  wf_preferences : loaded_ok (preferences (common c)).1 ∧ loaded_ok (preferences (common c)).2;
  wf_logs : logs_agree (log_dir_of target (home_dir (paths (common c)))) (logs (common c));
  wf_invoker : (ruid (creds h) ≠ 0%N → invoker_uid (privilege (common c)) = ruid (creds h)) ∧
    sudo_uid (privilege (common c)) =
      (if bool_decide (ruid (creds h) = 0%N) then Some (invoker_uid (privilege (common c))) else None);
  wf_image : ∀ src, default_linux_image_source (preferences (common c)) = src →
    os_type src = Linux → Config_with_image_source (common c) src = common c;
}.
End well_formed.

Section facts.
Context `{Toml} (to_str_lossy : string → string) (target : TargetOS).
Context (parse_ip : string → option IpAddr) (h : HostEnv).
Abbreviation loads := (load_config to_str_lossy target h).
Abbreviation loads_mount := (load_mount_config to_str_lossy target parse_ip h).

Lemma load_config_Ok fs common_args debug_args fs' c :
  loads fs common_args debug_args = Ok (fs', c) →
  ∃ p prefs, place h = Ok p ∧
    load_preferences to_str_lossy fs (writable h)
      [global_cfg_path target (p_prefix_dir p); user_cfg_path (p_home_dir p)] = Ok (fs', prefs) ∧
    c = build_config target h p common_args debug_args prefs.
Proof.
  unfold load_config. intros (p & Hp & Hc)%outcome_bind_Ok.
  apply outcome_bind_Ok in Hc as ([] & _ & Hc). apply outcome_bind_Ok in Hc as ([fs1 prefs] & Hl & [= -> <-]).
  by exists p, prefs.
Qed.

(** What [--vmnet-pool] and [--vmnet-offloading] say matters to [config] only. *)
Lemma pool_argument_ignored fs pc zo nh pool pool' off off' debug_args :
  loads fs (mkCommonArgs pc zo nh pool off) debug_args =
  loads fs (mkCommonArgs pc zo nh pool' off') debug_args.
Proof. done. Qed.

Lemma transpose_Ok {A B} (f : A → outcome B) o r b :
  transpose f o = Ok r → r = Some b → ∃ a, o = Some a ∧ f a = Ok b.
Proof.
  destruct o as [a|]; cbn; [|naive_solver]. intros (b' & Hb & [= <-])%outcome_bind_Ok [= ->]. eauto.
Qed.

Lemma noowners_spec nfs_options : "noowners" ∈ noowners true nfs_options.
Proof.
  unfold noowners. cbn [andb]. destruct (existsb _ nfs_options) eqn:E; [|set_solver].
  apply existsb_exists in E as (o & Ho & ->%bool_decide_eq_true). by apply list_elem_of_In.
Qed.

Lemma check_bind_addr_Ok addr a :
  check_bind_addr parse_ip h addr = Ok a →
  a ∈ [UNSPECIFIED; LOCALHOST; V6_LOCALHOST] ∨ ∀ l, get_if_addrs h = Ok l → a ∈ l.
Proof.
  unfold check_bind_addr. intros (b & _ & Hb)%outcome_bind_Ok. case_bool_decide as Hs; [naive_solver|].
  right. intros l Hl. rewrite Hl in Hb. case_bool_decide; naive_solver.
Qed.

Lemma action_valid prefs name :
  loaded_ok prefs.1 → loaded_ok prefs.2 → is_Some (all_custom_actions prefs !! name) →
  ∃ action, all_custom_actions prefs !! name = Some action ∧
    Forall (λ d, d ≠ "" ∧ Common.is_absolute d = false) (nfs_export_subdirs action).
Proof.
  intros [_ Hg] [_ Hu] [action Ha]. exists action. split; [done|].
  unfold all_custom_actions in Ha. apply lookup_union_Some_raw in Ha as [Ha|[_ Ha]]; eauto.
Qed.

Lemma place_invoker p : place h = Ok p → ruid (creds h) ≠ 0%N → uid (identity p) = ruid (creds h).
Proof.
  unfold place. intros (i & Hi%with_context_Ok & Hp)%outcome_bind_Ok Hr.
  unfold resolve_invoker_identity in Hi. rewrite decide_True in Hi by done. injection Hi as <-.
  repeat (apply outcome_bind_Ok in Hp as (? & _ & Hp)). by injection Hp as <-.
Qed.

Lemma build_config_image p common_args debug_args prefs src :
  default_linux_image_source prefs = src → os_type src = Linux →
  Config_with_image_source (build_config target h p common_args debug_args prefs) src =
    build_config target h p common_args debug_args prefs.
Proof.
  intros <- Hs. unfold Config_with_image_source, build_config. cbn. rewrite Hs. unfold set_roots.
  f_equal; by case_decide.
Qed.

(** C37: Every configuration that a mount is run with is well-formed: the host
    name can be used, the mount point is an existing directory, the address to
    bind is one of this host, the custom action is defined and its exports are
    relative, the key file is a file, the logs are ones that the clean-up finds
    together, the invoker is the real user, and the paths are those of the
    default image. Only configuration files of an old format are rewritten. *)
Theorem load_mount_config_ok fs cmd fs' c
    (Hname : random_name (rand_string h 0 8)) (Hload : loads_mount fs cmd = Ok (fs', c)) :
  well_formed target h c ∧
  ∀ p, (∃ s d, fs !! p = Some s ∧ toml_parse s = Ok d) → fs' !! p = fs !! p.
Proof.
  unfold load_mount_config in Hload.
  apply outcome_bind_Ok in Hload as ([fs1 common] & (p & prefs & Hp & Hl & ->)%load_config_Ok & Hload).
  apply outcome_bind_Ok in Hload as (mp & Hmp & Hload). apply outcome_bind_Ok in Hload as (ba & Hba & Hload).
  apply outcome_bind_Ok in Hload as (ca & Hca & Hload). apply outcome_bind_Ok in Hload as (kf & Hkf & Hload).
  destruct (hostname_wf (disk_ident cmd)) as (hn & Hhn & Hwf). rewrite Hhn in Hload. injection Hload as -> <-.
  apply load_preferences_ok in Hl as (Hg & Hu & _ & Hk).
  split; [|by intros q Hq; apply Hk; right].
  split; cbn [vm_hostname read_only mount_options nfs_options custom_mount_point bind_addr custom_action key_file
              common ignore_permissions].
  - done.
  - done.
  - intros ->. apply noowners_spec.
  - intros q Hq. eapply transpose_Ok in Hq as (a & _ & Ha); [|exact Hmp].
    apply outcome_bind_Ok in Ha as (q' & Hc%with_context_Ok & Ha).
    apply outcome_bind_Ok in Ha as ([] & Hd%with_context_Ok & Ha); [|done]. injection Ha as ->. eauto.
  - intros a Ha. eapply transpose_Ok in Ha as (s & _ & Hs); [|exact Hba]. by eapply check_bind_addr_Ok.
  - intros name Hn. unfold get_action. cbn. rewrite Hn.
    eapply transpose_Ok in Hn as (s & _ & Hs); [|exact Hca]. unfold check_action in Hs. cbn in Hs.
    destruct (all_custom_actions prefs !! s) eqn:Ha; [|done]. injection Hs as ->. by apply action_valid.
  - intros k Hk'. eapply transpose_Ok in Hk' as (s & _ & Hs); [|exact Hkf]. unfold check_key_file in Hs.
    destruct (path_exists h s) eqn:He; [|done]. destruct (is_file h s) eqn:Hf; [|done]. by injection Hs as <-.
  - done.
  - by apply log_paths_agree.
  - split; [|done]. by apply place_invoker.
  - intros src Hs Ho. by apply build_config_image.
Qed.
End facts.

(** ** A setting that is made is in force *)
(** Documented of [toml] and [serde]: what is printed can be read back. *)
Class TomlLaws `{Toml} := toml_roundtrip : ∀ c s, toml_print c = Ok s → toml_parse s = Ok c.

Definition valid (c : PrefsObject) : Prop := PrefsObject_validate c = Ok c.

(** The text at a path gives the preferences and is not rewritten. *)
Definition reads `{Toml} (fs : files) (p : string) (c : PrefsObject) : Prop :=
  match fs !! p with
  | Some s => ∃ c0, toml_parse s = Ok c0 ∧ valid c0 ∧ convert_legacy_config c0 = c
  | None => c = PrefsObject_default
  end.

Lemma valid_actions c c' : valid c → custom_actions c' = custom_actions c → valid c'.
Proof.
  unfold valid, PrefsObject_validate. intros ([] & Hv & _)%outcome_bind_Ok ->. by rewrite Hv.
Qed.

Section settings.
Context `{TomlLaws} (to_str_lossy : string → string) (w : string → bool).

Lemma save_Ok fs c p fs' :
  save_preferences fs w c p = Ok fs' → ∃ s, fs' = <[p := s]> fs ∧ toml_parse s = Ok c.
Proof.
  unfold save_preferences. intros (s & Hs%with_context_Ok & Hf)%outcome_bind_Ok.
  destruct (w p); [|done]. injection Hf as <-. exists s. split; [done|]. by apply toml_roundtrip.
Qed.

Lemma parse_reads fs s p fs' c :
  fs !! p = Some s → parse_toml_config to_str_lossy fs w s p = Ok (fs', c) →
  reads fs' p (convert_legacy_config c) ∧ ∀ q, q ≠ p → fs' !! q = fs !! q.
Proof.
  intros Hs. unfold parse_toml_config. intros ([fs1 c1] & H1 & Hc)%outcome_bind_Ok.
  apply outcome_bind_Ok in Hc as (c2 & Hv & [= -> ->]). pose proof (PrefsObject_validate_Ok _ _ Hv) as [-> _].
  unfold reads. destruct (toml_parse s) as [c0|e|] eqn:Hp; [| |done].
  - injection H1 as -> ->. rewrite Hs. eauto.
  - apply outcome_bind_Ok in H1 as (old & _ & H1). apply outcome_bind_Ok in H1 as (fs2 & H2%with_context_Ok & [= <- <-]).
    apply save_Ok in H2 as (s' & -> & Hs'). rewrite lookup_insert_eq. split; [by eexists|].
    intros q Hq. by rewrite lookup_insert_ne.
Qed.

Lemma reads_frame fs fs' p c : fs' !! p = fs !! p → reads fs p c → reads fs' p c.
Proof. unfold reads. by intros ->. Qed.

(** One file of the two is read. *)
Lemma load_step fs idx res p ps fs' prefs :
  load_loop to_str_lossy fs w idx res (p :: ps) = Ok (fs', prefs) →
  (fs !! p = None ∧ load_loop to_str_lossy fs w (S idx) res ps = Ok (fs', prefs)) ∨
  ∃ fs1 c res', reads fs1 p c ∧ (∀ q, q ≠ p → fs1 !! q = fs !! q) ∧ store res idx c = Ok res' ∧
    load_loop to_str_lossy fs1 w (S idx) res' ps = Ok (fs', prefs).
Proof.
  cbn [load_loop]. destruct (fs !! p) as [s|] eqn:Hs; [|by left]. intros Hl. right.
  apply outcome_bind_Ok in Hl as ([fs1 c] & Hp%with_context_Ok & Hl).
  destruct (parse_reads _ _ _ _ _ Hs Hp) as [Hr Hq].
  apply outcome_bind_Ok in Hl as (res' & Hst & Hl). by exists fs1, (convert_legacy_config c), res'.
Qed.

Lemma load_reads fs g u fs' prefs :
  g ≠ u → load_preferences to_str_lossy fs w [g; u] = Ok (fs', prefs) →
  reads fs' g prefs.1 ∧ reads fs' u prefs.2.
Proof.
  intros Hgu. unfold load_preferences.
  intros [[Hg H1]|(fs1 & c & res & Hr1 & Hf1 & Hs & H1)]%load_step.
  - apply load_step in H1 as [[Hu [= <- <-]]|(fs2 & c & res & Hr & Hf & [= <-] & [= <- <-])].
    + unfold reads. by rewrite Hg, Hu.
    + split; [|done]. unfold reads. rewrite Hf by done. by rewrite Hg.
  - injection Hs as <-. apply load_step in H1 as [[Hu [= <- <-]]|(fs2 & c2 & res & Hr & Hf & [= <-] & [= <- <-])].
    + split; [done|]. unfold reads. by rewrite Hu.
    + split; [|done]. eapply reads_frame, Hr1. by apply Hf.
Qed.

Lemma reads_step fs idx res p c ps :
  reads fs p c → (fs !! p = None → store res idx c = Ok res) →
  load_loop to_str_lossy fs w idx res (p :: ps) =
    (res ← store res idx c; load_loop to_str_lossy fs w (S idx) res ps).
Proof.
  unfold reads. cbn [load_loop]. destruct (fs !! p) as [s|] eqn:Hs; [|by intros -> ->].
  intros (c0 & Hp & Hv & <-) _. unfold parse_toml_config. rewrite Hp. cbn. by rewrite Hv.
Qed.

Lemma reads_load fs g u cg cu :
  reads fs g cg → reads fs u cu →
  load_preferences to_str_lossy fs w [g; u] = Ok (fs, (cg, cu)).
Proof.
  intros Hg Hu. unfold load_preferences.
  rewrite (reads_step _ _ _ _ _ _ Hg).
  - cbn [store mbind outcome_bind]. rewrite (reads_step _ _ _ _ _ _ Hu); [done|].
    intros Hn. unfold reads in Hu. rewrite Hn in Hu. by subst.
  - intros Hn. unfold reads in Hg. rewrite Hn in Hg. by subst.
Qed.
End settings.

Section in_force.
Context `{TomlLaws} (to_str_lossy : string → string) (target : TargetOS) (h : HostEnv).
Abbreviation loads := (load_config to_str_lossy target h).

Lemma convert_update cmd u : no_legacy u → convert_legacy_config (update_user target cmd u) = update_user target cmd u.
Proof.
  destruct u. unfold no_legacy. cbn. intros (-> & -> & ->). unfold convert_legacy_config, update_user, set_krun, set_sections.
  cbn. f_equal.
Qed.

(** Loading succeeds in the same way with other files that can be read. *)
Lemma load_config_reads fs common_args debug_args p prefs :
  place h = Ok p → (∃ fs0 ca0 da0 r, loads fs0 ca0 da0 = Ok r) →
  reads fs (global_cfg_path target (p_prefix_dir p)) prefs.1 → reads fs (user_cfg_path (p_home_dir p)) prefs.2 →
  loads fs common_args debug_args = Ok (fs, build_config target h p common_args debug_args prefs).
Proof.
  intros Hp (fs0 & ca0 & da0 & r & Hr) Hg Hu. unfold load_config in *. rewrite Hp in *. cbn [mbind outcome_bind] in *.
  apply outcome_bind_Ok in Hr as ([] & -> & _). cbn [mbind outcome_bind].
  rewrite (reads_load to_str_lossy _ _ _ _ _ _ Hg Hu). cbn. by destruct prefs.
Qed.

Lemma unwrap_or_first {A} (d : A) a o1 o2 :
  unwrap_or d (or (or a o1) o2) = unwrap_or (unwrap_or d (or o1 o2)) a.
Proof. by destruct a. Qed.

Definition of_args {A} (arg : CommonArgs → option A) (cmd : ConfigCmd) (old : A) : A := unwrap_or old (arg (c_common cmd)).

(** C38: After a [config] that sets something, every later load of the
    configuration succeeds without rewriting a file, with the new values where
    they were given, unless the command line of that run says otherwise, and
    with all other preferences as they were; and they are what was printed. *)
Theorem settings_in_force fs cmd fs' out
    (Hcmd : cmd ≠ ConfigCmd_default)
    (Hpaths : ∀ p, place h = Ok p → global_cfg_path target (p_prefix_dir p) ≠ user_cfg_path (p_home_dir p))
    (Hrun : run_config to_str_lossy target h fs cmd = Ok (fs', out)) :
  ∃ fs0 c0, loads fs (c_common cmd) DebugArgs_default = Ok (fs0, c0) ∧
  let old := preferences c0 in
  ∀ common_args debug_args, ∃ c, loads fs' common_args debug_args = Ok (fs', c) ∧
    let new := preferences c in
    out = PrefsObject_display (merged new) ∧
    krun_num_vcpus new = unwrap_or (krun_num_vcpus old) (c_num_vcpus cmd) ∧
    krun_ram_size_mib new = unwrap_or (krun_ram_size_mib old) (c_ram_size_mib cmd) ∧
    krun_log_level_numeric new = unwrap_or (krun_log_level_numeric old) (KrunLogLevel_to_u32 <$> c_log_level cmd) ∧
    cfg_passphrase_config c = unwrap_or (of_args arg_passphrase_config cmd (passphrase_prompt_config old))
                                (arg_passphrase_config common_args) ∧
    cfg_zfs_os c = unwrap_or (of_args arg_zfs_os cmd (zfs_os old)) (arg_zfs_os common_args) ∧
    effective_net_helper (net c) id = unwrap_or (of_args arg_net_helper cmd (network_helper old)) (arg_net_helper common_args) ∧
    prefs_vmnet_pool new = of_args arg_vmnet_pool cmd (prefs_vmnet_pool old) ∧
    (target = MacOS → prefs_vmnet_offloading new = of_args arg_vmnet_offloading cmd (prefs_vmnet_offloading old)) ∧
    alpine_custom_packages new = alpine_custom_packages old ∧ all_custom_actions new = all_custom_actions old ∧
    all_images new = all_images old ∧ gvproxy_debug new = gvproxy_debug old ∧
    ∀ o, default_image new o = default_image old o.
Proof.
  unfold run_config in Hrun. apply outcome_bind_Ok in Hrun as ([fs0 c0] & Hload & Hrun).
  rewrite bool_decide_eq_false_2 in Hrun by done.
  apply outcome_bind_Ok in Hrun as (fs1 & (s & -> & Hs)%save_Ok & [= <- <-]).
  exists fs0, c0. split; [done|].
  pose proof Hload as (p & [cg cu] & Hp & Hl & ->)%load_config_Ok.
  pose proof (load_preferences_ok _ _ _ _ _ _ _ Hl) as (_ & [Hlegacy _] & _).
  apply load_reads in Hl as [Hg Hu]; [|by apply Hpaths]. cbn [fst snd] in *.
  assert (Hv : valid (update_user target cmd cu)).
  { apply (valid_actions (if fs0 !! user_cfg_path (p_home_dir p) is Some _ then cu else PrefsObject_default)).
    - unfold reads in Hu. destruct (fs0 !! _); [|done]. destruct Hu as (c0 & _ & Hv & <-). by eapply valid_actions.
    - unfold reads in Hu. destruct (fs0 !! _); [done|]. by subst. }
  intros ca da. exists (build_config target h p ca da (cg, update_user target cmd cu)). split.
  { apply load_config_reads; [done|eauto 6|..]; cbn [fst snd].
    - eapply reads_frame, Hg. rewrite lookup_insert_ne; [done|]. by apply not_eq_sym, Hpaths.
    - unfold reads. cbn [build_config paths config_paths config_file_path]. rewrite lookup_insert_eq.
      eexists. split_and!; [done..|]. by apply convert_update. }
  cbn. split; [done|].
  unfold krun_num_vcpus, krun_ram_size_mib, krun_log_level_numeric, passphrase_prompt_config, zfs_os, network_helper,
    prefs_vmnet_pool, prefs_vmnet_offloading, of_args, effective_net_helper. cbn.
  rewrite !unwrap_or_first.
  split_and!; try done; [by destruct (c_log_level cmd)..|intros ->; apply unwrap_or_first].
Qed.
End in_force.

(** ** A host *)
Module Witness.
#[local] Instance toml : Toml := {
  toml_parse s := if decide (s = "old") then Err "syntax" else Ok PrefsObject_default;
  toml_parse_old s := Err "syntax";
  toml_print p := if bool_decide (krun_vcpus (krun p) = None) then Ok "" else Err "";
}.

Definition host : HostEnv := {|
  pid := 7; creds := mkCreds 1000 1000 1000 1000 1000 1000; get_proc_info := λ _, None; env := ∅;
  home_dir_from_uid := λ _, Some "/home/u"; current_exe := Ok "/usr/bin/anylinuxfs"; canonicalize := λ p, Ok p;
  create_dir_all := λ _, Ok tt; is_dir := λ _, Ok true; path_exists := λ _, true; is_file := λ _, true;
  get_if_addrs := Ok [V4 (ipv4 192 168 1 2)]; rand_string := λ i _, "a1B2" +:+ Str.of_N (N.of_nat i);
  vmnet_offloading_supported := true; writable := λ _, true |}.

Definition parse_ip (s : string) : option IpAddr := if decide (s = "192.168.1.2") then Some (V4 (ipv4 192 168 1 2)) else None.

Definition cmd : MountCmd := {|
  m_disk_ident := Some "/dev/sda1"; m_mount_point := Some "/mnt/data"; m_options := Some "noatime,ro";
  m_nfs_options := None; m_nfs_export_opts := None; m_ignore_permissions := true; m_remount := false;
  m_action := None; m_fs_driver := None; m_key_file := Some "/home/u/key"; m_common := CommonArgs_default;
  m_window := false; m_bind_addr := Some "192.168.1.2"; m_kernel_page_size := None;
  m_debug := DebugArgs_default; m_verbose := false |}.

Abbreviation loaded := (load_mount_config id LinuxHost parse_ip host ∅ cmd).

Example load_mount_config_ok_witness :
  match loaded with
  | Ok (fs', c) => well_formed LinuxHost host c ∧
      ∀ p, (∃ s d, (∅ : files) !! p = Some s ∧ toml_parse s = Ok d) → fs' !! p = (∅ : files) !! p
  | _ => False
  end.
Proof.
  destruct loaded as [[fs' c]| |] eqn:E; [|by vm_compute in E..].
  apply (load_mount_config_ok id LinuxHost parse_ip host ∅ cmd fs' c); [split; [discriminate|reflexivity]|exact E].
Defined.
End Witness.
Module SettingWitness.
#[local] Instance CustomActionConfig_eq_dec : EqDecision CustomActionConfig.
Proof. solve_decision. Defined.
#[local] Instance AlpineConfig_eq_dec : EqDecision AlpineConfig.
Proof. solve_decision. Defined.
#[local] Instance GvproxyConfig_eq_dec : EqDecision GvproxyConfig.
Proof. solve_decision. Defined.
#[local] Instance KrunConfig_eq_dec : EqDecision KrunConfig.
Proof. solve_decision. Defined.
#[local] Instance MiscConfig_eq_dec : EqDecision MiscConfig.
Proof. solve_decision. Defined.
#[local] Instance NetworkPrefs_eq_dec : EqDecision NetworkPrefs.
Proof. solve_decision. Defined.
#[local] Instance OSConfig_eq_dec : EqDecision OSConfig.
Proof. solve_decision. Defined.
#[local] Instance PrefsObject_eq_dec : EqDecision PrefsObject.
Proof. solve_decision. Defined.

Definition cmd : ConfigCmd := mkConfigCmd (Some LDebug) (Some 4%N) None CommonArgs_default.
Definition set : PrefsObject := update_user LinuxHost cmd PrefsObject_default.

(** The text of one object, and of nothing else. *)
#[local] Instance toml : Toml := {
  toml_parse s := if decide (s = "set") then Ok set else Err "syntax";
  toml_parse_old s := Err "syntax";
  toml_print p := if decide (p = set) then Ok "set" else Err "unknown";
}.
#[local] Instance toml_laws : TomlLaws.
Proof. intros c s. cbn. case_decide; [|done]. intros [= <-]. by subst. Qed.

Abbreviation ran := (run_config id LinuxHost Witness.host ∅ cmd).

Lemma run_ok : run_config id LinuxHost Witness.host ∅ cmd =
  Ok (<["/home/u/.anylinuxfs/config.toml" := "set"]> ∅, PrefsObject_display (merged (PrefsObject_default, set))).
Proof. vm_compute. reflexivity. Qed.

Lemma places p : place Witness.host = Ok p → global_cfg_path LinuxHost (p_prefix_dir p) ≠ user_cfg_path (p_home_dir p).
Proof. intros Hp. vm_compute in Hp. injection Hp as <-. vm_compute. discriminate. Qed.

Example settings_in_force_witness : ∃ c : Config, krun_num_vcpus (preferences c) = 4%N.
Proof.
  assert (Hc : cmd ≠ ConfigCmd_default) by discriminate.
  destruct (settings_in_force id LinuxHost Witness.host ∅ cmd _ _ Hc places run_ok) as (fs0 & c0 & _ & H).
  destruct (H CommonArgs_default DebugArgs_default) as (c & _ & _ & Hn & _). exists c. exact Hn.
Defined.
End SettingWitness.
