(* ===== verification/Stop.v ===== *)
(** * Finding, listing, unmounting and stopping instances ([cmd_mount.rs]
      [collect_active_instances], [wait_for_proc_exit], [unmount_fs],
      [run_unmount]; [main.rs] [run_status], [run_stop])

    Running instances answer on sockets in [/tmp]. The commands are functions
    of the answers to their calls; what they do to processes and mounts is
    recorded in order. *)
From S2P Require Import Prelude Effects Common Paths Fsutil DevInfo Settings Instance.
From Stdlib Require Import Ascii.

(** ** Running instances *)
(** The names in [/tmp], [None] for one that is no text; [None] as a whole when
    the directory cannot be read. *)
Definition is_api_socket (name : string) : bool :=
  Str.starts_with "anylinuxfs" name && Str.ends_with ".sock" name.

Definition discover_api_sockets (entries : option (list (option string))) : list string :=
  (λ name, path.join "/tmp" name) <$> List.filter is_api_socket (omap id (default [] entries)).

(** [ask]: what the process behind a socket answers. *)
Definition collect_active_instances (ask : string → outcome RuntimeInfo) (sockets : list string) :
    list RuntimeInfo * list string :=
  (omap (λ s, ok (ask s)) sockets, List.filter (λ s, negb (is_ok (ask s))) sockets).

(** ** Waiting for a process that is no child *)
(** [.split_whitespace().next()] *)
Fixpoint take_word (s : string) : string :=
  match s with
  | "" => ""
  | String c s => if Str.is_space c then "" else String c (take_word s)
  end.
Definition first_word (s : string) : option string :=
  match Str.trim_start s with "" => None | s => Some (take_word s) end.

(** The state in [/proc/<pid>/stat], after the last parenthesis. *)
Definition proc_state (contents : string) : option string :=
  rparen ← Str.rfind ")" contents; first_word (Str.drop (rparen + 1) contents).

(** What a look at the process gives: on Linux its stat file, on macOS whether
    it is a zombie. *)
Inductive Look := Gone | LookFailed (e : string) | StatFile (contents : string) | ProcInfo (zombie : bool).

Definition exited_look (l : Look) : outcome bool :=
  match l with
  | Gone => Ok true
  | LookFailed e => Err e
  | StatFile contents => Ok (bool_decide (proc_state contents = Some "Z"))
  | ProcInfo zombie => Ok zombie
  end.

(** The [i]th round: the milliseconds elapsed and what is seen. *)
Fixpoint wait_rounds (fuel : nat) (timeout : N) (rounds : nat → N * Look) (i : nat) : option (outcome unit) :=
  match fuel with
  | O => None
  | S fuel =>
      let '(elapsed, look) := rounds i in
      if bool_decide (timeout < elapsed)%N then Some (Err "Timeout waiting for process exit")
      else
        match exited_look look with
        | Ok true => Some (Ok tt)
        | Ok false => wait_rounds fuel timeout rounds (S i)
        | Err e => Some (Err e)
        | Panic => Some Panic
        end
  end.

(** Each round sleeps for 100 ms. *)
Definition wait_for_proc_exit_with_timeout (timeout : N) (rounds : nat → N * Look) : option (outcome unit) :=
  wait_rounds (N.to_nat (timeout / 100) + 2) timeout rounds 0.

(** ** What the commands do *)
Inductive Action :=
| Umount (mount_point : string)
| SendQuit (rt_info : RuntimeInfo)
| WaitExit (pid : Z) (seconds : N)
| Kill (pid : Z) (signal : N)
| KillGroup (pgid : Z) (signal : N)
| Confirm (mount_point : string)
| RemoveVsock (sock : string)
| RemoveVfkit (sock : string)
| UnmountSubdirs (mount_points : list string) (mount_point : string).

Definition SIGKILL : N := 9.
Definition SIGTERM : N := 15.

Abbreviation M := (Effects.M (list Action)).

Section commands.
Context (os : TargetOS).
(** The result of an action that is done after others; the answer at the
    prompt; the mount table. *)
Context (result : list Action → Action → outcome unit).
Context (umount_status : list Action → string → outcome (option Z)).
Context (answer : string) (statfs : string → outcome MountEntry).
Context (canonicalize : string → outcome string) (mounts : outcome (list string)).
Context (user_name_from_uid : N → option string).

Definition act (a : Action) : M unit := λ done, (result done a, done ++ [a]).
(** [.is_ok()] *)
Definition succeeds (m : M unit) : M bool := λ done,
  match m done with (Panic, done) => (Panic, done) | (r, done) => (Ok (is_ok r), done) end.

(** [unmount_fs] *)
Definition umount_result (status : outcome (option Z)) : outcome unit :=
  code ← status;
  if bool_decide (code = Some 0%Z) then Ok tt
  else Err ("umount failed with exit code " +:+ match code with Some c => pretty c | None => "unknown" end).
Definition unmount_fs (volume_path : string) : M unit := λ done,
  (umount_result (umount_status done volume_path), done ++ [Umount volume_path]).

(** ** [run_status] *)
(** The text of an instance that is mounted; the others are told on the
    standard error. *)
Definition status_line (rt_info : RuntimeInfo) (mount_point : string) : string :=
  let config := mount_config rt_info in
  let user_name := default "<unknown>" (user_name_from_uid (invoker_uid (privilege (common config)))) in
  let info := option_list (get_fs_driver (dev_info rt_info)) ++
              match mount_options config with Some opts => Str.split "," opts | None => [] end ++
              ["mounted by " +:+ user_name] in
  let disk := if Str.is_empty (disk_path config) then "<unknown>" else disk_path config in
  disk +:+ " on " +:+ mount_point +:+ " (" +:+ Str.join ", " info +:+ ") VM[cpus: " +:+
  Str.of_N (krun_num_vcpus (preferences (common config))) +:+ ", ram: " +:+
  Str.of_N (krun_ram_size_mib (preferences (common config))) +:+ " MiB]".

Definition instance_status (rt_info : RuntimeInfo) : option string :=
  match validated_mount_point statfs rt_info with
  | Mounted mount_point => Some (status_line rt_info mount_point)
  | _ => None
  end.

Definition run_status (active_instances : list RuntimeInfo) : list string :=
  merge_sort str_le (omap instance_status active_instances).

(** ** [run_stop] *)
Record StopCmd := mkStopCmd { stop_path : option string; force : bool }.

(** [fs::canonicalize(p).unwrap_or_else(|_| PathBuf::from(p))] *)
Definition target_path (p : string) : string :=
  match canonicalize p with Ok p => p | _ => p end.

Definition selected (path : option string) (rt_info : RuntimeInfo) : bool :=
  match path with Some p => matches (target_path p) rt_info | None => true end.

(** [send_quit_cmd(..).is_ok()] and, if so, the wait for the VM. *)
Definition quit_vm (rt_info : RuntimeInfo) : M bool :=
  sent ← succeeds (act (SendQuit rt_info));
  if sent : bool then succeeds (act (WaitExit (vmm_pid rt_info) 5)) else mret false.

Definition terminate_session (rt_info : RuntimeInfo) : M unit :=
  m_context "Failed to send SIGTERM to anylinuxfs" (act (Kill (session_pgid rt_info) SIGTERM)).

Definition stop_gracefully (rt_info : RuntimeInfo) : M unit :=
  match validated_mount_point statfs rt_info with
  | Mounted mount_point => unmount_fs mount_point
  | NotYet =>
      vm_exited_gracefully ← quit_vm rt_info;
      if vm_exited_gracefully : bool then mret tt else terminate_session rt_info
  | NoLonger => terminate_session rt_info
  end.

(** The error of killpg(2) for a group that is gone. *)
Definition ESRCH : string := "No such process".

Definition kill_group (pgid : Z) : M unit := λ done,
  match act (KillGroup pgid SIGKILL) done with
  | (Err e, done) =>
      if decide (e = ESRCH) then (Ok tt, done)
      else (with_context "Failed to send SIGKILL to anylinuxfs" (Err e), done)
  | r => r
  end.

Definition kill_instance (rt_info : RuntimeInfo) : M unit :=
  let netw := net (common (mount_config rt_info)) in
  quit_vm rt_info;;
  terminated ← succeeds (act (Kill (net_helper_pid rt_info) SIGTERM));
  (if terminated : bool then m_ignore (act (WaitExit (net_helper_pid rt_info) 5)) else mret tt);;
  kill_group (session_pgid rt_info);;
  m_ignore (act (RemoveVsock (vsock_path netw)));;
  m_ignore (act (RemoveVfkit (unixgram_sock_path netw))).

Definition to_ascii_lower (c : ascii) : ascii :=
  if Str.is_upper c then ascii_of_nat (nat_of_ascii c + 32) else c.
Definition confirms (input : string) : bool :=
  bool_decide (Str.map to_ascii_lower (Str.trim input) ∈ ["y"; "yes"]).

Definition stop_by_force (rt_info : RuntimeInfo) : M unit :=
  match validated_mount_point statfs rt_info with
  | Mounted mount_point =>
      act (Confirm mount_point);;
      if confirms answer then kill_instance rt_info else mret tt
  | _ => kill_instance rt_info
  end.

Fixpoint stop_loop (cmd : StopCmd) (instances : list RuntimeInfo) : M unit :=
  match instances with
  | [] => lift (Err ("No anylinuxfs instance found for: " +:+ unwrap_or "<unknown>" (stop_path cmd)))
  | rt_info :: instances =>
      if selected (stop_path cmd) rt_info then
        if force cmd then stop_by_force rt_info else stop_gracefully rt_info
      else stop_loop cmd instances
  end.

Definition run_stop (cmd : StopCmd) (active_instances : list RuntimeInfo) : M unit :=
  if bool_decide (stop_path cmd = None ∧ length active_instances ≠ 1) then
    if bool_decide (active_instances = []) then lift (Err "No anylinuxfs instance is currently running")
    else lift (Err "Multiple anylinuxfs instances are running; please specify the disk identifier or mount point.")
  else stop_loop cmd active_instances.

(** ** [run_unmount] *)
Record UnmountCmd := mkUnmountCmd { unmount_path : option string; wait_for_vm : option N }.

Fixpoint run_unmount (cmd : UnmountCmd) (active_instances : list RuntimeInfo) : M unit :=
  match active_instances with
  | [] => mret tt
  | rt_info :: instances =>
      if selected (unmount_path cmd) rt_info then
        match validated_mount_point statfs rt_info with
        | Mounted mount_point =>
            table ← lift mounts;
            act (UnmountSubdirs (List.filter (under_mount_point mount_point) table) mount_point);;
            match wait_for_vm cmd with
            | Some wait_secs => act (WaitExit (session_pgid rt_info) wait_secs)
            | None => mret tt
            end;;
            match unmount_path cmd with Some _ => mret tt | None => run_unmount cmd instances end
        | _ => run_unmount cmd instances
        end
      else run_unmount cmd instances
  end.
End commands.

(** ** The state of a process *)
(** Whatever the name of the program is, also with parentheses and spaces in
    it, the state is what follows it. *)
Lemma proc_state_spec pid comm state rest :
  StrFacts.lacks ")" (" " +:+ state +:+ " " +:+ rest) = true →
  Str.forallb (λ c, negb (Str.is_space c)) state = true → state ≠ "" →
  proc_state (pid +:+ " (" +:+ comm +:+ ") " +:+ state +:+ " " +:+ rest) = Some state.
Proof.
  intros Hl Hs Hne. unfold proc_state.
  replace (pid +:+ " (" +:+ comm +:+ ") " +:+ state +:+ " " +:+ rest)
    with ((pid +:+ " (" +:+ comm) +:+ String ")" (" " +:+ state +:+ " " +:+ rest))
    by by rewrite !StrFacts.app_assoc.
  rewrite StrFacts.rfind_app; [|apply (StrFacts.starts_with_app ")")|by eapply StrFacts.rfind_lacks].
  cbn [mbind option_bind].
  replace (Str.drop _ _) with (" " +:+ state +:+ " " +:+ rest).
  2: { symmetry. set (t := " " +:+ state +:+ " " +:+ rest). set (p := pid +:+ " (" +:+ comm).
    change (String ")" t) with (")" +:+ t). rewrite <-StrFacts.app_assoc.
    replace (String.length p + 1) with (String.length (p +:+ ")")) by by rewrite StrFacts.length_app.
    apply StrFacts.drop_app. }
  unfold first_word. cbn [String.append Str.trim_start]. destruct state as [|c state]; [done|].
  cbn in Hs. apply andb_true_iff in Hs as [Hc Hs]. apply negb_true_iff in Hc.
  change (Str.is_space " ") with true. cbn. rewrite Hc. cbn. rewrite Hc. f_equal. f_equal.
  clear -Hs. induction state as [|d state IH]; [done|]. cbn in Hs |- *.
  apply andb_true_iff in Hs as [Hd Hs]. apply negb_true_iff in Hd. rewrite Hd. f_equal. by apply IH.
Qed.

(** The first round at which the wait ends: too late, or with a verdict. *)
Definition over (timeout : N) (r : N * Look) : Prop :=
  (timeout < r.1)%N ∨ exited_look r.2 ≠ Ok false.

Lemma wait_rounds_spec fuel timeout rounds i n :
  n < fuel → (∀ j, i ≤ j < i + n → ¬ over timeout (rounds j)) → over timeout (rounds (i + n)) →
  wait_rounds fuel timeout rounds i =
    Some (if bool_decide (timeout < (rounds (i + n)%nat).1)%N then Err "Timeout waiting for process exit"
          else _ ← exited_look (rounds (i + n)).2; Ok tt).
Proof.
  revert i n; induction fuel as [|fuel IH]; intros i n Hn Hbefore Hover; [lia|].
  cbn [wait_rounds]. destruct n as [|n].
  - rewrite Nat.add_0_r in *. destruct (rounds i) as [elapsed look]. cbn in *.
    case_bool_decide; [done|]. destruct Hover as [|Hl]; [done|].
    by destruct (exited_look look) as [[]|e|] eqn:E.
  - assert (Hi : ¬ over timeout (rounds i)) by (apply Hbefore; lia).
    destruct (rounds i) as [elapsed look]. unfold over in Hi. cbn in Hi.
    rewrite bool_decide_eq_false_2 by tauto.
    destruct (exited_look look) as [[]|e|] eqn:E; try (exfalso; apply Hi; right; congruence).
    replace (i + S n) with (S i + n) in * by lia. apply IH; [lia| |done].
    intros j Hj. apply Hbefore. lia.
Qed.

Lemma first_over timeout rounds n :
  over timeout (rounds n) → ∃ m, m ≤ n ∧ over timeout (rounds m) ∧ ∀ j, j < m → ¬ over timeout (rounds j).
Proof.
  assert (Hdec : ∀ j, Decision (over timeout (rounds j))).
  { intros j. unfold over. apply or_dec; [apply _|]. apply not_dec. solve_decision. }
  induction n as [n IH] using lt_wf_ind. intros Hn.
  destruct (decide (Forall (λ j, ¬ over timeout (rounds j)) (seq 0 n))) as [Hf|Hf].
  - exists n. split_and!; [done..|]. intros j Hj. rewrite Forall_forall in Hf. apply Hf, elem_of_seq. lia.
  - apply not_Forall_Exists in Hf; [|apply _]. apply Exists_exists in Hf as (j & Hj & Ho).
    apply elem_of_seq in Hj. destruct (IH j) as (m & Hm & ?); [lia|by apply dec_stable|].
    exists m. split; [lia|done].
Qed.

(** The wait for a process that is no child always ends, since every round
    sleeps for 100 ms: at the first round that is past the timeout, sees that
    the process is gone or a zombie, or cannot look at it, with the result that
    belongs to it. *)
Lemma wait_for_exit_ends timeout rounds :
  (∀ i, N.of_nat i * 100 ≤ (rounds i).1)%N →
  ∃ n, over timeout (rounds n) ∧ (∀ j, j < n → ¬ over timeout (rounds j)) ∧
    wait_for_proc_exit_with_timeout timeout rounds =
      Some (if bool_decide (timeout < (rounds n).1)%N then Err "Timeout waiting for process exit"
            else _ ← exited_look (rounds n).2; Ok tt).
Proof.
  intros Hclock. set (k := N.to_nat (timeout / 100) + 1).
  assert (Hk : over timeout (rounds k)).
  { left. specialize (Hclock k). unfold k in *.
    pose proof (N.mod_lt timeout 100 ltac:(lia)). pose proof (N.div_mod' timeout 100). lia. }
  destruct (first_over _ _ _ Hk) as (n & Hn & Ho & Hb). exists n. split_and!; [done..|].
  apply (wait_rounds_spec _ timeout rounds 0 n); [unfold k in Hn; lia| |done].
  intros j Hj. apply Hb. lia.
Qed.

(** ** What is done to whom *)
Definition does (P : Action → Prop) (s s' : list Action) : Prop := ∃ l, s' = s ++ l ∧ Forall P l.
#[local] Instance does_pre P : PreOrder (does P).
Proof.
  split.
  - intros s. exists []. by rewrite app_nil_r.
  - intros s1 s2 s3 (l1 & -> & F1) (l2 & -> & F2). exists (l1 ++ l2).
    split; [by rewrite app_assoc|by apply Forall_app].
Qed.

(** The actions on one instance, and those that let its VM end by itself. *)
Definition concerns (rt : RuntimeInfo) (a : Action) : Prop :=
  match a with
  | Umount mp | Confirm mp => mount_point rt = Some mp
  | SendQuit rt' => rt' = rt
  | WaitExit pid _ => pid = vmm_pid rt ∨ pid = net_helper_pid rt
  | Kill pid signal => signal = SIGTERM ∧ (pid = session_pgid rt ∨ pid = net_helper_pid rt)
  | KillGroup pgid _ => pgid = session_pgid rt
  | RemoveVsock s => s = vsock_path (net (common (mount_config rt)))
  | RemoveVfkit s => s = unixgram_sock_path (net (common (mount_config rt)))
  | UnmountSubdirs _ _ => False
  end.
Definition gentle (rt : RuntimeInfo) (a : Action) : Prop :=
  match a with
  | SendQuit rt' => rt' = rt
  | WaitExit pid _ => pid = vmm_pid rt
  | Kill pid signal => pid = session_pgid rt ∧ signal = SIGTERM
  | _ => False
  end.

Section facts.
Context (result : list Action → Action → outcome unit).
Context (umount_status : list Action → string → outcome (option Z)).
Context (answer : string) (statfs : string → outcome MountEntry).
Context (canonicalize : string → outcome string).
Context (P : Action → Prop).
Abbreviation R := (does P).

Lemma within_act a : P a → within R R (act result a).
Proof.
  intros Ha s. unfold act. assert (R s (s ++ [a])) by (exists [a]; split; [done|by constructor]).
  by destruct (result s a).
Qed.
Lemma within_succeeds m : within R R m → within R R (succeeds m).
Proof. intros Hm s. specialize (Hm s). unfold succeeds. by destruct (m s) as [[?|?|] ?]. Qed.
Lemma within_unmount mp : P (Umount mp) → within R R (unmount_fs umount_status mp).
Proof.
  intros Ha s. unfold unmount_fs.
  assert (R s (s ++ [Umount mp])) by (exists [Umount mp]; split; [done|by constructor]).
  by destruct (umount_result _).
Qed.
Lemma within_kill_group pgid : P (KillGroup pgid SIGKILL) → within R R (kill_group result pgid).
Proof.
  intros Ha s. unfold kill_group. pose proof (within_act _ Ha s) as Hs.
  destruct (act result _ s) as [[?|e|] s']; [done| |done]. by case_decide.
Qed.

Lemma within_quit rt : P (SendQuit rt) → P (WaitExit (vmm_pid rt) 5) → within R R (quit_vm result rt).
Proof.
  intros. unfold quit_vm. within_step; [by apply within_succeeds, within_act|].
  within_step; [by apply within_succeeds, within_act|within_solve].
Qed.
Lemma within_terminate rt : P (Kill (session_pgid rt) SIGTERM) → within R R (terminate_session result rt).
Proof. intros. unfold terminate_session. by apply within_context, within_act. Qed.
End facts.

Section stop.
Context (result : list Action → Action → outcome unit).
Context (umount_status : list Action → string → outcome (option Z)).
Context (answer : string) (statfs : string → outcome MountEntry).
Context (canonicalize : string → outcome string).

Lemma kill_concerns rt : within (does (concerns rt)) (does (concerns rt)) (kill_instance result rt).
Proof.
  unfold kill_instance. cbv zeta. within_step; [apply within_quit; cbn; auto|].
  within_step; [apply within_succeeds, within_act; cbn; auto|].
  within_step; [within_step; [apply within_ignore, within_act; cbn; auto|within_solve]|].
  within_step; [by apply within_kill_group|].
  within_step; by apply within_ignore, within_act.
Qed.

Lemma stop_loop_spec cmd instances r done :
  stop_loop result umount_status answer statfs canonicalize cmd instances [] = (r, done) →
  (done = [] ∧ ∃ e, r = Err e) ∨
  ∃ i rt, instances !! i = Some rt ∧ selected canonicalize (stop_path cmd) rt = true ∧
    (∀ j rt', j < i → instances !! j = Some rt' → selected canonicalize (stop_path cmd) rt' = false) ∧
    (if force cmd then stop_by_force result answer statfs rt
     else stop_gracefully result umount_status statfs rt) [] = (r, done).
Proof.
  induction instances as [|rt instances IH]; cbn [stop_loop].
  - intros [= <- <-]. left. eauto.
  - destruct (selected _ _ rt) eqn:Hs.
    + intros Hr. right. exists 0, rt. split_and!; [done..| |done]. intros j rt' Hj. lia.
    + intros [?|(i & rt1 & Hi & Hs1 & Hb & Hr)]%IH; [by left|]. right. exists (S i), rt1.
      split_and!; [done..| |done]. intros [|j] rt' Hj; [by intros [= <-]|]. apply Hb. lia.
Qed.

(** C35: A stop command touches one instance only: the first that its path names,
    or the only one that runs when there is no path; when there is none it does
    nothing and fails. Without [--force] a mounted instance is just unmounted,
    and of another one the session gets at most a SIGTERM; with it nothing
    happens to a mounted instance unless the user says yes. *)
Theorem stop_one_instance cmd instances r done :
  run_stop result umount_status answer statfs canonicalize cmd instances [] = (r, done) →
  (done = [] ∧ ∃ e, r = Err e) ∨
  ∃ i rt, instances !! i = Some rt ∧ selected canonicalize (stop_path cmd) rt = true ∧
    (∀ j rt', j < i → instances !! j = Some rt' → selected canonicalize (stop_path cmd) rt' = false) ∧
    (stop_path cmd = None → instances = [rt]) ∧
    Forall (concerns rt) done ∧
    match force cmd, validated_mount_point statfs rt with
    | false, Mounted mp => done = [Umount mp]
    | false, _ => Forall (gentle rt) done
    | true, Mounted mp => confirms answer = false → done = [Confirm mp]
    | true, _ => True
    end.
Proof.
  unfold run_stop. case_bool_decide as Hp.
  { intros Hr. left. case_bool_decide; injection Hr as <- <-; eauto. }
  intros [?|(i & rt & Hi & Hs & Hb & Hr)]%stop_loop_spec; [by left|]. right. exists i, rt.
  do 3 (split; [done|]). split.
  { intros Hn. destruct instances as [|x [|y l]]; [done|destruct i; by simplify_eq/=|].
    destruct Hp. split; [done|cbn; lia]. }
  assert (Hmp : ∀ mp, validated_mount_point statfs rt = Mounted mp → mount_point rt = Some mp).
  { intros mp. unfold validated_mount_point. destruct (mount_point rt) as [p|]; [|done].
    repeat case_match; try done; by intros [= ->]. }
  assert (Hall : ∀ P (m : M unit), within (does P) (does P) m → m [] = (r, done) → Forall P done).
  { intros P m Hm E. pose proof (within_state _ m [] Hm) as (l & El & Hl). rewrite E in El. by cbn in El; subst. }
  destruct (force cmd).
  - unfold stop_by_force in Hr. destruct (validated_mount_point statfs rt) as [|mp|] eqn:Hv.
    1, 3: split; [|done]; by eapply Hall, Hr; apply kill_concerns.
    split.
    + eapply Hall, Hr. within_step; [by apply within_act, Hmp|].
      within_step; [apply kill_concerns|within_solve].
    + intros Hc. rewrite Hc in Hr. unfold mbind, M_bind, act, mret, M_ret in Hr.
      destruct (result [] (Confirm mp)); cbn in Hr; by simplify_eq.
  - unfold stop_gracefully in Hr. destruct (validated_mount_point statfs rt) as [|mp|] eqn:Hv.
    + assert (Hg : ∀ P : Action → Prop, P (SendQuit rt) → P (WaitExit (vmm_pid rt) 5) →
        P (Kill (session_pgid rt) SIGTERM) → Forall P done).
      { intros P H1 H2 H3. eapply Hall, Hr. within_step; [by apply within_quit|].
        within_step; [within_solve|by apply within_terminate]. }
      split; apply Hg; cbn; auto.
    + unfold unmount_fs in Hr. simplify_eq. split; [|done]. repeat constructor. by apply Hmp.
    + split; eapply Hall; try exact Hr; apply within_terminate; cbn; auto.
Qed.
End stop.

(** An unmount by a path that names no instance does nothing and succeeds,
    where the same stop fails. *)
Lemma unknown_path_unmounts_nothing result statfs canonicalize mounts cmd instances :
  Forall (λ rt, selected canonicalize (unmount_path cmd) rt = false) instances →
  run_unmount result statfs canonicalize mounts cmd instances [] = (Ok tt, []).
Proof. induction 1 as [|rt instances Hs _ IH]; [done|]. cbn [run_unmount]. by rewrite Hs. Qed.

(** ** Stopping the only instance *)
Module Witness.
Definition rt : RuntimeInfo := with_mount_point sample_instance (Some "/Volumes/data").
Definition works (_ : list Action) (_ : Action) : outcome unit := Ok tt.
Definition umounts (_ : list Action) (_ : string) : outcome (option Z) := Ok (Some 0%Z).
Definition nothing_mounted (_ : string) : outcome MountEntry := Err "not found".
Definition as_is (p : string) : outcome string := Ok p.
Definition cmd : StopCmd := mkStopCmd None false.
Definition stopped : list Action := [Kill (session_pgid rt) SIGTERM].

Example stop_one_instance_witness :
  (stopped = [] ∧ ∃ e, (Ok tt : outcome unit) = Err e) ∨
  ∃ i rt', [rt] !! i = Some rt' ∧ selected as_is None rt' = true ∧
    (∀ j rt'', j < i → [rt] !! j = Some rt'' → selected as_is None rt'' = false) ∧
    ((None : option string) = None → [rt] = [rt']) ∧
    Forall (concerns rt') stopped ∧
    match false, validated_mount_point nothing_mounted rt' with
    | false, Mounted mp => stopped = [Umount mp]
    | false, _ => Forall (gentle rt') stopped
    | true, Mounted mp => confirms "no" = false → stopped = [Confirm mp]
    | true, _ => True
    end.
Proof.
  apply (stop_one_instance works umounts "no" nothing_mounted as_is cmd [rt] (Ok tt) stopped).
  vm_compute. reflexivity.
Defined.

(** The process becomes a zombie in the fourth round. *)
Definition rounds (i : nat) : N * Look :=
  ((N.of_nat i * 100)%N, StatFile (if i <? 3 then "7 (a b) S 1 0" else "7 (a b) Z 1 0")).

Example wait_for_exit_ends_witness :
  wait_for_proc_exit_with_timeout 5000 rounds = Some (Ok tt) ∧
  ∃ n, over 5000 (rounds n) ∧ (∀ j, j < n → ¬ over 5000 (rounds j)) ∧
    wait_for_proc_exit_with_timeout 5000 rounds =
      Some (if bool_decide (5000 < (rounds n).1)%N then Err "Timeout waiting for process exit"
            else _ ← exited_look (rounds n).2; Ok tt).
Proof.
  split; [vm_compute; reflexivity|]. apply (wait_for_exit_ends 5000 rounds).
  intros i. reflexivity.
Defined.
End Witness.
