(* ===== verification/Api.v ===== *)
(** * The runtime information over the socket of an instance ([api.rs];
      [cmd_mount.rs] [get_runtime_info_from_socket])

    Each session serves its runtime information; the other commands ask for it
    to find the instances. The messages are those of [Ipc]; the two ends are put
    together here. *)
From S2P Require Import Prelude Ipc Settings Instance Stop.

Inductive Request := GetConfig.
Inductive Response := Config (rt_info : RuntimeInfo).

Section api.
Context `{Codec Request} `{Codec Response}.

(** [UnixHandler::serve_to_client]: what is written for the bytes that come in. *)
Definition serve_to_client (runtime_info : RuntimeInfo) (stream : string) : outcome string :=
  '(req, _) ← read_request (A := Request) stream;
  match req with GetConfig => write_response "" (Config runtime_info) end.

(** [UnixHandler::serve]: the connections, [None] for one that was not accepted;
    the answers, of which none waits for another client's. *)
Definition serve (runtime_info : nat → RuntimeInfo) (bind chown : outcome unit) (incoming : list (option string)) :
    outcome (list (option (outcome string))) :=
  _ ← with_context "Failed to bind to Unix socket" bind;
  _ ← chown;
  Ok (imap (λ i stream, serve_to_client (runtime_info i) <$> stream) incoming).

(** [UnixClient::make_request]: [peer] is what the other side has written when it
    closes the connection. *)
Definition make_request (connect : outcome unit) (peer : string → string) (req : Request) : outcome Response :=
  _ ← with_context "Failed to connect to socket" connect;
  stream ← write_request "" req;
  '(resp, _) ← read_response (peer stream);
  Ok resp.

(** A server that fails closes the connection without a word. *)
Definition server_peer (runtime_info : RuntimeInfo) (stream : string) : string :=
  default "" (ok (serve_to_client runtime_info stream)).

Definition get_runtime_info_from_socket (connect : outcome unit) (peer : string → string) : outcome RuntimeInfo :=
  resp ← make_request connect peer GetConfig;
  match resp with Config rt_info => Ok rt_info end.
End api.

(** ** A request and its answer *)
Section facts.
Context `{CodecLaws Request} `{CodecLaws Response}.

Lemma request_served info :
  fits GetConfig → ∃ stream, write_request "" GetConfig = Ok stream ∧
    serve_to_client info stream = write_response "" (Config info).
Proof.
  intros (s & Hs & Hne & Hmax). exists (to_be_bytes (len_u32 s) +:+ s). split.
  - apply write_msg_Ok. by exists s.
  - unfold serve_to_client, read_request. rewrite <-(StrFacts.app_nil_r s) at 2.
    by rewrite (read_msg_fits GetConfig s) by done.
Qed.

(** The information that an instance serves is what the commands get. *)
Lemma runtime_info_served info :
  fits GetConfig → fits (Config info) → get_runtime_info_from_socket (Ok tt) (server_peer info) = Ok info.
Proof.
  intros Hreq (s & Hs & Hne & Hmax). destruct (request_served info Hreq) as (stream & Hw & Hsrv).
  assert (write_response "" (Config info) = Ok (to_be_bytes (len_u32 s) +:+ s)) as Hr by (apply write_msg_Ok; by exists s).
  unfold get_runtime_info_from_socket, make_request. rewrite Hw. cbn. unfold server_peer. rewrite Hsrv, Hr. cbn.
  unfold read_response. rewrite <-(StrFacts.app_nil_r s) at 2. by rewrite (read_msg_fits (Config info) s) by done.
Qed.

(** An instance that answers with more than a message may have is not found: the
    commands take its socket for a stale one. *)
Lemma oversized_instance_stale info s sock :
  fits GetConfig → ser (Config info) = Ok s → (MAX_MSG_SIZE < N.of_nat (String.length s) < 2 ^ 32)%N →
  collect_active_instances (λ _, get_runtime_info_from_socket (Ok tt) (server_peer info)) [sock] = ([], [sock]).
Proof.
  intros Hreq Hs Hbig. destruct (request_served info Hreq) as (stream & Hw & Hsrv).
  destruct (oversized_written_then_refused (Config info) s "" "response" "response" "" Hs Hbig) as [Hr Hread].
  assert (get_runtime_info_from_socket (Ok tt) (server_peer info) = Err "response size is too large") as Hg.
  { unfold get_runtime_info_from_socket, make_request. rewrite Hw. cbn. unfold server_peer. rewrite Hsrv.
    unfold write_response. rewrite Hr. cbn. unfold read_response. rewrite <-(StrFacts.app_nil_r s) at 2.
    change ("" +:+ to_be_bytes (len_u32 s) +:+ s +:+ "") with (to_be_bytes (len_u32 s) +:+ s +:+ ""). by rewrite Hread. }
  unfold collect_active_instances. cbn [omap list_omap List.filter]. by rewrite Hg.
Qed.
End facts.

(** ** A codec *)
Module Witness.
#[local] Instance request_codec : Codec Request := {
  ser _ := Ok "GetConfig";
  de s := if decide (s = "GetConfig") then Ok GetConfig else Err "unexpected variant" }.
#[local] Instance request_laws : CodecLaws Request.
Proof. split. by intros [] ? [= <-]. Qed.

(** For one instance. *)
Definition response_codec (info : RuntimeInfo) : Codec Response := {|
  ser _ := Ok "Config"; de s := if decide (s = "Config") then Ok (Config info) else Err "unexpected variant" |}.

Example info_comes_back (info : RuntimeInfo) :
  let _ := response_codec info in get_runtime_info_from_socket (Ok tt) (server_peer info) = Ok info.
Proof. reflexivity. Qed.
End Witness.
