(* ===== verification/MountCmd.v ===== *)
(** * The mount command around its session ([cmd_mount.rs] [run_mount] up to the
      fork, [wait_for_nfs_server], [send_quit_cmd], [subscribe_to_vm_events],
      [mount_subdirectories]; [mdns.rs])

    What a mount does before its session starts, in order and with its answers;
    the name it gets; the calls of the session that [Session] has as steps. *)
From S2P Require Import Prelude Ipc Effects Common Paths Fsutil DevInfo Settings Hostname Privilege Reader Instance VmNetwork Logs Stop.
From Stdlib Require Import Ascii.

(** ** UTF-8 ([String::from_utf8]) *)
Definition byte_in (lo hi : N) (c : ascii) : bool := ((lo <=? N_of_ascii c) && (N_of_ascii c <=? hi))%N.
Definition continuation : ascii → bool := byte_in 128 191.

(** The second byte of a sequence of three or four is limited by the first. *)
Definition second_ok (c d : ascii) : bool :=
  if bool_decide (N_of_ascii c = 224)%N then byte_in 160 191 d
  else if bool_decide (N_of_ascii c = 237)%N then byte_in 128 159 d
  else if bool_decide (N_of_ascii c = 240)%N then byte_in 144 191 d
  else if bool_decide (N_of_ascii c = 244)%N then byte_in 128 143 d
  else continuation d.

Fixpoint is_utf8 (s : string) : bool :=
  match s with
  | "" => true
  | String c s =>
      if byte_in 0 127 c then is_utf8 s
      else if byte_in 194 223 c then
        match s with String d s => continuation d && is_utf8 s | _ => false end
      else if byte_in 224 239 c then
        match s with String d (String x s) => second_ok c d && continuation x && is_utf8 s | _ => false end
      else if byte_in 240 244 c then
        match s with
        | String d (String x (String y s)) => second_ok c d && continuation x && continuation y && is_utf8 s
        | _ => false
        end
      else false
  end.

(** ** [run_mount] *)
Record NetworkEnv := mkNetworkEnv {
  rpcbind_running : bool;
  usable_loopback_ip : option Host;
  active_vm_hosts : gset string;
  net_helper : NetHelper;
}.
Definition NetworkEnv_default : NetworkEnv := mkNetworkEnv false None ∅ GvProxy.

Inductive MountCall :=
  | RemoveSocket (path : string)
  | RemoveLog (path : string)
  | InitLogFile (path : string)
  | ChownToInvoker (path : string) (uid gid : N)
  | RemoveKernelLog (path : string)
  | ForkWithCommPipe.

Record MountAnswers := {
  ma_port : PortCheck;                            (* 0.0.0.0:111 *)
  ma_config : outcome MountConfig;                (* [load_mount_config] *)
  ma_tmp : option (list (option string));         (* the names in /tmp *)
  ma_ask : string → outcome RuntimeInfo;          (* [get_runtime_info_from_socket] *)
  ma_entries : string → option (list Entry);      (* a directory of logs *)
  ma_do : MountCall → outcome unit;
}.

Section run_mount.
Context (e : MountAnswers).

#[local] Abbreviation M := (Effects.M (list MountCall)).
Definition call (c : MountCall) : M unit := λ s, (ma_do e c, s ++ [c]).
(** [let _ = fs::remove_file(..)] *)
Definition try_call (c : MountCall) : M unit := λ s, (Ok tt, s ++ [c]).

(** No disk, and no action that says what is exported instead. *)
Definition nothing_to_mount (config : MountConfig) : bool :=
  Str.is_empty (disk_path config) &&
  match get_action config with
  | Some action => Str.is_empty (override_nfs_export action)
  | None => true
  end.

Definition hosts_of (active_instances : list RuntimeInfo) : gset string :=
  list_to_set (List.filter is_utf8 (vm_host <$> active_instances)).

(** After the configuration is loaded. *)
Definition start_mount (rpcbind_running : bool) (config : MountConfig) : M (MountConfig * NetworkEnv) :=
  if nothing_to_mount config then
    lift (Err "mount with no disk isn't valid unless a custom action with NFS export override is specified")
  else
    let logs := logs (common config) in
    let '(active_instances, stale_sockets) :=
      collect_active_instances (ma_ask e) (discover_api_sockets (ma_tmp e)) in
    m_for (λ socket, try_call (RemoveSocket socket)) stale_sockets;;
    match path.parent (log_file_path logs) with
    | Some log_dir =>
        m_for (λ p, try_call (RemoveLog p)) (cleanup_old_logs log_dir (ma_entries e log_dir) active_instances)
    | None => mret tt
    end;;
    let network_env := mkNetworkEnv rpcbind_running None (hosts_of active_instances) GvProxy in
    m_context "Failed to create log file" (call (InitLogFile (log_file_path logs)));;
    call (ChownToInvoker (log_file_path logs) (invoker_uid (privilege (common config)))
            (invoker_gid (privilege (common config))));;
    try_call (RemoveKernelLog (kernel_log_file_path logs));;
    call ForkWithCommPipe;;
    mret (config, network_env).

Definition run_mount : M (MountConfig * NetworkEnv) :=
  let rpcbind_running := bool_decide (ma_port e = AddrInUse) in
  config ← lift (ma_config e); start_mount rpcbind_running config.
End run_mount.

(** ** The name of the VM ([mdns.rs]) *)
(** On macOS the record is registered or not; there is nothing on Linux. *)
Definition register_vm_record (os : TargetOS) (connection : outcome unit) (registered : outcome unit)
    (hostname : string) (vm_ip : Host) : outcome Host :=
  match os with
  | MacOS =>
      _ ← with_context "DNS service connection failed" connection;
      Ok (if is_ok registered then host.Hostname (hostname +:+ ".local") else vm_ip)
  | LinuxHost => Ok vm_ip
  end.

(** [Registration::wait_committed] *)
Definition wait_committed (os : TargetOS) (record : bool) (committed : outcome unit) : outcome unit :=
  match os with
  | MacOS => if record then with_context "Could not set DNS record for the VM" committed else Ok tt
  | LinuxHost => Ok tt
  end.

(** ** [wait_for_nfs_server] *)
(** What the reader of the console sends, [None] when it is gone; the addresses
    of the name; the connection to the port. *)
Definition wait_for_nfs_server {Addr} (notified : option NfsStatus) (committed : outcome unit)
    (resolve : outcome (list Addr)) (connect : Addr → outcome unit) : outcome NfsStatus :=
  nfs_ready ← ok_or "receiving on a closed channel" notified;
  match nfs_ready with
  | Ready _ =>
      _ ← committed;
      addrs ← resolve;
      addr ← ok_or "Failed to resolve VM host address" (head addrs);
      match connect addr with
      | Ok _ => Ok nfs_ready
      | Err _ => Ok (Failed None)
      | Panic => Panic
      end
  | Failed _ => Ok nfs_ready
  end.

(** [.unwrap_or(NfsStatus::Failed(None))] *)
Definition nfs_status (r : outcome NfsStatus) : NfsStatus :=
  match r with Ok s => s | _ => Failed None end.

(** ** The connection to the control server *)
Section ctrl.
Context (os : TargetOS) `{Codec vmctrl.Request} `{Codec vmctrl.Response}.
(** The other side of a connection, by the credentials that it is made with. *)
Context (server : Creds → ConnectEnv).

(** [EffectiveRootGuard] around the connection, on Linux. *)
Definition connect_elevated (config : Config) (vm_native_ip : option N) (c : Creds) :
    outcome (Endpoint * string) * Creds :=
  match os with
  | LinuxHost =>
      let '(guard, c') := acquire c in
      (connect_to_vm_ctrl_socket config vm_native_ip (server c'), drop_guard guard c')
  | MacOS => (connect_to_vm_ctrl_socket config vm_native_ip (server c), c)
  end.

(** The bytes written after the connection was made, if it was, and the result;
    [peer]: what the server answers to them. *)
Definition send_quit_cmd (config : Config) (vm_native_ip : option N) (peer : string → string) (c : Creds) :
    outcome unit * option string * Creds :=
  let '(stream, c) := connect_elevated config vm_native_ip c in
  match stream with
  | Ok _ =>
      match write_request "" vmctrl.Quit with
      | Ok sent => (_ ← read_response (A := vmctrl.Response) (peer sent); Ok tt, Some sent, c)
      | Err m => (Err m, Some "", c)
      | Panic => (Panic, Some "", c)
      end
  | Err m => (Err m, None, c)
  | Panic => (Panic, None, c)
  end.

(** The thread that waits for the report: what it passes on to the session. *)
Definition subscribe_to_vm_events (config : Config) (vm_native_ip : option N) (peer : string → string) (c : Creds) :
    option vmctrl.Report * option string * Creds :=
  let '(stream, c) := connect_elevated config vm_native_ip c in
  match stream with
  | Ok _ =>
      match write_request "" vmctrl.SubscribeEvents with
      | Ok sent =>
          match read_response (A := vmctrl.Response) (peer sent) with
          | Ok (vmctrl.ReportEvent info, _) => (Some info, Some sent, c)
          | _ => (None, Some sent, c)
          end
      | _ => (None, Some "", c)
      end
  | _ => (None, None, c)
  end.
End ctrl.

(** ** [NfsShareSetup::mount_subdirectories] *)
Definition additional_exports (share_path : string) (exports : list string) : list string :=
  List.filter (λ export_path, negb (bool_decide (export_path = share_path))) exports.
Definition subdirs_elevate (p : PrivilegeConfig) : bool :=
  bool_decide (sudo_uid p = None) && negb (bool_decide (invoker_uid p = 0%N)).

(** The mounts that follow, as a run of [mount_nfs_subdirs]; its failure is
    only printed. *)
Definition mount_subdirectories (vm_host_b : string) (share : NfsShareSetup) (config : MountConfig) (exports : list string)
    (mount_point : string) (t : list event) (ok : bool) : Prop :=
  mount_nfs_subdirs vm_host_b (share_path share) (additional_exports (share_path share) exports) mount_point
    (nfs_opts share) (subdirs_elevate (privilege (common config))) t ok.

(** ** A mount and the running instances *)
Section instances.
Context (e : MountAnswers) (config : MountConfig) (Hconfig : ma_config e = Ok config).
Abbreviation sockets := (discover_api_sockets (ma_tmp e)).
Abbreviation found := (collect_active_instances (ma_ask e) sockets).
Abbreviation own_log := (log_file_path (logs (common config))).

(** What may be removed. *)
Definition allowed (c : MountCall) : Prop :=
  match c with
  | RemoveSocket p => p ∈ found.2
  | RemoveLog p => ∃ log_dir, path.parent own_log = Some log_dir ∧
      p ∈ cleanup_old_logs log_dir (ma_entries e log_dir) found.1
  | _ => True
  end.
Definition only_allowed (s s' : list MountCall) : Prop := ∀ c, c ∈ s' → c ∈ s ∨ allowed c.
#[local] Instance only_allowed_preorder : PreOrder only_allowed.
Proof. split; [by left|]. intros s1 s2 s3 H1 H2 c [Hc|?]%H2; [by apply H1|by right]. Qed.

Lemma call_allowed c : allowed c → within only_allowed only_allowed (call e c).
Proof.
  intros Hc s. unfold call. destruct (ma_do e c); intros x [?| ->%list_elem_of_singleton]%elem_of_app; by auto.
Qed.
Lemma try_call_allowed c : allowed c → within only_allowed only_allowed (try_call c).
Proof. intros Hc s x [?| ->%list_elem_of_singleton]%elem_of_app; by auto. Qed.

Lemma run_mount_allowed c : c ∈ (run_mount e []).2 → allowed c.
Proof.
  intros Hc. assert (within only_allowed only_allowed (start_mount e (bool_decide (ma_port e = AddrInUse)) config)) as Hw.
  { unfold start_mount. destruct (nothing_to_mount config); [apply within_lift|].
    destruct found as [active stale] eqn:Ef. destruct (path.parent own_log) eqn:Ep.
    all: repeat first [apply try_call_allowed | apply call_allowed | within_step]; cbn [allowed]; rewrite ?Ef; cbn [fst snd]; eauto. }
  unfold run_mount, mbind, M_bind, lift in Hc. rewrite Hconfig in Hc.
  destruct (within_state _ _ [] Hw c Hc) as [?%elem_of_nil|?]; done.
Qed.

Lemma run_mount_Ok config' env s calls :
  run_mount e s = (Ok (config', env), calls) → config' = config ∧ active_vm_hosts env = hosts_of found.1.
Proof.
  unfold run_mount, start_mount. rewrite Hconfig. intros (c & s1 & [= <- <-] & Hr)%bind_Ok_inv.
  destruct (nothing_to_mount config); [done|]. destruct found as [active stale] eqn:Ef. inv_m. done.
Qed.

(** An instance that answers is found, and is not stale. *)
Lemma found_instance sock rt :
  sock ∈ sockets → ma_ask e sock = Ok rt → rt ∈ found.1 ∧ sock ∉ found.2.
Proof.
  intros Hs Ha. unfold collect_active_instances. cbn [fst snd]. split.
  - apply list_elem_of_omap. exists sock. by rewrite Ha.
  - intros [_ Hn]%list_elem_of_In%filter_In. by rewrite Ha in Hn.
Qed.


(** A mount that is refused has done nothing. *)
Lemma refused_mount_does_nothing s :
  nothing_to_mount config = true → run_mount e s =
    (Err "mount with no disk isn't valid unless a custom action with NFS export override is specified", s).
Proof. intros Hn. unfold run_mount, start_mount, mbind, M_bind, lift. by rewrite Hconfig, Hn. Qed.
End instances.

(** ** The server *)
(** The session takes the server for ready only when the agent said so and its
    port answers. *)
Lemma ready_means_reachable {Addr} notified committed resolve (connect : Addr → outcome unit) st :
  nfs_status (wait_for_nfs_server notified committed resolve connect) = Ready st →
  notified = Some (Ready st) ∧ committed = Ok tt ∧
  ∃ addr addrs, resolve = Ok (addr :: addrs) ∧ connect addr = Ok tt.
Proof.
  destruct notified as [[r|c]|]; [|done..]. destruct committed as [[]| |]; [|done..].
  destruct resolve as [[|a l]| |]; [done| |done..]. cbn. destruct (connect a) as [[]| |] eqn:Hc; [|done..].
  intros [= <-]. eauto 10.
Qed.

(** The exit code of a server that did not start gets through. *)
Lemma failure_reported {Addr} code committed resolve (connect : Addr → outcome unit) :
  nfs_status (wait_for_nfs_server (Some (Failed code)) committed resolve connect) = Failed code.
Proof. done. Qed.

(** ** The control connection *)
Section ctrl_facts.
Context `{CodecLaws vmctrl.Request} `{CodecLaws vmctrl.Response} (server : Creds → ConnectEnv).

(** On Linux the connection is made as root, and the user is back afterwards. *)
Lemma connect_elevated_linux config ip c :
  ruid c = 0%N → ∃ c', euid c' = 0%N ∧
    connect_elevated LinuxHost server config ip c = (connect_to_vm_ctrl_socket config ip (server c'), c).
Proof.
  intros Hr. unfold connect_elevated. destruct (acquire c) as [g c'] eqn:Ha.
  destruct (guard_restores c g c' Ha Hr) as [He Hd]. exists c'. by rewrite Hd.
Qed.

(** The command to quit reaches the agent as it was sent, when root may connect,
    and the report comes back. *)
Lemma quit_understood config ip c pre ep peer :
  fits vmctrl.Quit → ruid c = 0%N →
  (∀ c', euid c' = 0%N → connect_to_vm_ctrl_socket config ip (server c') = Ok (ep, pre)) →
  ∃ sent, send_quit_cmd LinuxHost server config ip peer c =
      (_ ← read_response (A := vmctrl.Response) (peer sent); Ok tt, Some sent, c) ∧
    read_request sent = Ok (vmctrl.Quit, "").
Proof.
  intros (s & Hs & Hne & Hmax) Hr Hconn. destruct (connect_elevated_linux config ip c Hr) as (c' & He & Hc).
  exists (to_be_bytes (len_u32 s) +:+ s). unfold send_quit_cmd. rewrite Hc, (Hconn c' He).
  assert (write_request "" vmctrl.Quit = Ok (to_be_bytes (len_u32 s) +:+ s)) as ->
    by (apply write_msg_Ok; by exists s).
  split; [done|]. unfold read_request. rewrite <-(StrFacts.app_nil_r s) at 2. by rewrite (read_msg_fits vmctrl.Quit s) by done.
Qed.

Lemma report_received config ip c pre ep peer report sent s :
  fits vmctrl.SubscribeEvents → ruid c = 0%N →
  (∀ c', euid c' = 0%N → connect_to_vm_ctrl_socket config ip (server c') = Ok (ep, pre)) →
  write_request "" vmctrl.SubscribeEvents = Ok sent →
  ser (vmctrl.ReportEvent report) = Ok s → s ≠ "" → (N.of_nat (String.length s) <= MAX_MSG_SIZE)%N →
  write_response "" (vmctrl.ReportEvent report) = Ok (peer sent) →
  subscribe_to_vm_events LinuxHost server config ip peer c = (Some report, Some sent, c).
Proof.
  intros Hfit Hr Hconn Hw Hs Hne Hmax Hpeer. destruct (connect_elevated_linux config ip c Hr) as (c' & He & Hc).
  unfold subscribe_to_vm_events. rewrite Hc, (Hconn c' He), Hw. apply write_msg_Ok in Hpeer as (s' & Hs' & ->).
  rewrite Hs in Hs'. injection Hs' as <-. unfold read_response. rewrite <-(StrFacts.app_nil_r s) at 2.
  change ("" +:+ to_be_bytes (len_u32 s) +:+ s +:+ "") with (to_be_bytes (len_u32 s) +:+ s +:+ "").
  by rewrite (read_msg_fits (vmctrl.ReportEvent report) s) by done.
Qed.
End ctrl_facts.

(** ** The further exports *)
Lemma elem_of_additional share_path exports x :
  x ∈ additional_exports share_path exports ↔ x ∈ exports ∧ x ≠ share_path.
Proof.
  unfold additional_exports. rewrite list_elem_of_In, filter_In, <-list_elem_of_In, negb_true_iff, bool_decide_eq_false. done.
Qed.

(** ** A mount beside an instance *)
Module Witness.
Definition config : MountConfig := Settings.Witness.sample_mount_config "/dev/sdb1".
(** It has the name that the new one would take. *)
Definition running : RuntimeInfo :=
  mkRuntimeInfo (Settings.Witness.sample_mount_config "/dev/sda1") DevInfo_default 100 101 99 "alfs.local" None None.

(** One socket answers, and one has been left behind. *)
Definition answers : MountAnswers := {|
  ma_port := AddrInUse; ma_config := Ok config;
  ma_tmp := Some [Some "anylinuxfs-a.sock"; None; Some "anylinuxfs-b.sock"];
  ma_ask sock := if decide (sock = "/tmp/anylinuxfs-a.sock") then Ok running else Err "connection refused";
  ma_entries _ := Some [mkEntry (Some "anylinuxfs-1.log") (Some 5%N)];
  ma_do _ := Ok tt |}.

Definition calls : list MountCall := (run_mount answers []).2.
Lemma answers_run : run_mount answers [] = ((run_mount answers []).1, calls).
Proof. apply surjective_pairing. Qed.
Lemma running_listed : "/tmp/anylinuxfs-a.sock" ∈ discover_api_sockets (ma_tmp answers).
Proof. apply (bool_decide_unpack _). vm_compute. reflexivity. Qed.
Lemma entries_plain dir es :
  ma_entries answers dir = Some es → NoDup (omap e_name es) ∧ Forall (λ n, StrFacts.lacks "/" n = true) (omap e_name es).
Proof. intros [= <-]. split; apply (bool_decide_unpack _); vm_compute; reflexivity. Qed.


(** The socket left behind is removed, and the name is avoided. *)
Example mount_calls :
  calls = [RemoveSocket "/tmp/anylinuxfs-b.sock"; InitLogFile "/home/u/l.log"; ChownToInvoker "/home/u/l.log" 1000 1000;
           RemoveKernelLog "/home/u/k.log"; ForkWithCommPipe] ∧
  (λ r, pick_unique_hostname (vm_hostname r.1) (active_vm_hosts r.2)) <$> (run_mount answers []).1 = Ok (Some (Ok "alfs-1")).
Proof. split; vm_compute; reflexivity. Qed.

Example utf8_text : is_utf8 "alfs.local" = true ∧ is_utf8 (String "195" (String "169" "")) = true ∧
  is_utf8 (String "192" (String "128" "")) = false ∧ is_utf8 (String "237" (String "160" (String "128" ""))) = false.
Proof. vm_compute. done. Qed.
End Witness.
