(* ===== verification/KrunVm.v ===== *)
(** * Setting up and running a VM ([vm.rs])

    The calls to libkrun in their order ([setup_vm], [start_vmproxy],
    [set_vm_cmdline]), the temporary files of the key and of the command line,
    short commands in a VM and the reading of their output through two pipes
    ([run_vmcommand_short]). *)
From S2P Require Import Prelude Effects Common Settings DevInfo Setup VmNetwork.

(** ** Calls to libkrun *)
Inductive Call :=
| CreateCtx | SetLogLevel (level : N) | SetVmConfig (vcpus ram_mib : N)
| DisableImplicitConsole | AddSerialConsole (in_fd out_fd : N)
| SetUid (uid : N) | SetGid (gid : N) | SetRoot (path : string) | AddDisk2 (d : VmDisk)
| SetGvproxyPath (path : string) | AddNetUnixgram (path : string) (features : N)
| VsockCleanup (path : string) | AddVsockPort (port : N) (path : string) (listen : bool)
| SetWorkdir (path : string) | SetKernel (path cmdline : string)
| AddOverlayFile (fs_tag path content : string) (mode : N)
| AddDisk (id path : string) (read_only : bool) | StartEnter.

(** Calls on temporary files, which all lie below [dir]. *)
Inductive FsCall :=
| CreateDirAll (dir : string) | Copy (src dir name : string) | Write (dir name content : string)
| CreateIso (dir name : string) (files : list string) (label : string)
| SetMode (dir name : string) (mode : N) | Open (dir name : string) | RemoveDirAll (dir : string).

Inductive NetworkMode := NetDefault | NetGvProxy | NetVmNet.

Definition default_for_os (os : OSType) : NetworkMode :=
  match os with FreeBSD => NetVmNet | Linux => NetDefault end.
Definition default_virtio_net (net_helper : NetHelper) : NetworkMode :=
  match net_helper with GvProxy => NetGvProxy | VmNet => NetVmNet end.

Record VMContext := mkVMContext { ctx_os : OSType; vm_native_cidr : option Ipv4Net }.
Definition set_vm_native_cidr (ctx : VMContext) (cidr : option Ipv4Net) : VMContext :=
  mkVMContext (ctx_os ctx) cidr.

(** *** Options *)
Definition read_only_disks (o : VMOpts) (value : bool) : VMOpts :=
  mkVMOpts value (Setup.read_only_disk_prefix_len o) (root_device o) (read_only_root o) (legacy_console o).
Definition with_read_only_disk_prefix_len (o : VMOpts) (value : nat) : VMOpts :=
  mkVMOpts (add_disks_ro o) value (root_device o) (read_only_root o) (legacy_console o).
Definition with_read_only_root (o : VMOpts) (value : bool) : VMOpts :=
  mkVMOpts (add_disks_ro o) (Setup.read_only_disk_prefix_len o) (root_device o) value (legacy_console o).
Definition with_root_device (o : VMOpts) (device : string) : VMOpts :=
  mkVMOpts (add_disks_ro o) (Setup.read_only_disk_prefix_len o) (Some device) (read_only_root o) (legacy_console o).
Definition with_legacy_console (o : VMOpts) (value : bool) : VMOpts :=
  mkVMOpts (add_disks_ro o) (Setup.read_only_disk_prefix_len o) (root_device o) (read_only_root o) value.

(** ** Effects *)
(** What has been called, and the temporary directories that exist. *)
Record St := mkSt { calls : list Call; dirs : gset string }.
Abbreviation M := (Effects.M St).

Section krun.
(** The results of the calls. *)
Context (krun : Call → outcome unit) (fs : FsCall → outcome unit).

Definition call (c : Call) : M unit :=
  λ st, (krun c, mkSt (calls st ++ [c]) (dirs st)).

(** A directory exists from its creation to its removal. *)
Definition file (c : FsCall) : M unit :=
  λ st, (fs c,
    match c, fs c with
    | CreateDirAll d, Ok _ => mkSt (calls st) ({[d]} ∪ dirs st)
    | RemoveDirAll d, Ok _ => mkSt (calls st) (dirs st ∖ {[d]})
    | _, _ => st
    end).

(** [CString::new(..).unwrap()] *)
Definition cstring (s : string) : M string :=
  lift (if Str.has_nul s then Panic else Ok s).

(** ** [setup_vm] *)
Definition NET_FEATURE_CSUM : N := N.shiftl 1 0.
Definition NET_FEATURE_GUEST_CSUM : N := N.shiftl 1 1.
Definition NET_FEATURE_GUEST_TSO4 : N := N.shiftl 1 7.
Definition NET_FEATURE_GUEST_UFO : N := N.shiftl 1 10.
Definition NET_FEATURE_HOST_TSO4 : N := N.shiftl 1 11.
Definition NET_FEATURE_HOST_UFO : N := N.shiftl 1 14.
Definition COMPAT_NET_FEATURES : N :=
  N.lor (N.lor (N.lor (N.lor (N.lor NET_FEATURE_CSUM NET_FEATURE_GUEST_CSUM)
    NET_FEATURE_GUEST_TSO4) NET_FEATURE_GUEST_UFO) NET_FEATURE_HOST_TSO4) NET_FEATURE_HOST_UFO.

Definition net_features (target : TargetOS) (config : Config) : N :=
  match target with
  | MacOS =>
      if config_vmnet_offloading (net config) && bool_decide (Settings.os (kernel config) = Linux)
      then COMPAT_NET_FEATURES else 0
  | LinuxHost => 0
  end.

Definition apply_krun_priv_drop (target : TargetOS) (config : Config) : M unit :=
  match target with
  | LinuxHost => mret tt
  | MacOS =>
      match sudo_uid (privilege config) with
      | Some uid => m_context "Failed to set vmm uid" (call (SetUid uid))
      | None => mret tt
      end;;
      match sudo_gid (privilege config) with
      | Some gid => m_context "Failed to set vmm gid" (call (SetGid gid))
      | None => mret tt
      end
  end.

(** The port at which the VM's agent listens, by vsock. *)
Definition vsock_port : N := 12700.

Fixpoint add_disks (ds : list VmDisk) : M unit :=
  match ds with
  | [] => mret tt
  | d :: ds =>
      cstring (disk_file d);;
      m_context "Failed to add disk" (call (AddDisk2 d));;
      add_disks ds
  end.

Definition setup_network (target : TargetOS) (config : Config) (net_mode : NetworkMode) : M unit :=
  match net_mode with
  | NetGvProxy =>
      path ← cstring (unixgram_sock_path (net config));
      m_context "Failed to set gvproxy path" (call (SetGvproxyPath path))
  | NetVmNet =>
      path ← cstring (unixgram_sock_path (net config));
      m_context "Failed to add vmnet socket" (call (AddNetUnixgram path (net_features target config)))
  | NetDefault => mret tt
  end.

(** [first]: whether [KRUN_LOG_LEVEL_INIT] has not run in this process. *)
Definition setup_vm (target : TargetOS) (first : bool) (config : Config) (dev_info : list DevInfo)
    (net_mode : NetworkMode) (use_vsock : bool) (opts : VMOpts) : M VMContext :=
  m_context "Failed to create context" (call CreateCtx);;
  (if first then λ st, (Ok tt, (call (SetLogLevel (krun_log_level_numeric (preferences config))) st).2)
   else mret tt);;
  m_context "Failed to set VM config"
    (call (SetVmConfig (krun_num_vcpus (preferences config)) (krun_ram_size_mib (preferences config))));;
  (if legacy_console opts then
     m_context "Failed to disable implicit console" (call DisableImplicitConsole);;
     m_context "Failed to add serial console" (call (AddSerialConsole 0 1))
   else mret tt);;
  apply_krun_priv_drop target config;;
  (if bool_decide (root_device opts = None) then
     root ← cstring (root_path (paths config));
     m_context "Failed to set root" (call (SetRoot root))
   else mret tt);;
  add_disks (vm_disks opts dev_info);;
  setup_network target config net_mode;;
  call (VsockCleanup (vsock_path (net config)));;
  (if (use_vsock : bool) then
     path ← cstring (vsock_path (net config));
     m_context "Failed to add vsock port" (call (AddVsockPort vsock_port path true))
   else mret tt);;
  m_context "Failed to set workdir" (call (SetWorkdir "/"));;
  cmdline ← lift (kernel_cmdline (Settings.os (kernel config)) opts);
  cmdline ← cstring cmdline;
  path ← cstring (kernel_path (kernel config));
  m_context "Failed to set kernel" (call (SetKernel path cmdline));;
  mret (mkVMContext (Settings.os (kernel config)) None).

(** ** The command line of the VM *)
(** [serde_json] of the arguments and the environment. *)
Context (krun_config_json : list string → list string → outcome string).

(** [tmp_dir] ends in random characters, [iso_fd] is the open image. *)
Definition config_iso (tmp_dir : string) (iso_fd : N) (krun_config : string) : M unit :=
  m_context ("Failed to write krun config file " +:+ tmp_dir +:+ "/krun_config.json")
    (file (Write tmp_dir "krun_config.json" krun_config));;
  m_context "Failed to create ISO image for krun config"
    (file (CreateIso tmp_dir "krun_config.iso" ["krun_config.json"] "KRUN_CONFIG"));;
  file (Open tmp_dir "krun_config.iso");;
  m_context "Failed to add disk" (call (AddDisk "config" ("/dev/fd/" +:+ Str.of_N iso_fd) true)).

Definition set_vm_cmdline (tmp_dir : string) (iso_fd : N) (ctx : VMContext) (args env : list string) :
    M unit :=
  krun_config ← m_context "Failed to serialize krun config" (lift (krun_config_json args env));
  match ctx_os ctx with
  | Linux =>
      m_context "Failed to add krun config overlay file"
        (call (AddOverlayFile "/dev/root" ".krun_config.json" krun_config 33152))
  | FreeBSD =>
      m_context "Failed to create krun config temp directory" (file (CreateDirAll tmp_dir));;
      finally (config_iso tmp_dir iso_fd krun_config) (file (RemoveDirAll tmp_dir))
  end.

(** ** The key file *)
Record PreparedKeyFile := mkPreparedKeyFile { kf_args : list string; kf_iso : option N }.
Definition PreparedKeyFile_none : PreparedKeyFile := mkPreparedKeyFile [] None.

(** For FreeBSD: [iso_fd] is the image, open when its directory is removed. *)
Definition key_file_iso (tmp_dir : string) (iso_fd : N) (key_file : string) : M PreparedKeyFile :=
  m_context "Failed to create key file temp directory" (file (CreateDirAll tmp_dir));;
  m_context ("Failed to copy key file to temp dir: " +:+ tmp_dir +:+ "/keyfile")
    (file (Copy key_file tmp_dir "keyfile"));;
  m_context "Failed to create ISO image for key file"
    (file (CreateIso tmp_dir "keyfile.iso" ["keyfile"] "ALFS_KEYFILE"));;
  m_context "Failed to set permissions on key file ISO" (file (SetMode tmp_dir "keyfile.iso" 384));;
  m_context "Failed to open key file ISO" (file (Open tmp_dir "keyfile.iso"));;
  m_context ("Failed to remove key file temp directory " +:+ tmp_dir) (file (RemoveDirAll tmp_dir));;
  mret (mkPreparedKeyFile [] (Some iso_fd)).

(** ** Starting *)
(** [krun_start_enter] returns only when it fails. *)
Definition enter : M unit := m_context "Failed to start VM" (call StartEnter).

Definition start_vm (tmp_dir : string) (iso_fd : N) (ctx : VMContext) (cmdline env : list string) : M unit :=
  set_vm_cmdline tmp_dir iso_fd ctx cmdline env;; enter.

(** [args] are those of [Setup.vmproxy_args]. *)
Definition start_vmproxy (tmp_dir : string) (iso_fd : N) (ctx : VMContext) (args : outcome (list string))
    (env : list string) (prepared_key_file : PreparedKeyFile) (before_start : outcome unit) : M unit :=
  args ← lift args;
  match kf_iso prepared_key_file with
  | Some fd =>
      m_context "Failed to attach key file disk to VM"
        (call (AddDisk "keyfile" ("/dev/fd/" +:+ Str.of_N fd) true))
  | None => mret tt
  end;;
  set_vm_cmdline tmp_dir iso_fd ctx args env;;
  m_context "Before start callback failed" (lift before_start);;
  enter.
End krun.

(** ** The limit of open files *)
(** The soft and the hard limit; [setrlimit] refuses a soft limit above the
    hard one. *)
Record rlimit := mkRlimit { rlim_cur : N; rlim_max : N }.
Definition RLIMIT : N := 1048575.

Definition setrlimit (old new : rlimit) : rlimit :=
  if decide (rlim_cur new ≤ rlim_max old)%N then new else old.

Definition raise_nofile_limit (rl : rlimit) : rlimit :=
  if decide (rlim_cur rl < RLIMIT)%N then setrlimit rl (mkRlimit RLIMIT (rlim_max rl)) else rl.

Lemma raise_nofile_limit_spec rl :
  (rlim_cur rl ≤ rlim_max rl)%N →
  raise_nofile_limit rl =
    (if decide (RLIMIT ≤ rlim_max rl)%N then mkRlimit (N.max (rlim_cur rl) RLIMIT) (rlim_max rl) else rl).
Proof.
  intros Hrl. unfold raise_nofile_limit, setrlimit. destruct rl as [cur max]; cbn in *.
  repeat case_decide; try done; f_equal; lia.
Qed.

(** A hard limit below what is asked for: the soft limit stays as it was. *)
Lemma low_hard_limit_keeps rl :
  (rlim_max rl < RLIMIT)%N → raise_nofile_limit rl = rl.
Proof.
  intros Hm. unfold raise_nofile_limit, setrlimit. cbn.
  repeat case_decide; try done; lia.
Qed.

(** ** What [setup_vm] calls *)
Section facts.
Context (krun : Call → outcome unit) (fs : FsCall → outcome unit).

Definition worked (c : Call) : Prop := krun c = Ok tt ∨ ∃ l, c = SetLogLevel l.

(** From [st] to [st'], exactly the calls [cs] were made and worked. *)
Definition made (st st' : St) (cs : list Call) : Prop :=
  calls st' = calls st ++ cs ∧ dirs st' = dirs st ∧ Forall worked cs.

Lemma made_nil st : made st st [].
Proof. split_and!; [by rewrite app_nil_r|done|constructor]. Qed.
Lemma made_app st1 st2 st3 cs1 cs2 : made st1 st2 cs1 → made st2 st3 cs2 → made st1 st3 (cs1 ++ cs2).
Proof.
  intros (H1 & D1 & F1) (H2 & D2 & F2).
  split_and!; [by rewrite H2, H1, app_assoc|congruence|by apply Forall_app].
Qed.
Lemma made_call c st a st' : call krun c st = (Ok a, st') → made st st' [c].
Proof.
  unfold call. intros [= Hk <-]. split_and!; [done..|]. constructor; [|constructor].
  left. by destruct a.
Qed.
Lemma made_cstring s st a st' : cstring s st = (Ok a, st') → st' = st ∧ a = s.
Proof. unfold cstring, lift. destruct (Str.has_nul s); [done|]. by intros [= <- <-]. Qed.

Lemma made_add_disks ds st a st' : add_disks krun ds st = (Ok a, st') → made st st' (AddDisk2 <$> ds).
Proof.
  revert st; induction ds as [|d ds IH]; intros st; cbn [add_disks fmap list_fmap].
  - intros [= <- <-]. apply made_nil.
  - intros H. inv_m. apply made_cstring in H0 as [-> ->].
    apply (made_app _ st1 _ [AddDisk2 d]); [by eapply made_call|by apply IH].
Qed.

(** The calls of a setup, in their order. *)
Definition setup_calls (target : TargetOS) (first : bool) (config : Config) (dev_info : list DevInfo)
    (net_mode : NetworkMode) (use_vsock : bool) (opts : VMOpts) (cmdline : string) : list Call :=
  let c (b : bool) (l : list Call) := if b then l else [] in
  [CreateCtx] ++
  c first [SetLogLevel (krun_log_level_numeric (preferences config))] ++
  [SetVmConfig (krun_num_vcpus (preferences config)) (krun_ram_size_mib (preferences config))] ++
  c (legacy_console opts) [DisableImplicitConsole; AddSerialConsole 0 1] ++
  (match target with
   | MacOS => option_list (SetUid <$> sudo_uid (privilege config)) ++
              option_list (SetGid <$> sudo_gid (privilege config))
   | LinuxHost => []
   end) ++
  c (bool_decide (root_device opts = None)) [SetRoot (root_path (paths config))] ++
  (AddDisk2 <$> vm_disks opts dev_info) ++
  (match net_mode with
   | NetGvProxy => [SetGvproxyPath (unixgram_sock_path (net config))]
   | NetVmNet => [AddNetUnixgram (unixgram_sock_path (net config)) (net_features target config)]
   | NetDefault => []
   end) ++
  [VsockCleanup (vsock_path (net config))] ++
  c use_vsock [AddVsockPort vsock_port (vsock_path (net config)) true] ++
  [SetWorkdir "/"; SetKernel (kernel_path (kernel config)) cmdline].

Lemma made_priv_drop target config st a st' :
  apply_krun_priv_drop krun target config st = (Ok a, st') →
  made st st' (match target with
   | MacOS => option_list (SetUid <$> sudo_uid (privilege config)) ++
              option_list (SetGid <$> sudo_gid (privilege config))
   | LinuxHost => []
   end).
Proof.
  destruct target; cbn [apply_krun_priv_drop]; [|intros [= _ <-]; apply made_nil].
  intros H. inv_m. apply (made_app _ st0 _); [clear H|clear H0].
  - destruct (sudo_uid _); inv_m; [by eapply made_call|apply made_nil].
  - destruct (sudo_gid _); inv_m; [by eapply made_call|apply made_nil].
Qed.

Lemma made_network target config net_mode st a st' :
  setup_network krun target config net_mode st = (Ok a, st') →
  made st st' (match net_mode with
   | NetGvProxy => [SetGvproxyPath (unixgram_sock_path (net config))]
   | NetVmNet => [AddNetUnixgram (unixgram_sock_path (net config)) (net_features target config)]
   | NetDefault => []
   end).
Proof.
  destruct net_mode; cbn [setup_network]; intros H; inv_m; try apply made_nil;
    apply made_cstring in H0 as [-> ->]; by eapply made_call.
Qed.

Lemma made_if (b : bool) (m : M unit) cs st a st' :
  (if b then m else mret tt) st = (Ok a, st') →
  (∀ a, m st = (Ok a, st') → made st st' cs) → made st st' (if b then cs else []).
Proof. destruct b; intros H Hm; [by eapply Hm|]. inv_m. apply made_nil. Qed.

Lemma made_log_level (first : bool) l st a st' :
  (if first then (λ st, (Ok tt, (call krun (SetLogLevel l) st).2)) : M unit else mret tt) st = (Ok a, st') →
  made st st' (if first then [SetLogLevel l] else []).
Proof.
  intros H. eapply made_if; [exact H|]. intros ? [= _ <-].
  split_and!; [done..|]. constructor; [|constructor]. right. eauto.
Qed.

(** A setup that succeeds has made exactly these calls, and all worked. *)
Lemma setup_vm_made target first config dev_info net_mode use_vsock opts st ctx st' :
  setup_vm krun target first config dev_info net_mode use_vsock opts st = (Ok ctx, st') →
  ∃ cmdline, kernel_cmdline (Settings.os (kernel config)) opts = Ok cmdline ∧
    ctx = mkVMContext (Settings.os (kernel config)) None ∧
    made st st' (setup_calls target first config dev_info net_mode use_vsock opts cmdline).
Proof.
  unfold setup_vm, setup_calls. cbv zeta. intros H. inv_m.
  repeat match goal with
  | H : call krun _ _ = (Ok _, _) |- _ => apply made_call in H
  | H : cstring _ _ = (Ok _, _) |- _ => apply made_cstring in H as [-> ->]
  | H : apply_krun_priv_drop _ _ _ _ = (Ok _, _) |- _ => apply made_priv_drop in H
  | H : add_disks _ _ _ = (Ok _, _) |- _ => apply made_add_disks in H
  | H : setup_network _ _ _ _ _ = (Ok _, _) |- _ => apply made_network in H
  end.
  eexists. split_and!; [done..|].
  change [SetWorkdir "/"; ?c] with ([SetWorkdir "/"] ++ [c]).
  repeat match goal with
  | |- made _ _ (_ ++ _) => eapply made_app; [first [eassumption | by eapply made_log_level]|]
  | |- made _ _ (_ ++ _) => eapply made_app;
      [eapply made_if; [eassumption|]; intros ? Hb; cbv beta in Hb; inv_m;
       repeat match goal with
       | H : call krun _ _ = (Ok _, _) |- _ => apply made_call in H
       | H : cstring _ _ = (Ok _, _) |- _ => apply made_cstring in H as [-> ->]
       end|]
  end; try eassumption.
  eapply (made_app _ _ _ [DisableImplicitConsole]); eassumption.
Qed.

(** The disks of the VM are the devices in their order: the [i]-th is what the
    agent finds under the [i]-th name of a disk. *)
Definition disk_of (c : Call) : option VmDisk := match c with AddDisk2 d => Some d | _ => None end.

Definition disks_of (cs : list Call) : list VmDisk := omap disk_of cs.

Lemma disks_of_app cs cs' : disks_of (cs ++ cs') = disks_of cs ++ disks_of cs'.
Proof. apply omap_app. Qed.

Lemma setup_calls_disks target first config dev_info net_mode use_vsock opts cmdline :
  disks_of (setup_calls target first config dev_info net_mode use_vsock opts cmdline) =
    vm_disks opts dev_info.
Proof.
  unfold setup_calls. rewrite !disks_of_app.
  assert (Hd : ∀ ds, disks_of (AddDisk2 <$> ds) = ds).
  { induction ds as [|d ds IH]; [done|].
    change (disks_of (AddDisk2 <$> d :: ds)) with (d :: disks_of (AddDisk2 <$> ds)). by rewrite IH. }
  rewrite Hd. clear Hd.
  assert (∀ b l, disks_of l = [] → disks_of (if b : bool then l else []) = []) as Hc
    by by intros [].
  rewrite !Hc by done.
  assert (disks_of (match target with
    | MacOS => option_list (SetUid <$> sudo_uid (privilege config)) ++
               option_list (SetGid <$> sudo_gid (privilege config))
    | LinuxHost => []
    end) = []) as ->
    by (destruct target, (sudo_uid (privilege config)), (sudo_gid (privilege config)); done).
  assert (disks_of (match net_mode with
    | NetGvProxy => [SetGvproxyPath (unixgram_sock_path (net config))]
    | NetVmNet => [AddNetUnixgram (unixgram_sock_path (net config)) (net_features target config)]
    | NetDefault => []
    end) = []) as -> by by destruct net_mode.
  cbn [disks_of omap list_omap disk_of app]. by rewrite app_nil_r.
Qed.

Lemma setup_calls_socket target first config dev_info net_mode opts cmdline :
  ∃ before, setup_calls target first config dev_info net_mode true opts cmdline =
    before ++ [VsockCleanup (vsock_path (net config));
               AddVsockPort vsock_port (vsock_path (net config)) true;
               SetWorkdir "/"; SetKernel (kernel_path (kernel config)) cmdline].
Proof.
  unfold setup_calls. cbv zeta. eexists. rewrite !app_assoc.
  rewrite <-(app_assoc _ [AddVsockPort _ _ _]), <-(app_assoc _ [VsockCleanup _]). reflexivity.
Qed.


(** ** Temporary directories *)
Lemma call_dirs c st : dirs (call krun c st).2 = dirs st.
Proof. done. Qed.

Lemma context_dirs {A} msg (m : M A) st : dirs (m_context msg m st).2 = dirs (m st).2.
Proof. unfold m_context. by destruct (m st). Qed.

Lemma bind_dirs {A B} (m : M A) (f : A → M B) st D :
  dirs (m st).2 = D → (∀ a st', dirs st' = D → dirs (f a st').2 = D) → dirs ((m ≫= f) st).2 = D.
Proof. unfold mbind, M_bind. intros Hm Hf. destruct (m st) as [[a|e|] st']; [by apply Hf|done..]. Qed.

Lemma file_dirs c st :
  (∀ d, c ≠ CreateDirAll d ∧ c ≠ RemoveDirAll d) → dirs (file fs c st).2 = dirs st.
Proof. intros Hc. unfold file. destruct c, (fs _); cbn; naive_solver. Qed.

Lemma config_iso_dirs d fd s st : dirs (config_iso krun fs d fd s st).2 = dirs st.
Proof.
  unfold config_iso. repeat (apply bind_dirs; [|intros _ ? <-]);
    rewrite ?context_dirs, ?call_dirs, ?file_dirs by by intros.
  all: done.
Qed.

Section tmp_dirs.
Context (json : list string → list string → outcome string) (d : string) (fd : N).
Hypothesis Hrm : fs (RemoveDirAll d) = Ok tt.

(** The directory of the command line is gone at the end, whatever failed. *)
Lemma set_vm_cmdline_dirs ctx args env st :
  d ∉ dirs st → dirs (set_vm_cmdline krun fs json d fd ctx args env st).2 = dirs st.
Proof.
  intros Hd. unfold set_vm_cmdline. apply bind_dirs; [by rewrite context_dirs|].
  intros s st1 Hs. destruct (ctx_os ctx); [by rewrite context_dirs, call_dirs|].
  unfold mbind at 1, M_bind at 1. unfold m_context, file at 1. rewrite <-Hs in Hd.
  destruct (fs (CreateDirAll d)) as [[]|e|]; cbn [with_context snd]; [|done..].
  unfold finally. destruct (config_iso krun fs d fd s _) as [r st2] eqn:E.
  assert (D : dirs st2 = {[d]} ∪ dirs st1).
  { change st2 with (r, st2).2. rewrite <-E, config_iso_dirs. done. }
  cbn [snd]. unfold file. rewrite Hrm. cbn [snd dirs]. rewrite D, <-Hs. set_solver.
Qed.

Lemma start_vm_dirs ctx cmdline env st :
  d ∉ dirs st → dirs (start_vm krun fs json d fd ctx cmdline env st).2 = dirs st.
Proof.
  intros Hd. unfold start_vm, enter. apply bind_dirs; [by apply set_vm_cmdline_dirs|].
  intros _ st' <-. by rewrite context_dirs, call_dirs.
Qed.

Lemma start_vmproxy_dirs ctx args env pk before st :
  d ∉ dirs st → dirs (start_vmproxy krun fs json d fd ctx args env pk before st).2 = dirs st.
Proof.
  intros Hd. unfold start_vmproxy. apply bind_dirs; [done|]. intros a st1 H1.
  apply bind_dirs. { destruct (kf_iso pk); [by rewrite context_dirs, call_dirs|done]. }
  intros _ st2 H2. apply bind_dirs. { rewrite set_vm_cmdline_dirs; [done|]. by rewrite H2. }
  intros _ st3 H3. apply bind_dirs; [by rewrite context_dirs|].
  intros _ st4 H4. unfold enter. by rewrite context_dirs, call_dirs.
Qed.

(** The directory with the copy of the key is removed only on success: when
    making the image fails, the copy stays in [/tmp]. *)
Lemma key_file_iso_dirs key st k st' :
  d ∉ dirs st → key_file_iso fs d fd key st = (Ok k, st') → dirs st' = dirs st.
Proof.
  unfold key_file_iso. intros Hd H. inv_m. unfold file in *.
  destruct (fs (CreateDirAll d)); simplify_eq; cbn [dirs].
  rewrite Hrm in *. simplify_eq. cbn [dirs]. set_solver.
Qed.

Lemma key_copy_left key st e :
  fs (CreateDirAll d) = Ok tt → fs (Copy key d "keyfile") = Ok tt →
  fs (CreateIso d "keyfile.iso" ["keyfile"] "ALFS_KEYFILE") = Err e →
  ∃ e', key_file_iso fs d fd key st = (Err e', mkSt (calls st) ({[d]} ∪ dirs st)).
Proof.
  intros H1 H2 H3. unfold key_file_iso, mbind, M_bind, m_context, file.
  rewrite H1; cbn. rewrite H2; cbn. rewrite H3; cbn. by eexists.
Qed.
End tmp_dirs.
End facts.

(** ** A Linux VM on gvproxy *)
Module Witness.
Definition disks : list DevInfo := [DevInfo_default; DevInfo_default].
Definition all_work (_ : Call) : outcome unit := Ok tt.
Definition config : Config := Settings.Witness.sample_config.
Definition start : St := mkSt [] ∅.

Definition result : outcome VMContext * St :=
  setup_vm all_work MacOS true config disks NetGvProxy true VMOpts_new start.


(** A VM without a root device cannot run FreeBSD; the calls before that were
    made. *)
Definition bsd : Config := {|
  paths := paths config; logs := logs config; net := net config; privilege := privilege config;
  kernel := {| Settings.os := FreeBSD; kernel_path := "/kernel" |};
  cfg_passphrase_config := cfg_passphrase_config config; rw_rootfs := rw_rootfs config;
  cfg_zfs_os := cfg_zfs_os config; preferences := preferences config |}.
Example freebsd_needs_root_device :
  (setup_vm all_work MacOS true bsd disks NetVmNet false VMOpts_new start).1 =
    Err "root device must be specified for FreeBSD".
Proof. vm_compute. reflexivity. Qed.
End Witness.
