(* ===== verification/VmCommand.v ===== *)
(** * Short commands in a VM ([vm.rs] [run_vmcommand_short])

    A forked child becomes the VM, with its standard output and error on two
    pipes; the parent reads the first pipe to its end, then the second, then
    waits.  The two processes are a transition system over the pipes, whose
    capacity is finite. *)
From Stdlib Require Import Ascii.
From S2P Require Import Prelude Effects Common Settings DevInfo Setup Exit Lsblk ListFmt Volumes KrunVm.

(** ** Reading to the end *)
(** The results of [read] until the end of the pipe. *)
Inductive Read := Bytes (s : list ascii) | Interrupted | ReadError (e : string).

Fixpoint read_all_from_fd (output : list ascii) (reads : list Read) : outcome (list ascii) :=
  match reads with
  | [] => Ok output
  | Bytes [] :: _ => Ok output
  | Bytes s :: reads => read_all_from_fd (output ++ s) reads
  | Interrupted :: reads => read_all_from_fd output reads
  | ReadError e :: _ => with_context "Failed to read from pipe" (Err e)
  end.

(** ** The parent and the child *)
Record VMOutput := mkVMOutput { status : Z; stdout : list ascii; stderr : list ascii }.

(** The fork, [process_stdin] (when there is one), the reads and [waitpid]. *)
Definition run_vmcommand_parent (process_stdin : option (outcome unit)) (out err : list Read)
    (waitpid : outcome Z) : outcome VMOutput :=
  _ ← match process_stdin with Some r => r | None => Ok tt end;
  stdout ← read_all_from_fd [] out;
  stderr ← read_all_from_fd [] err;
  status ← with_context "Failed to wait for child process" waitpid;
  Ok (mkVMOutput (to_exit_code status) stdout stderr).

(** What the call returns in the child, if it returns: its first error, or the
    panic of [unreachable]. *)
Definition run_vmcommand_child (setup : M VMContext) (start : VMContext → M unit) : outcome VMOutput :=
  match (ctx ← setup; start ctx) (mkSt [] ∅) with
  | (Ok _, _) => Panic
  | (Err e, _) => Err e
  | (Panic, _) => Panic
  end.

(** ** The pipes *)
Inductive Fd := Out | Err_.
#[global] Instance Fd_eq_dec : EqDecision Fd.
Proof. solve_decision. Defined.

(** What the parent does, with what it has read. *)
Inductive Phase :=
| ReadOut (out : list ascii)
| ReadErr (out err : list ascii)
| Waiting (out err : list ascii)
| Finished (out err : list ascii).

(** [todo]: the bytes that the VM has still to write. *)
Record State := mkState { todo : list (Fd * ascii); out_buf : list ascii; err_buf : list ascii; phase : Phase }.

Definition buf (s : State) (fd : Fd) : list ascii := match fd with Out => out_buf s | Err_ => err_buf s end.
Definition set_buf (s : State) (fd : Fd) (b : list ascii) (todo : list (Fd * ascii)) (p : Phase) : State :=
  match fd with
  | Out => mkState todo b (err_buf s) p
  | Err_ => mkState todo (out_buf s) b p
  end.

Section pipes.
(** The capacity of a pipe, and the size of the buffer of a read. *)
Context (cap : nat).
Definition read_size : nat := 1024.

(** The VM writes when there is room, and ends when it has written all; a read
    returns what is there, up to the size of the buffer, and the end when the VM
    has ended. *)
Inductive step : State → State → Prop :=
| VmWrites fd c rest s :
    todo s = (fd, c) :: rest → length (buf s fd) < cap →
    step s (set_buf s fd (buf s fd ++ [c]) rest (phase s))
| ReadsOut n o s :
    phase s = ReadOut o → 0 < n ≤ read_size → n ≤ length (out_buf s) →
    step s (set_buf s Out (drop n (out_buf s)) (todo s) (ReadOut (o ++ take n (out_buf s))))
| EndOfOut o s :
    phase s = ReadOut o → out_buf s = [] → todo s = [] →
    step s (mkState [] [] (err_buf s) (ReadErr o []))
| ReadsErr n o e s :
    phase s = ReadErr o e → 0 < n ≤ read_size → n ≤ length (err_buf s) →
    step s (set_buf s Err_ (drop n (err_buf s)) (todo s) (ReadErr o (e ++ take n (err_buf s))))
| EndOfErr o e s :
    phase s = ReadErr o e → err_buf s = [] → todo s = [] →
    step s (mkState [] (out_buf s) [] (Waiting o e))
| Waits o e s :
    phase s = Waiting o e → todo s = [] →
    step s (mkState [] (out_buf s) (err_buf s) (Finished o e)).

Definition start (todo : list (Fd * ascii)) : State := mkState todo [] [] (ReadOut []).

Definition written (fd : Fd) (l : list (Fd * ascii)) : list ascii :=
  (filter (λ x, x.1 = fd) l).*2.

(** ** What the parent gets *)
Definition got (fd : Fd) (p : Phase) : list ascii :=
  match fd, p with
  | Out, (ReadOut o | ReadErr o _ | Waiting o _ | Finished o _) => o
  | Err_, ReadOut _ => []
  | Err_, (ReadErr _ e | Waiting _ e | Finished _ e) => e
  end.
Definition reading_out (p : Phase) : bool := match p with ReadOut _ => true | _ => false end.
Definition err_read (p : Phase) : bool := match p with ReadOut _ | ReadErr _ _ => false | _ => true end.

(** Nothing is lost between the VM and the parent; once the parent has seen the
    end of the first pipe, the VM has ended and its errors fit the second. *)
Record inv (T : list (Fd * ascii)) (s : State) : Prop := {
  inv_bytes fd : got fd (phase s) ++ buf s fd ++ written fd (todo s) = written fd T;
  inv_cap fd : length (buf s fd) ≤ cap;
  inv_ended : reading_out (phase s) = false →
    todo s = [] ∧ out_buf s = [] ∧ length (written Err_ T) ≤ cap;
  inv_err : err_read (phase s) = true → err_buf s = [];
}.

Lemma written_cons fd fd' c l :
  written fd ((fd', c) :: l) = (if decide (fd' = fd) then [c] else []) ++ written fd l.
Proof. unfold written. rewrite filter_cons. cbn. by case_decide. Qed.

Lemma start_inv T : inv T (start T).
Proof. split; cbn; [by intros []|intros []; cbn; lia|done|done]. Qed.

Lemma buf_set_buf s fd b t p fd' : buf (set_buf s fd b t p) fd' = if decide (fd = fd') then b else buf s fd'.
Proof. by destruct fd, fd'. Qed.

Lemma pipes_step_inv T s s' : step s s' → inv T s → inv T s'.
Proof.
  intros Hst [Hb Hc He Hr]. destruct Hst as [fd c rest s Ht Hl|n o s Hp Hn Hl|o s Hp Hbuf Ht|n o e s Hp Hn Hl|o e s Hp Hbuf Ht|o e s Hp Ht].
  - assert (Hout : reading_out (phase s) = true).
    { destruct (reading_out (phase s)) eqn:E; [done|]. destruct He as [He _]; [done|]. by rewrite He in Ht. }
    split.
    + intros fd'. specialize (Hb fd'). rewrite Ht, written_cons in Hb.
      rewrite buf_set_buf. replace (phase (set_buf s fd _ rest (phase s))) with (phase s) by by destruct fd.
      replace (todo (set_buf s fd _ rest (phase s))) with rest by by destruct fd.
      case_decide; [subst fd'; by rewrite <-!app_assoc|done].
    + intros fd'. rewrite buf_set_buf. case_decide; [subst fd'|done]. rewrite length_app. cbn. lia.
    + replace (phase _) with (phase s) by by destruct fd. congruence.
    + replace (phase (set_buf s fd _ rest (phase s))) with (phase s) by by destruct fd.
      intros Her. destruct (phase s); done.
  - split.
    + intros []; [|by specialize (Hb Err_); rewrite Hp in Hb].
      specialize (Hb Out). rewrite Hp in Hb. cbn in *. rewrite <-Hb, <-!app_assoc. f_equal.
      by rewrite !app_assoc, take_drop.
    + intros []; cbn; [rewrite length_drop; pose proof (Hc Out); cbn in *; lia|apply (Hc Err_)].
    + done.
    + done.
  - pose proof (Hb Err_) as Hbe. rewrite Hp, Ht in Hbe. cbn in Hbe. rewrite app_nil_r in Hbe.
    split.
    + intros []; [|by rewrite <-Hbe; cbn; rewrite app_nil_r].
      specialize (Hb Out). by rewrite Hp, Ht in Hb; cbn in *; rewrite Hbuf in Hb.
    + intros []; cbn; [lia|apply (Hc Err_)].
    + intros _. split_and!; [done..|]. rewrite <-Hbe. apply (Hc Err_).
    + done.
  - destruct He as (Ht & Ho & HT); [by rewrite Hp|]. split.
    + intros []; cbn; [by specialize (Hb Out); rewrite Hp in Hb|].
      specialize (Hb Err_). rewrite Hp in Hb. cbn in *. rewrite <-Hb, <-!app_assoc. f_equal.
      by rewrite !app_assoc, take_drop.
    + intros []; cbn; [apply (Hc Out)|rewrite length_drop; pose proof (Hc Err_); cbn in *; lia].
    + done.
    + done.
  - destruct He as (_ & Ho & HT); [by rewrite Hp|]. split; cbn.
    + intros []; cbn; rewrite ?Ho.
      * specialize (Hb Out). by rewrite Hp, Ht in Hb; cbn in Hb; rewrite Ho in Hb.
      * specialize (Hb Err_). by rewrite Hp, Ht in Hb; cbn in Hb; rewrite Hbuf in Hb.
    + intros []; cbn; rewrite ?Ho; cbn; lia.
    + done.
    + done.
  - destruct He as (_ & Ho & HT); [by rewrite Hp|]. assert (Her : err_buf s = []) by (apply Hr; by rewrite Hp).
    split; cbn.
    + intros []; cbn; rewrite ?Ho, ?Her.
      * specialize (Hb Out). by rewrite Hp, Ht in Hb; cbn in Hb; rewrite Ho in Hb.
      * specialize (Hb Err_). by rewrite Hp, Ht in Hb; cbn in Hb; rewrite Her in Hb.
    + intros []; cbn; rewrite ?Ho, ?Her; cbn; lia.
    + done.
    + done.
Qed.

(** *** The end *)
Definition rank (p : Phase) : nat :=
  match p with ReadOut _ => 3 | ReadErr _ _ => 2 | Waiting _ _ => 1 | Finished _ _ => 0 end.
Definition measure (s : State) : nat :=
  2 * length (todo s) + length (out_buf s) + length (err_buf s) + rank (phase s).

Lemma step_measure s s' : step s s' → measure s' < measure s.
Proof.
  unfold measure.
  intros [fd c rest s0 Ht Hl|n o s0 Hp Hn Hl|o s0 Hp Hb Ht|n o e s0 Hp Hn Hl|o e s0 Hp Hb Ht|o e s0 Hp Ht].
  - rewrite Ht. destruct fd; cbn in *; rewrite length_app; cbn; lia.
  - rewrite Hp. cbn. rewrite length_drop. lia.
  - rewrite Hp, Ht, Hb. cbn. lia.
  - rewrite Hp. cbn. rewrite length_drop. lia.
  - rewrite Hp, Ht, Hb. cbn. lia.
  - rewrite Hp, Ht. cbn. lia.
Qed.

Lemma step_sn s : sn step s.
Proof.
  remember (measure s) as n eqn:En. revert s En.
  induction n as [n IH] using lt_wf_ind; intros s ->. constructor. intros s' Hs. by eapply IH; [apply step_measure|].
Qed.

Lemma pipes_inv T s : rtc step (start T) s → inv T s.
Proof.
  intros Hr. assert (Hi : inv T (start T)) by apply start_inv.
  induction Hr as [|s1 s2 s3 H12 _ IH]; [done|]. by apply IH, (pipes_step_inv _ s1).
Qed.

(** A state without a step: all is read, or the VM waits for room in the second
    pipe while the parent waits for the first. *)
Lemma pipes_stuck T s :
  0 < cap → inv T s → (∀ s', ¬ step s s') →
  (∃ o e, phase s = Finished o e) ∨
  (reading_out (phase s) = true ∧ ∃ c rest, todo s = (Err_, c) :: rest ∧ cap ≤ length (err_buf s)).
Proof.
  intros Hcap Hi Hstuck. destruct (phase s) as [o|o e|o e|o e] eqn:Hp.
  - right. split; [done|]. destruct (out_buf s) as [|b bs] eqn:Eo.
    + destruct (todo s) as [|[fd c] rest] eqn:Et; [by destruct (Hstuck _ (EndOfOut o s Hp Eo Et))|].
      destruct (decide (length (buf s fd) < cap)) as [Hl|Hl].
      * by destruct (Hstuck _ (VmWrites fd c rest s Et Hl)).
      * destruct fd; cbn in Hl; [rewrite Eo in Hl; cbn in Hl; lia|]. exists c, rest. split; [done|lia].
    + exfalso. apply (Hstuck _ (ReadsOut 1 o s Hp ltac:(unfold read_size; lia) ltac:(rewrite Eo; cbn; lia))).
  - exfalso. destruct (inv_ended _ _ Hi) as (Ht & _); [by rewrite Hp|].
    destruct (err_buf s) as [|b bs] eqn:Ee; [by apply (Hstuck _ (EndOfErr o e s Hp Ee Ht))|].
    apply (Hstuck _ (ReadsErr 1 o e s Hp ltac:(unfold read_size; lia) ltac:(rewrite Ee; cbn; lia))).
  - exfalso. destruct (inv_ended _ _ Hi) as (Ht & _); [by rewrite Hp|].
    by apply (Hstuck _ (Waits o e s Hp Ht)).
  - left. eauto.
Qed.

(** C33: Every run of a short command comes to a state in which nothing can move.
    If what the VM writes to its standard error fits the pipe, that is the end,
    and the parent has all the output, in order; if it does not fit, the VM
    and the parent wait for each other for ever. *)
Theorem short_command_output T :
  0 < cap →
  sn step (start T) ∧
  ∀ s, rtc step (start T) s → (∀ s', ¬ step s s') →
    (length (written Err_ T) ≤ cap →
     phase s = Finished (written Out T) (written Err_ T)) ∧
    (cap < length (written Err_ T) →
     reading_out (phase s) = true ∧ ∃ c rest, todo s = (Err_, c) :: rest ∧ length (err_buf s) = cap).
Proof.
  intros Hcap. split; [apply step_sn|]. intros s Hr%pipes_inv Hstuck.
  destruct (pipes_stuck T s Hcap Hr Hstuck) as [(o & e & Hp)|(Hp & c & rest & Ht & Hl)]; split; intros HT.
  - destruct (inv_ended _ _ Hr) as (Ht & Ho & _); [by rewrite Hp|].
    assert (He : err_buf s = []) by (apply (inv_err _ _ Hr); by rewrite Hp).
    pose proof (inv_bytes _ _ Hr Out) as H1. pose proof (inv_bytes _ _ Hr Err_) as H2.
    rewrite Hp, Ht in H1, H2. cbn in H1, H2. rewrite Ho, app_nil_r in H1. rewrite He, app_nil_r in H2.
    by rewrite Hp, H1, H2.
  - destruct (inv_ended _ _ Hr) as (_ & _ & ?); [by rewrite Hp|]. lia.
  - exfalso. pose proof (inv_bytes _ _ Hr Err_) as H2. rewrite Ht, written_cons, decide_True in H2 by done.
    apply (f_equal length) in H2. rewrite !length_app in H2. change (length [c]) with 1 in H2.
    change (buf s Err_) with (err_buf s) in H2. lia.
  - split; [done|]. exists c, rest. split; [done|]. pose proof (inv_cap _ _ Hr Err_). cbn in *. lia.
Qed.
End pipes.

(** ** The child of a failed setup *)
(** The error comes back in the child too, which goes on with the caller's code
    as a second process. *)
Lemma child_returns_error setup start e st :
  setup (mkSt [] ∅) = (Err e, st) → run_vmcommand_child setup start = Err e.
Proof. intros Hs. unfold run_vmcommand_child, mbind, M_bind. by rewrite Hs. Qed.

(** For [list]: the child prints the rows found so far, into the pipe from which
    the parent reads the output of lsblk. *)
Lemma child_goes_on_listing setup start e st from_json config given filter l :
  setup (mkSt [] ∅) = (Err e, st) →
  decrypt_script (guest_dev_infos l) (guest_enc_partitions l given) ≠ Panic →
  inspect (get_lsblk_info (λ _, match run_vmcommand_child setup start with
                                | Err e => Err e | _ => Panic end) from_json)
    config given filter l = Ok (ls_entries l).
Proof.
  intros Hs Hd. rewrite (child_returns_error setup start e st Hs). unfold inspect.
  case_decide; [done|]. unfold get_lsblk_info.
  destruct (decrypt_script _ _); [done..|by destruct Hd].
Qed.

(** ** A VM with little and with much to say *)
Module Witness.
Definition hello : list (Fd * ascii) := [(Err_, "!"); (Out, "o"); (Out, "k")]%char.
Definition noisy : list (Fd * ascii) := replicate 5 (Err_, "!"%char) ++ hello.
Definition last_state : State := mkState [] [] [] (Finished ["o"; "k"] ["!"])%char.

Lemma hello_runs : rtc (step 4) (start hello) last_state.
Proof.
  eapply rtc_l; [eapply (VmWrites 4 Err_ "!"); [done|cbn; lia]|]; cbn.
  eapply rtc_l; [eapply (VmWrites 4 Out "o"); [done|cbn; lia]|]; cbn.
  eapply rtc_l; [eapply (ReadsOut 4 1); [done|unfold read_size; lia|cbn; lia]|]; cbn.
  eapply rtc_l; [eapply (VmWrites 4 Out "k"); [done|cbn; lia]|]; cbn.
  eapply rtc_l; [eapply (ReadsOut 4 1); [done|unfold read_size; lia|cbn; lia]|]; cbn.
  eapply rtc_l; [eapply (EndOfOut 4); done|]; cbn.
  eapply rtc_l; [eapply (ReadsErr 4 1); [done|unfold read_size; lia|cbn; lia]|]; cbn.
  eapply rtc_l; [eapply (EndOfErr 4); done|]; cbn.
  eapply rtc_l; [eapply (Waits 4); done|]; cbn. apply rtc_refl.
Qed.

Example short_command_output_witness :
  sn (step 4) (start noisy) ∧
  ∀ s, rtc (step 4) (start noisy) s → (∀ s', ¬ step 4 s s') →
    reading_out (phase s) = true ∧ ∃ c rest, todo s = (Err_, c) :: rest ∧ length (err_buf s) = 4.
Proof.
  split; [apply (short_command_output 4 noisy); lia|].
  intros s Hr Hs. refine (proj2 (proj2 (short_command_output 4 noisy _) s Hr Hs) _); vm_compute; lia.
Defined.

Example interrupted_read_goes_on :
  read_all_from_fd [] [Bytes ["a"]; Interrupted; Bytes ["b"]]%char = Ok ["a"; "b"]%char.
Proof. reflexivity. Qed.
End Witness.
