(* ===== verification/VmImage.v ===== *)
(** * Images of the VM ([vm_image.rs])

    Installing, updating and removing the root file systems of the VMs, over a
    model of the host's files, the lock of the instances and the network
    helper: [alpine::init_rootfs], [freebsd::init_rootfs], [init], [remove],
    [setup_gvproxy], [setup_vmnet_helper] and [vm.rs] [start_vm_forked].

    Commands and VMs that are run change the files in an arbitrary way; every
    change is logged with the lock that the instance holds at that time. *)
From S2P Require Import Prelude Effects Common Flock Paths Fsutil Settings DevInfo Ipnet Exit Privilege Setup.
From S2P Require Import NetPick VmNetwork KrunVm.
From Stdlib Require Import Ascii.

(** ** The host *)
Record File := mkFile { content : string; mtime : N }.
Record Files := mkFiles { files : gmap string File; folders : gset string }.

(** [std::process::Command] *)
Record Command := mkCommand {
  program : string; args : list string; cwd : option string; ids : option (N * N) }.

(** Calls that change something. *)
Inductive Sys :=
| Mkdir (p : string) | WriteFile (p text : string) | CopyFile (src dest : string)
| SetXattr (p : string) (uid gid mode : N) | SetPermissions (p : string) (mode : N)
| RemoveFile (p : string) | RemoveTree (p : string) | ChownTree (p : string) (uid gid : N)
| RunCommand (c : Command) | RunVm (calls : list Call) (cmdline : list string).

(** The answer to a command: not started, not waited for, or its exit code,
    which it lacks when a signal ended it. *)
Inductive Run := NotStarted (e : string) | NotWaited (e : string) | Done (code : option Z).

(** A forked VM: [ChildFailed] when the child returns from [start_vm]. *)
Inductive VmRun := ForkFailed (e : string) | WaitFailed (e : string) | ChildFailed | VmStatus (status : Z).

Record World := mkWorld {
  fs : Files;
  lock : table;
  sockets : gset string;
  helpers : nat;                           (* network helpers that run *)
  pending : list string;                   (* directories a deferred action removes *)
  log_level_set : bool;                    (* [KRUN_LOG_LEVEL_INIT] *)
  log : list (option FlockKind * Sys);     (* with the lock held then *)
}.
Abbreviation M := (Effects.M World).

Definition set_fs (f : Files) (w : World) : World :=
  mkWorld f (lock w) (sockets w) (helpers w) (pending w) (log_level_set w) (log w).
Definition set_lock (t : table) (w : World) : World :=
  mkWorld (fs w) t (sockets w) (helpers w) (pending w) (log_level_set w) (log w).
Definition set_sockets (s : gset string) (w : World) : World :=
  mkWorld (fs w) (lock w) s (helpers w) (pending w) (log_level_set w) (log w).
Definition set_helpers (n : nat) (w : World) : World :=
  mkWorld (fs w) (lock w) (sockets w) n (pending w) (log_level_set w) (log w).
Definition set_pending (ps : list string) (w : World) : World :=
  mkWorld (fs w) (lock w) (sockets w) (helpers w) ps (log_level_set w) (log w).
Definition set_log_level_set (w : World) : World :=
  mkWorld (fs w) (lock w) (sockets w) (helpers w) (pending w) true (log w).
Definition set_log (l : list (option FlockKind * Sys)) (w : World) : World :=
  mkWorld (fs w) (lock w) (sockets w) (helpers w) (pending w) (log_level_set w) l.

(** [d] itself or below it. *)
Definition under (d p : string) : bool := bool_decide (p = d) || Str.starts_with (d +:+ "/") p.

Definition remove_tree (d : string) (f : Files) : Files :=
  mkFiles (filter (λ kv, under d kv.1 = false) (files f)) (filter (λ p, under d p = false) (folders f)).
Definition write_file (p text : string) (now : N) (f : Files) : Files :=
  mkFiles (<[p := mkFile text now]> (files f)) (folders f).
Definition mkdir_in (p : string) (f : Files) : Files := mkFiles (files f) ({[p]} ∪ folders f).
Definition remove_in (p : string) (f : Files) : Files := mkFiles (delete p (files f)) (folders f).

(** [Path::exists] *)
Definition exists_in (f : Files) (p : string) : bool :=
  bool_decide (is_Some (files f !! p)) || bool_decide (p ∈ folders f).

Definition metadata_in (f : Files) (p : string) : outcome Metadata :=
  match files f !! p with
  | Some x => Ok {| md_len := N.of_nat (String.length (content x)); md_modified := Ok (mtime x) |}
  | None => Err "No such file or directory"
  end.

(** The path and its ancestors, the outermost first. *)
Fixpoint prefixes (acc s : string) : list string :=
  match s with
  | "" => [acc]
  | String c s' =>
      let rest := prefixes (acc +:+ String c "") s' in
      if decide (c = "/"%char) then (if decide (acc = "") then rest else acc :: rest) else rest
  end.

(** The plain names in a directory. *)
Definition entry_name (d p : string) : option string :=
  name ← Str.strip_prefix (d +:+ "/") p;
  if StrFacts.lacks "/" name then Some name else None.
Definition entries_of (f : Files) (d : string) : list string :=
  omap (entry_name d) (elements (dom (files f) ∪ folders f)).

(** [Path::extension] is [ko]. *)
Definition is_module (name : string) : bool :=
  Str.ends_with ".ko" name && negb (bool_decide (name = ".ko")).

Definition exit_code_text (code : option Z) : string :=
  match code with Some c => pretty c | None => "unknown" end.

Definition ROOTFS_VERSION_ALPINE : string := "1.5.1".
Definition ROOTFS_VERSION_FREEBSD : string := "1.0.0".
Definition ENTRYPOINT_SCRIPT_URL : string :=
  "https://raw.githubusercontent.com/nohajc/docker-nfs-server/refs/heads/freebsd/entrypoint.sh".
Definition BOOTSTRAP_EXEC : string := "freebsd-bootstrap".
Definition INIT_EXEC : string := "init-freebsd".
Definition VMPROXY_EXEC : string := "vmproxy-bsd".
Definition VM_DISK_IMAGE : string := "freebsd-microvm-disk.img".
Definition TAR : string := "/usr/bin/bsdtar".

Inductive IsoAdd := All | Files_ (names : list string).

(** The error of [fs::read_to_string] says whether the file is missing. *)
Inductive FileError := NotFound | OtherError (e : string).

(** The answers to the calls of one helper's start: those of [StartEnv], whether
    its socket appears in five seconds, and what [try_wait] says. *)
Record HelperEnv := mkHelperEnv {
  he_start : StartEnv; he_socket : bool; he_exited : option (option Z) }.

Section image.
(** The errors of the calls, what commands and VMs do, and the answers of the
    libraries; all may depend on what happened before. *)
Context (deny : list (option FlockKind * Sys) → Sys → option string).
Context (deny_read : string → option string) (deny_mtime : string → option string).
Context (run : list (option FlockKind * Sys) → Command → Files → Run * Files).
Context (vm : list (option FlockKind * Sys) → list Call → list string → Files → VmRun * Files).
Context (now : N).
Context (ron_to_string : N → outcome string) (ron_from_str : string → outcome N).
Context (json : string → list string → outcome string).
Context (krun : Call → outcome unit) `{Blkid} (get_info : string → DiskInfo).
Context (target : TargetOS).
(** The guard of the caller. *)
Context (guard : FlockGuard).

Definition held (w : World) : option FlockKind := lock w !! raw_fd guard.

(** ** Primitives *)
Definition logged (c : Sys) (w : World) : World := set_log (log w ++ [(held w, c)]) w.

Definition sys (c : Sys) (effect : Files → Files) : M unit := λ w,
  match deny (log w) c with
  | Some e => (Err e, w)
  | None => (Ok tt, logged c (set_fs (effect (fs w)) w))
  end.

Definition exists_ (p : string) : M bool := gets (λ w, exists_in (fs w) p).

Definition write (p text : string) : M unit := sys (WriteFile p text) (write_file p text now).

Definition read_to_string (p : string) : M (string + FileError) :=
  gets (λ w,
    match deny_read p with
    | Some e => inr (OtherError e)
    | None => match files (fs w) !! p with Some x => inl (content x) | None => inr NotFound end
    end).
Definition read_error_text (e : FileError) : string :=
  match e with NotFound => "No such file or directory" | OtherError e => e end.

(** [fs::copy] *)
Definition fs_copy (src dest : string) : M unit := λ w,
  match files (fs w) !! src with
  | Some x => sys (CopyFile src dest) (write_file dest (content x) now) w
  | None => (Err "No such file or directory", w)
  end.

Definition mkdir_missing (p : string) : M unit :=
  there ← exists_ p;
  if there : bool then mret tt else sys (Mkdir p) (mkdir_in p).
Definition create_dir_all (p : string) : M unit := m_for mkdir_missing (prefixes "" p).

Definition remove_dir_all (p : string) : M unit := sys (RemoveTree p) (remove_tree p).
Definition remove_file (p : string) : M unit := sys (RemoveFile p) (remove_in p).

(** [Command::status], or [spawn] and [wait]: the exit code. *)
Definition status (start_msg wait_msg : string) (c : Command) : M (option Z) := λ w,
  let '(r, f) := run (log w) c (fs w) in
  let w := logged (RunCommand c) (set_fs f w) in
  match r with
  | NotStarted e => (with_context start_msg (Err e), w)
  | NotWaited e => (with_context wait_msg (Err e), w)
  | Done code => (Ok code, w)
  end.

(** A tool that has to end with success. *)
Definition tool (name : string) (c : Command) : M unit :=
  let msg := "Failed to execute " +:+ name +:+ " command" in
  code ← status msg msg c;
  if bool_decide (code = Some 0%Z) then mret tt
  else lift (Err (name +:+ " command failed with exit code " +:+ exit_code_text code)).

(** ** The lock *)
(** [let _inner = guard.upgrade()?] and the rest of its scope. *)
Definition with_upgrade {A} (m : M A) : M A := λ w,
  match upgrade (lock w) guard with
  | (Ok inner, t) => finally m (λ w, (Ok tt, set_lock (Flock.drop_guard (lock w) inner) w)) (set_lock t w)
  | (Err e, t) => (Err e, set_lock t w)
  | (Panic, t) => (Panic, set_lock t w)
  end.

(** ** Deferred actions *)
(** The actions of [init_rootfs] all remove a directory and log a failure. *)
Definition defer_removal (p : string) : M unit := λ w, (Ok tt, set_pending (pending w ++ [p]) w).
Definition run_pending : M unit := λ w,
  m_for (λ p, m_ignore (remove_dir_all p)) (reverse (pending w)) (set_pending [] w).
Definition deferred_scope {A} (m : M A) : M A := finally m run_pending.

(** ** Versions and times *)
(** [rootfs_version_matches] *)
Definition rootfs_version_matches (root_ver_file_path current_version : string) : M bool :=
  there ← exists_ root_ver_file_path;
  version ← (if there : bool then
    r ← read_to_string root_ver_file_path;
    mret (Str.trim (match r with inl s => s | inr _ => "" end))
  else mret "");
  mret (bool_decide (version = current_version)).

(** [freebsd::read_mtime_file] *)
Definition read_mtime_file (p : string) : M (option N) :=
  r ← read_to_string p;
  match r with
  | inl s => t ← m_context "Failed to parse mtime file" (lift (ron_from_str s)); mret (Some t)
  | inr NotFound => mret None
  | inr (OtherError e) => m_context "Failed to read mtime file" (lift (Err e))
  end.

(** [fs::metadata(p)?.modified()] *)
Definition metadata (p : string) : M Metadata := λ w, (metadata_in (fs w) p, w).
Definition modified (p : string) (md : Metadata) : M N :=
  lift (match deny_mtime p with Some e => Err e | None => md_modified md end).

Definition get_file_mtime (p : string) : M N :=
  md ← m_context "Failed to get file metadata" (metadata p);
  m_context "Failed to get file modified time" (modified p md).

Definition unwrap_name (o : option string) : M string :=
  lift (match o with Some s => Ok s | None => Panic end).

(** [freebsd::write_mtime_files] *)
Definition write_mtime_file (mtimes_path f : string) : M unit :=
  name ← unwrap_name (path.file_name f);
  md ← metadata f;
  t ← modified f md;
  text ← lift (ron_to_string t);
  m_context "Failed to write mtime file" (write (path.join mtimes_path name) text).

Definition write_mtime_files (base_path : string) (fs : list string) : M unit :=
  let mtimes_path := path.join base_path "mtimes" in
  m_context "Failed to create mtimes directory" (create_dir_all mtimes_path);;
  m_for (write_mtime_file mtimes_path) fs.

(** ** Tools *)
Definition copy_file (src dest : string) : M unit :=
  m_context ("Failed to copy " +:+ src +:+ " to " +:+ dest) (fs_copy src dest).

Definition fetch (url dest_dir : string) : M unit :=
  tool "curl" (mkCommand "/usr/bin/curl" ["-LO"; url] (Some dest_dir) None).

Definition extract (archive_path working_dir dest_dir : string) : M unit :=
  tool "tar" (mkCommand TAR ["xf"; archive_path; "-C"; dest_dir] (Some working_dir) None).

Definition create_sparse_file (p size_spec : string) : M unit :=
  tool "truncate" (mkCommand "/usr/bin/truncate" ["-s"; size_spec; p] None None).

Definition iso_args (iso_path src_dir : string) (file_list : IsoAdd) (label : option string) : list string :=
  ["cf"; iso_path; "--format"; "iso9660"] ++
  match label with Some l => ["--options"; "volume-id=" +:+ l] | None => [] end ++
  ["-C"; src_dir] ++
  match file_list with All => ["."] | Files_ names => names end.

Definition create_iso (iso_path working_dir src_dir : string) (file_list : IsoAdd) (label : option string) :
    M unit :=
  tool "tar" (mkCommand TAR (iso_args iso_path src_dir file_list label) (Some working_dir) None).

(** ** VMs *)
(** [vm::start_vm_forked] in the parent. A child in which [start_vm] fails
    returns through the code of the parent: it removes the directories and
    drops the guards of the description that it shares with the parent, and
    exits with 1. *)
Definition child_unwinds (w : World) : World :=
  let f := foldr remove_tree (fs w) (pending w) in
  set_lock (delete (raw_fd guard) (lock w)) (set_fs f w).

Definition start_vm_forked (made : list Call) (cmdline : list string) : M Z := λ w,
  let '(r, f) := vm (log w) made cmdline (fs w) in
  match r with
  | ForkFailed e => (with_context "Failed to fork process" (Err e), w)
  | WaitFailed e =>
      (with_context "Failed to wait for child process" (Err e), logged (RunVm made cmdline) (set_fs f w))
  | ChildFailed =>
      (Ok (to_exit_code (exited 1)), child_unwinds (logged (RunVm made cmdline) (set_fs f w)))
  | VmStatus status => (Ok (to_exit_code status), logged (RunVm made cmdline) (set_fs f w))
  end.

(** [setup_vm], whose log level is set once per process. *)
Definition setup_vm_here (config : Config) (devices : list DevInfo) (net_mode : NetworkMode)
    (use_vsock : bool) (opts : VMOpts) : M (list Call) := λ w,
  let '(r, st) := setup_vm krun target (negb (log_level_set w)) config devices net_mode use_vsock opts
                    (mkSt [] ∅) in
  (_ ← r; Ok (calls st),
   match krun CreateCtx with Ok _ => set_log_level_set w | _ => w end).

Definition start_freebsd_bootstrap_vm (config : Config)
    (bootstrap_image_path oci_iso_image_path vm_disk_image_path : string) : M Z :=
  d1 ← lift (pv get_info bootstrap_image_path true);
  d2 ← lift (pv get_info vm_disk_image_path true);
  d3 ← lift (pv get_info oci_iso_image_path true);
  let opts := with_legacy_console (with_root_device VMOpts_new "cd9660:/dev/vtbd0") true in
  made ← setup_vm_here config [d1; d2; d3] NetGvProxy false opts;
  bstrap_status ← m_context "Failed to start FreeBSD bootstrap VM"
    (start_vm_forked made ["/freebsd-bootstrap"]);
  if bool_decide (bstrap_status = 0%Z) then mret bstrap_status
  else lift (Err ("bootstrap microVM exited with status " +:+ pretty bstrap_status)).

Definition start_freebsd_vm (config : Config) (devices : list DevInfo) (cmdline : list string)
    (net_mode : NetworkMode) : M Z :=
  let opts := with_legacy_console (with_root_device VMOpts_new "ufs:/dev/gpt/rootfs") true in
  made ← setup_vm_here config devices net_mode false opts;
  setup_status ← m_context "Failed to start FreeBSD VM setup" (start_vm_forked made cmdline);
  if bool_decide (setup_status = 0%Z) then mret setup_status
  else lift (Err ("FreeBSD VM setup exited with status " +:+ pretty setup_status)).

(** ** Network helpers *)
Context (show_v6 : N → string) (denied : string → option string).
Context (helper_env : list (option FlockKind * Sys) → HelperEnv).

(** The process runs once it is spawned, also when the start then fails. *)
Definition spawned (e : StartEnv) : bool :=
  is_ok (se_cleanup e) && is_ok (se_log e) && is_ok (se_spawn e).

Definition wait_for_file (appears : bool) (file : string) : M unit :=
  lift (if appears then Ok tt else Err ("Timeout waiting for file creation: " +:+ file)).

Definition sock_cleanup (config : Config) : M unit := λ w,
  let '(_, s) := vfkit_sock_cleanup denied (sockets w) (unixgram_sock_path (net config)) in
  (Ok tt, set_sockets s w).

(** [terminate_child]: it does not return before the process has ended. *)
Definition terminate_helper : M unit := λ w, (Ok tt, set_helpers (helpers w - 1) w).

(** The body that [setup_gvproxy] and [setup_vmnet_helper] share: [deferred]
    holds the removal of the socket, then the end of the process. *)
Definition setup_helper {A} (name : string) (env : HelperEnv) (start : outcome A) (config : Config)
    (start_vm_fn : A → M Z) : M Z :=
  svc ← (λ w, (start, if spawned (he_start env) then set_helpers (helpers w + 1) w else w));
  wait_for_file (he_socket env) (unixgram_sock_path (net config));;
  (λ w, (Ok tt, set_sockets ({[unixgram_sock_path (net config)]} ∪ sockets w) w));;
  finally
    match he_exited env with
    | Some code => lift (Err (name +:+ " failed with exit code: " +:+ exit_code_text code))
    | None => finally (start_vm_fn svc) terminate_helper
    end
    (sock_cleanup config).

Definition setup_gvproxy (config : Config) (start_vm_fn : option Ipv4Net → M Z) : M Z := λ w,
  let env := helper_env (log w) in
  setup_helper "gvproxy" env (start_gvproxy config (he_start env)) config
    (λ svc, start_vm_fn (VmNetwork.vm_native_cidr svc)) w.

(** [None] when the search for a network takes more than [fuel] steps. *)
Definition setup_vmnet_helper `{Ipnet} (fuel : nat) (config : Config)
    (start_vm_fn : option Ipv4Net → M Z) (w : World) : option (outcome Z * World) :=
  let env := helper_env (log w) in
  match start_vmnet_helper show_v6 fuel config (he_start env) with
  | Some start =>
      Some (setup_helper "vmnet-helper" env start config
              (λ svc, start_vm_fn (VmNetwork.vm_native_cidr svc.1)) w)
  | None => None
  end.

Definition setup_net_helper `{Ipnet} (fuel : nat) (config : Config) (net_helper : NetHelper)
    (start_vm_fn : option Ipv4Net → M Z) (w : World) : option (outcome Z * World) :=
  match net_helper, target with
  | GvProxy, _ => Some (setup_gvproxy config start_vm_fn w)
  | VmNet, MacOS => setup_vmnet_helper fuel config start_vm_fn w
  | VmNet, LinuxHost => Some (Err "vmnet-helper is not supported on Linux", w)
  end.

(** ** Alpine *)
Context (dns_server : string).

Definition alpine_initialized (config : Config) : M bool :=
  let root_path := root_path (paths config) in
  bash ← exists_ (path.join root_path "bin/bash");
  nfsd ← exists_ (path.join root_path "usr/sbin/rpc.nfsd");
  entry_point ← exists_ (path.join root_path "usr/local/bin/entrypoint.sh");
  vmproxy_guest ← exists_ (path.join root_path "vmproxy");
  let required_files_exist := bash && nfsd && entry_point && vmproxy_guest in
  let fstab_path := path.join root_path "etc/fstab" in
  fstab ← exists_ fstab_path;
  fstab_configured ← (if fstab : bool then
    r ← read_to_string fstab_path;
    match r with
    | inl c => mret (Str.contains "rpc_pipefs" c && Str.contains "nfsd" c)
    | inr e => m_context ("Failed to read fstab file: " +:+ fstab_path) (lift (Err (read_error_text e)))
    end
  else mret false);
  if required_files_exist && (fstab_configured : bool)
  then rootfs_version_matches (root_ver_file_path (paths config)) ROOTFS_VERSION_ALPINE
  else mret false.

Definition set_override_stat_file (p : string) (uid gid mode : N) : M unit :=
  match target with
  | MacOS => m_context ("setxattr user.containers.override_stat on " +:+ p) (sys (SetXattr p uid gid mode) id)
  | LinuxHost => mret tt
  end.

Definition update_vmproxy (config : Config) : M unit :=
  let host := vmproxy_host_path (paths config) in
  let vmproxy_guest_path := path.join (root_path (paths config)) "vmproxy" in
  differ ← (λ w, (files_likely_differ
    (λ p, md ← metadata_in (fs w) p;
          Ok {| md_len := md_len md;
                md_modified := match deny_mtime p with Some e => Err e | None => md_modified md end |})
    host vmproxy_guest_path, w));
  if differ : bool then
    with_upgrade
      (m_context ("Failed to copy " +:+ host +:+ " to " +:+ vmproxy_guest_path)
         (fs_copy host vmproxy_guest_path);;
       set_override_stat_file vmproxy_guest_path 0 0 493)
  else mret tt.

Definition init_rootfs_args (src : ImageSource) : list string :=
  ["-n"; dns_server; "-docker-ref"; unwrap_or "alpine:latest" (docker_ref src);
   "-base-dir"; effective_base_dir src] ++
  match setup_script src with Some script => ["-setup-script"; script] | None => [] end.

Definition alpine_install (config : Config) (src : ImageSource) : M unit :=
  with_upgrade
    (code ← status "Failed to execute init-rootfs" "Failed to wait for init-rootfs"
       (mkCommand (init_rootfs_path (paths config)) (init_rootfs_args src) None
          (run_as_invoker (sudo_uid (privilege config)) (sudo_gid (privilege config)) None));
     (if bool_decide (code = Some 0%Z) then mret tt
      else lift (Err ("init-rootfs failed with exit code " +:+ exit_code_text code)));;
     m_ignore (write (root_ver_file_path (paths config)) ROOTFS_VERSION_ALPINE)).

Definition alpine_init_rootfs (config : Config) (force : bool) (src : ImageSource) : M unit :=
  initialized ← (if force then mret false else alpine_initialized config);
  if initialized : bool then update_vmproxy config else alpine_install config src.

(** ** FreeBSD *)
Section freebsd.
Context (config : Config) (src : ImageSource).

Definition base_path : string := path.join (profile_path (paths config)) (base_dir src).
Definition mtimes_path : string := path.join base_path "mtimes".
Definition tmp_path : string := path.join base_path "tmp".
Definition init_src_path : string := path.join (libexec_path (paths config)) INIT_EXEC.
Definition vmproxy_src_path : string := path.join (libexec_path (paths config)) VMPROXY_EXEC.
Definition vm_disk_image_path : string := path.join base_path VM_DISK_IMAGE.
Definition root_ver_path : string := path.join base_path "rootfs.ver".

Definition freebsd_initialized : M bool :=
  kernel ← exists_ (path.join base_path KERNEL_IMAGE);
  disk ← exists_ (path.join base_path VM_DISK_IMAGE);
  if (kernel && disk : bool) then rootfs_version_matches root_ver_path ROOTFS_VERSION_FREEBSD
  else mret false.

(** Is the program newer than the copy in the image? *)
Definition newer (src_path exec : string) : M (list string) :=
  t ← get_file_mtime src_path;
  known ← read_mtime_file (path.join mtimes_path exec);
  mret (if bool_decide (default 0 known < t)%N then [exec] else []).

Definition to_upgrade : M (list string) :=
  l1 ← newer init_src_path INIT_EXEC;
  l2 ← newer vmproxy_src_path VMPROXY_EXEC;
  mret (l1 ++ l2).

Definition upgrade_binaries (execs : list string) : M unit :=
  with_upgrade
    (create_dir_all tmp_path;;
     defer_removal tmp_path;;
     let libexec := libexec_path (paths config) in
     create_iso "upgrade.iso" tmp_path libexec (Files_ execs) None;;
     d1 ← lift (pv get_info vm_disk_image_path true);
     d2 ← lift (pv get_info (path.join tmp_path "upgrade.iso") true);
     m_context "Failed to start FreeBSD VM for upgrade"
       (start_freebsd_vm config [d1; d2] ["/upgrade-binaries.sh"] NetDefault);;
     m_context "Failed to write mtime files"
       (write_mtime_files base_path (path.join libexec <$> execs))).

Definition url (what : string) (o : option string) : M string :=
  lift (match o with Some u => Ok u | None => Err ("FreeBSD " +:+ what +:+ " URL not provided") end).
Definition nonempty_url (what u : string) : M unit :=
  lift (if Str.is_empty u then Err ("FreeBSD " +:+ what +:+ " URL is empty") else Ok tt).

(** The kernel modules of the bundle; the directory has to exist. *)
Definition modules : M (list string) := λ w,
  let dir := path.join base_path "kernel" in
  if bool_decide (dir ∈ folders (fs w))
  then (Ok (List.filter is_module (entries_of (fs w) dir)), w)
  else (Err "No such file or directory", w).

Definition bootstrap_rootfs_path : string := path.join tmp_path "rootfs".

(** The image of the OCI package and the directory of the bootstrap system. *)
Definition prepare_oci (oci_image_url oci_image : string) : M unit :=
  m_context "Failed to fetch FreeBSD OCI image" (fetch oci_image_url tmp_path);;
  m_context "Failed to unpack FreeBSD OCI image" (extract oci_image tmp_path (path.join tmp_path "oci"));;
  m_context "Failed to convert FreeBSD OCI image to ISO"
    (create_iso "freebsd-oci.iso" tmp_path (path.join tmp_path "oci") All None).

Definition prepare_rootfs (kernel_bundle_url kernel_bundle iso_image_url : string) : M unit :=
  let rootfs := bootstrap_rootfs_path in
  m_context "Failed to create rootfs/dev directory" (create_dir_all (path.join rootfs "dev"));;
  m_context "Failed to create rootfs/mnt directory" (create_dir_all (path.join rootfs "mnt"));;
  m_context "Failed to create rootfs/tmp directory" (create_dir_all (path.join rootfs "tmp"));;
  copy_file (path.join (libexec_path (paths config)) BOOTSTRAP_EXEC) (path.join rootfs BOOTSTRAP_EXEC);;
  copy_file init_src_path (path.join rootfs INIT_EXEC);;
  copy_file vmproxy_src_path (path.join rootfs VMPROXY_EXEC);;
  m_context "Failed to fetch FreeBSD kernel bundle" (fetch kernel_bundle_url tmp_path);;
  m_context "Failed to extract FreeBSD kernel bundle" (extract kernel_bundle tmp_path base_path);;
  ms ← modules;
  m_for (λ m, copy_file (path.join (path.join base_path "kernel") m) (path.join rootfs m)) ms;;
  config_json ← lift (json iso_image_url ["bash"; "pidof"]);
  m_context "Failed to write FreeBSD bootstrap config" (write (path.join rootfs "config.json") config_json);;
  m_context "Failed to fetch FreeBSD entrypoint script" (fetch ENTRYPOINT_SCRIPT_URL rootfs);;
  m_context "Failed to set executable permissions on FreeBSD entrypoint script"
    (sys (SetPermissions (path.join rootfs (last_piece "/" ENTRYPOINT_SCRIPT_URL)) 493) id);;
  m_context "Failed to create FreeBSD bootstrap ISO"
    (create_iso "freebsd-bootstrap.iso" tmp_path rootfs All None).

(** The disk is made anew, populated by one VM and set up by another one. *)
Definition populate_disk : M unit :=
  m_ignore (remove_file vm_disk_image_path);;
  m_context "Failed to create FreeBSD VM disk image" (create_sparse_file vm_disk_image_path "32G");;
  bstrap_status ← setup_gvproxy config (λ _,
    start_freebsd_bootstrap_vm config (path.join tmp_path "freebsd-bootstrap.iso")
      (path.join tmp_path "freebsd-oci.iso") vm_disk_image_path);
  (if bool_decide (bstrap_status = 0%Z) then mret tt
   else lift (Err ("FreeBSD bootstrap VM exited with status " +:+ pretty bstrap_status)));;
  setup_status ← setup_gvproxy config (λ _,
    d ← lift (pv get_info vm_disk_image_path true);
    start_freebsd_vm config [d] ["/usr/local/bin/vm-setup.sh"] NetGvProxy);
  if bool_decide (setup_status = 0%Z) then mret tt
  else lift (Err ("FreeBSD VM setup exited with status " +:+ pretty setup_status)).

Definition chown_installed : M unit :=
  match target, sudo_uid (privilege config), sudo_gid (privilege config) with
  | LinuxHost, Some uid, Some gid => m_ignore (sys (ChownTree base_path uid gid) id)
  | _, _, _ => mret tt
  end.

(** The disk of the VM and its kernel, from what is fetched. *)
Definition install_files (iso_image_url oci_image_url kernel_bundle_url : string) : M unit :=
  prepare_oci oci_image_url (last_piece "/" oci_image_url);;
  prepare_rootfs kernel_bundle_url (last_piece "/" kernel_bundle_url) iso_image_url;;
  populate_disk.

(** What says that the image is installed. *)
Definition record_install : M unit :=
  m_ignore (write root_ver_path ROOTFS_VERSION_FREEBSD);;
  m_context "Failed to write mtime files" (write_mtime_files base_path [init_src_path; vmproxy_src_path]);;
  chown_installed.

(** What is done once the guard is exclusive. *)
Definition install_exclusive (iso_image_url oci_image_url kernel_bundle_url : string) : M unit :=
  nonempty_url "ISO" iso_image_url;;
  nonempty_url "OCI" oci_image_url;;
  nonempty_url "kernel bundle" kernel_bundle_url;;
  m_context "Failed to create FreeBSD base directory" (create_dir_all (path.join tmp_path "oci"));;
  defer_removal tmp_path;;
  install_files iso_image_url oci_image_url kernel_bundle_url;;
  record_install.

Definition freebsd_install : M unit :=
  iso_image_url ← url "ISO" (iso_url src);
  oci_image_url ← url "OCI" (oci_url src);
  kernel_bundle_url ← url "kernel bundle" (bundle_url (kernel_source src));
  with_upgrade (install_exclusive iso_image_url oci_image_url kernel_bundle_url).

(** [init_rootfs] without the actions it defers. *)
Definition freebsd_init_scope (force : bool) : M unit :=
  initialized ← (if force then mret false else freebsd_initialized);
  if initialized : bool then
    execs ← to_upgrade;
    match execs with [] => mret tt | _ => upgrade_binaries execs end
  else freebsd_install.

Definition freebsd_init_rootfs (force : bool) : M unit :=
  if Str.is_empty (base_dir src) then lift (Err "FreeBSD base directory not specified")
  else deferred_scope (freebsd_init_scope force).
End freebsd.

(** ** The entry points *)
Definition init (config : Config) (force : bool) (src : ImageSource) : M unit :=
  match os_type src with
  | Linux => alpine_init_rootfs config force src
  | FreeBSD => freebsd_init_rootfs config src force
  end.

Definition remove (config : Config) (src : ImageSource) : M unit :=
  with_upgrade (remove_dir_all (path.join (profile_path (paths config)) (effective_base_dir src))).

(** ** Changes and the lock *)
Lemma upgrade_held t inner t' :
  t !! raw_fd guard = Some (current_kind guard) → upgrade t guard = (Ok inner, t') →
  t' !! raw_fd guard = Some Exclusive ∧
  Flock.drop_guard t' inner !! raw_fd guard = Some (current_kind guard).
Proof.
  intros Ht. unfold upgrade. destruct (decide (current_kind guard = Exclusive)) as [Hk|Hk].
  - intros [= <- <-]. cbn. by rewrite Ht, Hk.
  - destruct (current_kind guard) eqn:Hs; [|done]. unfold flock_nb, flock.
    rewrite decide_False by congruence.
    destruct (grantable t (raw_fd guard) Exclusive) eqn:Hg; [|done]. intros [= <- <-].
    rewrite lookup_insert_eq. split; [done|]. unfold Flock.drop_guard. cbn. unfold flock.
    rewrite lookup_insert_eq. cbn.
    assert (grantable (<[raw_fd guard:=Exclusive]> t) (raw_fd guard) Shared = true) as ->;
      [|apply lookup_insert_eq].
    apply grantable_spec. intros fd k Hl. left.
    apply lookup_insert_Some in Hl as [[-> _]|[Hne Hl]]; [done|].
    rewrite grantable_spec in Hg. destruct (Hg _ _ Hl) as [->|Hc]; [done|].
    by rewrite compatible_exclusive in Hc.
Qed.

Section locking.
(** The one directory that deferred actions remove. *)
Context (T : string).
Definition pends (w w' : World) : Prop := Forall (eq T) (pending w) → Forall (eq T) (pending w').

Definition logged_as (k : option FlockKind) (w w' : World) : Prop :=
  ∃ l, log w' = log w ++ l ∧ Forall (λ e, e.1 = k) l.

Lemma logs_same k w w' : log w' = log w → logged_as k w w'.
Proof. exists []. by rewrite app_nil_r. Qed.
Lemma logs_trans k w1 w2 w3 : logged_as k w1 w2 → logged_as k w2 w3 → logged_as k w1 w3.
Proof.
  intros (l1 & H1 & F1) (l2 & H2 & F2). exists (l1 ++ l2).
  split; [by rewrite H2, H1, app_assoc|by apply Forall_app].
Qed.

(** Inside the scope of a guard; a failure can lose the lock. *)
Definition inside_fails (w w' : World) : Prop := logged_as (held w) w w' ∧ pends w w'.
Definition inside (w w' : World) : Prop := lock w' = lock w ∧ inside_fails w w'.

#[local] Instance inside_steps : Steps inside inside_fails.
Proof.
  assert (Htrans : ∀ w1 w2 w3, inside w1 w2 → inside_fails w2 w3 → inside_fails w1 w3).
  { intros w1 w2 w3 (Hl & H1 & P1) (H2 & P2). split; [|unfold pends in *; auto].
    unfold held in *. rewrite Hl in H2. by eapply logs_trans. }
  split; [..|exact Htrans].
  - intros w. split_and!; [done|split; [by apply logs_same|by intros ?]].
  - intros w1 w2 w3 H1 [Hl H2]. split; [by rewrite Hl; apply H1|by eapply Htrans].
  - by intros ?? [_ ?].
Qed.

Lemma logged_inside c (w : World) (f : Files) : inside w (logged c (set_fs f w)).
Proof.
  split_and!; [done|split; [|by intros ?]]. exists [(held w, c)]. split; [done|]. by repeat constructor.
Qed.

Lemma inside_sys c e : within inside inside_fails (sys c e).
Proof.
  intros w. unfold sys. destruct (deny (log w) c); [apply steps_sub, steps_refl|]. apply logged_inside.
Qed.
Lemma inside_sys' c e : within inside inside (sys c e).
Proof. intros w. unfold sys. destruct (deny (log w) c); [apply steps_refl|]. apply logged_inside. Qed.
Lemma inside_copy src dest : within inside inside_fails (fs_copy src dest).
Proof.
  intros w. unfold fs_copy. destruct (files (fs w) !! src); [apply inside_sys|]. apply steps_sub, steps_refl.
Qed.
Lemma inside_status m1 m2 c : within inside inside_fails (status m1 m2 c).
Proof.
  intros w. unfold status. destruct (run (log w) c (fs w)) as [[e|e|code] f]; try apply steps_sub;
    apply logged_inside.
Qed.
Lemma inside_metadata p : within inside inside_fails (metadata p).
Proof. intros w. unfold metadata. destruct (metadata_in _ _); [apply steps_refl|apply steps_sub, steps_refl..]. Qed.

Lemma inside_write p s : within inside inside (write p s).
Proof. apply inside_sys'. Qed.
Hint Resolve inside_sys inside_sys' inside_copy inside_status inside_metadata inside_write : within.

Lemma inside_mkdirs p : within inside inside_fails (create_dir_all p).
Proof. unfold create_dir_all, mkdir_missing, exists_. within_solve. Qed.
Lemma inside_tool n c : within inside inside_fails (tool n c).
Proof. unfold tool. within_solve. Qed.
Lemma inside_mtime p : within inside inside_fails (get_file_mtime p).
Proof. unfold get_file_mtime, modified. within_solve. Qed.
Hint Resolve inside_mkdirs inside_tool inside_mtime : within.
Lemma inside_write_mtimes b fs : within inside inside_fails (write_mtime_files b fs).
Proof. unfold write_mtime_files, write_mtime_file, unwrap_name, modified, write. within_solve. Qed.
Hint Resolve inside_write_mtimes : within.

(** A VM whose child failed ends with 1: its caller goes no further. *)
Lemma inside_forked made cmdline w :
  match start_vm_forked made cmdline w with
  | (Ok code, w') => inside_fails w w' ∧ (code = 0%Z → inside w w')
  | (_, w') => inside_fails w w'
  end.
Proof.
  unfold start_vm_forked. destruct (vm (log w) made cmdline (fs w)) as [[e|e| |st] f]; cbn [with_context].
  - apply steps_sub, steps_refl.
  - apply steps_sub, logged_inside.
  - split; [|done]. apply (logged_inside (RunVm made cmdline) w f).
  - split; [apply steps_sub|intros _]; apply logged_inside.
Qed.

Lemma inside_vm_checked msg made cmdline (e : Z → string) :
  within inside inside_fails
    (code ← m_context msg (start_vm_forked made cmdline);
     if bool_decide (code = 0%Z) then mret code else lift (Err (e code))).
Proof.
  intros w. pose proof (inside_forked made cmdline w) as Hf.
  unfold mbind, M_bind, m_context. destruct (start_vm_forked made cmdline w) as [[code|e'|] w'];
    cbn [with_context]; [|done..].
  destruct Hf as [Hf H0]. by case_bool_decide; cbn; [apply H0|].
Qed.

Lemma inside_setup_vm config devices mode use_vsock opts :
  within inside inside_fails (setup_vm_here config devices mode use_vsock opts).
Proof.
  assert (Hl : ∀ w, inside w (set_log_level_set w))
    by by intros w; split; [|split; [by apply logs_same|intros ?]].
  intros w. unfold setup_vm_here. destruct (setup_vm _ _ _ _ _ _ _ _ _) as [[ctx|e|] st];
    destruct (krun CreateCtx); cbn; try apply steps_sub; first [apply steps_refl|apply Hl].
Qed.
Hint Resolve inside_vm_checked inside_setup_vm : within.

Lemma inside_freebsd_vm config devices cmdline mode :
  within inside inside_fails (start_freebsd_vm config devices cmdline mode).
Proof. unfold start_freebsd_vm. cbv zeta. within_step; [within_solve|]. apply inside_vm_checked. Qed.
Lemma inside_bootstrap_vm config b o d :
  within inside inside_fails (start_freebsd_bootstrap_vm config b o d).
Proof.
  unfold start_freebsd_bootstrap_vm. cbv zeta.
  do 4 (within_step; [within_solve|]). apply inside_vm_checked.
Qed.

(** Sockets and helpers are not the business of the lock. *)
Lemma inside_aside w s n : inside w (set_sockets s (set_helpers n w)).
Proof. split_and!; [done|split; [by apply logs_same|by intros ?]]. Qed.

Lemma inside_helper {A} name env (start : outcome A) config f :
  (∀ a, within inside inside_fails (f a)) →
  within inside inside_fails (setup_helper name env start config f).
Proof.
  intros Hf. unfold setup_helper, wait_for_file. apply within_bind; [|intros svc; apply within_bind; [within_solve|intros _]].
  - intros w. destruct (spawned _), start; first [apply steps_refl|apply steps_sub, steps_refl|
      apply (inside_aside w (sockets w))|apply steps_sub, (inside_aside w (sockets w))].
  - apply within_bind; [intros w; apply (inside_aside w _ (helpers w))|intros _].
    apply within_finally.
    + intros w w' Hi. eapply steps_then; [exact Hi|]. unfold sock_cleanup.
      destruct (vfkit_sock_cleanup _ _ _). apply (inside_aside w' _ (helpers w')).
    + intros w w' Hi. unfold sock_cleanup. by destruct (vfkit_sock_cleanup _ _ _).
    + within_step; [within_solve|]. apply within_finally; [|done|apply Hf].
      intros w w' Hi. eapply steps_then; [exact Hi|]. apply (inside_aside w' (sockets w')).
Qed.

Lemma inside_gvproxy config f :
  (∀ c, within inside inside_fails (f c)) → within inside inside_fails (setup_gvproxy config f).
Proof. intros Hf w. unfold setup_gvproxy. by apply inside_helper. Qed.

Lemma inside_defer : within inside inside_fails (defer_removal T).
Proof.
  intros w. split; [done|]. split; [by apply logs_same|]. intros Hp. apply Forall_app. split; [done|]. by constructor.
Qed.
Lemma inside_modules config src : within inside inside_fails (modules config src).
Proof. intros w. unfold modules. case_bool_decide; [|apply steps_sub]; apply steps_refl. Qed.
Hint Resolve inside_freebsd_vm inside_bootstrap_vm inside_defer inside_modules : within.

Lemma inside_oci config src u i : within inside inside_fails (prepare_oci config src u i).
Proof. unfold prepare_oci, fetch, extract, create_iso. within_solve. Qed.
Lemma inside_rootfs config src u b i : within inside inside_fails (prepare_rootfs config src u b i).
Proof. unfold prepare_rootfs, fetch, extract, create_iso, copy_file. cbv zeta. within_solve. Qed.
Lemma inside_populate config src : within inside inside_fails (populate_disk config src).
Proof.
  unfold populate_disk, create_sparse_file, remove_file.
  within_step; [within_solve|].
  within_step; [within_solve|].
  within_step; [apply inside_gvproxy; intros; within_solve|].
  within_step; [within_solve|].
  within_step; [apply inside_gvproxy; intros; within_solve|within_solve].
Qed.
Hint Resolve inside_oci inside_rootfs inside_populate : within.

Lemma inside_install config src i o k :
  T = tmp_path config src → within inside inside_fails (install_exclusive config src i o k).
Proof.
  intros HT. unfold install_exclusive, install_files, record_install, nonempty_url, chown_installed. rewrite <-HT. within_solve.
Qed.
Lemma inside_upgrade config src es :
  T = tmp_path config src →
  within inside inside_fails
    (create_dir_all (tmp_path config src);; defer_removal (tmp_path config src);;
     create_iso "upgrade.iso" (tmp_path config src) (libexec_path (paths config)) (Files_ es) None;;
     d1 ← lift (pv get_info (vm_disk_image_path config src) true);
     d2 ← lift (pv get_info (path.join (tmp_path config src) "upgrade.iso") true);
     m_context "Failed to start FreeBSD VM for upgrade"
       (start_freebsd_vm config [d1; d2] ["/upgrade-binaries.sh"] NetDefault);;
     m_context "Failed to write mtime files"
       (write_mtime_files (base_path config src) (path.join (libexec_path (paths config)) <$> es))).
Proof. intros <-. unfold create_iso. within_solve. Qed.

(** Outside of the scopes of a guard. *)
Definition outside_fails (w w' : World) : Prop :=
  held w = Some (current_kind guard) → logged_as (Some Exclusive) w w' ∧ pends w w'.
Definition outside (w w' : World) : Prop :=
  held w = Some (current_kind guard) → held w' = held w ∧ logged_as (Some Exclusive) w w' ∧ pends w w'.

#[local] Instance outside_steps : Steps outside outside_fails.
Proof.
  assert (Htrans : ∀ w1 w2 w3, outside w1 w2 → outside_fails w2 w3 → outside_fails w1 w3).
  { intros w1 w2 w3 H1 H2 Hw. destruct (H1 Hw) as (Hk & L1 & P1).
    destruct H2 as [L2 P2]; [congruence|]. split; [by eapply logs_trans|unfold pends in *; auto]. }
  split; [..|exact Htrans].
  - intros w _. split; [done|]. split; [by apply logs_same|by intros ?].
  - intros w1 w2 w3 H1 H2 Hw. split.
    + destruct (H1 Hw) as (Hk & _). destruct H2 as (Hk2 & _); congruence.
    + apply (Htrans w1 w2 w3 H1); [|done]. intros Hw2. by apply H2 in Hw2 as (_ & ? & ?).
  - intros w1 w2 H1 Hw. by apply H1 in Hw as (_ & ? & ?).
Qed.

Lemma outside_guarded {A} (m : M A) :
  within inside inside_fails m → within outside outside_fails (with_upgrade m).
Proof.
  intros Hm w. unfold with_upgrade. destruct (upgrade (lock w) guard) as [[inner|e|] t] eqn:Hu.
  2, 3: intros _; split; [by apply logs_same|by intros ?].
  specialize (Hm (set_lock t w)). unfold finally. cbn [fst snd].
  assert (Hx : held w = Some (current_kind guard) →
    t !! raw_fd guard = Some Exclusive ∧
    Flock.drop_guard t inner !! raw_fd guard = Some (current_kind guard))
    by by intros; eapply upgrade_held.
  assert (∀ w', inside_fails (set_lock t w) w' →
    outside_fails w (set_lock (Flock.drop_guard (lock w') inner) w')).
  { intros w' [L P] Hw. unfold held at 1 in L. cbn in L. rewrite (proj1 (Hx Hw)) in L. by split. }
  destruct (m (set_lock t w)) as [[a|e|] w']; [|by auto..].
  destruct Hm as [Hl Hm]. intros Hw. split; [|by apply H0].
  unfold held in *. cbn in *. rewrite Hl, Hw. by apply Hx.
Qed.

Lemma outside_metadata p : within outside outside_fails (metadata p).
Proof. intros w. unfold metadata. destruct (metadata_in _ _); [apply steps_refl|apply steps_sub, steps_refl..]. Qed.
Hint Resolve outside_metadata : within.

Lemma outside_alpine config force src :
  within outside outside_fails (alpine_init_rootfs config force src).
Proof.
  unfold alpine_init_rootfs. within_step.
  { unfold alpine_initialized, rootfs_version_matches, exists_, read_to_string. within_solve. }
  within_step.
  - unfold update_vmproxy. cbv zeta. within_step.
    { intros w. destruct (files_likely_differ _ _ _); [apply steps_refl|apply steps_sub, steps_refl..]. }
    within_step; [|within_solve]. apply outside_guarded. unfold set_override_stat_file. within_solve.
  - apply outside_guarded. within_solve.
Qed.

Lemma outside_freebsd config force src :
  T = tmp_path config src → within outside outside_fails (freebsd_init_scope config src force).
Proof.
  unfold freebsd_init_scope.
  intros HT. within_step.
  { unfold freebsd_initialized, rootfs_version_matches, exists_, read_to_string. within_solve. }
  within_step.
  - within_step.
    { unfold to_upgrade, newer, get_file_mtime, modified, read_mtime_file, read_to_string. within_solve. }
    match goal with |- within _ _ (match ?x with _ => _ end) => destruct x end; [within_solve|].
    apply outside_guarded, inside_upgrade, HT.
  - unfold freebsd_install, url. do 3 (within_step; [within_solve|]).
    apply outside_guarded, inside_install, HT.
Qed.

(** The deferred actions only remove the directory. *)
Definition removal_of (d : string) (c : Sys) : Prop := c = RemoveTree d.

Lemma ignored_removal d w :
  m_ignore (remove_dir_all d) w =
    (Ok tt, match deny (log w) (RemoveTree d) with
            | Some _ => w
            | None => logged (RemoveTree d) (set_fs (remove_tree d (fs w)) w)
            end).
Proof. unfold m_ignore, remove_dir_all, sys. by destruct (deny _ _). Qed.

Lemma removals ps w :
  Forall (eq T) ps →
  let w' := (m_for (λ p, m_ignore (remove_dir_all p)) ps w).2 in
  lock w' = lock w ∧ ∃ l, log w' = log w ++ l ∧ Forall (λ e, removal_of T e.2) l.
Proof.
  intros Hps. cbv zeta. revert w. induction Hps as [|p ps <- _ IH]; intros w; cbn [m_for].
  { split; [done|]. exists []. by rewrite app_nil_r. }
  rewrite (bind_run _ _ _ _ _ (ignored_removal T w)).
  destruct (deny (log w) (RemoveTree T)); [apply IH|].
  destruct (IH (logged (RemoveTree T) (set_fs (remove_tree T (fs w)) w))) as (Hl & l & E & F).
  split; [done|]. exists ((held w, RemoveTree T) :: l). split; [by rewrite E; cbn; rewrite <-app_assoc|].
  by constructor.
Qed.
End locking.

(** Whatever [init] changes, and whatever it runs to change it, is done while
    its instance holds the lock exclusively, for both systems and on every path;
    the one exception is the removal of the temporary directory.  When it
    succeeds the caller has the kind of lock it had before. *)
Lemma changes_under_lock config force src w r w' :
  held w = Some (current_kind guard) → pending w = [] →
  init config force src w = (r, w') →
  ∃ l, log w' = log w ++ l ∧
    Forall (λ e, e.1 = Some Exclusive ∨ removal_of (tmp_path config src) e.2) l ∧
    (r = Ok tt → held w' = held w).
Proof.
  intros Hw Hp. unfold init. destruct (os_type src).
  - intros Hr. pose proof (outside_alpine (tmp_path config src) config force src w) as Ho.
    rewrite Hr in Ho.
    assert (logged_as (Some Exclusive) w w' ∧ (r = Ok tt → held w' = held w)) as [(l & E & F) Hk].
    { destruct r as [[]|e|]; [destruct (Ho Hw) as (? & ? & _)|destruct (Ho Hw)..]; done. }
    exists l. split_and!; [done| |done]. eapply Forall_impl; [exact F|]. by left.
  - unfold freebsd_init_rootfs. destruct (Str.is_empty _).
    { intros [= <- <-]. exists []. by rewrite app_nil_r. }
    unfold deferred_scope, finally.
    pose proof (outside_freebsd (tmp_path config src) config force src eq_refl w) as Ho.
    destruct (freebsd_init_scope config src force w) as [r1 w1]. intros [= <- <-].
    assert (logged_as (Some Exclusive) w w1 ∧ pends (tmp_path config src) w w1 ∧
      (r1 = Ok tt → held w1 = held w)) as ((l & E & F) & P & Hk).
    { destruct r1 as [[]|e|]; [destruct (Ho Hw) as (? & ? & ?)|destruct (Ho Hw)..]; done. }
    unfold pends in P. rewrite Hp in P. specialize (P (Forall_nil_2 _)).
    destruct (removals (tmp_path config src) (reverse (pending w1)) (set_pending [] w1))
      as (Hl & l2 & E2 & F2); [by apply Forall_reverse|].
    exists (l ++ l2). unfold run_pending. rewrite E2, app_assoc. split; [by rewrite <-E|]. split.
    + apply Forall_app. split; (eapply Forall_impl; [eassumption|]); [by left|by right].
    + intros Hr. rewrite <-(Hk Hr). unfold held. by rewrite Hl.
Qed.

(** ** What stays in the files *)
(** The paths of one image, as texts. *)
Lemma under_starts d p : under d p = true → Str.starts_with d p = true.
Proof.
  unfold under. intros [Hp|Hp]%orb_true_iff.
  - case_bool_decide; [|done]. subst. rewrite <-(StrFacts.app_nil_r d) at 2. apply StrFacts.starts_with_app.
  - apply StrFacts.starts_with_spec in Hp as [r ->]. rewrite StrFacts.app_assoc. apply StrFacts.starts_with_app.
Qed.

Lemma starts_with_same a b c : Str.starts_with (a +:+ b) (a +:+ c) = Str.starts_with b c.
Proof.
  apply eq_true_iff_eq. rewrite !StrFacts.starts_with_spec. split; intros [r Hr]; exists r.
  - rewrite StrFacts.app_assoc in Hr. by apply StrFacts.app_inj_l in Hr.
  - by rewrite Hr, StrFacts.app_assoc.
Qed.

Lemma starts_with_trans a b c : Str.starts_with a b = true → Str.starts_with b c = true → Str.starts_with a c = true.
Proof.
  rewrite !StrFacts.starts_with_spec. intros [r ->] [s ->]. exists (r +:+ s). by rewrite StrFacts.app_assoc.
Qed.

Lemma join_starts p q : path.is_absolute q = false → Str.starts_with p (path.join p q) = true.
Proof. intros Hq. rewrite path.join_text by done. apply StrFacts.starts_with_app. Qed.

Lemma joins_differ p q q' :
  path.is_absolute q = false → path.is_absolute q' = false → Str.starts_with q q' = false →
  Str.starts_with (path.join p q) (path.join p q') = false.
Proof. intros Hq Hq' Hs. rewrite !path.join_text, <-!StrFacts.app_assoc by done. by rewrite starts_with_same. Qed.

Lemma entry_relative d p name : entry_name d p = Some name → path.is_absolute name = false.
Proof.
  unfold entry_name. destruct (Str.strip_prefix _ p) as [n|]; [|done]. cbn.
  destruct (StrFacts.lacks "/" n) eqn:Hl; [|done]. intros [= <-].
  destruct n as [|c n]; [done|]. rewrite path.is_absolute_String, bool_decide_eq_false_2; [done|].
  by apply StrFacts.lacks_cons in Hl as [? _].
Qed.

Section stays.
Context (config : Config) (src : ImageSource) (K : string → Prop).
(** The files looked at are not temporary and not the disk image, and no
    command or VM changes them. *)
Hypothesis K_tmp : ∀ k, K k → Str.starts_with (tmp_path config src) k = false.
Hypothesis K_disk : ¬ K (vm_disk_image_path config src).
Hypothesis K_run : ∀ l c f k, K k → files (run l c f).2 !! k = files f !! k.
Hypothesis K_vm : ∀ l made cmdline f k, K k → files (vm l made cmdline f).2 !! k = files f !! k.

Definition same_files (f f' : Files) : Prop := ∀ k, K k → files f' !! k = files f !! k.
Definition stays (w w' : World) : Prop :=
  pending w' = pending w ∧ (Forall (eq (tmp_path config src)) (pending w) → same_files (fs w) (fs w')).

#[local] Instance stays_pre : PreOrder stays.
Proof.
  split; [by intros w|]. intros w1 w2 w3 [P1 F1] [P2 F2]. split; [congruence|].
  intros Hp k Hk. rewrite F2, F1 by (done || congruence). done.
Qed.

Lemma not_under k : K k → under (tmp_path config src) k = false.
Proof. intros Hk. apply not_true_is_false. intros Hu%under_starts. by rewrite K_tmp in Hu. Qed.

Lemma same_remove_tree f : same_files f (remove_tree (tmp_path config src) f).
Proof.
  intros k Hk. unfold remove_tree. cbn. rewrite map_lookup_filter.
  destruct (files f !! k); [|done]. cbn. by rewrite option_guard_True by by apply not_under.
Qed.

Lemma stays_run {A} (m : M A) :
  (∀ w, pending (m w).2 = pending w ∧ same_files (fs w) (fs (m w).2)) → within stays stays m.
Proof.
  intros Hm w. specialize (Hm w) as [P F]. destruct (m w) as [[a|e|] w']; by split.
Qed.

Lemma stays_sys c e : (∀ f, same_files f (e f)) → within stays stays (sys c e).
Proof. intros He. apply stays_run. intros w. unfold sys. destruct (deny _ _); by split; cbn. Qed.

Definition tmp_file (p : string) : Prop := Str.starts_with (tmp_path config src) p = true.
Lemma tmp_not_K p : tmp_file p → ¬ K p.
Proof. intros Hp Hk. unfold tmp_file in Hp. by rewrite K_tmp in Hp. Qed.

Lemma stays_write p s : ¬ K p → within stays stays (write p s).
Proof.
  intros Hp. apply stays_sys. intros f k Hk. cbn. apply lookup_insert_ne. by intros ->.
Qed.
Lemma stays_copy s p : ¬ K p → within stays stays (fs_copy s p).
Proof.
  intros Hp w. unfold fs_copy. destruct (files (fs w) !! s); [|done].
  apply stays_sys. intros f' k Hk. cbn. apply lookup_insert_ne. by intros ->.
Qed.
Lemma stays_mkdirs p : within stays stays (create_dir_all p).
Proof.
  unfold create_dir_all, mkdir_missing, exists_. repeat within_step. apply stays_sys. by intros f k.
Qed.
Lemma stays_tool n c : within stays stays (tool n c).
Proof.
  unfold tool. within_step; [|within_solve]. apply stays_run. intros w. unfold status.
  pose proof (K_run (log w) c (fs w)) as HK. destruct (run _ _ _) as [[e|e|code] f]; by split.
Qed.
Lemma stays_modules : within stays stays (modules config src).
Proof. apply stays_run. intros w. unfold modules. by case_bool_decide. Qed.
Hint Resolve stays_mkdirs stays_tool stays_modules : within.

Lemma stays_forked made cmdline : within stays stays (start_vm_forked made cmdline).
Proof.
  intros w. unfold start_vm_forked. pose proof (K_vm (log w) made cmdline (fs w)) as HK.
  destruct (vm _ _ _ _) as [[e|e| |st] f]; cbn [with_context]; try done.
  split; [done|]. cbn. intros Hp. induction Hp as [|p ps <- _ IH]; [done|].
  cbn. intros k Hk. rewrite same_remove_tree by done. by apply IH.
Qed.
Lemma stays_setup config' devices mode use_vsock opts : within stays stays (setup_vm_here config' devices mode use_vsock opts).
Proof.
  apply stays_run. intros w. unfold setup_vm_here. destruct (setup_vm _ _ _ _ _ _ _ _ _).
  by destruct (krun CreateCtx).
Qed.
Hint Resolve stays_forked stays_setup : within.
Lemma stays_vm devices cmdline mode : within stays stays (start_freebsd_vm config devices cmdline mode).
Proof. unfold start_freebsd_vm. cbv zeta. within_solve. Qed.
Lemma stays_bootstrap b o d : within stays stays (start_freebsd_bootstrap_vm config b o d).
Proof. unfold start_freebsd_bootstrap_vm. cbv zeta. within_solve. Qed.
Hint Resolve stays_vm stays_bootstrap : within.

Lemma stays_helper {A} name env (start : outcome A) f :
  (∀ a, within stays stays (f a)) → within stays stays (setup_helper name env start config f).
Proof.
  intros Hf. unfold setup_helper, wait_for_file.
  assert (Hend : ∀ w w', stays w w' → stays w (sock_cleanup config w').2).
  { intros v v' Hv. unfold sock_cleanup. by destruct (vfkit_sock_cleanup _ _ _). }
  apply within_bind; [|intros svc].
  { apply stays_run. intros w. by destruct (spawned _). }
  apply within_bind; [within_solve|intros _]. apply within_bind; [by apply stays_run|intros _].
  apply within_finally; [apply Hend..|]. within_step; [within_solve|].
  by apply within_finally; [intros v v' Hv| |apply Hf].
Qed.
Lemma stays_gvproxy f : (∀ c, within stays stays (f c)) → within stays stays (setup_gvproxy config f).
Proof. intros Hf w. unfold setup_gvproxy. by apply stays_helper. Qed.

Lemma stays_oci u i : within stays stays (prepare_oci config src u i).
Proof. unfold prepare_oci, fetch, extract, create_iso. within_solve. Qed.

(** Files of the bootstrap system are temporary. *)
Lemma rootfs_file name :
  path.is_absolute name = false → tmp_file (path.join (bootstrap_rootfs_path config src) name).
Proof.
  intros Hn. unfold tmp_file. eapply starts_with_trans; [|by apply join_starts]. by apply join_starts.
Qed.
Lemma stays_copy_file s name :
  path.is_absolute name = false →
  within stays stays (copy_file s (path.join (bootstrap_rootfs_path config src) name)).
Proof. intros Hn. unfold copy_file. apply within_context, stays_copy, tmp_not_K, rootfs_file, Hn. Qed.

Lemma modules_relative w ms w' :
  modules config src w = (Ok ms, w') → Forall (λ m, path.is_absolute m = false) ms.
Proof.
  unfold modules. case_bool_decide; [|done]. intros [= <- _]. apply Forall_forall. intros m Hm.
  apply list_elem_of_In, filter_In in Hm as [Hm _]. apply list_elem_of_In, list_elem_of_omap in Hm as (p & _ & Hp).
  by eapply entry_relative.
Qed.

Lemma stays_rootfs u b i : within stays stays (prepare_rootfs config src u b i).
Proof.
  unfold prepare_rootfs, fetch, extract. cbv zeta.
  do 3 (within_step; [within_solve|]).
  do 3 (within_step; [by apply stays_copy_file|]).
  do 2 (within_step; [within_solve|]).
  apply (within_bind_when (Forall (λ m, path.is_absolute m = false))); [apply modules_relative|apply stays_modules|].
  intros ms Hms. within_step.
  { within_step. apply stays_copy_file. by eapply Forall_forall in Hms. }
  within_step; [within_solve|]. within_step.
  { apply within_context, stays_write, tmp_not_K. by apply rootfs_file. }
  within_step; [within_solve|]. within_step; [|unfold create_iso; within_solve].
  apply within_context, stays_sys. by intros f k.
Qed.

Lemma stays_populate : within stays stays (populate_disk config src).
Proof.
  unfold populate_disk, create_sparse_file, remove_file. within_step.
  { apply within_ignore, stays_sys. intros f k Hk. cbn. apply lookup_delete_ne. by intros <-. }
  within_step; [within_solve|].
  within_step; [apply stays_gvproxy; intros; within_solve|].
  within_step; [within_solve|].
  within_step; [apply stays_gvproxy; intros; within_solve|within_solve].
Qed.

Lemma stays_install i o k : within stays stays (install_files config src i o k).
Proof.
  unfold install_files. within_step; [apply stays_oci|]. within_step; [apply stays_rootfs|apply stays_populate].
Qed.

Lemma stays_metadata p : within stays stays (metadata p).
Proof. apply stays_run. by intros w. Qed.
Lemma stays_write_mtimes fs :
  (∀ f name, f ∈ fs → path.file_name f = Some name →
     ¬ K (path.join (path.join (base_path config src) "mtimes") name)) →
  within stays stays (write_mtime_files (base_path config src) fs).
Proof.
  intros Hfs. unfold write_mtime_files. within_step; [within_solve|]. within_step.
  unfold write_mtime_file. apply (within_bind_when (λ name, path.file_name x = Some name)).
  - intros w name w'. unfold unwrap_name, lift. by destruct (path.file_name x); intros [= <- _].
  - unfold unwrap_name. within_solve.
  - intros name Hname. within_step; [apply stays_metadata|]. unfold modified.
    do 2 (within_step; [within_solve|]). by eapply within_context, stays_write, Hfs.
Qed.
Lemma stays_chown : within stays stays (chown_installed config src).
Proof.
  unfold chown_installed. repeat within_step; by apply stays_sys; intros f k.
Qed.
End stays.
#[local] Existing Instance stays_pre.

(** ** Runs that fail with a particular message

    A failure is a step of [R] or has a message of [P]; a run that returns is
    a step of [O]. *)
Definition erring {A} (P : string → Prop) (R O : relation World) (m : M A) : Prop :=
  ∀ w, match m w with (Err e, w') => R w w' ∨ P e | (_, w') => O w w' end.

Section erring.
Context {P : string → Prop} {R O : relation World} `{!PreOrder R}.
Hypothesis R_then_O : ∀ w1 w2 w3, R w1 w2 → O w2 w3 → O w1 w3.
Hypothesis R_O : ∀ w1 w2, R w1 w2 → O w1 w2.

Lemma erring_within {A} (m : M A) : within R R m → erring P R O m.
Proof. intros Hm w. specialize (Hm w). destruct (m w) as [[a|e|] w']; auto. Qed.
Lemma erring_bind {A B} (m : M A) (f : A → M B) :
  within R R m → (∀ a, erring P R O (f a)) → erring P R O (m ≫= f).
Proof.
  intros Hm Hf w. specialize (Hm w). unfold mbind, M_bind.
  destruct (m w) as [[a|e|] w1]; [|by left|by apply R_O]. specialize (Hf a w1).
  destruct (f a w1) as [[b|e|] w2]; [by eapply R_then_O| |by eapply R_then_O].
  destruct Hf; [left; by etrans|by right].
Qed.
Lemma erring_upgrade {A} (m : M A) :
  (∀ w w' t t', R (set_lock t w) w' → R w (set_lock t' w')) →
  (∀ w w' t t', O (set_lock t w) w' → O w (set_lock t' w')) →
  erring P R O m → erring P R O (with_upgrade m).
Proof.
  intros HR HO Hm w.
  assert (Hlock : ∀ t, R w (set_lock t w)).
  { intros t. apply (HR w (set_lock (lock w) w) (lock w) t). reflexivity. }
  unfold with_upgrade. destruct (upgrade (lock w) guard) as [[g|e|] t]; [|by left|by apply R_O].
  specialize (Hm (set_lock t w)). unfold finally. cbn [fst snd].
  destruct (m (set_lock t w)) as [[a|e|] w']; [by eapply HO| |by eapply HO].
  destruct Hm; [left; by eapply HR|by right].
Qed.
End erring.

(** What the version check reads: no file, or one that cannot be read, is the
    empty version. *)
Lemma version_matches_eq p v w :
  rootfs_version_matches p v w =
    (Ok (bool_decide (match files (fs w) !! p, deny_read p with
                      | Some x, None => Str.trim (content x)
                      | _, _ => ""
                      end = v)), w).
Proof.
  unfold rootfs_version_matches, exists_, read_to_string, gets, mbind, M_bind, mret, M_ret. cbn.
  unfold exists_in. destruct (files (fs w) !! p) as [x|] eqn:E.
  - rewrite bool_decide_eq_true_2 by eauto. cbn. rewrite E. by destruct (deny_read p).
  - rewrite (bool_decide_eq_false_2 (is_Some None)) by by intros [].
    destruct (bool_decide (p ∈ folders (fs w))); cbn; rewrite ?E; by destruct (deny_read p).
Qed.

Lemma reads_scope config src w :
  (freebsd_initialized config src w).2 = w ∧ (to_upgrade config src w).2 = w.
Proof.
  split; symmetry.
  - apply (within_state eq). unfold freebsd_initialized, rootfs_version_matches, exists_, read_to_string.
    within_solve.
  - apply (within_state eq). unfold to_upgrade, newer, get_file_mtime, modified, read_mtime_file, read_to_string.
    assert (∀ p, within eq eq (metadata p)) by by intros p v; unfold metadata; destruct (metadata_in _ _).
    within_solve.
Qed.

(** ** Installs that fail *)
Section failing.
Context (config : Config) (src : ImageSource).
Abbreviation V := (root_ver_path config src).
Hypothesis run_version : ∀ l c f, files (run l c f).2 !! V = files f !! V.
Hypothesis vm_version : ∀ l made cmdline f, files (vm l made cmdline f).2 !! V = files f !! V.

Definition version_kept (w w' : World) : Prop :=
  Forall (eq (tmp_path config src)) (pending w) →
  Forall (eq (tmp_path config src)) (pending w') ∧ files (fs w') !! V = files (fs w) !! V.
#[local] Instance version_kept_pre : PreOrder version_kept.
Proof.
  split; [by intros w|]. intros w1 w2 w3 H1 H2 Hp. destruct (H1 Hp) as [P1 F1]. destruct (H2 P1) as [P2 F2].
  split; [done|congruence].
Qed.

Lemma version_tmp : Str.starts_with (tmp_path config src) V = false.
Proof. by apply joins_differ. Qed.
Lemma joins_neq p q q' :
  path.is_absolute q = false → path.is_absolute q' = false → q ≠ q' → path.join p q ≠ path.join p q'.
Proof. intros Hq Hq' Hn. rewrite !path.join_text by done. by intros Hj%StrFacts.app_inj_l%StrFacts.app_inj_l. Qed.
Lemma version_disk : V ≠ vm_disk_image_path config src.
Proof. by apply joins_neq. Qed.
Lemma version_mtimes name : V ≠ path.join (path.join (base_path config src) "mtimes") name ∨ path.is_absolute name = true.
Proof.
  destruct (path.is_absolute name) eqn:Ha; [by right|left]. intros HV.
  assert (Hs : Str.starts_with (path.join (base_path config src) "mtimes") V = true)
    by by rewrite HV; apply join_starts.
  revert Hs. by apply not_true_iff_false, joins_differ.
Qed.

Lemma version_stays {A} (m : M A) :
  within (stays config src (eq V)) (stays config src (eq V)) m → within version_kept version_kept m.
Proof.
  intros Hm w. specialize (Hm w).
  destruct (m w) as [[a|e|] w']; destruct Hm as [P F]; intros Hp;
    (split; [by rewrite P|by apply F]).
Qed.

Lemma stays_files i o k : within (stays config src (eq V)) (stays config src (eq V)) (install_files config src i o k).
Proof.
  apply stays_install.
  - intros ? <-. apply version_tmp.
  - apply version_disk.
  - by intros ? ? ? ? <-.
  - by intros ? ? ? ? ? <-.
Qed.

(** The message of an error at the very end. *)
Definition mtimes_failed (e : string) : Prop := ∃ e', e = "Failed to write mtime files: " +:+ e'.

Lemma record_errs : erring mtimes_failed version_kept (λ _ _, True) (record_install config src).
Proof.
  intros w. unfold record_install, mbind, M_bind.
  assert (Hi : ∀ w, ∃ w', m_ignore (write V ROOTFS_VERSION_FREEBSD) w = (Ok tt, w')).
  { intros v. unfold m_ignore, write, sys. destruct (deny _ _); by eexists. }
  destruct (Hi w) as [w1 ->]. unfold m_context.
  destruct (write_mtime_files _ _ w1) as [[[]|e|] w2]; cbn [with_context]; [|right; by exists e|done].
  unfold chown_installed. destruct target; [done|]. repeat (case_match; try done).
  all: unfold m_ignore, sys in *; destruct (deny _ _); simplify_eq.
Qed.

Lemma scope_errs force : erring mtimes_failed version_kept (λ _ _, True) (freebsd_init_scope config src force).
Proof.
  assert (HO : ∀ w1 w2 w3 : World, version_kept w1 w2 → (λ _ _, True) w2 w3 → (λ _ _, True) w1 w3) by done.
  assert (HR : ∀ w1 w2 : World, version_kept w1 w2 → True) by done.
  assert (Hl : ∀ w w' t t', version_kept (set_lock t w) w' → version_kept w (set_lock t' w')) by done.
  assert (Hd : within version_kept version_kept (defer_removal (tmp_path config src))).
  { intros w Hp. split; [apply Forall_app; split; [done|by constructor]|done]. }
  assert (Heq : ∀ A (m : M A), (∀ w, (m w).2 = w) → within version_kept version_kept m).
  { intros A m Hm w. specialize (Hm w). destruct (m w) as [[a|e|] w']; cbn in Hm; subst; reflexivity. }
  unfold freebsd_init_scope. apply erring_bind; [exact HO|exact HR| |intros initialized].
  { within_step; [within_solve|]. apply Heq. intros w. apply reads_scope. }
  destruct initialized.
  - apply erring_bind; [exact HO|exact HR|apply Heq; intros w; apply reads_scope|intros [|e es]].
    { apply erring_within; [exact HR|apply within_ret]. }
    unfold upgrade_binaries. cbv zeta.
    apply erring_upgrade; [exact HR|exact Hl|done|]. apply erring_within; [exact HR|].
    within_step; [apply version_stays, stays_mkdirs|].
    within_step; [done|]. apply version_stays. unfold create_iso.
    within_step; [by apply stays_tool; intros ? ? ? ? <-|].
    do 2 (within_step; [within_solve|]).
    within_step; [apply within_context, stays_vm|apply within_context, stays_write_mtimes].
    + intros ? <-. apply version_tmp.
    + by intros ? ? ? ? ? <-.
    + intros f name _ Hn HV. destruct (version_mtimes name) as [|Ha]; [done|].
      apply path.file_name_relative in Hn. congruence.
  - unfold freebsd_install, url. do 3 (apply erring_bind; [exact HO|exact HR|within_solve|intros ?]).
    apply erring_upgrade; [exact HR|exact Hl|done|]. unfold install_exclusive, nonempty_url.
    do 3 (apply erring_bind; [exact HO|exact HR|within_solve|intros ?]).
    apply erring_bind; [exact HO|exact HR| |intros _].
    { apply within_context, version_stays, stays_mkdirs. }
    apply erring_bind; [exact HO|exact HR|done|intros _].
    apply erring_bind; [exact HO|exact HR| |intros _; apply record_errs].
    by apply version_stays, stays_files.
Qed.

Lemma removals_keep_version ps w :
  Forall (eq (tmp_path config src)) ps →
  files (fs (m_for (λ p, m_ignore (remove_dir_all p)) ps w).2) !! V = files (fs w) !! V.
Proof.
  intros Hps. revert w. induction Hps as [|p ps <- _ IH]; intros w; cbn [m_for]; [done|].
  rewrite (bind_run _ _ _ _ _ (ignored_removal (tmp_path config src) w)), IH.
  destruct (deny _ _); [done|]. apply (same_remove_tree config src (eq V)); [|done].
  intros ? <-. apply version_tmp.
Qed.

End failing.

(** ** The temporary directory *)
Lemma length_app_lt a c s : String.length a < String.length (a +:+ String c s).
Proof. rewrite StrFacts.length_app. cbn. lia. Qed.

Lemma prefixes_last acc s :
  ∃ ps, prefixes acc s = ps ++ [(acc +:+ s)%string] ∧ Forall (λ p, String.length p < String.length (acc +:+ s)) ps.
Proof.
  revert acc; induction s as [|c s IH]; intros acc; cbn [prefixes].
  - exists []. by rewrite StrFacts.app_nil_r.
  - destruct (IH (acc +:+ String c "")) as (ps & -> & Hps). rewrite StrFacts.app_assoc in *. cbn in Hps |- *.
    repeat case_decide; [by eauto| |by eauto].
    exists (acc :: ps). split; [done|]. constructor; [apply length_app_lt|done].
Qed.

(** Of no file: then [stays] is about the deferred actions only. *)
Definition no_file (_ : string) : Prop := False.
Ltac no_K := repeat intro; match goal with H : no_file _ |- _ => destruct H end.

Section tidy.
Context (config : Config) (src : ImageSource).
Abbreviation T := (tmp_path config src).
Hypothesis removable : ∀ l, deny l (RemoveTree T) = None.

(** Nothing at the path or below it. *)
Definition clean (f : Files) : Prop := ∀ p, under T p = true → (p ∉ folders f) ∧ files f !! p = None.

Definition untouched (w : World) : Prop := pending w = [] ∧ clean (fs w).
Definition settles {A} (P : string → Prop) (m : M A) : Prop :=
  ∀ w, untouched w →
    match m w with
    | (Err e, w') => untouched w' ∨ pending w' = [T] ∨ P e
    | (_, w') => untouched w' ∨ pending w' = [T]
    end.

Lemma settles_same {A} P (m : M A) : (∀ w, (m w).2 = w) → settles P m.
Proof. intros Hm w Hw. specialize (Hm w). destruct (m w) as [[a|e|] w']; cbn in Hm; subst; auto. Qed.
Lemma settles_bind {A B} P (m : M A) (f : A → M B) :
  (∀ w, (m w).2 = w) → (∀ a, settles P (f a)) → settles P (m ≫= f).
Proof.
  intros Hm Hf w Hw. specialize (Hm w). unfold mbind, M_bind.
  destruct (m w) as [[a|e|] w']; cbn in Hm; subst; [by apply Hf|by left..].
Qed.
Lemma settles_upgrade {A} P (m : M A) : settles P m → settles P (with_upgrade m).
Proof.
  intros Hm w Hw. unfold with_upgrade. destruct (upgrade (lock w) guard) as [[g|e|] t]; [|by left..].
  specialize (Hm (set_lock t w) Hw). unfold finally. cbn [fst snd].
  by destruct (m (set_lock t w)) as [[a|e|] w'].
Qed.

Abbreviation stays0 := (stays config src no_file).

(** Making a directory fails before anything is at its path, or has made it. *)
Lemma create_fails p w :
  match create_dir_all p w with
  | (Ok _, w') => pending w' = pending w
  | (Err _, w') => pending w' = pending w ∧ (p = T → clean (fs w) → clean (fs w'))
  | (Panic, _) => False
  end.
Proof.
  pose proof (stays_mkdirs config src no_file p w) as Hp.
  destruct (create_dir_all p w) as [r w'] eqn:E.
  assert (Hpw : pending w' = pending w) by (destruct r; apply Hp). clear Hp.
  destruct (prefixes_last "" p) as (ps & Hps & Hlen). cbn in Hps, Hlen.
  unfold create_dir_all in E. rewrite Hps in E. clear Hps. revert w E Hpw.
  induction Hlen as [|q ps Hq _ IH]; intros w E Hpw; cbn [app m_for] in E.
  - unfold mkdir_missing, exists_, gets, sys, mbind, M_bind, mret, M_ret in E. cbn in E.
    destruct (exists_in (fs w) p); [|destruct (deny _ _)]; by simplify_eq.
  - unfold mbind, M_bind in E. destruct (mkdir_missing q w) as [r1 w1] eqn:E1.
    assert (Hw1 : r1 = Ok tt ∨ ∃ e, r1 = Err e ∧ w1 = w).
    { unfold mkdir_missing, exists_, gets, sys, mbind, M_bind, mret, M_ret in E1. cbn in E1.
      destruct (exists_in (fs w) q); [|destruct (deny _ _)]; simplify_eq; eauto. }
    assert (Hc : pending w1 = pending w ∧ (p = T → clean (fs w) → clean (fs w1))).
    { unfold mkdir_missing, exists_, gets, sys, mbind, M_bind, mret, M_ret in E1. cbn in E1.
      destruct (exists_in (fs w) q); [|destruct (deny _ _)]; simplify_eq; [done..|]. split; [done|].
      intros -> Hcl k Hk. destruct (Hcl k Hk) as [Hk1 Hk2]. cbn. split; [|done].
      rewrite elem_of_union, elem_of_singleton. intros [->|]; [|done].
      apply under_starts, StrFacts.starts_with_spec in Hk as [s ->].
      rewrite StrFacts.length_app in Hq. lia. }
    destruct Hc as [Hc1 Hc2]. destruct Hw1 as [->|(e & -> & ->)]; [|by simplify_eq].
    specialize (IH w1 E). rewrite Hc1 in IH. specialize (IH Hpw).
    destruct r; [done| |done]. destruct IH. split; [done|]. auto.
Qed.

Lemma deferred_after {A} (rest : M A) :
  within stays0 stays0 rest →
  ∀ w, pending w = [] → pending ((defer_removal T;; rest) w).2 = [T].
Proof.
  intros Hr w Hw. unfold mbind, M_bind, defer_removal. specialize (Hr (set_pending (pending w ++ [T]) w)).
  destruct (rest _) as [[a|e|] w']; destruct Hr as [Hr _]; cbn in Hr |- *; by rewrite Hr, Hw.
Qed.

(** The message of a failure to make the directory of the OCI image. *)
Definition directory_failed (e : string) : Prop :=
  ∃ e', e = "Failed to create FreeBSD base directory: " +:+ e'.

Lemma stays0_record : within stays0 stays0 (record_install config src).
Proof.
  unfold record_install. within_step; [apply within_ignore, stays_write; no_K|].
  within_step; [apply within_context, stays_write_mtimes; no_K|apply stays_chown].
Qed.

Lemma settles_upgrade_binaries execs : settles directory_failed (upgrade_binaries config src execs).
Proof.
  unfold upgrade_binaries. apply settles_upgrade. intros w [Hp Hc].
  unfold mbind at 1, M_bind at 1. pose proof (create_fails T w) as Hf.
  destruct (create_dir_all T w) as [[[]|e|] w1]; [|left; split; [by rewrite (proj1 Hf)|by apply Hf]|done].
  rewrite Hp in Hf.
  match goal with |- context [mbind ?f (defer_removal T) w1] => set (m := mbind f (defer_removal T)) end.
  assert (Hm : pending (m w1).2 = [T]).
  { apply deferred_after; [|done]. unfold create_iso. within_step; [apply stays_tool; no_K|].
    do 2 (within_step; [within_solve|]). within_step; [apply within_context, stays_vm; no_K|].
    apply within_context, stays_write_mtimes; no_K. }
  destruct (m w1) as [[a|e|] w2]; auto.
Qed.

Lemma settles_install : settles directory_failed (freebsd_install config src).
Proof.
  unfold freebsd_install, url. do 3 (apply settles_bind; [done|intros ?]). apply settles_upgrade.
  unfold install_exclusive, nonempty_url. do 3 (apply settles_bind; [done|intros _]).
  intros w [Hp Hc]. unfold mbind at 1, M_bind at 1, m_context at 1.
  pose proof (create_fails (path.join T "oci") w) as Hf.
  destruct (create_dir_all _ w) as [[[]|e|] w1]; cbn [with_context];
    [|right; right; by exists e|done].
  rewrite Hp in Hf.
  match goal with |- context [mbind ?f (defer_removal T) w1] => set (m := mbind f (defer_removal T)) end.
  assert (Hm : pending (m w1).2 = [T]).
  { apply deferred_after; [|done]. within_step; [apply stays_install; no_K|apply stays0_record]. }
  destruct (m w1) as [[x|e|] w2]; auto.
Qed.

Lemma removed_clean f : clean (remove_tree T f).
Proof.
  intros p Hp. unfold remove_tree. cbn. split.
  - rewrite elem_of_filter. by intros [Hn _]; rewrite Hp in Hn.
  - rewrite map_lookup_filter. destruct (files f !! p); [|done]. cbn.
    rewrite option_guard_False; [done|]. cbn. by rewrite Hp.
Qed.

(** Whatever fails, nothing is left of the temporary directory of a FreeBSD
    image when [init_rootfs] ends, provided that it can be removed; only a
    failure to make its subdirectories can leave it behind, because its removal
    is deferred after that. *)
Lemma temporary_removed force w r w' :
  pending w = [] → clean (fs w) →
  freebsd_init_rootfs config src force w = (r, w') →
  clean (fs w') ∨ ∃ e, r = Err e ∧ directory_failed e.
Proof.
  intros Hp Hc. unfold freebsd_init_rootfs. destruct (Str.is_empty _); [intros [= _ <-]; by left|].
  assert (Hs : settles directory_failed (freebsd_init_scope config src force)).
  { unfold freebsd_init_scope. apply settles_bind.
    { destruct force; [done|]. apply reads_scope. }
    intros [|]; [|apply settles_install]. apply settles_bind; [apply reads_scope|].
    intros [|e es]; [by apply settles_same|apply settles_upgrade_binaries]. }
  specialize (Hs w (conj Hp Hc)). unfold deferred_scope, finally.
  destruct (freebsd_init_scope config src force w) as [r1 w1]. intros [= <- <-].
  assert (Hend : untouched w1 ∨ pending w1 = [T] → clean (fs (run_pending w1).2)).
  { unfold run_pending. intros [[-> Hc1]| ->]; [done|]. cbn [reverse rev_append m_for].
    rewrite (bind_run _ _ _ _ _ (ignored_removal T _)), removable. apply removed_clean. }
  destruct r1 as [[]|e|]; [left; by apply Hend| |left; by apply Hend].
  destruct Hs as [Hs|[Hs|Hs]]; [left; apply Hend; auto..|right; eauto].
Qed.
End tidy.

(** ** A second run *)
Section again.
Context (config : Config) (src : ImageSource).
Abbreviation V := (root_ver_path config src).
Abbreviation mt := (path.join (mtimes_path config src)).
Abbreviation prog := (path.join (libexec_path (paths config))).
Abbreviation execs := [INIT_EXEC; VMPROXY_EXEC].
(** The programs are not in the directory of the image, and no command or VM
    changes them, the version or the noted times. *)
Definition watched (k : string) : Prop := k = V ∨ ∃ e, e ∈ execs ∧ (k = prog e ∨ k = mt e).
Hypothesis elsewhere : ∀ e, e ∈ execs → Str.starts_with (base_path config src) (prog e) = false.
Hypothesis run_watched : ∀ l c f k, watched k → files (run l c f).2 !! k = files f !! k.
Hypothesis vm_watched : ∀ l made cmdline f k, watched k → files (vm l made cmdline f).2 !! k = files f !! k.
Hypothesis ron_roundtrip : ∀ t s, ron_to_string t = Ok s → ron_from_str s = Ok t.
Hypothesis readable : deny_read V = None ∧ ∀ e, e ∈ execs → deny_read (mt e) = None.
Hypothesis version_writable : ∀ l, deny l (WriteFile V ROOTFS_VERSION_FREEBSD) = None.

Lemma execs_plain e : e ∈ execs → path.plain e = true.
Proof. intros [->|[->|?%not_elem_of_nil]%elem_of_cons]%elem_of_cons; done. Qed.
Lemma execs_relative e : e ∈ execs → path.is_absolute e = false.
Proof. intros He. by apply path.plain_relative, execs_plain. Qed.

Lemma base_join q : path.is_absolute q = false → Str.starts_with (base_path config src) (path.join (base_path config src) q) = true.
Proof. apply join_starts. Qed.
Lemma mt_in_base e : e ∈ execs → Str.starts_with (base_path config src) (mt e) = true.
Proof.
  intros He. eapply starts_with_trans; [by apply (base_join "mtimes")|]. by apply join_starts, execs_relative.
Qed.
Lemma prog_not_mt e e' : e ∈ execs → e' ∈ execs → prog e ≠ mt e'.
Proof. intros He He' Heq. pose proof (elsewhere e He) as Hb. by rewrite Heq, mt_in_base in Hb. Qed.
Lemma version_not_mt e : e ∈ execs → V ≠ mt e.
Proof.
  intros He. destruct (version_mtimes config src e) as [Hne|Ha]; [exact Hne|].
  by rewrite execs_relative in Ha.
Qed.
Lemma prog_not_version e : e ∈ execs → prog e ≠ V.
Proof. intros He Heq. pose proof (elsewhere e He) as Hb. rewrite Heq in Hb. unfold root_ver_path in Hb.
  by rewrite base_join in Hb. Qed.
Lemma mt_inj e e' : e ∈ execs → e' ∈ execs → mt e = mt e' → e = e'.
Proof.
  intros He He'. rewrite !path.join_text by by apply execs_relative.
  by intros Hj%StrFacts.app_inj_l%StrFacts.app_inj_l.
Qed.

Lemma watched_tmp k : watched k → Str.starts_with (tmp_path config src) k = false.
Proof.
  assert (Hb : ∀ k, Str.starts_with (base_path config src) k = false → Str.starts_with (tmp_path config src) k = false).
  { intros k' Hk'. apply not_true_is_false. intros Ht. rewrite (starts_with_trans _ (tmp_path config src)) in Hk'; [done| |done].
    by apply (base_join "tmp"). }
  intros [->|(e & He & [->| ->])]; [by apply version_tmp|by apply Hb, elsewhere|].
  unfold mtimes_path, tmp_path. apply not_true_is_false. intros [r Hr]%StrFacts.starts_with_spec. revert Hr.
  rewrite (path.join_text _ e) by by apply execs_relative.
  rewrite !(path.join_text (base_path config src)), !StrFacts.app_assoc by done.
  intros Hr%StrFacts.app_inj_l%StrFacts.app_inj_l. by cbn in Hr.
Qed.
Lemma watched_disk : ¬ watched (vm_disk_image_path config src).
Proof.
  intros [HV|(e & He & [Hp|Hm])].
  - by apply (version_disk config src).
  - pose proof (elsewhere e He) as Hb. rewrite <-Hp in Hb. unfold vm_disk_image_path in Hb.
    by rewrite base_join in Hb.
  - revert Hm. unfold vm_disk_image_path, mtimes_path. rewrite (path.join_text _ e) by by apply execs_relative.
    rewrite !(path.join_text (base_path config src)), !StrFacts.app_assoc by done.
    by intros Hr%StrFacts.app_inj_l%StrFacts.app_inj_l.
Qed.

(** The noted time of a program is the one it has. *)
Definition noted (f : Files) (e : string) : Prop :=
  ∃ x y, files f !! prog e = Some x ∧ files f !! mt e = Some y ∧ ron_from_str (content y) = Ok (mtime x).

Lemma newer_ext e w w' :
  files (fs w) !! prog e = files (fs w') !! prog e → files (fs w) !! mt e = files (fs w') !! mt e →
  (newer config src (prog e) e w).1 = (newer config src (prog e) e w').1.
Proof.
  intros Hp Hm. unfold newer, get_file_mtime, metadata, metadata_in, modified, read_mtime_file, read_to_string,
    gets, m_context, mbind, M_bind, lift, mret, M_ret. rewrite <-Hp.
  destruct (files (fs w) !! prog e) as [x|]; cbn; [|done].
  destruct (deny_mtime _); cbn; [done|]. rewrite <-Hm.
  destruct (deny_read (mt e)); cbn; [done|]. destruct (files (fs w) !! mt e) as [y|]; cbn; [|done].
  by destruct (ron_from_str _).
Qed.

Lemma noted_newer e w :
  e ∈ execs → noted (fs w) e → deny_mtime (prog e) = None → (newer config src (prog e) e w).1 = Ok [].
Proof.
  intros He (x & y & Hx & Hy & Hr) Hd. destruct readable as [_ Hread].
  unfold newer, get_file_mtime, metadata, metadata_in, modified, read_mtime_file, read_to_string,
    gets, m_context, mbind, M_bind, lift, mret, M_ret. rewrite Hx. cbn. rewrite Hd. cbn.
  rewrite (Hread e He), Hy. cbn. rewrite Hr. cbn. rewrite bool_decide_eq_false_2; [done|lia].
Qed.

Lemma mkdirs_files p w : files (fs (create_dir_all p w).2) = files (fs w).
Proof.
  apply (within_state (λ w w', files (fs w') = files (fs w)) _ w).
  assert (PreOrder (λ w w', files (fs w') = files (fs w))) by (split; [by intros ?|intros ? ? ? H1 H2; congruence]).
  unfold create_dir_all, mkdir_missing, exists_. within_solve.
  intros v. unfold sys. by destruct (deny _ _).
Qed.

Lemma write_mtime_ok e w w' :
  e ∈ execs → write_mtime_file (mtimes_path config src) (prog e) w = (Ok tt, w') →
  noted (fs w') e ∧ deny_mtime (prog e) = None ∧ ∀ k, k ≠ mt e → files (fs w') !! k = files (fs w) !! k.
Proof.
  intros He. unfold write_mtime_file. rewrite path.file_name_join by by apply execs_plain.
  unfold unwrap_name, metadata, metadata_in, modified, mbind, M_bind, lift, write, m_context, sys. cbn.
  destruct (files (fs w) !! prog e) as [x|] eqn:Hx; cbn; [|done].
  destruct (deny_mtime (prog e)); cbn; [done|].
  destruct (ron_to_string (mtime x)) as [s|?|] eqn:Hs; cbn; [|done..].
  destruct (deny _ _); cbn; [done|]. intros [= <-]. cbn. split_and!; [|done|].
  - exists x, (mkFile s now). cbn. rewrite lookup_insert_ne, lookup_insert_eq; [by auto|].
    intros Heq. by apply (prog_not_mt e e He He).
  - intros k Hk. by apply lookup_insert_ne.
Qed.

Lemma write_mtimes_ok es w w' :
  NoDup es → (∀ e, e ∈ es → e ∈ execs) →
  write_mtime_files (base_path config src) (prog <$> es) w = (Ok tt, w') →
  (∀ e, e ∈ es → noted (fs w') e ∧ deny_mtime (prog e) = None) ∧
  ∀ k, (∀ e, e ∈ es → k ≠ mt e) → files (fs w') !! k = files (fs w) !! k.
Proof.
  intros Hnd Hes Hw. unfold write_mtime_files in Hw. inv_m.
  match goal with H : create_dir_all _ _ = _ |- _ => pose proof (mkdirs_files (mtimes_path config src) w) as Hf;
    unfold mtimes_path in Hf; rewrite H in Hf; cbn in Hf; clear H end.
  rename st into v. rewrite <-Hf. clear Hf. revert v Hw.
  induction Hnd as [|e es Hn Hnd IH]; intros v Hw; cbn [fmap list_fmap m_for] in Hw.
  { inv_m. split; [by intros ? ?%not_elem_of_nil|done]. }
  inv_m. match goal with H : write_mtime_file _ _ _ = (Ok ?u, _) |- _ =>
    destruct u; apply write_mtime_ok in H as ((x & y & Hx & Hy & Hr) & Hd & Hk) end;
    [|by apply Hes; set_solver].
  destruct (IH ltac:(set_solver) _ Hw) as [IH1 IH2]. split.
  - intros e' [->|He']%elem_of_cons; [|by apply IH1]. split; [|done].
    exists x, y. rewrite !IH2; [done|..]; intros e' He'.
    + intros Hm%mt_inj; [congruence|apply Hes; set_solver..].
    + apply prog_not_mt; apply Hes; set_solver.
  - intros k Hne. rewrite IH2 by set_solver. apply Hk. set_solver.
Qed.

(** What a second run looks at. *)
Definition current (f : Files) : Prop :=
  (∃ x, files f !! V = Some x ∧ Str.trim (content x) = ROOTFS_VERSION_FREEBSD) ∧
  ∀ e, e ∈ execs → ∀ w, fs w = f → (newer config src (prog e) e w).1 = Ok [].

Lemma current_same f f' : same_files watched f f' → current f → current f'.
Proof.
  intros Hs [(x & Hx & Hv) Hn]. split.
  - exists x. split; [|done]. rewrite Hs; [done|by left].
  - intros e He w <-. rewrite (newer_ext e w (set_fs f w)).
    + by apply Hn.
    + cbn. apply Hs. right. eauto.
    + cbn. apply Hs. right. eauto.
Qed.

Lemma newer_state e w : (newer config src (prog e) e w).2 = w.
Proof.
  symmetry. apply (within_state eq). unfold newer, get_file_mtime, modified, read_mtime_file, read_to_string.
  assert (∀ p, within eq eq (metadata p)) by by intros p v; unfold metadata; destruct (metadata_in _ _).
  within_solve.
Qed.

Lemma to_upgrade_Ok w es w' :
  to_upgrade config src w = (Ok es, w') →
  w' = w ∧ NoDup es ∧ (∀ e, e ∈ es → e ∈ execs) ∧
  ∀ e, e ∈ execs → e ∉ es → (newer config src (prog e) e w).1 = Ok [].
Proof.
  intros Hu. unfold to_upgrade in Hu.
  assert (Hn : ∀ e v l v', newer config src (prog e) e v = (Ok l, v') → v' = v ∧ (l = [] ∨ l = [e])).
  { intros e v l v' Hv. pose proof (newer_state e v) as Hs. rewrite Hv in Hs. split; [done|].
    unfold newer in Hv. inv_m. case_bool_decide; auto. }
  inv_m. unfold init_src_path, vmproxy_src_path in *.
  match goal with H1 : newer _ _ (prog INIT_EXEC) _ w = (Ok ?l1, _), H2 : newer _ _ _ _ _ = (Ok ?l2, w') |- _ =>
    destruct (Hn _ _ _ _ H1) as [-> Hl1]; destruct (Hn _ _ _ _ H2) as [-> Hl2]; rename H1 into N1; rename H2 into N2 end.
  split; [done|].
  assert (Hne : INIT_EXEC ≠ VMPROXY_EXEC) by done.
  split; [|split].
  - destruct Hl1 as [->| ->], Hl2 as [->| ->]; cbn; repeat constructor; set_solver.
  - destruct Hl1 as [->| ->], Hl2 as [->| ->]; cbn; set_solver.
  - intros e [->|[->|?%not_elem_of_nil]%elem_of_cons]%elem_of_cons; [..|done].
    + rewrite N1. intros Hni. destruct Hl1 as [->| ->]; [done|set_solver].
    + rewrite N2. intros Hni. destruct Hl2 as [->| ->]; [done|]. destruct Hni. apply elem_of_app. set_solver.
Qed.

(** Once the times of the programs [es] are noted and the others were current. *)
Lemma noted_current es f w w' :
  NoDup es → (∀ e, e ∈ es → e ∈ execs) →
  write_mtime_files (base_path config src) (prog <$> es) w = (Ok tt, w') →
  (∃ x, files (fs w) !! V = Some x ∧ Str.trim (content x) = ROOTFS_VERSION_FREEBSD) →
  same_files watched f (fs w) →
  (∀ e, e ∈ execs → e ∉ es → ∀ v, fs v = f → (newer config src (prog e) e v).1 = Ok []) →
  current (fs w').
Proof.
  intros Hnd Hes Hw (x & Hx & Hv) Hsame Hold.
  destruct (write_mtimes_ok es w w' Hnd Hes Hw) as [Hnew Hkeep]. split.
  - exists x. split; [|done]. rewrite Hkeep; [done|]. intros e He. by apply version_not_mt, Hes.
  - intros e He v Hf. destruct (decide (e ∈ es)) as [Hin|Hni].
    + destruct (Hnew e Hin) as [Hn Hd]. apply noted_newer; [done|by rewrite Hf|done].
    + rewrite (newer_ext e v (set_fs f v)); [by apply Hold|..]; cbn; rewrite Hf.
      * rewrite Hkeep, Hsame; [done|right; eauto|]. intros e' He'. apply prog_not_mt; auto.
      * rewrite Hkeep, Hsame; [done|right; eauto|]. intros e' He' Hm%mt_inj; [congruence|auto..].
Qed.

Abbreviation staysW := (stays config src watched).

Lemma upgrade_Ok_inv {A} (m : M A) w a w1 :
  with_upgrade m w = (Ok a, w1) →
  ∃ t w2, m (set_lock t w) = (Ok a, w2) ∧ fs w1 = fs w2 ∧ pending w1 = pending w2.
Proof.
  unfold with_upgrade. destruct (upgrade (lock w) guard) as [[g|e|] t]; [|done..]. unfold finally.
  destruct (m (set_lock t w)) as [r w2] eqn:E. intros [= -> <-]. by exists t, w2.
Qed.

Lemma defer_Ok_inv w u w1 :
  defer_removal (tmp_path config src) w = (Ok u, w1) →
  fs w1 = fs w ∧ (Forall (eq (tmp_path config src)) (pending w) → Forall (eq (tmp_path config src)) (pending w1)).
Proof. intros [= _ <-]. split; [done|]. intros Hp. apply Forall_app. split; [done|by constructor]. Qed.

Lemma install_current w w1 :
  pending w = [] → freebsd_install config src w = (Ok tt, w1) →
  current (fs w1) ∧ Forall (eq (tmp_path config src)) (pending w1).
Proof.
  intros Hp Hi. unfold freebsd_install, url in Hi. inv_m.
  apply upgrade_Ok_inv in Hi as (t & w2 & Hi & -> & ->).
  unfold install_exclusive, nonempty_url, record_install in Hi. inv_m.
  repeat match goal with H : (match ?o with Some _ => _ | None => _ end) = Ok _ |- _ => destruct o; simplify_eq end.
  repeat match goal with H : (if ?b then _ else _) = Ok _ |- _ => clear H end.
  match goal with
  | H1 : create_dir_all _ _ = (Ok _, ?v1), H2 : defer_removal _ ?v1 = (Ok _, ?v2),
    H3 : install_files _ _ _ _ _ ?v2 = (Ok _, ?v3), H4 : m_ignore _ ?v3 = (Ok _, ?v4),
    H5 : write_mtime_files _ _ ?v4 = (Ok ?u, ?v5), H6 : chown_installed _ _ ?v5 = (Ok _, w2) |- _ =>
      pose proof (within_Ok _ _ _ _ _ _ (stays_mkdirs config src watched _) H1) as [P1 _];
      apply defer_Ok_inv in H2 as [_ P2];
      pose proof (within_Ok _ _ _ _ _ _ (stays_install config src watched watched_tmp watched_disk run_watched
        vm_watched _ _ _) H3) as [P3 _];
      pose proof (within_Ok _ _ _ _ _ _ (stays_write_mtimes config src no_file _ ltac:(no_K)) H5) as [P5 _];
      pose proof (within_Ok _ _ _ _ _ _ (stays_chown config src watched) H6) as [P6 F6];
      destruct u
  end.
  cbn in P1. rewrite P1, Hp in P2. specialize (P2 (Forall_nil_2 _)). rewrite <-P3 in P2.
  match goal with H : m_ignore _ _ = _ |- _ =>
    unfold m_ignore, write, sys in H; rewrite version_writable in H; simplify_eq end.
  cbn in P5. rewrite P6, P5. split; [|done]. rewrite P5 in F6. eapply current_same; [by apply F6|].
  match goal with H : write_mtime_files _ _ ?v = _ |- _ =>
    apply (noted_current execs (fs v) v); [repeat constructor; set_solver|done|exact H| |done|done] end.
  eexists. cbn. by rewrite lookup_insert_eq.
Qed.

Lemma upgrade_current es w w1 :
  pending w = [] → NoDup es → (∀ e, e ∈ es → e ∈ execs) →
  (∃ x, files (fs w) !! V = Some x ∧ Str.trim (content x) = ROOTFS_VERSION_FREEBSD) →
  (∀ e, e ∈ execs → e ∉ es → (newer config src (prog e) e w).1 = Ok []) →
  upgrade_binaries config src es w = (Ok tt, w1) →
  current (fs w1) ∧ Forall (eq (tmp_path config src)) (pending w1).
Proof.
  intros Hp Hnd Hes (x & Hx & Hv) Hold Hu. unfold upgrade_binaries in Hu. cbv zeta in Hu.
  apply upgrade_Ok_inv in Hu as (t & w2 & Hu & -> & ->). inv_m.
  match goal with
  | H1 : create_dir_all _ _ = (Ok _, ?v1), H2 : defer_removal _ ?v1 = (Ok _, ?v2),
    H3 : create_iso _ _ _ _ _ ?v2 = (Ok _, ?v3),
    H4 : start_freebsd_vm _ _ _ _ ?v3 = (Ok _, ?v4), H5 : write_mtime_files _ _ ?v4 = (Ok _, w2) |- _ =>
      pose proof (within_Ok _ _ _ _ _ _ (stays_mkdirs config src watched _) H1) as [P1 F1];
      apply defer_Ok_inv in H2 as [F2 P2];
      pose proof (within_Ok _ _ _ _ _ _ (stays_tool config src watched run_watched _ _) H3) as [P3 F3];
      pose proof (within_Ok _ _ _ _ _ _ (stays_vm config src watched watched_tmp vm_watched _ _ _) H4) as [P4 F4];
      pose proof (within_Ok _ _ _ _ _ _ (stays_write_mtimes config src no_file _ ltac:(no_K)) H5) as [P5 _];
      assert (HF : same_files watched (fs w) (fs v4))
  end.
  { cbn in P1, F1. rewrite P1, Hp in P2. specialize (P2 (Forall_nil_2 _)). rewrite F2 in F3.
    intros k Hk. rewrite F4 by (rewrite ?P3; done). rewrite F3 by done. apply F1; [by rewrite Hp|done]. }
  cbn in P1. rewrite P1, Hp in P2. rewrite P5, P4, P3. split; [|by apply P2].
  match goal with H : write_mtime_files _ _ ?v = _ |- _ =>
    apply (noted_current es (fs w) v); [done|done|exact H| |exact HF|] end.
  - exists x. split; [|done]. rewrite HF; [done|by left].
  - intros e He Hni v Hf. rewrite (newer_ext e v w); [by apply Hold|by rewrite Hf..].
Qed.

Lemma initialized_Ok w u w1 :
  freebsd_initialized config src w = (Ok u, w1) →
  w1 = w ∧ (u = true → ∃ x, files (fs w) !! V = Some x ∧ Str.trim (content x) = ROOTFS_VERSION_FREEBSD).
Proof.
  intros Hi. pose proof (proj1 (reads_scope config src w)) as Hs. rewrite Hi in Hs. split; [done|].
  unfold freebsd_initialized in Hi. inv_m. destruct (_ && _) in Hi; [|by inv_m; intros ?].
  rewrite version_matches_eq in Hi. intros ->. injection Hi as Hi _. apply bool_decide_eq_true in Hi.
  destruct (files _ !! V) as [x|] eqn:Hx; [|done]. destruct (deny_read V); [done|].
  unfold exists_ in *. inv_m. eauto.
Qed.

Lemma removals_current ps w :
  Forall (eq (tmp_path config src)) ps → pending w = [] → current (fs w) →
  let w' := (m_for (λ p, m_ignore (remove_dir_all p)) ps w).2 in
  pending w' = [] ∧ current (fs w').
Proof.
  intros Hps. cbv zeta. revert w. induction Hps as [|p ps <- _ IH]; intros v He Hcur; [done|].
  cbn [m_for]. rewrite (bind_run _ _ _ _ _ (ignored_removal _ v)). destruct (deny _ _); [by apply IH|].
  apply IH; [done|]. eapply current_same; [|exact Hcur]. by apply same_remove_tree, watched_tmp.
Qed.

(** After an [init_rootfs] of FreeBSD that succeeded, forced or not, whether
    it installed, upgraded or found nothing to do, another one changes nothing
    and starts no VM, as long as the kernel and the disk are there. *)
Lemma second_init_idle force w w' :
  pending w = [] → freebsd_init_rootfs config src force w = (Ok tt, w') →
  exists_in (fs w') (path.join (base_path config src) KERNEL_IMAGE) = true →
  exists_in (fs w') (vm_disk_image_path config src) = true →
  freebsd_init_rootfs config src false w' = (Ok tt, w').
Proof.
  intros Hp. unfold freebsd_init_rootfs. destruct (Str.is_empty _); [done|].
  unfold deferred_scope. intros (w1 & Hs & ->)%finally_Ok_inv Hk Hd.
  set (w2 := (run_pending w1).2) in *.
  assert (Hc : current (fs w1) ∧ Forall (eq (tmp_path config src)) (pending w1)).
  { unfold freebsd_init_scope in Hs. apply bind_Ok_inv in Hs as (u & v & Hu & Hs).
    destruct force; [inv_m; by apply install_current in Hs|].
    apply initialized_Ok in Hu as [-> Hv]. destruct u; [|by apply install_current in Hs].
    apply bind_Ok_inv in Hs as (es & v & Hu & Hs). apply to_upgrade_Ok in Hu as (-> & Hnd & Hes & Hold).
    destruct es as [|e es]; [|by apply upgrade_current in Hs; auto].
    inv_m. rewrite Hp. split; [|done]. split; [by apply Hv|].
    intros e He v Hv'. rewrite (newer_ext e v w1); [|by rewrite Hv'..]. apply Hold; set_solver. }
  destruct Hc as [Hc HT].
  assert (Hp2 : pending w2 = [] ∧ current (fs w2))
    by (apply removals_current; [by apply Forall_reverse|done..]).
  clearbody w2. destruct Hp2 as [Hp2 [(x & Hx & Hv) Hn]].
  assert (Hi : freebsd_initialized config src w2 = (Ok true, w2)).
  { unfold freebsd_initialized, exists_, gets, mbind, M_bind. unfold vm_disk_image_path in Hd. rewrite Hk, Hd. cbn.
    rewrite version_matches_eq, Hx, (proj1 readable), Hv. by rewrite bool_decide_eq_true_2. }
  assert (Hu : to_upgrade config src w2 = (Ok [], w2)).
  { unfold to_upgrade, mbind, M_bind. unfold init_src_path, vmproxy_src_path.
    pose proof (Hn INIT_EXEC ltac:(set_solver) w2 eq_refl) as N1. pose proof (newer_state INIT_EXEC w2) as S1.
    pose proof (Hn VMPROXY_EXEC ltac:(set_solver) w2 eq_refl) as N2. pose proof (newer_state VMPROXY_EXEC w2) as S2.
    destruct (newer config src (prog INIT_EXEC) _ w2) as [r1 v1]; cbn in *; subst.
    by destruct (newer config src (prog VMPROXY_EXEC) _ w2) as [r2 v2]; cbn in *; subst. }
  unfold finally, freebsd_init_scope. rewrite (bind_run _ _ _ _ _ Hi), (bind_run _ _ _ _ _ Hu).
  unfold mret, M_ret, run_pending. rewrite Hp2. cbn. unfold set_pending. destruct w2; cbn in *. by subst.
Qed.
End again.
End image.

(** ** Reinstalling an installed image *)
Module Witness.
#[local] Instance blkid : Blkid := {
  Probe := unit; Partition := unit;
  new_from_filename _ := Ok tt; enable_superblocks p _ := Ok p; enable_partitions p _ := Ok p;
  set_superblock_flags p _ := Ok p; do_safeprobe p := Ok p;
  lookup_value _ _ := Err "not found"; get_size _ := 0%Z; get_partitions _ := Ok (Ok []);
  get_start _ := 0%Z; get_part_size _ := 0%Z; probe_new := Ok tt; set_device p _ _ _ := p;
  enable_superblocks' p _ := p; set_superblock_flags' p _ := p; do_safeprobe' p := p }.

Definition src : ImageSource := {|
  base_dir := "bsd"; docker_ref := None; iso_url := Some "b.iso";
  oci_url := Some "u/oci.txz";
  kernel_source := {| bundle_url := Some "u/kernel.txz"; image_url := None; modules_url := None |};
  os_type := FreeBSD; setup_script := None |}.
Definition sample : Config := Settings.Witness.sample_config.
Definition short_paths : ConfigPaths := {|
  home_dir := "/u"; profile_path := "/p"; exec_path := "/e"; config_file_path := "/c"; libexec_path := "/l";
  init_rootfs_path := "/l/init-rootfs"; vmproxy_host_path := "/l/vmproxy"; gvproxy_path := "/l/gvproxy";
  vmnet_helper_path := "/l/vmnet-helper"; root_path := "/p/alpine/rootfs";
  root_ver_file_path := "/p/alpine/rootfs.ver" |}.
Definition config : Config := Config_with_image_source {|
  paths := short_paths; logs := logs sample; net := net sample; privilege := privilege sample;
  kernel := kernel sample; cfg_passphrase_config := cfg_passphrase_config sample;
  rw_rootfs := rw_rootfs sample; cfg_zfs_os := cfg_zfs_os sample; preferences := preferences sample |} src.

Definition base : string := "/p/bsd".
Definition guard : FlockGuard := {| raw_fd := 3; current_kind := Exclusive; revert_flag := Some LOCK_UN |}.
Definition deny (_ : list (option FlockKind * Sys)) (_ : Sys) : option string := None.
Definition readable_ (_ : string) : option string := None.
Definition ron (t : N) : outcome string := Ok (Str.of_N t).
Definition unron (s : string) : outcome N :=
  match Str.parse_digits s with Some n => Ok n | None => Err "not a number" end.
Definition json (_ : string) (_ : list string) : outcome string := Ok "{}".
Definition all_work (_ : Call) : outcome unit := Ok tt.
Definition no_info (_ : string) : DiskInfo := DiskInfo_default.

(** [tar] unpacks a kernel and a module, [truncate] makes an empty disk. *)
Definition tools (_ : list (option FlockKind * Sys)) (c : Command) (f : Files) : Run * Files :=
  (Done (Some 0%Z),
   if bool_decide (args c = ["xf"; "kernel.txz"; "-C"; base]) then
     write_file (base +:+ "/kernel/if_vtnet.ko") "module" 5
       (write_file (base +:+ "/kernel/kernel.bin") "kernel" 5 (mkdir_in (base +:+ "/kernel") f))
   else if bool_decide (program c = "/usr/bin/truncate") then write_file (base +:+ "/freebsd-microvm-disk.img") "" 5 f
   else f).
Definition vm_ends (status : Z) (_ : list (option FlockKind * Sys)) (_ : list Call) (_ : list string)
    (f : Files) : VmRun * Files := (VmStatus status, f).

Definition helper (_ : list (option FlockKind * Sys)) : HelperEnv :=
  mkHelperEnv VmNetwork.Witness.env true None.
Definition denied (_ : string) : option string := None.

Definition programs : gmap string File :=
  <["/l/init-freebsd" := mkFile "i" 2]> (<["/l/vmproxy-bsd" := mkFile "v" 3]>
  (<["/l/freebsd-bootstrap" := mkFile "b" 1]> ∅)).
Definition start : World :=
  mkWorld (mkFiles programs {["/p"]}) (<[3 := Exclusive]> ∅) ∅ 0 [] false [].

Abbreviation run status force :=
  (freebsd_init_rootfs deny readable_ readable_ tools (vm_ends status) 5 ron unron json all_work no_info
     LinuxHost guard denied helper config src force).

(** An install, and a forced one whose bootstrap VM ends with 1. *)
Definition installed : World := Eval vm_compute in (run 0 false start).2.
Definition reinstalled : World := Eval vm_compute in (run 256 true installed).2.

Lemma first_install : run 0 false start = (Ok tt, installed).
Proof. vm_compute. reflexivity. Qed.
Lemma failed_reinstall : run 256 true installed = (Err "bootstrap microVM exited with status 1", reinstalled).
Proof. vm_compute. reflexivity. Qed.

Lemma tools_keep k :
  k ≠ base +:+ "/kernel/if_vtnet.ko" → k ≠ base +:+ "/kernel/kernel.bin" →
  k ≠ base +:+ "/freebsd-microvm-disk.img" →
  ∀ l c f, files (tools l c f).2 !! k = files f !! k.
Proof.
  intros H1 H2 H3 l c f. unfold tools. cbn [snd].
  repeat case_bool_decide; cbn [write_file mkdir_in files]; rewrite ?lookup_insert_ne by congruence; done.
Qed.

Example reinstalled_counts : (freebsd_initialized readable_ config src reinstalled).1 = Ok true.
Proof. vm_compute. reflexivity. Qed.

Example changes_under_lock_witness :
  ∃ l, log installed = log start ++ l ∧
    Forall (λ e, e.1 = Some Exclusive ∨ removal_of (tmp_path config src) e.2) l ∧
    (Ok tt = Ok tt → held guard installed = held guard start).
Proof.
  apply (changes_under_lock deny readable_ readable_ tools (vm_ends 0) 5 ron unron json all_work no_info
           LinuxHost guard denied helper "1.1.1.1" config false src start (Ok tt) installed).
  - vm_compute; reflexivity.
  - reflexivity.
  - exact first_install.
Defined.

Example temporary_removed_witness :
  clean config src (fs reinstalled) ∨
  ∃ e, (Err "bootstrap microVM exited with status 1" : outcome unit) = Err e ∧ directory_failed e.
Proof.
  apply (temporary_removed deny readable_ readable_ tools (vm_ends 256) 5 ron unron json all_work no_info
           LinuxHost guard denied helper config src) with (force := true) (w := installed).
  - reflexivity.
  - reflexivity.
  - intros p Hp. split.
    + intros Hd. assert (Forall (λ p, under (tmp_path config src) p = false) (elements (folders (fs installed))))
        as Hf by (vm_compute; repeat constructor).
      rewrite Forall_forall in Hf. rewrite (Hf p) in Hp; [discriminate|]. by apply elem_of_elements.
    + destruct (files (fs installed) !! p) as [x|] eqn:Hx; [|reflexivity].
      assert (Forall (λ kv, under (tmp_path config src) kv.1 = false) (map_to_list (files (fs installed))))
        as Hf by (vm_compute; repeat constructor).
      rewrite Forall_forall in Hf. apply elem_of_map_to_list in Hx. apply Hf in Hx. cbn in Hx.
      rewrite Hx in Hp. discriminate.
  - exact failed_reinstall.
Defined.

Example second_init_idle_witness :
  run 0 false installed = (Ok tt, installed).
Proof.
  apply (second_init_idle deny readable_ readable_ tools (vm_ends 0) 5 ron unron json all_work no_info
           LinuxHost guard VmNetwork.Witness.show_v6 denied helper "1.1.1.1" config src) with (force := false) (w := start).
  - intros e [->|[->|?%not_elem_of_nil]%elem_of_cons]%elem_of_cons; [vm_compute; reflexivity..|done].
  - intros l c f k [->|(e & He & Hk)]; [apply tools_keep; vm_compute; discriminate|].
    revert He. intros [->|[->|?%not_elem_of_nil]%elem_of_cons]%elem_of_cons; [..|done].
    + destruct Hk as [->| ->]; apply tools_keep; vm_compute; discriminate.
    + destruct Hk as [->| ->]; apply tools_keep; vm_compute; discriminate.
  - reflexivity.
  - intros t s [= <-]. unfold unron. by rewrite StrFacts.parse_digits_of_N.
  - split; reflexivity.
  - reflexivity.
  - reflexivity.
  - exact first_install.
  - vm_compute; reflexivity.
  - vm_compute; reflexivity.
Defined.
End Witness.
