(* ===== verification/Commands.v ===== *)
(** * The commands that use an image ([main.rs] [run_init], [run_image],
      [run_apk], [run_list], [run_shell])

    Each is what the code does, in its order, over the world of the images: the
    lock of the instances, the files, the VMs that are run. *)
From S2P Require Import Prelude Effects Common Flock Paths Fsutil Settings DevInfo Ipnet Exit Privilege Instance Setup.
From S2P Require Import Claim NetPick VmNetwork KrunVm ListFmt Lsblk Volumes Config Stop VmImage.
From Stdlib Require Import Ascii.

(** ** The commands of [cli.rs] *)
Inductive ApkCmd := ApkInfo | ApkAdd (packages : list string) | ApkDel (packages : list string).
Inductive ImageCmd := ImageList (verbose : bool) | ImageInstall (name : string) | ImageUninstall (name : string).
Record ListCmd := mkListCmd {
  l_disk : option (list string); l_decrypt : option (list string);
  l_linux : bool; l_microsoft : bool; l_common : CommonArgs; l_debug : DebugArgs }.

Inductive RpcBindCmd := RpcRegister | RpcUnregister | RpcList.

Inductive Commands :=
| Mount (cmd : MountCmd) | Unmount (cmd : UnmountCmd) | Init | Status | Log (follow : bool) | Config_ (cmd : ConfigCmd)
| List_ (cmd : ListCmd) | Actions | Stop_ (cmd : StopCmd) | Shell (cmd : ShellCmd) | Dmesg | Apk (cmd : ApkCmd)
| Image_ (cmd : ImageCmd) | Rpcbind_ (cmd : RpcBindCmd) | UpgradeConfig (cmd : UpgradeConfigCmd).

(** What [clap] answers to the command line: the commands, and the arguments of
    [mount] alone, whose name can be left out. *)
Inductive ErrorKind := InvalidSubcommand | OtherKind.
Definition try_parse_with_default_cmd (cli : Commands + ErrorKind) (cli_mount : MountCmd + ErrorKind) :
    Commands + ErrorKind :=
  match cli with
  | inl commands => inl commands
  | inr InvalidSubcommand =>
      match cli_mount with inl cmd => inl (Mount cmd) | inr kind => inr kind end
  | inr kind => inr kind
  end.

(** ** The preference files among the files of the host *)
Definition texts (f : Files) : Settings.files := content <$> VmImage.files f.
Definition with_texts (now : N) (t : Settings.files) (f : Files) : Files :=
  mkFiles (map_imap (λ p s,
      Some match VmImage.files f !! p with
           | Some x => if bool_decide (content x = s) then x else mkFile s now
           | None => mkFile s now
           end) t)
    (folders f).

(** What follows a shell: the program goes on, or has become the VM, or still
    searches for a network. *)
Inductive ShellEnd := Returned | Became (status : Z) | Searching.

Section commands.
(** The environment of [VmImage]. *)
Context (deny : list (option FlockKind * Sys) → Sys → option string).
Context (deny_read : string → option string) (deny_mtime : string → option string).
Context (run : list (option FlockKind * Sys) → Command → Files → Run * Files).
Context (vm : list (option FlockKind * Sys) → list Call → list string → Files → VmRun * Files).
Context (now : N).
Context (ron_to_string : N → outcome string) (ron_from_str : string → outcome N).
Context (json : string → list string → outcome string).
Context (libkrun : Call → outcome unit) `{Blkid} (get_info : string → DiskInfo).
Context (target : TargetOS) (show_v6 : N → string) (denied : string → option string).
Context (helper_env : list (option FlockKind * Sys) → HelperEnv) (dns_server : string) `{Ipnet}.
(** The environment of [Config]. *)
Context `{Toml} (to_str_lossy : string → string) (parse_ip : string → option IpAddr) (h : HostEnv).
(** The open lock file of this process. *)
Context (lock_open : outcome nat).
Context (default_packages_data : string).

Abbreviation M := (Effects.M World).
Abbreviation init_image guard :=
  (VmImage.init deny deny_read deny_mtime run vm now ron_to_string ron_from_str json libkrun get_info target guard
     denied helper_env dns_server).

(** [LockFile::new], [acquire_lock], and the rest of the command. *)
Definition release (guard : FlockGuard) : M unit := λ w, (Ok tt, set_lock (Flock.drop_guard (lock w) guard) w).
Definition locked {A} (fd : nat) (kind : FlockKind) (body : FlockGuard → M A) : M A := λ w,
  match lockfile_acquire_lock (lock w) fd kind with
  | (Ok guard, t) => finally (body guard) (release guard) (set_lock t w)
  | (Err e, t) => (Err e, set_lock t w)
  | (Panic, t) => (Panic, set_lock t w)
  end.
Definition with_lock {A} (kind : FlockKind) (body : FlockGuard → M A) : M A :=
  fd ← lift lock_open; locked fd kind body.

(** [load_config] and [load_mount_config]; what a load that fails has rewritten
    before is not kept. *)
Definition loaded {A} (load : Settings.files → outcome (Settings.files * A)) : M A := λ w,
  match load (texts (fs w)) with
  | Ok (t, a) => (Ok a, set_fs (with_texts now t (fs w)) w)
  | Err e => (Err e, w)
  | Panic => (Panic, w)
  end.
Definition load_here (common_args : CommonArgs) (debug_args : DebugArgs) : M Config :=
  loaded (λ t, load_config to_str_lossy target h t common_args debug_args).

(** ** [run_init] *)
Definition run_init : M unit :=
  with_lock Exclusive (λ guard,
    config ← load_here CommonArgs_default DebugArgs_default;
    init_image guard config true (default_linux_image_source (preferences config))).

(** ** [run_image] *)
Definition image_line (path_exists : string → bool) (profile_path : string) (debug_fmt : ImageSource → string)
    (verbose : bool) (e : string * ImageSource) : string :=
  e.1 +:+ (if installed_in path_exists e.2 profile_path then " (installed)" else "") +:+
  (if verbose then ": " +:+ debug_fmt e.2 else "").

Definition image_of (config : Config) (name : string) : M ImageSource :=
  lift (ok_or ("unknown image " +:+ name) (all_images (preferences config) !! name)).

Definition run_image (debug_fmt : ImageSource → string) (cmd : ImageCmd) : M (list string) :=
  config ← load_here CommonArgs_default DebugArgs_default;
  match cmd with
  | ImageList verbose =>
      gets (λ w, image_line (exists_in (fs w)) (profile_path (Settings.paths config)) debug_fmt verbose <$>
                   btree_to_list (all_images (preferences config)))
  | ImageInstall name =>
      src ← image_of config name;
      with_lock Exclusive (λ guard,
        m_context ("Failed to install image " +:+ name)
          (init_image guard (Config_with_image_source config src) true src);;
        mret ["Image " +:+ name +:+ " installed successfully"])
  | ImageUninstall name =>
      src ← image_of config name;
      with_lock Exclusive (λ guard,
        m_context ("Failed to uninstall image " +:+ name)
          (VmImage.remove deny guard (Config_with_image_source config src) src);;
        mret ["Image " +:+ name +:+ " uninstalled successfully"])
  end.

(** ** [run_apk] *)
Definition get_default_packages : list string :=
  List.filter (λ l, negb (Str.is_empty l)) (Str.trim <$> Str.split "010" default_packages_data).

(** [packages.retain(|pkg| !default_packages.contains(pkg))] *)
Definition custom_only (packages : list string) : list string :=
  List.filter (λ p, negb (bool_decide (p ∈ get_default_packages))) packages.

Definition set_custom_packages (c : PrefsObject) (l : list string) : PrefsObject := {|
  alpine := {| custom_packages := l |}; custom_actions := custom_actions c; images := images c;
  gvproxy := gvproxy c; krun := Settings.krun c; misc := misc c; network := network c; linux := linux c;
  freebsd := freebsd c; log_level_numeric := log_level_numeric c; num_vcpus := num_vcpus c;
  ram_size_mib := ram_size_mib c |}.

Definition vm_prelude : string :=
  "mount -t tmpfs tmpfs /tmp && echo nameserver " +:+ dns_server +:+ " > /tmp/resolv.conf".

(** The preferences and the command in the VM; none when there is nothing to do. *)
Definition apk_change (prefs : Prefs) (cmd : ApkCmd) : option (PrefsObject * string) :=
  match cmd with
  | ApkInfo => None
  | ApkAdd packages =>
      let packages := custom_only packages in
      let package_set := alpine_custom_packages prefs ∪ list_to_set packages in
      match packages with
      | [] => None
      | _ => Some (set_custom_packages prefs.2 (btree_elements package_set), "apk add " +:+ Str.join " " packages)
      end
  | ApkDel packages =>
      let packages := custom_only packages in
      match packages with
      | [] => None
      | _ => Some (set_custom_packages prefs.2
                     (List.filter (λ p, negb (bool_decide (p ∈ packages))) (custom_packages (alpine prefs.2))),
                   "apk del " +:+ Str.join " " packages)
      end
  end.

(** [save_preferences] *)
Definition save_here (guard : FlockGuard) (user : PrefsObject) (config_file_path : string) : M unit :=
  s ← m_context "Failed to serialize Preferences to TOML" (lift (toml_print user));
  m_context ("Failed to write config file " +:+ config_file_path)
    (VmImage.write deny now guard config_file_path s).

(** What is done once the guard is exclusive. *)
Definition apk_vm (guard : FlockGuard) (config : Config) (apk_command : string) : M unit :=
  let vm_command := vm_prelude +:+ " && " +:+ apk_command in
  let opts := with_read_only_root (read_only_disks VMOpts_new true) false in
  made ← m_context "Failed to setup microVM" (setup_vm_here libkrun target config [] NetDefault false opts);
  status ← m_context "Failed to start microVM shell"
    (start_vm_forked vm guard made ["/bin/bash"; "-c"; vm_command]);
  if bool_decide (status = 0%Z) then mret tt
  else lift (Err ("microVM shell exited with status " +:+ pretty status)).

Definition run_apk (cmd : ApkCmd) : M (list string) :=
  with_lock Shared (λ guard,
    config ← load_here CommonArgs_default DebugArgs_default;
    init_image guard config false (default_linux_image_source (preferences config));;
    match apk_change (preferences config) cmd with
    | None =>
        mret match cmd with ApkInfo => btree_elements (alpine_custom_packages (preferences config)) | _ => [] end
    | Some (user, apk_command) =>
        with_upgrade guard
          (apk_vm guard config apk_command;;
           save_here guard user (config_file_path (Settings.paths config)));;
        mret []
    end).

(** ** [run_list] *)
Definition with_prefs (c : Config) (prefs : Prefs) : Config := {|
  paths := paths c; logs := logs c; net := net c; privilege := privilege c; kernel := kernel c;
  cfg_passphrase_config := cfg_passphrase_config c; rw_rootfs := rw_rootfs c; cfg_zfs_os := cfg_zfs_os c;
  preferences := prefs |}.

Definition labels_of (cmd : ListCmd) : Labels :=
  if l_linux cmd then LINUX_LABELS else if l_microsoft cmd then WINDOWS_LABELS else ALL_LABELS.

(** [list_partitions] reads the devices, in a VM for some of them. *)
Context (list_partitions : Config → option (list string) → option (list string) → Labels → outcome (list Entry)).

Definition run_list (cmd : ListCmd) : M string :=
  with_lock Shared (λ guard,
    config ← load_here (l_common cmd) (l_debug cmd);
    init_image guard config false (default_linux_image_source (preferences config));;
    let config :=
      if bool_decide (is_Some (l_decrypt cmd)) && negb (l_microsoft cmd)
      then with_prefs config (ensure_enough_ram_for_luks (preferences config)) else config in
    entries ← lift (list_partitions config (l_disk cmd) (l_decrypt cmd) (labels_of cmd));
    mret (list_display entries)).

(** ** [run_shell] *)
(** The configuration, the image and, with an image given, its disk. *)
Definition choose_image (config : MountConfig) (image : option string) :
    outcome (MountConfig * ImageSource * option string) :=
  match image with
  | Some image_name =>
      let matched := filter (λ ns, Str.starts_with image_name ns.1 = true)
                       (btree_to_list (all_images (preferences (common config)))) in
      match matched with
      | [] => Err ("unknown image: " +:+ image_name)
      | [(_, src)] =>
          let disk_path := path.join (path.join (profile_path (Settings.paths (common config))) (base_dir src))
                             VM_DISK_IMAGE in
          Ok (with_image_source config src, src, Some disk_path)
      | _ => Err ("ambiguous image name: " +:+ image_name)
      end
  | None =>
      let default_src := default_linux_image_source (preferences (common config)) in
      Ok (with_image_source config default_src, default_src, None)
  end.

Definition shell_opts (config : MountConfig) (root_disk_path : option string) : VMOpts :=
  let c := common config in
  let opts := with_read_only_root (read_only_disks VMOpts_new (read_only config)) (negb (rw_rootfs c)) in
  if bool_decide (is_Some root_disk_path ∧ os (kernel c) = FreeBSD) then
    with_read_only_disk_prefix_len (with_legacy_console (with_root_device opts "ufs:/dev/gpt/rootfs") true)
      (if rw_rootfs c then 0 else 1)
  else opts.

Definition shell_devices (config : MountConfig) (root_disk_path : option string) (dev_info : list DevInfo) :
    outcome (list DevInfo) :=
  match root_disk_path, os (kernel (common config)) with
  | Some root, FreeBSD => d ← pv get_info root true; Ok (d :: dev_info)
  | _, _ => Ok dev_info
  end.

(** The network is that of a helper. *)
Definition through_helper (no_tsi : bool) (os : OSType) : bool := no_tsi || bool_decide (os ≠ Linux).

Definition shell_cmdline (os : OSType) (cmd : ShellCmd) : list string :=
  [match os with Linux => "/vmproxy" | FreeBSD => "/vmproxy-bsd" end; "shell"] ++
  (if through_helper (sh_no_tsi cmd) os then [] else ["--dns-server"; dns_server]) ++
  match sh_command cmd with Some c => ["--command"; c] | None => [] end.

Definition cidr_args (cidr : option Ipv4Net) : list string :=
  match cidr with Some c => ["-n"; Ipv4Net_display c] | None => [] end.

(** [start_vm] in this process, which becomes the VM when it works. *)
Definition start_vm_here (guard : FlockGuard) (made : list Call) (cmdline : list string) : M ShellEnd := λ w,
  let '(r, f) := vm (log w) made cmdline (fs w) in
  let w := logged guard (RunVm made cmdline) (set_fs f w) in
  match r with
  | VmStatus status => (Ok (Became status), w)
  | _ => (Err "Failed to start microVM shell", w)
  end.

(** The search for a network of the helper takes at most [fuel] steps. *)
Context (fuel : nat) (vars_os : list (string * string)).
Context (prepare_environment : CustomActionConfig → list string → outcome (list string)).
Context `{Claim.Host} (claims : Locks).

Definition shell_network (guard : FlockGuard) (config : Config) (cmd : ShellCmd) (made : list Call)
    (cmdline : list string) : M ShellEnd :=
  if through_helper (sh_no_tsi cmd) (os (kernel config)) then λ w,
    let start cidr := m_context "Failed to start microVM shell"
      (start_vm_forked vm guard made (cmdline ++ cidr_args cidr)) in
    match setup_net_helper target show_v6 denied helper_env fuel config
            (effective_net_helper (net config) id) start w with
    | Some (r, w) => (_ ← r; Ok Returned, w)
    | None => (Ok Searching, w)
    end
  else start_vm_here guard made cmdline.

Definition shell_mode (config : Config) (cmd : ShellCmd) : NetworkMode :=
  if through_helper (sh_no_tsi cmd) (os (kernel config))
  then default_virtio_net (effective_net_helper (net config) id)
  else default_for_os (os (kernel config)).

Definition shell_kind (config : MountConfig) : FlockKind :=
  if rw_rootfs (common config) then Exclusive else Shared.

(** Once the image is there. *)
Definition shell_vm_part (guard : FlockGuard) (config : MountConfig) (cmd : ShellCmd) (root_disk_path : option string) :
    M ShellEnd :=
  _ ← lift (prepare_vm_environment vars_os prepare_environment config);
  '(config, claimed, _) ← lift (claim_devices claims config);
  let opts := shell_opts config root_disk_path in
  dev_info ← lift (shell_devices config root_disk_path (c_infos claimed));
  made ← m_context "Failed to setup microVM"
    (setup_vm_here libkrun target (common config) dev_info (shell_mode (common config) cmd) (sh_no_tsi cmd) opts);
  shell_network guard (common config) cmd made (shell_cmdline (os (kernel (common config))) cmd).

Definition run_shell (cmd : ShellCmd) : M ShellEnd :=
  config ← loaded (λ t, load_mount_config to_str_lossy target parse_ip h t (MountCmd_from cmd));
  with_lock (shell_kind config) (λ guard,
    '(config, src, root_disk_path) ← lift (choose_image config (sh_image cmd));
    (if sh_skip_init cmd then mret tt else init_image guard (common config) false src);;
    shell_vm_part guard config cmd root_disk_path).

(** ** The lock *)
Definition removes_tmp (c : Sys) : Prop := ∃ d, c = RemoveTree (path.join d "tmp").
(** The changes between two worlds. *)
Definition changes (P : option FlockKind * Sys → Prop) (w w' : World) : Prop :=
  ∃ l, log w' = log w ++ l ∧ Forall P l.
(** They were made under the exclusive lock. *)
Definition exclusively : World → World → Prop := changes (λ e, e.1 = Some Exclusive ∨ removes_tmp e.2).

#[local] Instance changes_pre P : PreOrder (changes P).
Proof.
  split.
  - intros w. exists []. by rewrite app_nil_r.
  - intros w1 w2 w3 (l1 & E1 & F1) (l2 & E2 & F2). exists (l1 ++ l2).
    split; [by rewrite E2, E1, app_assoc|by apply Forall_app].
Qed.

#[local] Instance exclusively_pre : PreOrder exclusively := changes_pre _.

Lemma changes_same P w w' : log w' = log w → changes P w w'.
Proof. exists []. by rewrite app_nil_r. Qed.
Lemma exclusively_same w w' : log w' = log w → exclusively w w'.
Proof. apply changes_same. Qed.
Lemma changes_impl (P Q : option FlockKind * Sys → Prop) w w' : (∀ e, P e → Q e) → changes P w w' → changes Q w w'.
Proof. intros HPQ (l & E & F). exists l. split; [done|]. by eapply Forall_impl. Qed.

Lemma logged_exclusively w w' : logged_as (Some Exclusive) w w' → exclusively w w'.
Proof. intros (l & E & F). exists l. split; [done|]. eapply Forall_impl; [exact F|]. by left. Qed.

(** The guard that a command has while it holds the lock of [fd]. *)
Definition command_guard (fd : nat) (kind : FlockKind) : FlockGuard :=
  {| raw_fd := fd; current_kind := kind; revert_flag := Some LOCK_UN |}.
Definition inside_command (fd : nat) (kind : FlockKind) (w : World) : Prop :=
  lock w !! fd = Some kind ∧ pending w = [].

Lemma flock_kind t fd kind t' : flock t fd (kind_flag kind) = (true, t') → t' !! fd = Some kind.
Proof.
  unfold flock. destruct kind; cbn; case_decide; [by intros [= <-]| |by intros [= <-]|];
    destruct (grantable _ _ _); try done; intros [= <-]; apply lookup_insert_eq.
Qed.
Lemma flock_refused t fd kind t' : flock t fd (kind_flag kind) = (false, t') → t' !! fd = None.
Proof.
  unfold flock. destruct kind; cbn; case_decide; try done; destruct (grantable _ _ _); try done;
    intros [= <-]; apply lookup_delete_eq.
Qed.

Lemma with_lock_changes {A} P kind (body : FlockGuard → M A) w fd :
  lock_open = Ok fd → pending w = [] →
  (∀ w1, inside_command fd kind w1 → changes P w1 (body (command_guard fd kind) w1).2) →
  changes P w (with_lock kind body w).2 ∧ lock (with_lock kind body w).2 !! fd = None.
Proof.
  intros Ho Hp Hbody. unfold with_lock. rewrite Ho.
  rewrite (bind_run (lift (Ok fd)) (λ fd, locked fd kind body) w fd w eq_refl).
  unfold locked, lockfile_acquire_lock, flock_nb. destruct (flock _ _ _) as [[] t] eqn:Hf; cbn.
  - unfold finally. specialize (Hbody (set_lock t w) (conj (flock_kind _ _ _ _ Hf) Hp)).
    unfold command_guard in Hbody. destruct (body _ (set_lock t w)) as [r w2]. cbn in *. split.
    + transitivity (set_lock t w); [by apply changes_same|]. transitivity w2; [done|by apply changes_same].
    + unfold Flock.drop_guard. cbn. unfold flock. apply lookup_delete_eq.
  - split; [by apply changes_same|]. by eapply flock_refused.
Qed.

Lemma loaded_frame {A} (load : Settings.files → outcome (Settings.files * A)) w :
  let w' := (loaded load w).2 in log w' = log w ∧ lock w' = lock w ∧ pending w' = pending w.
Proof. unfold loaded. by destruct (load (texts (fs w))) as [[t a]|e|]. Qed.

(** A load, and what is done with its result. *)
Lemma after_load {A B} (load : Settings.files → outcome (Settings.files * A)) (f : A → M B) w (P : World → Prop) :
  (∀ w', log w' = log w → lock w' = lock w → pending w' = pending w → P w' ∧ ∀ a, P (f a w').2) →
  P ((loaded load ≫= f) w).2.
Proof.
  intros HP. pose proof (loaded_frame load w) as (H1' & H2' & H3').
  unfold mbind, M_bind. destruct (loaded load w) as [[a|e|] w']; cbn in *; by apply HP.
Qed.

Lemma init_exclusively fd kind config force src w :
  inside_command fd kind w →
  let '(r, w') := init_image (command_guard fd kind) config force src w in
  exclusively w w' ∧ (r = Ok tt → lock w' !! fd = Some kind).
Proof.
  intros [Hk Hp]. destruct (init_image _ _ _ _ w) as [r w'] eqn:Hr.
  destruct (changes_under_lock _ _ _ _ _ _ _ _ _ _ _ _ (command_guard fd kind) _ _ _ _ _ _ _ _ _ Hk Hp Hr) as (l & E & F & Ht).
  split.
  - exists l. split; [done|]. eapply Forall_impl; [exact F|]. intros [k c] [Hx|Hx]; [by left|].
    right. by eexists.
  - intros Hok. unfold held in Ht. cbn in Ht. by rewrite Ht.
Qed.

Lemma init_then fd kind config force src {B} (f : M B) w :
  inside_command fd kind w →
  (∀ w', lock w' !! fd = Some kind → exclusively w' (f w').2) →
  exclusively w ((init_image (command_guard fd kind) config force src;; f) w).2.
Proof.
  intros Hw Hf. pose proof (init_exclusively fd kind config force src w Hw) as Hi.
  unfold mbind, M_bind. destruct (init_image _ _ _ _ w) as [[[]|e|] w']; [|by apply Hi..].
  destruct Hi as [Hi Hk]. transitivity w'; [done|]. by apply Hf, Hk.
Qed.

(** The command of [apk] and the preferences that record it. *)
Definition apk_body (guard : FlockGuard) (config : Config) (user : PrefsObject) (apk_command : string) : M unit :=
  apk_vm guard config apk_command;; save_here guard user (config_file_path (Settings.paths config)).

Lemma upgraded_exclusively fd kind {A} (m : M A) w :
  within (inside (command_guard fd kind) "") (inside_fails (command_guard fd kind) "") m →
  lock w !! fd = Some kind →
  exclusively w (with_upgrade (command_guard fd kind) m w).2.
Proof.
  intros Hm Hk. pose proof (outside_guarded (command_guard fd kind) "" m Hm w) as Ho.
  destruct (with_upgrade _ m w) as [[a|e|] w']; apply Ho in Hk; apply logged_exclusively, Hk.
Qed.

Section apk_lock.
Context (guard : FlockGuard).
#[local] Existing Instance inside_steps.
#[local] Hint Resolve inside_setup_vm inside_sys : within.

Lemma inside_apk_vm config apk_command :
  within (inside guard "") (inside_fails guard "") (apk_vm guard config apk_command).
Proof.
  unfold apk_vm. cbv zeta. within_step; [within_solve|]. intros w.
  match goal with |- context [start_vm_forked vm guard ?m ?c] => pose proof (inside_forked vm guard "" m c w) as Hf end.
  unfold mbind, M_bind, m_context. destruct (start_vm_forked _ _ _ _ w) as [[code|e|] w']; cbn [with_context]; [|done..].
  destruct Hf as [Hf H0']. by case_bool_decide; cbn; [apply H0'|].
Qed.
Lemma inside_save user p : within (inside guard "") (inside_fails guard "") (save_here guard user p).
Proof. unfold save_here, VmImage.write. within_solve. Qed.
#[local] Hint Resolve inside_apk_vm inside_save : within.

Lemma inside_apk config user apk_command :
  within (inside guard "") (inside_fails guard "") (apk_body guard config user apk_command).
Proof. unfold apk_body. within_solve. Qed.
End apk_lock.

Lemma keep_result {A B} (m : M A) (b : B) w : (m ≫= λ _, mret b) w = (_ ← (m w).1; Ok b, (m w).2).
Proof. unfold mbind, M_bind. by destruct (m w) as [[a|e|] w']. Qed.

(** The body of a command that loads the configuration and initialises the
    default image. *)
Lemma load_init_then {B} fd kind (load : Settings.files → outcome (Settings.files * Config)) force src (f : Config → M B) w :
  inside_command fd kind w →
  (∀ config w', lock w' !! fd = Some kind → exclusively w' (f config w').2) →
  exclusively w ((loaded load ≫= λ config, init_image (command_guard fd kind) config force (src config);; f config) w).2.
Proof.
  intros [Hk Hp] Hf. apply (after_load _ _ w (exclusively w)). intros w2 E Ek Ep. split; [by apply exclusively_same|]. intros config.
  transitivity w2; [by apply exclusively_same|]. apply init_then; [split; congruence|]. intros w3. apply Hf.
Qed.

Lemma run_init_exclusively fd w :
  lock_open = Ok fd → pending w = [] → exclusively w (run_init w).2 ∧ lock (run_init w).2 !! fd = None.
Proof.
  intros Ho Hp. apply with_lock_changes; [done..|]. intros w1 Hw1.
  apply (after_load _ _ w1 (exclusively w1)). intros w2 E Ek Ep. split; [by apply exclusively_same|]. intros config.
  transitivity w2; [by apply exclusively_same|].
  assert (Hw2 : inside_command fd Exclusive w2) by (destruct Hw1; split; congruence).
  pose proof (init_exclusively fd Exclusive config true (default_linux_image_source (preferences config)) w2 Hw2) as Hi.
  destruct (init_image _ _ _ _ w2). apply Hi.
Qed.

(** What is done with an image under a lock of its own. *)
Lemma image_step_exclusively {B} msg (m : FlockGuard → M unit) (b : B) fd w :
  lock_open = Ok fd → pending w = [] →
  (∀ w1, inside_command fd Exclusive w1 → exclusively w1 (m (command_guard fd Exclusive) w1).2) →
  let w' := (with_lock Exclusive (λ guard, m_context msg (m guard);; mret b) w).2 in
  exclusively w w' ∧ lock w' !! fd = None.
Proof.
  intros Ho Hp Hm. apply with_lock_changes; [done..|]. intros w1 Hw1. rewrite keep_result. cbn [snd].
  rewrite m_context_state. by apply Hm.
Qed.

Lemma run_image_exclusively dbg cmd fd w :
  lock_open = Ok fd → lock w !! fd = None → pending w = [] →
  exclusively w (run_image dbg cmd w).2 ∧ lock (run_image dbg cmd w).2 !! fd = None.
Proof.
  intros Ho Hl Hp. apply (after_load _ _ w (λ w', exclusively w w' ∧ lock w' !! fd = None)). intros w1 E Ek Ep.
  assert (Hsame : exclusively w w1 ∧ lock w1 !! fd = None) by (split; [by apply exclusively_same|congruence]).
  split; [done|]. intros config.
  assert (Hthen : ∀ {B} (m : ImageSource → M B) name,
    (∀ src, exclusively w1 (m src w1).2 ∧ lock (m src w1).2 !! fd = None) →
    let w' := ((image_of config name ≫= m) w1).2 in exclusively w w' ∧ lock w' !! fd = None).
  { intros B m name Hm. unfold image_of, mbind, M_bind, lift. destruct (ok_or _ _) as [src|e|]; [|done..]. cbn.
    split; [transitivity w1; [by apply exclusively_same|]|]; apply Hm. }
  destruct cmd as [v|name|name]; [done|apply Hthen; intros src..]; apply image_step_exclusively; try congruence.
  - intros w2 Hw2. pose proof (init_exclusively fd Exclusive (Config_with_image_source config src) true src w2 Hw2) as Hi.
    destruct (init_image _ _ _ _ w2). apply Hi.
  - intros w2 [Hk _]. apply upgraded_exclusively; [|done]. apply inside_sys.
Qed.

Lemma run_apk_exclusively cmd fd w :
  lock_open = Ok fd → pending w = [] → exclusively w (run_apk cmd w).2 ∧ lock (run_apk cmd w).2 !! fd = None.
Proof.
  intros Ho Hp. apply with_lock_changes; [done..|]. intros w1 Hw1. apply load_init_then; [done|].
  intros config w2 Hk. destruct (apk_change _ _) as [[user apk_command]|]; [|done].
  rewrite keep_result. apply upgraded_exclusively; [|done]. apply inside_apk.
Qed.

Lemma run_list_exclusively cmd fd w :
  lock_open = Ok fd → pending w = [] → exclusively w (run_list cmd w).2 ∧ lock (run_list cmd w).2 !! fd = None.
Proof.
  intros Ho Hp. apply with_lock_changes; [done..|]. intros w1 Hw1. apply load_init_then; [done|].
  intros config w2 Hk. unfold mbind, M_bind, lift. by destruct (list_partitions _ _ _ _).
Qed.


(** ** What [apk] records *)
Definition apk_line (apk_command : string) : list string := ["/bin/bash"; "-c"; vm_prelude +:+ " && " +:+ apk_command].

(** The VM ran and its success was recorded, or it was not. *)
Definition recorded (p : string) (user : PrefsObject) (apk_command : string) (w w' : World) : Prop :=
  ∃ made text, log w' = log w ++ [(Some Exclusive, RunVm made (apk_line apk_command)); (Some Exclusive, WriteFile p text)] ∧
    toml_print user = Ok text ∧ VmImage.files (fs w') !! p = Some (mkFile text now).
Definition not_recorded (apk_command : string) (w w' : World) : Prop :=
  log w' = log w ∨ ∃ made, log w' = log w ++ [(Some Exclusive, RunVm made (apk_line apk_command))].

Lemma setup_here_frame config devices mode use_vsock opts w :
  let w' := (setup_vm_here libkrun target config devices mode use_vsock opts w).2 in
  log w' = log w ∧ lock w' = lock w ∧ fs w' = fs w.
Proof.
  unfold setup_vm_here. destruct (setup_vm _ _ _ _ _ _ _ _ _) as [r st]. cbn. by destruct (libkrun CreateCtx).
Qed.

Lemma logged_run guard c f w k : held guard w = k → log (logged guard c (set_fs f w)) = log w ++ [(k, c)].
Proof. by intros <-. Qed.

Lemma apk_vm_log guard config apk_command w :
  held guard w = Some Exclusive →
  match apk_vm guard config apk_command w with
  | (Ok _, w') => held guard w' = Some Exclusive ∧
      ∃ made, log w' = log w ++ [(Some Exclusive, RunVm made (apk_line apk_command))]
  | (_, w') => not_recorded apk_command w w'
  end.
Proof.
  intros Hw. unfold apk_vm. cbv zeta.
  match goal with |- context [m_context _ (setup_vm_here _ _ ?c ?d ?m ?u ?o)] =>
    pose proof (setup_here_frame c d m u o w) as (E & El & Ef);
    unfold mbind at 1, M_bind at 1, m_context at 1;
    destruct (setup_vm_here libkrun target c d m u o w) as [[made|e|] w1] end; cbn in E, El, Ef |- *; [|by left..].
  assert (Hw1 : held guard w1 = Some Exclusive) by (unfold held; by rewrite El).
  unfold mbind, M_bind, m_context, start_vm_forked.
  assert (Hrun : ∀ f, log (logged guard (RunVm made (apk_line apk_command)) (set_fs f w1)) =
    log w ++ [(Some Exclusive, RunVm made (apk_line apk_command))]) by (intros f; by rewrite (logged_run _ _ _ _ _ Hw1), E).
  destruct (vm (log w1) made _ (fs w1)) as [[e|e| |st] f]; cbn [with_context fst snd]; [by left|right; by exists made| |].
  { rewrite bool_decide_eq_false_2 by done. right. exists made. exact (Hrun f). }
  case_bool_decide; [split; [done|by exists made]|right; by exists made].
Qed.

Lemma apk_body_log guard config user apk_command w :
  held guard w = Some Exclusive →
  match apk_body guard config user apk_command w with
  | (Ok _, w') => recorded (config_file_path (Settings.paths config)) user apk_command w w'
  | (_, w') => not_recorded apk_command w w'
  end.
Proof.
  intros Hw. unfold apk_body. pose proof (apk_vm_log guard config apk_command w Hw) as Hv.
  unfold mbind at 1, M_bind at 1. destruct (apk_vm guard config apk_command w) as [[[]|e|] w1]; [|done..].
  destruct Hv as [Hw1 [made E]]. unfold save_here, mbind, M_bind, m_context, lift.
  destruct (toml_print user) as [text|e|] eqn:Ht; cbn; [|right; eauto..].
  unfold VmImage.write, sys. destruct (deny (log w1) _); cbn; [right; eauto|].
  exists made, text. split_and!; [|done|apply lookup_insert_eq]. rewrite (logged_run _ _ _ _ _ Hw1), E, <-app_assoc. done.
Qed.

Lemma upgraded_apk_log fd config user apk_command w :
  lock w !! fd = Some Shared →
  match with_upgrade (command_guard fd Shared) (apk_body (command_guard fd Shared) config user apk_command) w with
  | (Ok _, w') => recorded (config_file_path (Settings.paths config)) user apk_command w w'
  | (_, w') => not_recorded apk_command w w'
  end.
Proof.
  intros Hk. unfold with_upgrade. destruct (upgrade _ _) as [[inner|e|] t] eqn:Hu; [|by left..].
  destruct (upgrade_held (command_guard fd Shared) _ _ _ Hk Hu) as [Hx _].
  pose proof (apk_body_log (command_guard fd Shared) config user apk_command (set_lock t w) Hx) as Hl.
  unfold finally. by destruct (apk_body _ _ _ _ _) as [[[]|e|] w2].
Qed.

(** The packages that the user's list has after a change. *)
Lemma apk_change_packages prefs cmd user apk_command p :
  apk_change prefs cmd = Some (user, apk_command) →
  p ∈ custom_packages (alpine user) ↔
    match cmd with
    | ApkInfo => False
    | ApkAdd packages => p ∈ alpine_custom_packages prefs ∨ (p ∈ packages ∧ p ∉ get_default_packages)
    | ApkDel packages => p ∈ custom_packages (alpine prefs.2) ∧ ¬ (p ∈ packages ∧ p ∉ get_default_packages)
    end.
Proof.
  assert (Hc : ∀ packages, p ∈ custom_only packages ↔ p ∈ packages ∧ p ∉ get_default_packages).
  { intros packages. unfold custom_only.
    by rewrite list_elem_of_In, filter_In, <-list_elem_of_In, negb_true_iff, bool_decide_eq_false. }
  unfold apk_change. destruct cmd as [|packages|packages]; [done|..].
  all: rewrite <-Hc; destruct (custom_only packages) as [|p0 ps] eqn:E; [done|]; rewrite <-E; intros [= <- _]; cbn.
  - rewrite elem_of_btree_elements. set_solver.
  - by rewrite list_elem_of_In, filter_In, <-list_elem_of_In, negb_true_iff, bool_decide_eq_false.
Qed.

(** A package of the global file stays in force although it has been removed
    from the image. *)
Lemma deleted_global_stays prefs packages user apk_command p :
  apk_change prefs (ApkDel packages) = Some (user, apk_command) → p ∈ custom_packages (alpine prefs.1) →
  p ∈ alpine_custom_packages (prefs.1, user).
Proof. intros _ Hp. unfold alpine_custom_packages. set_solver. Qed.


(** ** The lock of a shell *)
Section shell_lock.
Context (guard : FlockGuard) (k : FlockKind).
(** A VM that runs under the lock of the shell. *)
Definition shell_vm (e : option FlockKind * Sys) : Prop := ∃ made line, e = (Some k, RunVm made line).

Lemma forked_shell_vm msg made line w :
  held guard w = Some k → changes shell_vm w (m_context msg (start_vm_forked vm guard made line) w).2.
Proof.
  intros Hk. rewrite m_context_state. unfold start_vm_forked.
  assert (Hrun : ∀ f, changes shell_vm w (logged guard (RunVm made line) (set_fs f w))).
  { intros f. exists [(Some k, RunVm made line)]. rewrite (logged_run _ _ _ _ _ Hk). split; [done|].
    constructor; [by eexists _, _|constructor]. }
  destruct (vm (log w) made line (fs w)) as [[e|e| |st] f]; cbn [snd]; [by apply changes_same|apply Hrun..].
Qed.

Lemma aside_then {A B} P (m : M A) (f : A → M B) w :
  log (m w).2 = log w → held guard (m w).2 = held guard w →
  (∀ a w', held guard w' = held guard w → changes P w' (f a w').2) → changes P w ((m ≫= f) w).2.
Proof.
  intros El Eh Hf. unfold mbind, M_bind. transitivity (m w).2; [by apply changes_same|].
  destruct (m w) as [[a|e|] w']; [by apply Hf|done..].
Qed.

Lemma finally_aside {A} P (m : M A) c w :
  (∀ w, log (c w).2 = log w) → changes P w (m w).2 → changes P w (finally m c w).2.
Proof.
  intros Hc Hm. unfold finally. destruct (m w) as [r w']. transitivity w'; [done|]. apply changes_same, Hc.
Qed.

Lemma helper_shell_vm {A} name env (start : outcome A) config (f : A → M Z) w :
  held guard w = Some k → (∀ a w, held guard w = Some k → changes shell_vm w (f a w).2) →
  changes shell_vm w (setup_helper denied name env start config f w).2.
Proof.
  intros Hk Hf. unfold setup_helper.
  apply aside_then; [by cbn; destruct (spawned _)..|]. intros a w1 E1.
  apply aside_then; [done..|]. intros [] w2 E2. apply aside_then; [done..|]. intros [] w3 E3.
  apply finally_aside.
  { intros w'. unfold sock_cleanup. by destruct (vfkit_sock_cleanup _ _ _). }
  destruct (he_exited env) as [code|]; [by apply changes_same|].
  apply finally_aside; [done|]. apply Hf. congruence.
Qed.

Lemma network_shell_vm config cmd made line w :
  held guard w = Some k → changes shell_vm w (shell_network guard config cmd made line w).2.
Proof.
  intros Hk. unfold shell_network. destruct (through_helper _ _).
  - assert (Hs : ∀ {A} n e (start : outcome A) net,
      changes shell_vm w (setup_helper denied n e start config (λ a, m_context "Failed to start microVM shell"
        (start_vm_forked vm guard made (line ++ cidr_args (net a)))) w).2).
    { intros A n e start net. apply helper_shell_vm; [done|]. intros. by apply forked_shell_vm. }
    unfold setup_net_helper, setup_gvproxy, setup_vmnet_helper.
    pose proof (Hs _ "gvproxy" (helper_env (log w)) (start_gvproxy config (he_start (helper_env (log w))))
                  VmNetwork.vm_native_cidr) as Hg.
    pose proof (λ start, Hs _ "vmnet-helper" (helper_env (log w)) start
                  (λ svc : NetHelperService * VmnetArgs, VmNetwork.vm_native_cidr svc.1)) as Hv.
    destruct (effective_net_helper _ _), target; cbn.
    1, 2: destruct (setup_helper _ "gvproxy" _ _ _ _ w); exact Hg.
    + destruct (start_vmnet_helper _ _ _ _) as [start|]; [|by apply changes_same].
      clear Hg. specialize (Hv start). cbn in Hv. destruct (setup_helper _ _ _ _ _ _ w). exact Hv.
    + by apply changes_same.
  - unfold start_vm_here. destruct (vm _ _ _ _) as [r f].
    assert (changes shell_vm w (logged guard (RunVm made line) (set_fs f w))); [|by destruct r].
    exists [(Some k, RunVm made line)]. rewrite (logged_run _ _ _ _ _ Hk). split; [done|].
    constructor; [by eexists _, _|constructor].
Qed.

Lemma part_shell_vm config cmd root w :
  held guard w = Some k → changes shell_vm w (shell_vm_part guard config cmd root w).2.
Proof.
  intros Hk. unfold shell_vm_part. apply aside_then; [done..|]. intros _ w1 E1.
  apply aside_then; [done..|]. intros [[c claimed] d] w2 E2. apply aside_then; [done..|]. intros dev_info w3 E3.
  apply aside_then.
  1, 2: rewrite m_context_state; unfold held;
    match goal with |- context [setup_vm_here _ _ ?c ?d ?m ?u ?o] => destruct (setup_here_frame c d m u o w3) as (?&Hl&?) end;
    first [done|by rewrite Hl].
  intros made w4 E4. apply network_shell_vm. congruence.
Qed.
End shell_lock.

(** With a writable root file system a shell has the exclusive lock while its VM
    runs, and otherwise the shared one. *)
Lemma run_shell_locked cmd fd w t config :
  lock_open = Ok fd → pending w = [] →
  load_mount_config to_str_lossy target parse_ip h (texts (fs w)) (MountCmd_from cmd) = Ok (t, config) →
  let w' := (run_shell cmd w).2 in
  changes (λ e, e.1 = Some Exclusive ∨ removes_tmp e.2 ∨ shell_vm (shell_kind config) e) w w' ∧ lock w' !! fd = None.
Proof.
  intros Ho Hp Hl. cbv zeta. unfold run_shell.
  rewrite (bind_run _ _ w config (set_fs (with_texts now t (fs w)) w)) by (unfold loaded; by rewrite Hl).
  set (w0 := set_fs _ w). set (P := λ e, _).
  assert (Hsub : ∀ w1 w2, exclusively w1 w2 → changes P w1 w2).
  { intros w1 w2. apply changes_impl. unfold P. naive_solver. }
  destruct (with_lock_changes P (shell_kind config) (λ guard,
    '(config, src, root_disk_path) ← lift (choose_image config (sh_image cmd));
    (if sh_skip_init cmd then mret tt else init_image guard (common config) false src);;
    shell_vm_part guard config cmd root_disk_path) w0 fd Ho Hp)
    as [Hc Hf]; [|split; [by transitivity w0; [apply changes_same|]|exact Hf]].
  intros w1 Hw1. unfold mbind at 1, M_bind at 1, lift at 1.
  destruct (choose_image _ _) as [[[c src] root]|e|]; [|by apply changes_same..].
  assert (Hv : ∀ w2, lock w2 !! fd = Some (shell_kind config) →
    changes P w2 (shell_vm_part (command_guard fd (shell_kind config)) c cmd root w2).2).
  { intros w2 Hw2. eapply changes_impl; [|by apply (part_shell_vm (command_guard fd (shell_kind config)) (shell_kind config))].
    unfold P. naive_solver. }
  destruct (sh_skip_init cmd); [by apply Hv; destruct Hw1|].
  pose proof (init_exclusively fd (shell_kind config) (common c) false src w1 Hw1) as Hi.
  unfold mbind, M_bind. destruct (init_image _ _ _ _ w1) as [[[]|e|] w2]; [|by apply Hsub, Hi..].
  destruct Hi as [Hi Hk]. transitivity w2; [by apply Hsub|]. by apply Hv, Hk.
Qed.
End commands.

(** ** A package that is added *)
Module Witness.
Import VmImage.Witness.
#[local] Existing Instance blkid.
#[local] Instance toml : Toml := {
  toml_parse s := Err "syntax"; toml_parse_old s := Err "syntax"; toml_print p := Ok "prefs" }.

Definition host : HostEnv := Config.Witness.host.
Definition fresh : World := mkWorld (mkFiles ∅ ∅) ∅ ∅ 0 [] false [].
Definition no_list (_ : Config) (_ _ : option (list string)) (_ : Labels) : outcome (list Entry) := Ok [].
Definition dbg (_ : ImageSource) : string := "".
Definition add : ApkCmd := ApkAdd ["bash"; "zfs"].
Definition defaults : string := "bash" +:+ String "010" "nfs-utils".

Abbreviation apk cmd := (run_apk deny readable_ readable_ tools (vm_ends 0) 5 ron unron json all_work no_info LinuxHost
  denied helper "1.1.1.1" id host (Ok 4) defaults cmd).
Abbreviation init_all := (run_init deny readable_ readable_ tools (vm_ends 0) 5 ron unron json all_work no_info LinuxHost
  denied helper "1.1.1.1" id host (Ok 4)).


Definition config : Config := Eval vm_compute in
  match load_config id LinuxHost host ∅ CommonArgs_default DebugArgs_default with
  | Ok (_, c) => c
  | _ => Settings.Witness.sample_config
  end.
Definition initialised : World := Eval vm_compute in
  (VmImage.init deny readable_ readable_ tools (vm_ends 0) 5 ron unron json all_work no_info LinuxHost
     (command_guard 4 Shared) denied helper "1.1.1.1" config false ImageSource_default
     (set_fs (with_texts 5 ∅ (fs fresh)) (set_lock (<[4 := Shared]> ∅) fresh))).2.
Definition added : World := Eval vm_compute in (apk add fresh).2.
Definition user : PrefsObject := set_custom_packages PrefsObject_default ["zfs"].

Lemma loaded_config : load_config id LinuxHost host ∅ CommonArgs_default DebugArgs_default = Ok (∅, config).
Proof. vm_compute. reflexivity. Qed.
Lemma apk_runs : apk add fresh = (Ok [], added).
Proof. vm_compute. reflexivity. Qed.

End Witness.
