(* ===== verification/Dispatch.v ===== *)
(** * The program from its command line to its exit ([main.rs] [AppRunner::run],
      [run], [run_actions], [run_rpcbind])

    Which command runs, and what the process says when it ends: the error, the
    messages that were hidden ([ConsoleLog]), the exit code ([Exit]). *)
From S2P Require Import Prelude Common Settings Config Rpcbind Stop VmImage Commands Exit ConsoleLog.
From Stdlib Require Import Ascii.

(** ** [AppRunner] *)
Record AppRunner := mkAppRunner { is_child : bool; print_log : bool }.
Definition AppRunner_default : AppRunner := mkAppRunner false false.

(** [AppRunner::run]: the parser's answers, the exit code of its error, and the
    commands, as functions of the flags. *)
Definition run_app (cli : Commands + ErrorKind) (cli_mount : MountCmd + ErrorKind) (exit_code : ErrorKind → Z)
    (run_command : Commands → AppRunner → option AppError * AppRunner) (app : AppRunner) :
    option AppError * AppRunner :=
  match try_parse_with_default_cmd cli cli_mount with
  | inl cmd => run_command cmd app
  | inr kind => (Some (ClapError (exit_code kind)), app)
  end.

(** [run_mount] in the forked process, after the session. *)
Definition child_flags (verbose : bool) (res : option AppError) (app : AppRunner) : AppRunner :=
  mkAppRunner true (print_log app || (bool_decide (is_Some res) && negb verbose)).

(** ** The end of the process *)
Section finish.
Context (is_utf8 : string → bool) (print_error_text : string).

(** [run] of main.rs: the exit code, and the log after what it prints. An error of
    the parser ends the process there and then. *)
Definition finish (app : AppRunner) (res : option AppError) (l : ConsoleLog.Log) : Z * ConsoleLog.Log :=
  let code := Exit.run (is_child app) res in
  match res with
  | Some (ClapError _) | Some (PrintError true) => (code, l)
  | _ =>
      let l := match res with
               | Some (OtherError msg) => host_eprintln ("Error: " +:+ msg) l
               | Some (PrintError _) => host_eprintln ("Error: " +:+ print_error_text) l
               | _ => l
               end in
      (code, if print_log app then print_log_file is_utf8 l else l)
  end.
End finish.

(** ** [run_actions] and [run_rpcbind] *)
Definition run_actions (config : Settings.Config) : list string :=
  (λ x, x.1 +:+ ": " +:+ description x.2) <$> btree_to_list (all_custom_actions (preferences config)).

Section rpcbind.
Context `{PortMapper} (parse_ip : string → option IpAddr) (lossy : string → string) (debug_fmt : Rpcbind.Entry → string).

Definition run_rpcbind (os : TargetOS) (who : string) (cmd : RpcBindCmd) (s : pm) : outcome (list string) * pm :=
  match cmd with
  | RpcRegister => let '(r, s) := register lossy os who s in ((_ ← r; Ok []), s)
  | RpcUnregister => (Ok [], unregister who s)
  | RpcList => (match list_services parse_ip lossy os s with
               | Ok out => Ok (debug_fmt <$> out)
               | Err e => Err e
               | Panic => Panic
               end, s)
  end.
End rpcbind.

(** ** What the user learns *)
Section facts.
Context (is_utf8 : string → bool) (print_error_text : string).

(** The exit code is the one that [Exit] follows through the processes. *)
Lemma finish_code app res l : (finish is_utf8 print_error_text app res l).1 = Exit.run (is_child app) res.
Proof. unfold finish. by destruct res as [[?|?|[]|?]|]. Qed.

(** A session that fails without being verbose explains itself: at its end the
    console shows every message that it kept to itself, in order, with the error
    that is no exit status as the last one. *)
Lemma silent_failure_explained ws ops on shown hidden app res :
  (∃ status, res = Some (StatusError status)) ∨ (∃ msg, res = Some (OtherError msg)) →
  let error := match res with Some (OtherError msg) => ["Error: " +:+ msg] | _ => [] end in
  let all := ops ++ (Say Stderr (Some Host) <$> error) in
  Forall (one_line is_utf8) (messages on all).*2 →
  messages on all = ((true,.) <$> shown) ++ ((false,.) <$> hidden) →
  let l := foldl do_op (mkLog on 0 (Some "") ws) ops in
  (finish is_utf8 print_error_text (child_flags false res app) res l).2 =
    print_log_file is_utf8 (foldl do_op (mkLog on 0 (Some "") ws) all) ∧
  written (print_log_file is_utf8 (foldl do_op (mkLog on 0 (Some "") ws) all)) =
    written (foldl do_op (mkLog on 0 (Some "") ws) all) ++ ((λ m, (Stdout, m +:+ String LF "")) <$> hidden).
Proof.
  intros Hres error all Hl Hm l. split; [|by eapply hidden_messages_printed].
  unfold finish, child_flags. subst all error. rewrite foldl_app. cbn [print_log].
  destruct Hres as [[st ->]|[msg ->]]; cbn [bool_decide is_Some]; rewrite bool_decide_true by eauto;
    cbn [negb andb]; rewrite orb_true_r; reflexivity.
Qed.

(** An error of the parser, or a reader that is gone, ends the process before the
    log is shown. *)
Lemma finish_early app res l :
  (∃ code, res = Some (ClapError code)) ∨ res = Some (PrintError true) →
  (finish is_utf8 print_error_text app res l).2 = l.
Proof. by intros [[code ->]| ->]. Qed.
End facts.

(** A mount whose disk is full. *)
Example silent_failure_explained_witness :
  let ops := [Say Stdout (Some Host) "mounting"; Console false; Say Stdout (Some GuestLinux) "boot"] in
  let all := ops ++ [Say Stderr (Some Host) "Error: no space"] in
  (finish (λ _, true) "" (child_flags false (Some (OtherError "no space")) AppRunner_default) (Some (OtherError "no space"))
     (foldl do_op (mkLog true 0 (Some "") []) ops)).2 =
    print_log_file (λ _, true) (foldl do_op (mkLog true 0 (Some "") []) all) ∧
  written (print_log_file (λ _, true) (foldl do_op (mkLog true 0 (Some "") []) all)) =
    written (foldl do_op (mkLog true 0 (Some "") []) all) ++
      ((λ m, (Stdout, m +:+ String LF "")) <$> ["Linux: boot"; "macOS: Error: no space"]).
Proof.
  apply (silent_failure_explained (λ _, true) "" []
    [Say Stdout (Some Host) "mounting"; Console false; Say Stdout (Some GuestLinux) "boot"] true ["macOS: mounting"]
    ["Linux: boot"; "macOS: Error: no space"] AppRunner_default (Some (OtherError "no space"))).
  - right. by eexists.
  - repeat constructor; vm_compute; reflexivity.
  - reflexivity.
Defined.

(** The keyword of a mount can be left out, and only the arguments of a mount are
    tried for it. *)
Lemma mount_by_default cmd cli exit_code run_command app :
  cli = inr InvalidSubcommand →
  run_app cli (inl cmd) exit_code run_command app = run_command (Mount cmd) app.
Proof. by intros ->. Qed.
